(** * ClarityWorks: client store, interaction store, record parser, AI adapter

    A shallow embedding of the TypeScript sources

      - [clientStorageService.ts]  (client store over [localStorage])
      - [storageService.ts]        (interaction store over [localStorage])
      - [App.tsx], [handleAddClient] (free-text goal / account parser)
      - [openaiService.ts]         ([generateMeetingPrep])
      - [docIngestService.ts]      ([parseClientFromDocuments])
      - [mockCrmService.ts]        ([generateCRMUpdate])

    TypeScript types are erased at run time, so the embedding works on
    dynamically typed JavaScript values ([JSValue]).  The platform
    functions the sources call ([JSON.parse], [JSON.stringify],
    [parseFloat], [String.prototype.trim], [Array.prototype.sort], ...) are
    given executable definitions of their own in the module [JS].

    Modelling boundaries, stated once:
      - a JavaScript string is a [string] of 8-bit code units, that is the
        range U+0000..U+00FF of UTF-16; a JSON escape [\uXXXX] above
        [\u00FF] is rejected by [JSON_parse];
      - a finite JavaScript number is an exact decimal (sign, significant
        digits, position of the decimal point); rounding to binary64,
        overflow to Infinity while parsing, and the sign of zero are not
        represented;
      - the clock ([Date.now], [toISOString]) and [Math.random] are read
        from an environment, one reading per call. *)

From Stdlib Require Import ZArith Ascii String List Bool Lia.
From Stdlib Require Import Sorting.Sorted Sorting.Permutation.
From stdpp Require Import base option list gmap strings.

Local Open Scope Z_scope.

(* ================================================================== *)
(** * Strings *)
(* ================================================================== *)

Module Str.

Definition is_digit (c : ascii) : bool :=
  let n := nat_of_ascii c in (48 <=? n)%nat && (n <=? 57)%nat.

Definition digit_val (c : ascii) : Z := Z.of_nat (nat_of_ascii c) - 48.

Definition digit_char (d : Z) : ascii := ascii_of_nat (Z.to_nat (d + 48)).

Fixpoint all (p : ascii -> bool) (s : string) : bool :=
  match s with
  | EmptyString => true
  | String c s' => p c && all p s'
  end.

Fixpoint filter (p : ascii -> bool) (s : string) : string :=
  match s with
  | EmptyString => EmptyString
  | String c s' => if p c then String c (filter p s') else filter p s'
  end.

Fixpoint map (f : ascii -> ascii) (s : string) : string :=
  match s with
  | EmptyString => EmptyString
  | String c s' => String (f c) (map f s')
  end.

(** The longest prefix of [s] whose characters satisfy [p], and the rest. *)
Fixpoint span (p : ascii -> bool) (s : string) : string * string :=
  match s with
  | EmptyString => (EmptyString, EmptyString)
  | String c s' =>
      if p c then let '(a, b) := span p s' in (String c a, b)
      else (EmptyString, s)
  end.

(** The first character of [s] satisfies [p]. *)
Definition head_sat (p : ascii -> bool) (s : string) : bool :=
  match s with
  | String c _ => p c
  | EmptyString => false
  end.

Fixpoint drop_while (p : ascii -> bool) (s : string) : string :=
  match s with
  | EmptyString => EmptyString
  | String c s' => if p c then drop_while p s' else s
  end.

Fixpoint rev_onto (s acc : string) : string :=
  match s with
  | EmptyString => acc
  | String c s' => rev_onto s' (String c acc)
  end.

Definition rev (s : string) : string := rev_onto s EmptyString.

Definition drop_while_end (p : ascii -> bool) (s : string) : string :=
  rev (drop_while p (rev s)).

Fixpoint repeat (c : ascii) (n : nat) : string :=
  match n with
  | O => EmptyString
  | S n' => String c (repeat c n')
  end.

Fixpoint take (n : nat) (s : string) : string :=
  match n, s with
  | S n', String c s' => String c (take n' s')
  | _, _ => EmptyString
  end.

Fixpoint drop (n : nat) (s : string) : string :=
  match n, s with
  | S n', String _ s' => drop n' s'
  | _, _ => s
  end.

Fixpoint starts_with (p s : string) : bool :=
  match p, s with
  | EmptyString, _ => true
  | String a p', String b s' => Ascii.eqb a b && starts_with p' s'
  | String _ _, EmptyString => false
  end.

Definition ends_with (p s : string) : bool :=
  starts_with (rev p) (rev s).

(** [strip_prefix p s] is [Some t] when [s = p ++ t]. *)
Fixpoint strip_prefix (p s : string) : option string :=
  match p, s with
  | EmptyString, _ => Some s
  | String a p', String b s' =>
      if Ascii.eqb a b then strip_prefix p' s' else None
  | String _ _, EmptyString => None
  end.

Definition strip_suffix (p s : string) : option string :=
  match strip_prefix (rev p) (rev s) with
  | Some t => Some (rev t)
  | None => None
  end.

(** [String.prototype.split] on a one-character separator: the pieces
    between separators, empty pieces included; always at least one. *)
Fixpoint split_go (sep : ascii) (s cur : string) : list string :=
  match s with
  | EmptyString => [rev cur]
  | String c s' =>
      if Ascii.eqb c sep then rev cur :: split_go sep s' EmptyString
      else split_go sep s' (String c cur)
  end.

Definition split (sep : ascii) (s : string) : list string :=
  split_go sep s EmptyString.

Fixpoint join (sep : string) (l : list string) : string :=
  match l with
  | [] => EmptyString
  | [x] => x
  | x :: l' => x +:+ sep +:+ join sep l'
  end.

(** White space and line terminators of the range: TAB, LF, VT, FF, CR,
    SP and NBSP.  This is what [trim] removes. *)
Definition is_js_space (c : ascii) : bool :=
  let n := nat_of_ascii c in
  ((9 <=? n)%nat && (n <=? 13)%nat) || (n =? 32)%nat || (n =? 160)%nat.

Definition trim (s : string) : string :=
  drop_while_end is_js_space (drop_while is_js_space s).

Definition lower_char (c : ascii) : ascii :=
  let n := nat_of_ascii c in
  if ((65 <=? n)%nat && (n <=? 90)%nat)
     || ((192 <=? n)%nat && (n <=? 222)%nat && negb (n =? 215)%nat)
  then ascii_of_nat (n + 32) else c.

Definition toLowerCase (s : string) : string := map lower_char s.

(** Decimal digits of a natural number, most significant first. *)
Fixpoint digits_go (fuel : nat) (n : N) (acc : string) : string :=
  match fuel with
  | O => acc
  | S fuel' =>
      let acc' := String (digit_char (Z.of_N (n mod 10))) acc in
      if (n / 10 =? 0)%N then acc' else digits_go fuel' (n / 10)%N acc'
  end.

Definition of_N (n : N) : string := digits_go (S (N.to_nat (N.log2 n))) n EmptyString.

(** Value of a string of decimal digits. *)
Fixpoint to_N_go (s : string) (acc : N) : N :=
  match s with
  | EmptyString => acc
  | String c s' => to_N_go s' (acc * 10 + Z.to_N (digit_val c))%N
  end.

Definition to_N (s : string) : N := to_N_go s 0%N.

End Str.

(* ================================================================== *)
(** * JavaScript values and the platform functions the sources use *)
(* ================================================================== *)

Module JS.

(** ** Numbers *)

(** [Fin neg ds pt] is [(-1)^neg * 0.ds * 10^pt]; [ds] has neither a
    leading nor a trailing zero, and zero is [Fin false "" 0]. *)
Inductive JSNumber : Type :=
| NaN
| Inf (neg : bool)
| Fin (neg : bool) (ds : string) (pt : Z).

Definition zero : JSNumber := Fin false "" 0.

Definition is_zero_char (c : ascii) : bool := Ascii.eqb c "0".

Fixpoint strip_zeros (ds : string) (pt : Z) : string * Z :=
  match ds with
  | String c ds' => if is_zero_char c then strip_zeros ds' (pt - 1) else (ds, pt)
  | EmptyString => (ds, pt)
  end.

(** The number with digit string [ds] (any digits) and the decimal
    point after the first [pt] of them. *)
Definition make_number (neg : bool) (ds : string) (pt : Z) : JSNumber :=
  let '(ds1, pt1) := strip_zeros ds pt in
  match Str.drop_while_end is_zero_char ds1 with
  | EmptyString => zero
  | ds2 => Fin neg ds2 pt1
  end.

Definition of_N (n : N) : JSNumber :=
  let ds := Str.of_N n in make_number false ds (Z.of_nat (String.length ds)).

Definition of_Z (z : Z) : JSNumber :=
  let ds := Str.of_N (Z.abs_N z) in
  make_number (z <? 0) ds (Z.of_nat (String.length ds)).

Definition num_wf (x : JSNumber) : bool :=
  match x with
  | NaN | Inf _ => true
  | Fin neg EmptyString pt => negb neg && (pt =? 0)
  | Fin _ ds _ =>
      Str.all Str.is_digit ds
      && negb (Str.head_sat is_zero_char ds)
      && negb (Str.head_sat is_zero_char (Str.rev ds))
  end.

Definition is_finite (x : JSNumber) : bool :=
  match x with
  | Fin _ _ _ => true
  | _ => false
  end.

(** The decimal text of [0.ds * 10^n] for significant digits [ds], as
    [Number::toString] lays it out. *)
Definition digits_text (ds : string) (n : Z) : string :=
  let k := Z.of_nat (String.length ds) in
  if (k <=? n) && (n <=? 21) then
    ds +:+ Str.repeat "0" (Z.to_nat (n - k))
  else if (0 <? n) && (n <=? 21) then
    Str.take (Z.to_nat n) ds +:+ "." +:+ Str.drop (Z.to_nat n) ds
  else if (-6 <? n) && (n <=? 0) then
    "0." +:+ Str.repeat "0" (Z.to_nat (- n)) +:+ ds
  else
    let e := n - 1 in
    Str.take 1 ds
      +:+ (if k =? 1 then "" else "." +:+ Str.drop 1 ds)
      +:+ "e" +:+ (if e <? 0 then "-" else "+") +:+ Str.of_N (Z.abs_N e).

(** [Number::toString] (radix 10). *)
Definition Number_toString (x : JSNumber) : string :=
  match x with
  | NaN => "NaN"
  | Inf false => "Infinity"
  | Inf true => "-Infinity"
  | Fin _ EmptyString _ => "0"
  | Fin neg ds n => if neg then "-" +:+ digits_text ds n else digits_text ds n
  end.

(** [Some r] when [s] is the character [c] followed by [r]. *)
Definition after_char (c : ascii) (s : string) : option string :=
  match s with
  | String c' r => if Ascii.eqb c' c then Some r else None
  | EmptyString => None
  end.

(** An optional sign at the head of [s]: whether it is a minus, and
    what follows. *)
Definition signed (s : string) : bool * string :=
  match after_char "-" s with
  | Some r => (true, r)
  | None => (false, default s (after_char "+" s))
  end.

(** An exponent part at the head of [s]: [e] or [E], an optional sign
    and at least one digit.  Returns the exponent and what follows;
    [None] when there is no complete exponent part. *)
Definition exponent_part (s : string) : option (Z * string) :=
  match s with
  | String c s1 =>
      if Ascii.eqb c "e" || Ascii.eqb c "E" then
        let '(neg, s2) := signed s1 in
        match Str.span Str.is_digit s2 with
        | (EmptyString, _) => None
        | (es, rest) =>
            let e := Z.of_N (Str.to_N es) in
            Some (if neg then - e else e, rest)
        end
      else None
  | EmptyString => None
  end.

(** [parseFloat]: the longest prefix of the trimmed argument that is a
    decimal literal, [NaN] when there is none. *)
Definition parseFloat (s : string) : JSNumber :=
  let '(neg, s1) := signed (Str.drop_while Str.is_js_space s) in
  if Str.starts_with "Infinity" s1 then Inf neg else
  let '(ip, s2) := Str.span Str.is_digit s1 in
  let '(fp, s3) :=
    match after_char "." s2 with
    | Some r => Str.span Str.is_digit r
    | None => (EmptyString, s2)
    end in
  match ip, fp with
  | EmptyString, EmptyString => NaN
  | _, _ =>
      let e := match exponent_part s3 with Some (e, _) => e | None => 0 end in
      make_number neg (ip +:+ fp) (Z.of_nat (String.length ip) + e)
  end.

(** ** Values *)

(** The members every plain object inherits from [Object.prototype]. *)
Inductive Builtin : Type :=
| ObjectPrototype
| ObjectConstructor
| ProtoMethod (name : string).

#[local] Unset Elimination Schemes.
Inductive JSValue : Type :=
| JUndefined
| JNull
| JBool (b : bool)
| JNum (x : JSNumber)
| JStr (s : string)
| JArr (xs : list JSValue)
| JObj (ps : list (string * JSValue))
| JBuiltin (f : Builtin).
#[local] Set Elimination Schemes.

(** Thrown values.  [Error msg] is [new Error(msg)]. *)
Inductive JSError : Type :=
| TypeError
| SyntaxError
| Error (msg : string).

Inductive result (A : Type) : Type :=
| Ok (a : A)
| Throw (e : JSError).
Arguments Ok {A} a.
Arguments Throw {A} e.

Definition bind {A B} (r : result A) (k : A -> result B) : result B :=
  match r with
  | Ok a => k a
  | Throw e => Throw e
  end.

Fixpoint mapM {A B} (f : A -> result B) (l : list A) : result (list B) :=
  match l with
  | [] => Ok []
  | x :: l' =>
      bind (f x) (fun y => bind (mapM f l') (fun ys => Ok (y :: ys)))
  end.

(** [Array.prototype.filter] with a callback that may throw. *)
Fixpoint filterM {A} (f : A -> result bool) (l : list A) : result (list A) :=
  match l with
  | [] => Ok []
  | x :: l' =>
      bind (f x) (fun b =>
      bind (filterM f l') (fun ys => Ok (if b then x :: ys else ys)))
  end.

(** [Array.prototype.findIndex] with a callback that may throw. *)
Fixpoint findIndexM {A} (f : A -> result bool) (l : list A) : result (option nat) :=
  match l with
  | [] => Ok None
  | x :: l' =>
      bind (f x) (fun b =>
      if b then Ok (Some O)
      else bind (findIndexM f l') (fun r => Ok (S <$> r)))
  end.

(** [ToBoolean]. *)
Definition truthy (v : JSValue) : bool :=
  match v with
  | JUndefined | JNull => false
  | JBool b => b
  | JNum NaN => false
  | JNum (Fin _ EmptyString _) => false
  | JNum _ => true
  | JStr EmptyString => false
  | JStr _ => true
  | JArr _ | JObj _ | JBuiltin _ => true
  end.

(** [typeof v]. *)
Definition typeof (v : JSValue) : string :=
  match v with
  | JUndefined => "undefined"
  | JNull | JArr _ | JObj _ | JBuiltin ObjectPrototype => "object"
  | JBool _ => "boolean"
  | JNum _ => "number"
  | JStr _ => "string"
  | JBuiltin _ => "function"
  end.

(** [a || b] *)
Definition or_else (a b : JSValue) : JSValue := if truthy a then a else b.

(** [v === s] for a string [s]: only the same string is strictly equal. *)
Definition strict_eq_str (v : JSValue) (s : string) : bool :=
  match v with
  | JStr t => String.eqb t s
  | _ => false
  end.

(** ** Plain objects *)

(** Own properties are kept in [OrdinaryOwnPropertyKeys] order: array
    indices ascending, then the other keys in creation order.  A key is
    an array index when it is the decimal text of an integer below
    2^32 - 1. *)
Definition array_index (k : string) : option N :=
  let i := Str.to_N k in
  if Str.all Str.is_digit k && (String.length k <=? 10)%nat
     && String.eqb k (Str.of_N i) && (i <? 4294967295)%N
  then Some i else None.

Fixpoint obj_lookup (k : string) (ps : list (string * JSValue)) : option JSValue :=
  match ps with
  | [] => None
  | (k', v) :: ps' => if String.eqb k' k then Some v else obj_lookup k ps'
  end.

Fixpoint obj_replace (k : string) (v : JSValue) (ps : list (string * JSValue))
  : list (string * JSValue) :=
  match ps with
  | [] => []
  | (k', v') :: ps' =>
      if String.eqb k' k then (k', v) :: ps' else (k', v') :: obj_replace k v ps'
  end.

Fixpoint obj_insert_index (i : N) (k : string) (v : JSValue)
    (ps : list (string * JSValue)) : list (string * JSValue) :=
  match ps with
  | [] => [(k, v)]
  | (k', v') :: ps' =>
      match array_index k' with
      | Some j => if (j <? i)%N then (k', v') :: obj_insert_index i k v ps'
                  else (k, v) :: ps
      | None => (k, v) :: ps
      end
  end.

(** [CreateDataProperty(obj, k, v)] on the own properties [ps]. *)
Definition obj_set (k : string) (v : JSValue) (ps : list (string * JSValue))
  : list (string * JSValue) :=
  match obj_lookup k ps with
  | Some _ => obj_replace k v ps
  | None =>
      match array_index k with
      | Some i => obj_insert_index i k v ps
      | None => ps ++ [(k, v)]
      end
  end.

Definition obj_of_members (ms : list (string * JSValue)) : list (string * JSValue) :=
  fold_left (fun acc kv => obj_set (fst kv) (snd kv) acc) ms [].

Definition proto_methods : list string :=
  [ "hasOwnProperty"; "isPrototypeOf"; "propertyIsEnumerable";
    "toLocaleString"; "toString"; "valueOf";
    "__defineGetter__"; "__defineSetter__";
    "__lookupGetter__"; "__lookupSetter__" ].

(** Lookup of [k] on [Object.prototype]. *)
Definition proto_lookup (k : string) : JSValue :=
  if String.eqb k "constructor" then JBuiltin ObjectConstructor
  else if String.eqb k "__proto__" then JBuiltin ObjectPrototype
  else if existsb (String.eqb k) proto_methods then JBuiltin (ProtoMethod k)
  else JUndefined.

(** [v.k] / [v[k]].  Reading a property of [undefined] or [null] throws
    a [TypeError].  Arrays and strings answer [length] and indices;
    every object falls back on [Object.prototype].  The methods of
    [Array.prototype], [String.prototype] and the like are not values of
    the model: the sources only read data fields. *)
Definition get (v : JSValue) (k : string) : result JSValue :=
  match v with
  | JUndefined | JNull => Throw TypeError
  | JObj ps =>
      Ok (match obj_lookup k ps with Some x => x | None => proto_lookup k end)
  | JArr xs =>
      if String.eqb k "length" then Ok (JNum (of_N (N.of_nat (length xs))))
      else match array_index k with
           | Some i => Ok (nth (N.to_nat i) xs JUndefined)
           | None => Ok (proto_lookup k)
           end
  | JStr s =>
      if String.eqb k "length" then Ok (JNum (of_N (N.of_nat (String.length s))))
      else match array_index k with
           | Some i =>
               Ok (match String.get (N.to_nat i) s with
                   | Some c => JStr (String c EmptyString)
                   | None => JUndefined
                   end)
           | None => Ok (proto_lookup k)
           end
  | JBool _ | JNum _ => Ok (proto_lookup k)
  | JBuiltin _ => Ok (proto_lookup k)
  end.

(** [v?.k] *)
Definition get_opt (v : JSValue) (k : string) : result JSValue :=
  match v with
  | JUndefined | JNull => Ok JUndefined
  | _ => get v k
  end.

(** The own enumerable properties an object spread [{...v}] copies. *)
Definition spread_props (v : JSValue) : list (string * JSValue) :=
  match v with
  | JObj ps => ps
  | JArr xs => imap (fun i x => (Str.of_N (N.of_nat i), x)) xs
  | JStr s =>
      imap (fun i c => (Str.of_N (N.of_nat i), JStr (String c EmptyString)))
           (list_ascii_of_string s)
  | _ => []
  end.

(** [{...a, <props of ps>}] on the own properties [a]. *)
Definition obj_assign (a ps : list (string * JSValue)) : list (string * JSValue) :=
  fold_left (fun acc kv => obj_set (fst kv) (snd kv) acc) ps a.

(** ** JSON.stringify *)

Definition hex_char (d : nat) : ascii :=
  if (d <? 10)%nat then ascii_of_nat (48 + d) else ascii_of_nat (87 + d).

(** One character of [QuoteJSONString]. *)
Definition quote_char (c : ascii) : string :=
  let n := nat_of_ascii c in
  if (n =? 34)%nat then String "\" (String "034" "")
  else if (n =? 92)%nat then "\\"
  else if (n =? 8)%nat then "\b"
  else if (n =? 12)%nat then "\f"
  else if (n =? 10)%nat then "\n"
  else if (n =? 13)%nat then "\r"
  else if (n =? 9)%nat then "\t"
  else if (n <? 32)%nat then
    "\u00" +:+ String (hex_char (n / 16)) (String (hex_char (n mod 16)) "")
  else String c "".

Fixpoint quote_body (s : string) : string :=
  match s with
  | EmptyString => EmptyString
  | String c s' => quote_char c +:+ quote_body s'
  end.

Definition quote (s : string) : string :=
  String "034" (quote_body s +:+ String "034" "").

(** [SerializeJSONProperty]: [None] is [undefined]. *)
Fixpoint serialize (v : JSValue) : option string :=
  match v with
  | JUndefined => None
  | JNull => Some "null"
  | JBool true => Some "true"
  | JBool false => Some "false"
  | JNum x => Some (if is_finite x then Number_toString x else "null")
  | JStr s => Some (quote s)
  | JArr xs =>
      Some ("[" +:+ Str.join ","
              (List.map (fun x => default "null" (serialize x)) xs) +:+ "]")
  | JObj ps =>
      Some ("{" +:+ Str.join ","
              (omap (fun kv => (fun t => quote (fst kv) +:+ ":" +:+ t)
                                 <$> serialize (snd kv)) ps) +:+ "}")
  | JBuiltin ObjectPrototype => Some "{}"
  | JBuiltin _ => None
  end.

(** [JSON.stringify(v)] as a value: a string or [undefined]. *)
Definition JSON_stringify (v : JSValue) : JSValue :=
  match serialize v with
  | Some t => JStr t
  | None => JUndefined
  end.

(** [String(v)] for the primitive values and for what [JSON.parse]
    returns.  The text of a built-in function is implementation
    defined and rendered by its name. *)
Fixpoint ToString (v : JSValue) : string :=
  match v with
  | JUndefined => "undefined"
  | JNull => "null"
  | JBool true => "true"
  | JBool false => "false"
  | JNum x => Number_toString x
  | JStr s => s
  | JArr xs =>
      Str.join ","
        (List.map (fun x => match x with
                            | JUndefined | JNull => ""
                            | _ => ToString x
                            end) xs)
  | JObj _ | JBuiltin ObjectPrototype => "[object Object]"
  | JBuiltin ObjectConstructor => "function Object() { [native code] }"
  | JBuiltin (ProtoMethod m) => "function " +:+ m +:+ "() { [native code] }"
  end.

(** ** JSON.parse *)

Definition is_json_ws (c : ascii) : bool :=
  let n := nat_of_ascii c in
  (n =? 32)%nat || (n =? 9)%nat || (n =? 10)%nat || (n =? 13)%nat.

Definition skip_ws (s : string) : string := Str.drop_while is_json_ws s.

Definition hex_val (c : ascii) : option nat :=
  let n := nat_of_ascii c in
  if (48 <=? n)%nat && (n <=? 57)%nat then Some (n - 48)%nat
  else if (97 <=? n)%nat && (n <=? 102)%nat then Some (n - 87)%nat
  else if (65 <=? n)%nat && (n <=? 70)%nat then Some (n - 55)%nat
  else None.

Definition hex4 (a b c d : ascii) : option nat :=
  match hex_val a, hex_val b, hex_val c, hex_val d with
  | Some x, Some y, Some z, Some w => Some (((x * 16 + y) * 16 + z) * 16 + w)%nat
  | _, _, _, _ => None
  end.

Definition simple_escape (e : ascii) : option ascii :=
  match e with
  | "034"%char => Some "034"%char
  | "\"%char => Some "\"%char
  | "/"%char => Some "/"%char
  | "b"%char => Some (ascii_of_nat 8)
  | "f"%char => Some (ascii_of_nat 12)
  | "n"%char => Some (ascii_of_nat 10)
  | "r"%char => Some (ascii_of_nat 13)
  | "t"%char => Some (ascii_of_nat 9)
  | _ => None
  end.

Definition cons_char (c : ascii) (r : option (string * string)) : option (string * string) :=
  match r with
  | Some (t, rest) => Some (String c t, rest)
  | None => None
  end.

(** The characters of a JSON string after its opening quote, up to and
    including the closing quote. *)
Fixpoint parse_string_body (s : string) : option (string * string) :=
  match s with
  | EmptyString => None
  | String c r =>
      if Ascii.eqb c "034" then Some (EmptyString, r)
      else if Ascii.eqb c "\" then
        match r with
        | String e r2 =>
            match simple_escape e with
            | Some ch => cons_char ch (parse_string_body r2)
            | None =>
                if Ascii.eqb e "u" then
                  match r2 with
                  | String h1 (String h2 (String h3 (String h4 r3))) =>
                      match hex4 h1 h2 h3 h4 with
                      | Some n =>
                          if (n <? 256)%nat
                          then cons_char (ascii_of_nat n) (parse_string_body r3)
                          else None
                      | None => None
                      end
                  | _ => None
                  end
                else None
            end
        | EmptyString => None
        end
      else if (nat_of_ascii c <? 32)%nat then None
      else cons_char c (parse_string_body r)
  end.

(** The fraction of a JSON number: nothing, or a point and at least
    one digit. *)
Definition parse_frac (s : string) : option (string * string) :=
  match after_char "." s with
  | Some r =>
      match Str.span Str.is_digit r with
      | (EmptyString, _) => None
      | (fp, s') => Some (fp, s')
      end
  | None => Some (EmptyString, s)
  end.

(** The exponent of a JSON number: nothing, or a complete exponent
    part. *)
Definition parse_exp (s : string) : option (Z * string) :=
  if Str.head_sat (fun c => Ascii.eqb c "e" || Ascii.eqb c "E") s
  then exponent_part s else Some (0, s).

(** A JSON number after its sign. *)
Definition parse_unsigned (neg : bool) (s : string) : option (JSNumber * string) :=
  match s with
  | String c r =>
      if Str.is_digit c then
        let '(ip, s2) :=
          if is_zero_char c then (String c EmptyString, r)
          else Str.span Str.is_digit s in
        match parse_frac s2 with
        | None => None
        | Some (fp, s3) =>
            match parse_exp s3 with
            | None => None
            | Some (e, s4) =>
                Some (make_number neg (ip +:+ fp)
                        (Z.of_nat (String.length ip) + e), s4)
            end
        end
      else None
  | EmptyString => None
  end.

(** A JSON number at the head of [s]. *)
Definition parse_number (s : string) : option (JSNumber * string) :=
  match after_char "-" s with
  | Some r => parse_unsigned true r
  | None => parse_unsigned false s
  end.

Fixpoint parse_value (fuel : nat) (s : string) : option (JSValue * string) :=
  match fuel with
  | O => None
  | S fuel' =>
      match skip_ws s with
      | EmptyString => None
      | String c r =>
          if Ascii.eqb c "{" then
            match after_char "}" (skip_ws r) with
            | Some r' => Some (JObj [], r')
            | None =>
                match parse_members fuel' r with
                | Some (ms, r') => Some (JObj (obj_of_members ms), r')
                | None => None
                end
            end
          else if Ascii.eqb c "[" then
            match after_char "]" (skip_ws r) with
            | Some r' => Some (JArr [], r')
            | None =>
                match parse_elements fuel' r with
                | Some (xs, r') => Some (JArr xs, r')
                | None => None
                end
            end
          else if Ascii.eqb c "034" then
            match parse_string_body r with
            | Some (t, r') => Some (JStr t, r')
            | None => None
            end
          else if Ascii.eqb c "t" then
            match Str.strip_prefix "rue" r with
            | Some r' => Some (JBool true, r')
            | None => None
            end
          else if Ascii.eqb c "f" then
            match Str.strip_prefix "alse" r with
            | Some r' => Some (JBool false, r')
            | None => None
            end
          else if Ascii.eqb c "n" then
            match Str.strip_prefix "ull" r with
            | Some r' => Some (JNull, r')
            | None => None
            end
          else
            match parse_number (String c r) with
            | Some (x, r') => Some (JNum x, r')
            | None => None
            end
      end
  end

(** The elements of an array after its opening bracket or a comma, up to
    and including the closing bracket. *)
with parse_elements (fuel : nat) (s : string) : option (list JSValue * string) :=
  match fuel with
  | O => None
  | S fuel' =>
      match parse_value fuel' s with
      | Some (v, r) =>
          match skip_ws r with
          | String c r' =>
              if Ascii.eqb c "," then
                match parse_elements fuel' r' with
                | Some (vs, r'') => Some (v :: vs, r'')
                | None => None
                end
              else if Ascii.eqb c "]" then Some ([v], r')
              else None
          | EmptyString => None
          end
      | None => None
      end
  end

(** The members of an object after its opening brace or a comma, up to
    and including the closing brace, in the order of the text. *)
with parse_members (fuel : nat) (s : string) : option (list (string * JSValue) * string) :=
  match fuel with
  | O => None
  | S fuel' =>
      match after_char "034" (skip_ws s) with
      | Some r =>
          match parse_string_body r with
          | Some (k, r1) =>
              match after_char ":" (skip_ws r1) with
              | Some r2 =>
                  match parse_value fuel' r2 with
                  | Some (v, r3) =>
                      match skip_ws r3 with
                      | String c r4 =>
                          if Ascii.eqb c "," then
                            match parse_members fuel' r4 with
                            | Some (ms, r5) => Some ((k, v) :: ms, r5)
                            | None => None
                            end
                          else if Ascii.eqb c "}" then Some ([(k, v)], r4)
                          else None
                      | EmptyString => None
                      end
                  | None => None
                  end
              | None => None
              end
          | None => None
          end
      | None => None
      end
  end.

(** ** Values that JSON can carry *)

(** [k1] may stand before [k2] among the own keys of one object. *)
Definition key_before (k1 k2 : string) : bool :=
  negb (String.eqb k1 k2)
  && match array_index k1, array_index k2 with
     | Some i, Some j => (i <? j)%N
     | None, Some _ => false
     | _, None => true
     end.

Fixpoint key_order_ok (ks : list string) : bool :=
  match ks with
  | [] => true
  | k :: ks' => forallb (key_before k) ks' && key_order_ok ks'
  end.

(** The representation invariant of a value: numbers are normalised and
    the own properties of every object are distinct and in key order. *)
Fixpoint js_wf (v : JSValue) : bool :=
  match v with
  | JNum x => num_wf x
  | JArr xs => forallb js_wf xs
  | JObj ps =>
      key_order_ok (List.map fst ps) && forallb (fun kv => js_wf (snd kv)) ps
  | _ => true
  end.

(** The values [JSON.stringify] writes without loss: no [undefined], no
    function, no [NaN] or infinity anywhere inside. *)
Fixpoint json_safe (v : JSValue) : bool :=
  match v with
  | JUndefined | JBuiltin _ => false
  | JNull | JBool _ | JStr _ => true
  | JNum x => is_finite x && num_wf x
  | JArr xs => forallb json_safe xs
  | JObj ps =>
      key_order_ok (List.map fst ps)
      && forallb (fun kv => json_safe (snd kv)) ps
  end.

(** What is left of a value after [JSON.stringify]: [None] is
    [undefined].  Members that are [undefined] or functions are dropped,
    such elements of arrays and the numbers that are not finite become
    [null]. *)
Fixpoint jsonify (v : JSValue) : option JSValue :=
  match v with
  | JUndefined => None
  | JBuiltin ObjectPrototype => Some (JObj [])
  | JBuiltin _ => None
  | JNum x => Some (if is_finite x then JNum x else JNull)
  | JArr xs => Some (JArr (List.map (fun x => default JNull (jsonify x)) xs))
  | JObj ps =>
      Some (JObj (omap (fun kv => (fun x => (fst kv, x)) <$> jsonify (snd kv)) ps))
  | _ => Some v
  end.

(** The JSON text of a value, [null] where there is none. *)
Definition text (v : JSValue) : string := default "null" (serialize v).

(** The recursion depth [parse_value] needs for the text of [v]. *)
Fixpoint size (v : JSValue) : nat :=
  match v with
  | JArr xs => S (list_sum (List.map (fun x => S (size x)) xs))
  | JObj ps => S (list_sum (List.map (fun kv => S (size (snd kv))) ps))
  | _ => 1
  end.

(** Source literals: a numeric literal, the double quote, a line feed. *)
Definition num (literal : string) : JSValue := JNum (parseFloat literal).
Definition dq : string := String "034" "".
Definition nl : string := String "010" "".

(** [JSON.parse(s)]: the value, or a thrown [SyntaxError]. *)
Definition JSON_parse (s : string) : result JSValue :=
  match parse_value (S (String.length s)) s with
  | Some (v, rest) =>
      match skip_ws rest with
      | EmptyString => Ok v
      | _ => Throw SyntaxError
      end
  | None => Throw SyntaxError
  end.

End JS.

(* ================================================================== *)
(** * The browser: storage, clock, randomness, network *)
(* ================================================================== *)

Module Runtime.
Import JS.

(** A request handed to [fetch]: the URL and the [init] object. *)
Record Request : Type := { url : string; init : JSValue }.

(** What the sources read of a [Response]: [ok], [status] and the
    outcome of [response.json()]. *)
Record Response : Type :=
  { ok : bool; status : N; json : result JSValue }.

(** What the outside world answers.  Readings of the clock and of
    [Math.random] are indexed by the number of readings made so far. *)
Record Env : Type :=
  { (** [Date.now()], milliseconds *)
    Date_now : nat -> N;
    (** [Math.random().toString(36).substr(2, 9)] *)
    random_suffix : nat -> string;
    (** [new Date(t).toISOString()] *)
    toISOString : N -> string;
    (** [new Date(s).getTime()] for a string [s]; [None] is [NaN] *)
    Date_parse : string -> option Z;
    (** [import.meta.env.VITE_OPENAI_API_KEY] *)
    VITE_OPENAI_API_KEY : JSValue;
    (** the outcome of the n-th [fetch]: a response, or a rejection *)
    fetch_outcome : nat -> Request -> result Response }.

(** The mutable state the modules share. *)
Record World : Type :=
  { localStorage : gmap string string;
    (** the module-level array [mockClients] of [mockClients.ts] *)
    mockClients : JSValue;
    (** readings of the clock and of [Math.random] made so far *)
    tick : nat;
    (** the requests issued so far, oldest first *)
    requests : list Request }.

Definition M (A : Type) : Type := World -> result A * World.

Definition ret {A} (a : A) : M A := fun w => (Ok a, w).
Definition throw {A} (e : JSError) : M A := fun w => (Throw e, w).
Definition lift {A} (r : result A) : M A := fun w => (r, w).

Definition mbind {A B} (m : M A) (k : A -> M B) : M B :=
  fun w => match m w with
           | (Ok a, w') => k a w'
           | (Throw e, w') => (Throw e, w')
           end.

(** [try { m } catch { h }]: what [m] wrote before throwing stays. *)
Definition try_catch {A} (m : M A) (h : JSError -> M A) : M A :=
  fun w => match m w with
           | (Ok a, w') => (Ok a, w')
           | (Throw e, w') => h e w'
           end.

(** [xs.map(f)] with a callback that has effects. *)
Fixpoint mapM_ {A B} (f : nat -> A -> M B) (i : nat) (xs : list A) : M (list B) :=
  match xs with
  | [] => ret []
  | x :: xs' =>
      mbind (f i x) (fun y => mbind (mapM_ f (S i) xs') (fun ys => ret (y :: ys)))
  end.

(** [xs.forEach(f)] *)
Fixpoint forEach {A} (f : A -> M unit) (xs : list A) : M unit :=
  match xs with
  | [] => ret tt
  | x :: xs' => mbind (f x) (fun _ => forEach f xs')
  end.

(** [localStorage.getItem(k)]: [None] is [null]. *)
Definition getItem (k : string) : M (option string) :=
  fun w => (Ok (localStorage w !! k), w).

(** [localStorage.setItem(k, v)] *)
Definition setItem (k v : string) : M unit :=
  fun w => (Ok tt, {| localStorage := <[k := v]> (localStorage w);
                      mockClients := mockClients w;
                      tick := tick w;
                      requests := requests w |}).

Definition read_mockClients : M JSValue :=
  fun w => (Ok (mockClients w), w).

Definition next_tick (w : World) : World :=
  {| localStorage := localStorage w; mockClients := mockClients w;
     tick := S (tick w); requests := requests w |}.

Section WithEnv.
Variable env : Env.

(** [Date.now()] *)
Definition now : M N := fun w => (Ok (Date_now env (tick w)), next_tick w).

(** [Math.random().toString(36).substr(2, 9)] *)
Definition random36 : M string :=
  fun w => (Ok (random_suffix env (tick w)), next_tick w).

(** [new Date().toISOString()] *)
Definition now_iso : M string :=
  fun w => (Ok (toISOString env (Date_now env (tick w))), next_tick w).

(** [new Date().toISOString().split('T')[0]] *)
Definition today : M string :=
  mbind now_iso (fun iso => ret (hd "" (Str.split "T" iso))).

(** [await fetch(url, init)] *)
Definition fetch (u : string) (i : JSValue) : M Response :=
  fun w =>
    let rq := {| url := u; init := i |} in
    (fetch_outcome env (length (requests w)) rq,
     {| localStorage := localStorage w; mockClients := mockClients w;
        tick := tick w; requests := requests w ++ [rq] |}).

(** The integer part of a finite number, for [new Date(number)]. *)
Definition trunc (x : JSNumber) : option Z :=
  match x with
  | Fin neg ds pt =>
      let n := Z.of_N (Str.to_N (Str.take (Z.to_nat pt)
                 (ds +:+ Str.repeat "0" (Z.to_nat pt - String.length ds)))) in
      Some (if neg then - n else n)
  | _ => None
  end.

(** [new Date(v).getTime()]; [None] is [NaN].  A time value beyond
    8.64e15 ms is not a date. *)
Definition Date_getTime (v : JSValue) : option Z :=
  match v with
  | JStr s => Date_parse env s
  | JUndefined => None
  | JNull | JBool false => Some 0
  | JBool true => Some 1
  | JNum x =>
      match trunc x with
      | Some t => if Z.abs t <=? 8640000000000000 then Some t else None
      | None => None
      end
  | JArr _ | JObj _ | JBuiltin _ => Date_parse env (ToString v)
  end.

End WithEnv.

(** [a - b] on time values, and the sign [Array.prototype.sort] reads
    off a comparator's answer: [NaN] counts as [+0]. *)
Definition time_diff (a b : option Z) : option Z :=
  match a, b with
  | Some x, Some y => Some (x - y)
  | _, _ => None
  end.

Definition sort_sign (d : option Z) : Z := default 0 d.

(** [Array.prototype.sort(cmp)].  The sort is stable; for a consistent
    comparator every stable sort returns this list. *)
Fixpoint sort_insert {A} (cmp : A -> A -> Z) (x : A) (l : list A) : list A :=
  match l with
  | [] => [x]
  | y :: l' => if cmp x y >? 0 then y :: sort_insert cmp x l' else x :: l
  end.

Definition Array_sort {A} (cmp : A -> A -> Z) (l : list A) : list A :=
  foldr (sort_insert cmp) [] l.

(** The elements an array spread [[...v]] copies: arrays and strings are
    iterable, nothing else the model holds is. *)
Definition iterate (v : JSValue) : result (list JSValue) :=
  match v with
  | JArr xs => Ok xs
  | JStr s => Ok (List.map (fun c => JStr (String c "")) (list_ascii_of_string s))
  | _ => Throw TypeError
  end.

(** The receiver of an [Array.prototype] method call: anything but an
    array has no such method, and the call throws. *)
Definition as_array (v : JSValue) : result (list JSValue) :=
  match v with
  | JArr xs => Ok xs
  | _ => Throw TypeError
  end.

End Runtime.

Declare Scope js_scope.
Notation "'let*' x ':=' r 'in' k" := (JS.bind r (fun x => k))
  (at level 10, x pattern, r at level 100, k at level 200) : js_scope.
Notation "'let!' x ':=' m 'in' k" := (Runtime.mbind m (fun x => k))
  (at level 10, x pattern, m at level 100, k at level 200) : js_scope.
Notation "'do!' m 'in' k" := (Runtime.mbind m (fun _ => k))
  (at level 10, m at level 100, k at level 200) : js_scope.
Notation "'let?' x ':=' r 'in' k" := (Runtime.mbind (Runtime.lift r) (fun x => k))
  (at level 10, x pattern, r at level 100, k at level 200) : js_scope.
Local Open Scope js_scope.

(* ================================================================== *)
(** * mockClients.ts *)
(* ================================================================== *)

Module MockClients.
Import JS.

Definition mockClients : JSValue :=
  JArr [
    JObj [
      ("id", JStr "client-001");
      ("name", JStr "Margaret Chen");
      ("aum", num "2450000");
      ("riskProfile", JStr "Moderate");
      ("advisor", JStr "Sarah Mitchell");
      ("lastContact", JStr "2024-11-15");
      ("goals", JArr [
        JObj [
          ("id", JStr "goal-001");
          ("name", JStr "Retirement at 62");
          ("targetAmount", num "3000000");
          ("currentAmount", num "2100000");
          ("targetDate", JStr "2029-06-01") ];
        JObj [
          ("id", JStr "goal-002");
          ("name", JStr "College Fund (Emma)");
          ("targetAmount", num "250000");
          ("currentAmount", num "180000");
          ("targetDate", JStr "2027-09-01") ];
        JObj [
          ("id", JStr "goal-003");
          ("name", JStr "Vacation Home Down Payment");
          ("targetAmount", num "150000");
          ("currentAmount", num "95000");
          ("targetDate", JStr "2026-03-01") ] ]);
      ("accounts", JArr [
        JObj [
          ("id", JStr "acc-001");
          ("name", JStr "Traditional IRA");
          ("type", JStr "IRA");
          ("balance", num "890000") ];
        JObj [
          ("id", JStr "acc-002");
          ("name", JStr "Joint Brokerage");
          ("type", JStr "Brokerage");
          ("balance", num "1250000") ];
        JObj [
          ("id", JStr "acc-003");
          ("name", JStr "Roth IRA");
          ("type", JStr "Roth IRA");
          ("balance", num "310000") ] ]) ];
    JObj [
      ("id", JStr "client-002");
      ("name", JStr "Robert & Diana Hartwell");
      ("aum", num "4875000");
      ("riskProfile", JStr "Moderate-Aggressive");
      ("advisor", JStr "Sarah Mitchell");
      ("lastContact", JStr "2024-11-28");
      ("goals", JArr [
        JObj [
          ("id", JStr "goal-004");
          ("name", JStr "Legacy Planning");
          ("targetAmount", num "5000000");
          ("currentAmount", num "4200000");
          ("targetDate", JStr "2035-01-01") ];
        JObj [
          ("id", JStr "goal-005");
          ("name", JStr "Charitable Foundation");
          ("targetAmount", num "1000000");
          ("currentAmount", num "650000");
          ("targetDate", JStr "2028-12-01") ] ]);
      ("accounts", JArr [
        JObj [
          ("id", JStr "acc-004");
          ("name", JStr "Hartwell Family Trust");
          ("type", JStr "Trust");
          ("balance", num "2800000") ];
        JObj [
          ("id", JStr "acc-005");
          ("name", JStr "Robert 401(k)");
          ("type", JStr "401k");
          ("balance", num "1450000") ];
        JObj [
          ("id", JStr "acc-006");
          ("name", JStr "Joint Investment Account");
          ("type", JStr "Brokerage");
          ("balance", num "625000") ] ]) ] ].

(** The state of a fresh browser profile after the modules are loaded. *)
Definition initial_world : Runtime.World :=
  {| Runtime.localStorage := ∅;
     Runtime.mockClients := mockClients;
     Runtime.tick := 0;
     Runtime.requests := [] |}.

End MockClients.

(* ================================================================== *)
(** * clientStorageService.ts *)
(* ================================================================== *)

Module ClientStorage.
Import JS Runtime.

Definition CLIENTS_KEY : string := "clarityworks_clients".

(** [localStorage.setItem(key, JSON.stringify(v))] *)
Definition store (key : string) (v : JSValue) : M unit :=
  setItem key (ToString (JSON_stringify v)).

Definition getCustomClients : M JSValue :=
  try_catch
    (let! data := getItem CLIENTS_KEY in
     match data with
     | Some (String c r) => lift (JSON_parse (String c r))
     | _ => ret (JArr [])
     end)
    (fun _ => ret (JArr [])).

Definition getAllClients : M JSValue :=
  let! customClients := getCustomClients in
  let! mocks := read_mockClients in
  let? a := iterate mocks in
  let? b := iterate customClients in
  ret (JArr (a ++ b)).

(** [c => c.id === id] *)
Definition has_id (id : string) (c : JSValue) : result bool :=
  let* cid := get c "id" in Ok (strict_eq_str cid id).

(** [c => c.id !== id] *)
Definition has_other_id (id : string) (c : JSValue) : result bool :=
  let* cid := get c "id" in Ok (negb (strict_eq_str cid id)).

Definition isCustomClient (id : string) : bool :=
  Str.starts_with "client-custom-" id.

Section WithEnv.
Variable env : Env.

(** [`${prefix}${Date.now()}-${Math.random().toString(36).substr(2, 9)}`] *)
Definition fresh_id (prefix : string) : M string :=
  let! t := now env in
  let! r := random36 env in
  ret (prefix +:+ Number_toString (of_N t) +:+ "-" +:+ r).

Definition addClient (client : JSValue) : M JSValue :=
  let! customClients := getCustomClients in
  let! id := fresh_id "client-custom-" in
  let newClient :=
    JObj (obj_set "id" (JStr id) (obj_assign [] (spread_props client))) in
  let? xs := as_array customClients in
  do! store CLIENTS_KEY (JArr (xs ++ [newClient])) in
  ret newClient.

Definition updateClient (id : string) (updates : JSValue) : M JSValue :=
  let! customClients := getCustomClients in
  let? xs := as_array customClients in
  let? index := findIndexM (has_id id) xs in
  match index with
  | None => ret JNull
  | Some i =>
      let updated :=
        JObj (obj_assign (obj_assign [] (spread_props (nth i xs JUndefined)))
                         (spread_props updates)) in
      do! store CLIENTS_KEY (JArr (<[i := updated]> xs)) in
      ret updated
  end.

Definition deleteClient (id : string) : M bool :=
  let! customClients := getCustomClients in
  let? xs := as_array customClients in
  let? filtered := filterM (has_other_id id) xs in
  if (length filtered =? length xs)%nat then ret false
  else
    do! store CLIENTS_KEY (JArr filtered) in
    ret true.

Definition createGoal (name targetAmount currentAmount targetDate : JSValue)
  : M JSValue :=
  let! id := fresh_id "goal-" in
  ret (JObj [ ("id", JStr id); ("name", name);
              ("targetAmount", targetAmount);
              ("currentAmount", currentAmount);
              ("targetDate", targetDate) ]).

Definition createAccount (name type balance : JSValue) : M JSValue :=
  let! id := fresh_id "acc-" in
  ret (JObj [ ("id", JStr id); ("name", name);
              ("type", type); ("balance", balance) ]).

End WithEnv.
End ClientStorage.

(* ================================================================== *)
(** * storageService.ts *)
(* ================================================================== *)

Module Storage.
Import JS Runtime.

Definition INTERACTIONS_KEY : string := "clarityworks_interactions".

Definition getAllInteractions : M JSValue :=
  try_catch
    (let! data := getItem INTERACTIONS_KEY in
     match data with
     | Some (String c r) => lift (JSON_parse (String c r))
     | _ => ret (JArr [])
     end)
    (fun _ => ret (JArr [])).

(** [i => i.clientId === clientId] *)
Definition of_client (clientId : string) (i : JSValue) : result bool :=
  let* c := get i "clientId" in Ok (strict_eq_str c clientId).

(** [i => i.id !== id] *)
Definition has_other_id (id : string) (i : JSValue) : result bool :=
  let* x := get i "id" in Ok (negb (strict_eq_str x id)).

(** [i => i.id === id] *)
Definition has_id (id : string) (i : JSValue) : result bool :=
  let* x := get i "id" in Ok (strict_eq_str x id).

Definition sample_client_001 : list JSValue :=
  [
    JObj [
      ("clientId", JStr "client-001");
      ("date", JStr "2024-11-15");
      ("type", JStr "meeting");
      ("title", JStr "Quarterly Portfolio Review");
      ("notes", JStr "Met with Margaret to review Q3 performance. She expressed concerns about market volatility affecting her retirement timeline. Discussed her daughter Emma's college plans - now looking at Georgetown. Margaret mentioned possibly retiring at 60 instead of 62 since James is already semi-retired.");
      ("actionItems", JArr [
        JStr "Run retirement projection for age 60";
        JStr "Research Georgetown tuition costs";
        JStr "Review risk allocation" ]) ];
    JObj [
      ("clientId", JStr "client-001");
      ("date", JStr "2024-10-20");
      ("type", JStr "call");
      ("title", JStr "Market Volatility Check-in");
      ("notes", JStr "Quick call after October market swings. Margaret was nervous about the drops. Reassured her about long-term strategy. She asked about moving some funds to more conservative positions. Agreed to discuss at next meeting.");
      ("actionItems", JArr [JStr "Prepare conservative rebalancing options"]) ];
    JObj [
      ("clientId", JStr "client-001");
      ("date", JStr "2024-09-05");
      ("type", JStr "meeting");
      ("title", JStr "Annual Planning Session");
      ("notes", JStr "Annual review with Margaret and James. Goals remain: retirement at 62, college fund for Emma, vacation home. Vacation home timeline pushed back due to interest rates. All accounts performing well. Discussed tax-loss harvesting opportunities.");
      ("actionItems", JArr [
        JStr "Update financial plan document";
        JStr "Schedule tax planning call with accountant" ]) ] ].

Definition sample_other : list JSValue :=
  [
    JObj [
      ("clientId", JStr "client-002");
      ("date", JStr "2024-11-28");
      ("type", JStr "meeting");
      ("title", JStr "Year-End Planning Session");
      ("notes", JStr "Met with Robert and Diana via video call from Scottsdale. Discussed charitable giving strategy - they want to accelerate DAF contributions and bunch donations. Robert turns 73 next year, need to plan for RMDs. They're considering selling the Boston property. Also want to set up 529 plans for all four grandchildren.");
      ("actionItems", JArr [
        JStr "Model Roth conversion scenarios";
        JStr "Prepare DAF strategy memo";
        JStr "Initiate 529 setup";
        JStr "Analyze Boston property sale tax impact" ]) ];
    JObj [
      ("clientId", JStr "client-002");
      ("date", JStr "2024-10-15");
      ("type", JStr "call");
      ("title", JStr "Trust Document Update");
      ("notes", JStr "Diana called about updating trust beneficiaries. Want to add provisions for grandchildren. Referred to estate attorney for document updates. Also asked about increasing charitable foundation contributions.");
      ("actionItems", JArr [
        JStr "Connect with estate attorney";
        JStr "Review foundation contribution limits" ]) ];
    JObj [
      ("clientId", JStr "client-002");
      ("date", JStr "2024-08-22");
      ("type", JStr "meeting");
      ("title", JStr "Mid-Year Review");
      ("notes", JStr "Strong first half performance. Tech allocation doing well. Robert happy with returns. Discussed legacy planning goals - on track. Diana mentioned grandchildren more frequently, hinting at future education planning.");
      ("actionItems", JArr [JStr "Research 529 options for next meeting"]) ] ].

Section WithEnv.
Variable env : Env.

(** [new Date(i.date).getTime()].  The sort only ever sees elements
    that went through [i.clientId] in the filter, where reading a
    property cannot throw. *)
Definition event_time (i : JSValue) : option Z :=
  match get i "date" with
  | Ok d => Date_getTime env d
  | Throw _ => None
  end.

(** [(a, b) => new Date(b.date).getTime() - new Date(a.date).getTime()] *)
Definition by_date_desc (a b : JSValue) : Z :=
  sort_sign (time_diff (event_time b) (event_time a)).

Definition getClientInteractions (clientId : string) : M (list JSValue) :=
  let! all := getAllInteractions in
  let? xs := as_array all in
  let? mine := filterM (of_client clientId) xs in
  ret (Array_sort by_date_desc mine).

Definition addInteraction (interaction : JSValue) : M JSValue :=
  let! all := getAllInteractions in
  let! id := ClientStorage.fresh_id env "interaction-" in
  let! createdAt := now_iso env in
  let newInteraction :=
    JObj (obj_set "createdAt" (JStr createdAt)
           (obj_set "id" (JStr id) (obj_assign [] (spread_props interaction)))) in
  let? xs := as_array all in
  do! ClientStorage.store INTERACTIONS_KEY (JArr (xs ++ [newInteraction])) in
  ret newInteraction.

Definition updateInteraction (id : string) (updates : JSValue) : M JSValue :=
  let! all := getAllInteractions in
  let? xs := as_array all in
  let? index := findIndexM (has_id id) xs in
  match index with
  | None => ret JNull
  | Some i =>
      let updated :=
        JObj (obj_assign (obj_assign [] (spread_props (nth i xs JUndefined)))
                         (spread_props updates)) in
      do! ClientStorage.store INTERACTIONS_KEY (JArr (<[i := updated]> xs)) in
      ret updated
  end.

Definition deleteInteraction (id : string) : M bool :=
  let! all := getAllInteractions in
  let? xs := as_array all in
  let? filtered := filterM (has_other_id id) xs in
  if (length filtered =? length xs)%nat then ret false
  else
    do! ClientStorage.store INTERACTIONS_KEY (JArr filtered) in
    ret true.

Definition initializeSampleInteractions (clientId : string) : M unit :=
  let! existing := getClientInteractions clientId in
  if (0 <? length existing)%nat then ret tt
  else
    let sampleInteractions :=
      if String.eqb clientId "client-001" then sample_client_001
      else sample_other in
    forEach (fun interaction => do! addInteraction interaction in ret tt)
            sampleInteractions.

End WithEnv.
End Storage.

(* ================================================================== *)
(** * App.tsx, [handleAddClient]: goals and accounts typed as text *)
(* ================================================================== *)

Module App.
Import JS Runtime.

(** [s.replace(/[^0-9.]/g, '')] *)
Definition digits_and_dots (s : string) : string :=
  Str.filter (fun c => Str.is_digit c || Ascii.eqb c ".") s.

(** [parseFloat(part?.replace(/[^0-9.]/g, '') || '0')], where [None] is
    the [undefined] of an index past the end of [parts]. *)
Definition amount_of (part : option string) : JSValue :=
  JNum (parseFloat
          match part with
          | Some p =>
              match digits_and_dots p with
              | EmptyString => "0"
              | t => t
              end
          | None => "0"
          end).

(** [part || fallback] *)
Definition text_or (part : option string) (fallback : string) : string :=
  match part with
  | Some (String c r) => String c r
  | _ => fallback
  end.

(** [line.split('|').map(p => p.trim())] *)
Definition parts_of (line : string) : list string :=
  List.map Str.trim (Str.split "|" line).

(** [text.split('\n').filter(l => l.trim())] *)
Definition lines_of (text : string) : list string :=
  List.filter (fun l => truthy (JStr (Str.trim l))) (Str.split "010" text).

Definition typeMap : JSValue :=
  JObj [
    ("ira", JStr "IRA");
    ("traditional ira", JStr "IRA");
    ("roth", JStr "Roth IRA");
    ("roth ira", JStr "Roth IRA");
    ("401k", JStr "401k");
    ("401(k)", JStr "401k");
    ("brokerage", JStr "Brokerage");
    ("trust", JStr "Trust") ].

(** [typeMap[(part || 'brokerage').toLowerCase()] || 'Brokerage'] *)
Definition account_type_of (part : option string) : JSValue :=
  let rawType := Str.toLowerCase (text_or part "brokerage") in
  match get typeMap rawType with
  | Ok t => or_else t (JStr "Brokerage")
  | Throw _ => JStr "Brokerage"
  end.

Section WithEnv.
Variable env : Env.

(** The callback of [lines.map] for goals:
    "Goal Name | target | current | date". *)
Definition goal_of_line (line : string) : M JSValue :=
  let parts := parts_of line in
  let name := text_or (parts !! 0%nat) "Goal" in
  let target := amount_of (parts !! 1%nat) in
  let current := amount_of (parts !! 2%nat) in
  let! date :=
    match parts !! 3%nat with
    | Some (String c r) => ret (String c r)
    | _ => today env
    end in
  ClientStorage.createGoal env (JStr name) target current (JStr date).

(** The callback of [parsed.map] for goals. *)
Definition goal_of_json (g : JSValue) : M JSValue :=
  let? name := get g "name" in
  let? targetAmount := get g "targetAmount" in
  let? currentAmount := get g "currentAmount" in
  let? targetDate := get g "targetDate" in
  ClientStorage.createGoal env name targetAmount currentAmount targetDate.

(** Lines 746-770: the value of [goals] for the text of the form. *)
Definition parse_goals (goalsText : string) : M (list JSValue) :=
  if truthy (JStr (Str.trim goalsText)) then
    try_catch
      (let? parsed := JSON_parse goalsText in
       match parsed with
       | JArr xs => mapM_ (fun _ => goal_of_json) 0 xs
       | _ => ret []
       end)
      (fun _ => mapM_ (fun _ => goal_of_line) 0 (lines_of goalsText))
  else ret [].

(** The callback of [lines.map] for accounts:
    "Account Name | type | balance". *)
Definition account_of_line (line : string) : M JSValue :=
  let parts := parts_of line in
  let type := account_type_of (parts !! 1%nat) in
  ClientStorage.createAccount env
    (JStr (text_or (parts !! 0%nat) "Account")) type (amount_of (parts !! 2%nat)).

(** The callback of [parsed.map] for accounts. *)
Definition account_of_json (a : JSValue) : M JSValue :=
  let? name := get a "name" in
  let? type := get a "type" in
  let? balance := get a "balance" in
  ClientStorage.createAccount env name type balance.

(** Lines 772-806: the value of [accounts] for the text of the form. *)
Definition parse_accounts (accountsText : string) : M (list JSValue) :=
  if truthy (JStr (Str.trim accountsText)) then
    try_catch
      (let? parsed := JSON_parse accountsText in
       match parsed with
       | JArr xs => mapM_ (fun _ => account_of_json) 0 xs
       | _ => ret []
       end)
      (fun _ => mapM_ (fun _ => account_of_line) 0 (lines_of accountsText))
  else ret [].

(** The state [newClientForm]. *)
Record ClientForm : Type :=
  { form_name : string; form_aum : string; form_riskProfile : string;
    form_advisor : string; goalsText : string; accountsText : string }.

(** [handleAddClient]: [None] when the form is rejected with
    "Please enter client name and AUM", else the stored client. *)
Definition handleAddClient (f : ClientForm) : M (option JSValue) :=
  if negb (truthy (JStr (form_name f))) || negb (truthy (JStr (form_aum f)))
  then ret None
  else
    let! goals := parse_goals (goalsText f) in
    let! accounts := parse_accounts (accountsText f) in
    let aum := amount_of (Some (form_aum f)) in
    let! lastContact := today env in
    let! newClient :=
      ClientStorage.addClient env
        (JObj [ ("name", JStr (form_name f)); ("aum", aum);
                ("riskProfile", JStr (form_riskProfile f));
                ("advisor", JStr (form_advisor f));
                ("lastContact", JStr lastContact);
                ("goals", JArr goals); ("accounts", JArr accounts) ]) in
    ret (Some newClient).

End WithEnv.
End App.

(* ================================================================== *)
(** * openaiService.ts *)
(* ================================================================== *)

Module OpenAI.
Import JS Runtime.

Definition OPENAI_API_URL : string := "https://api.openai.com/v1/chat/completions".

Definition missing_key : JSError :=
  Error "Missing OpenAI API key. Set VITE_OPENAI_API_KEY in your .env file.".

Definition ensureString (value : JSValue) : string :=
  match value with
  | JStr s => s
  | JNull | JUndefined => ""
  | _ =>
      if String.eqb (typeof value) "object" then ToString (JSON_stringify value)
      else ToString value
  end.

Definition ensureStringArray (value : JSValue) : list string :=
  if negb (truthy value) then []
  else match value with
       | JArr xs => List.map ensureString xs
       | _ => [ensureString value]
       end.

Definition strings (l : list string) : JSValue := JArr (List.map JStr l).

(** [s.replace(/^```(?:json)?\n?/, '')] for an [s] that starts with three
    backquotes. *)
Definition strip_fence_open (s : string) : string :=
  let s1 := Str.drop 3 s in
  let s2 := default s1 (Str.strip_prefix "json" s1) in
  default s2 (Str.strip_prefix nl s2).

(** [s.replace(/\n?```$/, '')] *)
Definition strip_fence_close (s : string) : string :=
  match Str.strip_suffix (nl +:+ "```") s with
  | Some t => t
  | None => default s (Str.strip_suffix "```" s)
  end.

(** Lines 112-115: [jsonContent], the trimmed text without its code
    fence. *)
Definition json_content (content : string) : string :=
  let trimmed := Str.trim content in
  if Str.starts_with "```" trimmed
  then strip_fence_close (strip_fence_open trimmed)
  else trimmed.

(** Lines 112-142: the body of the [try].  A [content] that is not a
    string has no [trim] to call. *)
Definition coerce_content (content : JSValue) : result JSValue :=
  match content with
  | JStr c =>
      let* parsed := JSON_parse (json_content c) in
      let* clientSnapshot := get parsed "clientSnapshot" in
      let* recentContext := get parsed "recentContext" in
      let* keyTopicsToDiscuss := get parsed "keyTopicsToDiscuss" in
      let* openActionItems := get parsed "openActionItems" in
      let* questionsToAsk := get parsed "questionsToAsk" in
      let* potentialConcerns := get parsed "potentialConcerns" in
      let* relationshipNotes := get parsed "relationshipNotes" in
      Ok (JObj
            [ ("clientSnapshot", JStr (ensureString clientSnapshot));
              ("recentContext", JStr (ensureString recentContext));
              ("keyTopicsToDiscuss", strings (ensureStringArray keyTopicsToDiscuss));
              ("openActionItems", strings (ensureStringArray openActionItems));
              ("questionsToAsk", strings (ensureStringArray questionsToAsk));
              ("potentialConcerns", JStr (ensureString potentialConcerns));
              ("relationshipNotes", JStr (ensureString relationshipNotes)) ])
  | _ => Throw TypeError
  end.

(** Lines 99-109, shared with [docIngestService.ts] lines 73-83: the
    message text of a completed request. *)
Definition message_content (response : Response) : result JSValue :=
  if negb (ok response) then
    let error :=
      match json response with
      | Ok v => v
      | Throw _ => JObj []
      end in
    let* e := get error "error" in
    let* m := get_opt e "message" in
    Throw (Error (ToString
      (or_else m (JStr ("API request failed: "
                        +:+ Number_toString (of_N (status response)))))))
  else
    let* data := json response in
    let* choices := get data "choices" in
    let* first := get choices "0" in
    let* message := get_opt first "message" in
    let* content := get_opt message "content" in
    if negb (truthy content) then Throw (Error "No response from OpenAI")
    else Ok content.

Definition request_init (apiKey : JSValue) (body : JSValue) : JSValue :=
  JObj [ ("method", JStr "POST");
         ("headers",
          JObj [ ("Content-Type", JStr "application/json");
                 ("Authorization", JStr ("Bearer " +:+ ToString apiKey)) ]);
         ("body", JSON_stringify body) ].

Section WithEnv.
Variable env : Env.

(** Lines 27-73, the text of the prompt.  It renders numbers with
    [toFixed] and [toLocaleString], whose output depends on the locale
    of the browser, and throws a [TypeError] on arguments of the wrong
    shape. *)
Variable prompt_text :
  JSValue -> JSValue -> JSValue -> JSValue -> JSValue -> JSValue -> result string.

Definition generateMeetingPrep
    (clientName aum riskProfile goals accounts interactions : JSValue)
  : M JSValue :=
  let apiKey := VITE_OPENAI_API_KEY env in
  if negb (truthy apiKey) then throw missing_key
  else
    let? prompt :=
      prompt_text clientName aum riskProfile goals accounts interactions in
    let! response :=
      fetch env OPENAI_API_URL
        (request_init apiKey
           (JObj
              [ ("model", JStr "gpt-4o-mini");
                ("messages",
                 JArr
                   [ JObj [ ("role", JStr "system");
                            ("content", JStr "You are a helpful financial advisor assistant that creates concise, actionable meeting prep guides. Always respond with valid JSON only.") ];
                     JObj [ ("role", JStr "user"); ("content", JStr prompt) ] ]);
                ("temperature", num "0.7");
                ("max_tokens", num "1500");
                ("response_format", JObj [ ("type", JStr "json_object") ]) ])) in
    let? content := message_content response in
    try_catch (lift (coerce_content content))
      (fun _ => throw (Error "Failed to parse AI response. Please try again.")).

End WithEnv.
End OpenAI.

(* ================================================================== *)
(** * docIngestService.ts *)
(* ================================================================== *)

Module DocIngest.
Import JS Runtime.

Definition systemPrompt : string :=
  Str.join nl
    [ "You are a financial document parser. Extract client information from the provided documents and respond ONLY with valid JSON matching this exact schema:";
      "";
      "{";
      ("  " +:+ dq +:+ "id" +:+ dq +:+ ": " +:+ dq +:+ "string (generate a unique ID like 'client-doc-' followed by timestamp)" +:+ dq +:+ ",");
      ("  " +:+ dq +:+ "name" +:+ dq +:+ ": " +:+ dq +:+ "string (client's full name or household name)" +:+ dq +:+ ",");
      ("  " +:+ dq +:+ "aum" +:+ dq +:+ ": number (total assets under management in dollars),");
      ("  " +:+ dq +:+ "riskProfile" +:+ dq +:+ ": " +:+ dq +:+ "Conservative" +:+ dq +:+ " | " +:+ dq +:+ "Moderate" +:+ dq +:+ " | " +:+ dq +:+ "Moderate-Aggressive" +:+ dq +:+ " | " +:+ dq +:+ "Aggressive" +:+ dq +:+ ",");
      ("  " +:+ dq +:+ "advisor" +:+ dq +:+ ": " +:+ dq +:+ "string (advisor name if mentioned, otherwise 'Unassigned')" +:+ dq +:+ ",");
      ("  " +:+ dq +:+ "lastContact" +:+ dq +:+ ": " +:+ dq +:+ "string (ISO date, use today's date if not mentioned)" +:+ dq +:+ ",");
      ("  " +:+ dq +:+ "goals" +:+ dq +:+ ": [");
      "    {";
      ("      " +:+ dq +:+ "id" +:+ dq +:+ ": " +:+ dq +:+ "string (unique goal ID)" +:+ dq +:+ ",");
      ("      " +:+ dq +:+ "name" +:+ dq +:+ ": " +:+ dq +:+ "string (goal name like 'Retirement', 'College Fund', etc.)" +:+ dq +:+ ",");
      ("      " +:+ dq +:+ "targetAmount" +:+ dq +:+ ": number,");
      ("      " +:+ dq +:+ "currentAmount" +:+ dq +:+ ": number,");
      ("      " +:+ dq +:+ "targetDate" +:+ dq +:+ ": " +:+ dq +:+ "string (ISO date format YYYY-MM-DD)" +:+ dq +:+ "");
      "    }";
      "  ],";
      ("  " +:+ dq +:+ "accounts" +:+ dq +:+ ": [");
      "    {";
      ("      " +:+ dq +:+ "id" +:+ dq +:+ ": " +:+ dq +:+ "string (unique account ID)" +:+ dq +:+ ",");
      ("      " +:+ dq +:+ "name" +:+ dq +:+ ": " +:+ dq +:+ "string (account name)" +:+ dq +:+ ",");
      ("      " +:+ dq +:+ "type" +:+ dq +:+ ": " +:+ dq +:+ "IRA" +:+ dq +:+ " | " +:+ dq +:+ "Brokerage" +:+ dq +:+ " | " +:+ dq +:+ "401k" +:+ dq +:+ " | " +:+ dq +:+ "Roth IRA" +:+ dq +:+ " | " +:+ dq +:+ "Trust" +:+ dq +:+ ",");
      ("      " +:+ dq +:+ "balance" +:+ dq +:+ ": number");
      "    }";
      "  ]";
      "}";
      "";
      "Extract as much information as possible from the documents. If a field is not explicitly mentioned:";
      "- For goals: infer reasonable targets based on context";
      "- For accounts: create entries for any mentioned accounts/holdings";
      "- For riskProfile: infer from investment preferences or age mentioned";
      "- Generate unique IDs with format 'goal-doc-X' or 'acc-doc-X'";
      "";
      "Respond ONLY with the JSON object, no additional text or markdown." ].

Definition userPrompt (joinedDocs : string) : string :=
  "Parse the following financial documents and extract client information:"
  +:+ nl +:+ nl +:+ joinedDocs +:+ nl +:+ nl
  +:+ "Return a single JSON object matching the Client schema.".

(** [typeof v === 'number' ? v : parseFloat(v) || 0] *)
Definition number_or_zero (v : JSValue) : JSValue :=
  match v with
  | JNum _ => v
  | _ => or_else (JNum (parseFloat (ToString v))) (JNum zero)
  end.

Definition validateRiskProfile (profile : JSValue) : JSValue :=
  if existsb (strict_eq_str profile)
       ["Conservative"; "Moderate"; "Moderate-Aggressive"; "Aggressive"]
  then profile else JStr "Moderate".

Section WithEnv.
Variable env : Env.

(** [v || `${prefix}${Date.now()}`] *)
Definition or_stamped (v : JSValue) (prefix : string) : M JSValue :=
  if truthy v then ret v
  else let! t := now env in ret (JStr (prefix +:+ Number_toString (of_N t))).

(** [v || new Date().toISOString().split('T')[0]] *)
Definition or_today (v : JSValue) : M JSValue :=
  if truthy v then ret v else let! d := today env in ret (JStr d).

Definition validateGoals (goals : JSValue) : M JSValue :=
  match goals with
  | JArr xs =>
      let! gs :=
        mapM_ (fun idx goal =>
          let? id0 := get goal "id" in
          let! id := or_stamped id0
                       ("goal-doc-" +:+ Str.of_N (N.of_nat idx) +:+ "-") in
          let? name := get goal "name" in
          let? targetAmount := get goal "targetAmount" in
          let? currentAmount := get goal "currentAmount" in
          let? targetDate0 := get goal "targetDate" in
          let! targetDate := or_today targetDate0 in
          ret (JObj [ ("id", id);
                      ("name", or_else name (JStr "Unnamed Goal"));
                      ("targetAmount", number_or_zero targetAmount);
                      ("currentAmount", number_or_zero currentAmount);
                      ("targetDate", targetDate) ])) 0 xs in
      ret (JArr gs)
  | _ => ret (JArr [])
  end.

Definition validateAccounts (accounts : JSValue) : M JSValue :=
  match accounts with
  | JArr xs =>
      let! accs :=
        mapM_ (fun idx account =>
          let? type := get account "type" in
          let? id0 := get account "id" in
          let! id := or_stamped id0
                       ("acc-doc-" +:+ Str.of_N (N.of_nat idx) +:+ "-") in
          let? name := get account "name" in
          let? balance := get account "balance" in
          ret (JObj [ ("id", id);
                      ("name", or_else name (JStr "Unnamed Account"));
                      ("type",
                       if existsb (strict_eq_str type)
                            ["IRA"; "Brokerage"; "401k"; "Roth IRA"; "Trust"]
                       then type else JStr "Brokerage");
                      ("balance", number_or_zero balance) ])) 0 xs in
      ret (JArr accs)
  | _ => ret (JArr [])
  end.

(** Lines 86-100: the body of the [try]. *)
Definition client_of_content (content : JSValue) : M JSValue :=
  let? parsed := JSON_parse (ToString content) in
  let? id0 := get parsed "id" in
  let! id := or_stamped id0 "client-doc-" in
  let? name := get parsed "name" in
  let? aum := get parsed "aum" in
  let? riskProfile := get parsed "riskProfile" in
  let? advisor := get parsed "advisor" in
  let? lastContact0 := get parsed "lastContact" in
  let! lastContact := or_today lastContact0 in
  let? goals0 := get parsed "goals" in
  let! goals := validateGoals goals0 in
  let? accounts0 := get parsed "accounts" in
  let! accounts := validateAccounts accounts0 in
  ret (JObj [ ("id", id);
              ("name", or_else name (JStr "Unknown Client"));
              ("aum", number_or_zero aum);
              ("riskProfile", validateRiskProfile riskProfile);
              ("advisor", or_else advisor (JStr "Unassigned"));
              ("lastContact", lastContact);
              ("goals", goals);
              ("accounts", accounts) ]).

Definition parseClientFromDocuments (docs : list string) : M JSValue :=
  let apiKey := VITE_OPENAI_API_KEY env in
  if negb (truthy apiKey) then throw OpenAI.missing_key
  else
    let joinedDocs := Str.join (nl +:+ nl +:+ "----" +:+ nl +:+ nl) docs in
    let! response :=
      fetch env OpenAI.OPENAI_API_URL
        (OpenAI.request_init apiKey
           (JObj
              [ ("model", JStr "gpt-4o-mini");
                ("messages",
                 JArr
                   [ JObj [ ("role", JStr "system");
                            ("content", JStr systemPrompt) ];
                     JObj [ ("role", JStr "user");
                            ("content", JStr (userPrompt joinedDocs)) ] ]);
                ("temperature", num "0.3");
                ("max_tokens", num "2000");
                ("response_format", JObj [ ("type", JStr "json_object") ]) ])) in
    let? content := OpenAI.message_content response in
    try_catch (client_of_content content)
      (fun _ => throw (Error "Failed to parse client data from documents. Please try again.")).

End WithEnv.
End DocIngest.

(* ================================================================== *)
(** * mockCrmService.ts *)
(* ================================================================== *)

Module MockCrm.
Import JS Runtime.

(** The table is built when the module is loaded; [loaded_001] and
    [loaded_002] are the two [new Date().toISOString()] read then. *)
Definition mockCrmResults (loaded_001 loaded_002 : string) : JSValue :=
  JObj [
    ("client-001", JObj [
      ("fieldUpdates", JArr [
        JObj [
          ("id", JStr "fu-001");
          ("fieldName", JStr "Target Retirement Age");
          ("currentValue", JStr "62");
          ("proposedValue", JStr "60");
          ("confidence", num "0.92");
          ("sourceSnippet", JStr ("" +:+ dq +:+ "I've been thinking about maybe retiring a bit earlier, perhaps at 60 instead of 62." +:+ dq +:+ "")) ];
        JObj [
          ("id", JStr "fu-002");
          ("fieldName", JStr "Risk Tolerance");
          ("currentValue", JStr "Moderate");
          ("proposedValue", JStr "Moderate-Conservative");
          ("confidence", num "0.78");
          ("sourceSnippet", JStr ("" +:+ dq +:+ "Those October swings really made me nervous. I'm wondering if we should be more conservative." +:+ dq +:+ "")) ];
        JObj [
          ("id", JStr "fu-003");
          ("fieldName", JStr "College Fund Target");
          ("currentValue", JStr "$250,000");
          ("proposedValue", JStr "$300,000");
          ("confidence", num "0.95");
          ("sourceSnippet", JStr ("" +:+ dq +:+ "We might need to increase our college savings target. Georgetown is her top choice." +:+ dq +:+ "")) ];
        JObj [
          ("id", JStr "fu-004");
          ("fieldName", JStr "Vacation Home Goal Status");
          ("currentValue", JStr "Active");
          ("proposedValue", JStr "On Hold");
          ("confidence", num "0.88");
          ("sourceSnippet", JStr ("" +:+ dq +:+ "With the interest rates where they are, we've decided to wait another year or two on the beach house." +:+ dq +:+ "")) ] ]);
      ("tasks", JArr [
        JObj [
          ("id", JStr "task-001");
          ("owner", JStr "Sarah Mitchell");
          ("description", JStr "Run retirement projections for age 60 scenario");
          ("dueDate", JStr "2024-12-10");
          ("priority", JStr "high") ];
        JObj [
          ("id", JStr "task-002");
          ("owner", JStr "Sarah Mitchell");
          ("description", JStr "Send updated risk tolerance questionnaire to Margaret");
          ("dueDate", JStr "2024-12-05");
          ("priority", JStr "medium") ];
        JObj [
          ("id", JStr "task-003");
          ("owner", JStr "Tax Team");
          ("description", JStr "Review tax-loss harvesting opportunities before year-end");
          ("dueDate", JStr "2024-12-15");
          ("priority", JStr "high") ] ]);
      ("auditLog", JObj [
        ("summary", JStr "Client expressed interest in earlier retirement (60 vs 62), increased college funding needs, and temporary pause on vacation home goal. Risk tolerance may need adjustment following market volatility concerns.");
        ("tags", JArr [
          JStr "retirement-planning";
          JStr "risk-review";
          JStr "education-funding";
          JStr "goal-change" ]);
        ("timestamp", JStr loaded_001) ]) ]);
    ("client-002", JObj [
      ("fieldUpdates", JArr [
        JObj [
          ("id", JStr "fu-005");
          ("fieldName", JStr "Charitable Giving Strategy");
          ("currentValue", JStr "Standard annual");
          ("proposedValue", JStr "DAF bunching strategy");
          ("confidence", num "0.94");
          ("sourceSnippet", JStr ("" +:+ dq +:+ "We'd like to accelerate our donor-advised fund contributions. Can we discuss bunching our donations?" +:+ dq +:+ "")) ];
        JObj [
          ("id", JStr "fu-006");
          ("fieldName", JStr "Grandchildren 529 Plans");
          ("currentValue", JStr "None");
          ("proposedValue", JStr "4 plans @ $50,000 each");
          ("confidence", num "0.97");
          ("sourceSnippet", JStr ("" +:+ dq +:+ "We've decided to set up 529 plans for all four grandchildren. About $50,000 each to start." +:+ dq +:+ "")) ];
        JObj [
          ("id", JStr "fu-007");
          ("fieldName", JStr "RMD Planning Status");
          ("currentValue", JStr "Not started");
          ("proposedValue", JStr "Planning required (Robert turns 73 in 2025)");
          ("confidence", num "0.91");
          ("sourceSnippet", JStr ("" +:+ dq +:+ "What's our plan for required minimum distributions? I'd prefer to minimize the tax hit." +:+ dq +:+ "")) ];
        JObj [
          ("id", JStr "fu-008");
          ("fieldName", JStr "Boston Property Status");
          ("currentValue", JStr "Hold");
          ("proposedValue", JStr "Considering sale");
          ("confidence", num "0.85");
          ("sourceSnippet", JStr ("" +:+ dq +:+ "We're considering selling the Boston property. The management hassle isn't worth it anymore." +:+ dq +:+ "")) ];
        JObj [
          ("id", JStr "fu-009");
          ("fieldName", JStr "Roth Conversion Interest");
          ("currentValue", JStr "No");
          ("proposedValue", JStr "Yes - modeling $200k-$500k tranches");
          ("confidence", num "0.89");
          ("sourceSnippet", JStr ("" +:+ dq +:+ "Can you run some scenarios on converting a portion of my 401k to Roth?" +:+ dq +:+ "")) ] ]);
      ("tasks", JArr [
        JObj [
          ("id", JStr "task-004");
          ("owner", JStr "Sarah Mitchell");
          ("description", JStr "Model Roth conversion scenarios ($200k, $350k, $500k tranches)");
          ("dueDate", JStr "2024-12-12");
          ("priority", JStr "high") ];
        JObj [
          ("id", JStr "task-005");
          ("owner", JStr "Sarah Mitchell");
          ("description", JStr "Prepare DAF contribution strategy memo");
          ("dueDate", JStr "2024-12-08");
          ("priority", JStr "high") ];
        JObj [
          ("id", JStr "task-006");
          ("owner", JStr "Operations");
          ("description", JStr "Initiate 529 plan setup for 4 grandchildren");
          ("dueDate", JStr "2024-12-20");
          ("priority", JStr "medium") ];
        JObj [
          ("id", JStr "task-007");
          ("owner", JStr "Tax Team");
          ("description", JStr "Analyze tax implications of Boston property sale");
          ("dueDate", JStr "2024-12-18");
          ("priority", JStr "medium") ] ]);
      ("auditLog", JObj [
        ("summary", JStr "Year-end planning session covered charitable giving acceleration via DAF, new 529 plans for grandchildren ($200k total), upcoming RMD requirements, potential real estate disposition, and Roth conversion interest. Clients comfortable with current risk allocation.");
        ("tags", JArr [
          JStr "charitable-giving";
          JStr "education-funding";
          JStr "rmd-planning";
          JStr "roth-conversion";
          JStr "real-estate";
          JStr "year-end-planning" ]);
        ("timestamp", JStr loaded_002) ]) ]) ].

Section WithEnv.
Variable env : Env.
Variables loaded_001 loaded_002 : string.

(** The 1500 ms pause before the answer is a delay only. *)
Definition generateCRMUpdate (clientId : string) (_meetingNotes : string)
  : M JSValue :=
  let? result := get (mockCrmResults loaded_001 loaded_002) clientId in
  if negb (truthy result) then
    let! timestamp := now_iso env in
    ret (JObj [ ("fieldUpdates", JArr []);
                ("tasks", JArr []);
                ("auditLog",
                 JObj [ ("summary", JStr "No updates extracted from meeting notes.");
                        ("tags", JArr []);
                        ("timestamp", JStr timestamp) ]) ])
  else
    let copy := obj_assign [] (spread_props result) in
    let? auditLog := get result "auditLog" in
    let! timestamp := now_iso env in
    ret (JObj (obj_set "auditLog"
                 (JObj (obj_set "timestamp" (JStr timestamp)
                          (obj_assign [] (spread_props auditLog))))
                 copy)).

End WithEnv.
End MockCrm.

(* ================================================================== *)
(** * Sequences of client store operations *)
(* ================================================================== *)

Module ClientOps.
Import JS Runtime.

(** The operations of the client store: [getAllClients], [addClient],
    [updateClient], [deleteClient], [isCustomClient]. *)
Inductive Op : Type :=
| ListAll
| Create (fields : JSValue)
| Update (id : string) (updates : JSValue)
| Remove (id : string)
| IsCustom (id : string).

Inductive Outcome : Type :=
| Listed (r : result JSValue)
| Created (r : result JSValue)
| Updated (r : result JSValue)
| Removed (r : result bool)
| Custom (b : bool).

Definition run_op (env : Env) (op : Op) (w : World) : Outcome * World :=
  match op with
  | ListAll => let '(r, w') := ClientStorage.getAllClients w in (Listed r, w')
  | Create fields =>
      let '(r, w') := ClientStorage.addClient env fields w in (Created r, w')
  | Update id updates =>
      let '(r, w') := ClientStorage.updateClient id updates w in (Updated r, w')
  | Remove id => let '(r, w') := ClientStorage.deleteClient id w in (Removed r, w')
  | IsCustom id => (Custom (ClientStorage.isCustomClient id), w)
  end.

(** A caller goes on after an operation that threw. *)
Fixpoint run_ops (env : Env) (ops : list Op) (w : World) : list Outcome * World :=
  match ops with
  | [] => ([], w)
  | op :: ops' =>
      let '(o, w1) := run_op env op w in
      let '(os, w2) := run_ops env ops' w1 in
      (o :: os, w2)
  end.

End ClientOps.

(* ================================================================== *)
(** * A browser to run the sources in *)
(* ================================================================== *)

(** A concrete environment: a clock that advances by one millisecond
    per reading, the Gregorian calendar for [toISOString] and for ISO
    dates ([YYYY-MM-DD]) handed to [new Date], a fixed random suffix, no
    API key and no network. *)
Module Browser.
Import JS Runtime.

Definition days_from_civil (y m d : Z) : Z :=
  let y' := if m <=? 2 then y - 1 else y in
  let era := y' / 400 in
  let yoe := y' - era * 400 in
  let doy := (153 * (if m >? 2 then m - 3 else m + 9) + 2) / 5 + d - 1 in
  let doe := yoe * 365 + yoe / 4 - yoe / 100 + doy in
  era * 146097 + doe - 719468.

Definition civil_from_days (z : Z) : Z * Z * Z :=
  let z' := z + 719468 in
  let era := z' / 146097 in
  let doe := z' - era * 146097 in
  let yoe := (doe - doe / 1460 + doe / 36524 - doe / 146096) / 365 in
  let doy := doe - (365 * yoe + yoe / 4 - yoe / 100) in
  let mp := (5 * doy + 2) / 153 in
  let d := doy - (153 * mp + 2) / 5 + 1 in
  let m := if mp <? 10 then mp + 3 else mp - 9 in
  (if m <=? 2 then yoe + era * 400 + 1 else yoe + era * 400, m, d).

(** [n] in decimal, padded with zeros to [width] digits. *)
Definition pad (width : nat) (n : Z) : string :=
  let ds := Str.of_N (Z.to_N n) in
  Str.repeat "0" (width - String.length ds) +:+ ds.

Definition iso_string (t : N) : string :=
  let ms := Z.of_N t in
  let '(y, m, d) := civil_from_days (ms / 86400000) in
  let r := ms mod 86400000 in
  pad 4 y +:+ "-" +:+ pad 2 m +:+ "-" +:+ pad 2 d +:+ "T"
  +:+ pad 2 (r / 3600000) +:+ ":" +:+ pad 2 (r mod 3600000 / 60000) +:+ ":"
  +:+ pad 2 (r mod 60000 / 1000) +:+ "." +:+ pad 3 (r mod 1000) +:+ "Z".

(** The time value of a date [YYYY-MM-DD]. *)
Definition iso_date_ms (s : string) : option Z :=
  match Str.split "-" s with
  | [ys; ms; ds] =>
      if (String.length ys =? 4)%nat && (String.length ms =? 2)%nat
         && (String.length ds =? 2)%nat
         && Str.all Str.is_digit (ys +:+ ms +:+ ds)
      then
        let y := Z.of_N (Str.to_N ys) in
        let m := Z.of_N (Str.to_N ms) in
        let d := Z.of_N (Str.to_N ds) in
        if (1 <=? m) && (m <=? 12) && (1 <=? d) && (d <=? 31)
        then Some (days_from_civil y m d * 86400000) else None
      else None
  | _ => None
  end.

Definition env : Env :=
  {| Date_now := fun k => (1733047200000 + N.of_nat k)%N;
     random_suffix := fun _ => "k3j9x0q1z";
     toISOString := iso_string;
     Date_parse := iso_date_ms;
     VITE_OPENAI_API_KEY := JUndefined;
     fetch_outcome := fun _ _ => Throw TypeError |}.

(** The same browser with an API key, and a provider that answers every
    request with [body]. *)
Definition with_provider (body : JSValue) : Env :=
  {| Date_now := Date_now env;
     random_suffix := random_suffix env;
     toISOString := toISOString env;
     Date_parse := Date_parse env;
     VITE_OPENAI_API_KEY := JStr "sk-test";
     fetch_outcome := fun _ _ =>
       Ok {| ok := true; status := 200; json := Ok body |} |}.

(** The chat-completion envelope around a message text. *)
Definition chat_completion (content : string) : JSValue :=
  JObj [ ("choices",
          JArr [ JObj [ ("message", JObj [ ("content", JStr content) ]) ] ]) ].

(** A payload whose [keyTopicsToDiscuss] is one string. *)
Definition one_topic : string :=
  "{" +:+ dq +:+ "keyTopicsToDiscuss" +:+ dq +:+ ":"
  +:+ dq +:+ "Roth conversion" +:+ dq +:+ "}".

(** A payload whose list fields are the empty string, zero and false. *)
Definition falsy_lists : string :=
  "{" +:+ dq +:+ "keyTopicsToDiscuss" +:+ dq +:+ ":" +:+ dq +:+ dq +:+ ","
  +:+ dq +:+ "openActionItems" +:+ dq +:+ ":0,"
  +:+ dq +:+ "questionsToAsk" +:+ dq +:+ ":false}".

(** The prompt text stands outside the model; any text will do. *)
Definition any_prompt (_ _ _ _ _ _ : JSValue) : result string := Ok "prompt".

(** The world with [v] as the text stored under [key]. *)
Definition stored (key v : string) : World :=
  {| localStorage := {[ key := v ]};
     mockClients := MockClients.mockClients;
     tick := 0;
     requests := [] |}.

End Browser.

(* ================================================================== *)
(** * analytics.ts *)
(* ================================================================== *)

(** The events are kept in [sessionStorage], which the stores never
    touch: a tab is a world together with its session storage.  The
    line written to the console in development is output only, and
    [setItem] is taken not to run out of quota. *)
Module Analytics.
Import JS Runtime.

Definition EVENTS_KEY : string := "analytics_events".

Record Tab : Type :=
  { world : World; sessionStorage : gmap string string }.

(** [sessionStorage.getItem('analytics_events') || '[]'] *)
Definition stored_text (tab : Tab) : string :=
  match sessionStorage tab !! EVENTS_KEY with
  | Some (String c r) => String c r
  | _ => "[]"
  end.

(** [events.push(payload); if (events.length > 100) events.shift();] *)
Definition push_capped (events : JSValue) (payload : JSValue) : result (list JSValue) :=
  let* xs := as_array events in
  let ys := xs ++ [payload] in
  Ok (if (100 <? length ys)%nat then tl ys else ys).

Section WithEnv.
Variable env : Env.

Definition track (event : string) (properties : JSValue) (tab : Tab) : Tab :=
  let '(stamp, w1) := now_iso env (world tab) in
  let timestamp := match stamp with Ok t => t | Throw _ => "" end in
  let payload :=
    JObj [ ("event", JStr event);
           ("properties", or_else properties (JObj []));
           ("timestamp", JStr timestamp) ] in
  let attempt :=
    let* events := JSON_parse (stored_text tab) in
    let* kept := push_capped events payload in
    Ok (ToString (JSON_stringify (JArr kept))) in
  match attempt with
  | Ok text =>
      {| world := w1;
         sessionStorage := <[EVENTS_KEY := text]> (sessionStorage tab) |}
  | Throw _ => {| world := w1; sessionStorage := sessionStorage tab |}
  end.

End WithEnv.

Definition getTrackedEvents (tab : Tab) : JSValue :=
  match JSON_parse (stored_text tab) with
  | Ok events => events
  | Throw _ => JArr []
  end.

Definition clearTrackedEvents (tab : Tab) : Tab :=
  {| world := world tab;
     sessionStorage := delete EVENTS_KEY (sessionStorage tab) |}.

End Analytics.

(* ================================================================== *)
(** * Notions the statements are written in *)
(* ================================================================== *)

(** The text of a number. *)
Module NumberText.
Import Str JS.

(** Significant digits: decimal digits with no zero at either end. *)
Definition sig_digits (ds : string) : Prop :=
  ds <> ""%string /\ all is_digit ds = true
  /\ head_sat is_zero_char ds = false
  /\ head_sat is_zero_char (rev ds) = false.

(** What may follow a number in a JSON text without being read as part
    of it. *)
Definition number_stop (c : ascii) : bool :=
  negb (is_digit c || Ascii.eqb c "." || Ascii.eqb c "e" || Ascii.eqb c "E").

Definition follow_ok (rest : string) : bool :=
  match rest with
  | String c _ => number_stop c
  | EmptyString => true
  end.

End NumberText.

(** Induction on values, and the text of a value. *)
Module JSONText.
Import Str JS NumberText.

Section JSValue_induction.
Variable P : JSValue -> Prop.
Hypothesis Hundef : P JUndefined.
Hypothesis Hnull : P JNull.
Hypothesis Hbool : forall b, P (JBool b).
Hypothesis Hnum : forall x, P (JNum x).
Hypothesis Hstr : forall s, P (JStr s).
Hypothesis Harr : forall xs, Forall P xs -> P (JArr xs).
Hypothesis Hobj : forall ps, Forall (fun kv => P (snd kv)) ps -> P (JObj ps).
Hypothesis Hbuiltin : forall f, P (JBuiltin f).

Fixpoint JSValue_ind (v : JSValue) : P v :=
  match v with
  | JUndefined => Hundef
  | JNull => Hnull
  | JBool b => Hbool b
  | JNum x => Hnum x
  | JStr s => Hstr s
  | JArr xs =>
      Harr xs ((fix go (l : list JSValue) : Forall P l :=
                  match l with
                  | [] => List.Forall_nil P
                  | x :: l' => @List.Forall_cons _ P x l' (JSValue_ind x) (go l')
                  end) xs)
  | JObj ps =>
      Hobj ps ((fix go (l : list (string * JSValue))
                  : Forall (fun kv => P (snd kv)) l :=
                  match l with
                  | [] => List.Forall_nil _
                  | kv :: l' => @List.Forall_cons _ _ kv l' (JSValue_ind (snd kv)) (go l')
                  end) ps)
  | JBuiltin f => Hbuiltin f
  end.
End JSValue_induction.

(** The characters a JSON value can start with. *)
Definition value_head (c : ascii) : bool :=
  is_digit c || Ascii.eqb c "-" || Ascii.eqb c "{" || Ascii.eqb c "["
  || Ascii.eqb c "034" || Ascii.eqb c "t" || Ascii.eqb c "f" || Ascii.eqb c "n".

Definition reads_back (x : JSValue) : Prop :=
  forall fuel rest,
    (size x <= fuel)%nat -> follow_ok rest = true ->
    parse_value fuel (text x +:+ rest) = Some (x, rest).

Definition member_text (kv : string * JSValue) : string :=
  quote (fst kv) +:+ ":" +:+ text (snd kv).

Definition jsonify_member (kv : string * JSValue) : option (string * JSValue) :=
  (fun x => (fst kv, x)) <$> jsonify (snd kv).

End JSONText.

(** What the stores read and write. *)
Module StoreNotions.
Import JS Runtime ClientStorage ClientOps.

(** What a read of the store makes of the text under its key. *)
Definition read_of (stored : option string) : result JSValue :=
  match stored with
  | None | Some EmptyString => Ok (JArr [])
  | Some s =>
      match JSON_parse s with
      | Ok v => Ok v
      | Throw _ => Ok (JArr [])
      end
  end.

(** [w'] differs from [w] at most in the text stored under [key], in the
    number of clock readings, and in nothing else: the built-in clients
    and every other key are as they were. *)
Definition writes_only (key : string) (w w' : World) : Prop :=
  mockClients w' = mockClients w
  /\ requests w' = requests w
  /\ forall k, k <> key -> localStorage w' !! k = localStorage w !! k.

(** A computation that writes under [key] only. *)
Definition confined {A} (key : string) (m : M A) : Prop :=
  forall w, writes_only key w (snd (m w)).

Definition created_with_custom_id (o : Outcome) : Prop :=
  forall c, o = Created (Ok c) ->
            exists id, get c "id" = Ok (JStr id) /\ isCustomClient id = true.

End StoreNotions.

(** The record [generateMeetingPrep] builds, and the answer of
    [generateCRMUpdate] for a client it has no data for. *)
Module AdapterNotions.
Import JS Runtime OpenAI.

(** The value of [parsed.k], [undefined] where the read would throw. *)
Definition field (parsed : JSValue) (k : string) : JSValue :=
  match get parsed k with
  | Ok v => v
  | Throw _ => JUndefined
  end.

(** The record [generateMeetingPrep] returns for a parsed payload. *)
Definition prep_of (parsed : JSValue) : JSValue :=
  JObj
    [ ("clientSnapshot", JStr (ensureString (field parsed "clientSnapshot")));
      ("recentContext", JStr (ensureString (field parsed "recentContext")));
      ("keyTopicsToDiscuss",
       strings (ensureStringArray (field parsed "keyTopicsToDiscuss")));
      ("openActionItems",
       strings (ensureStringArray (field parsed "openActionItems")));
      ("questionsToAsk",
       strings (ensureStringArray (field parsed "questionsToAsk")));
      ("potentialConcerns", JStr (ensureString (field parsed "potentialConcerns")));
      ("relationshipNotes", JStr (ensureString (field parsed "relationshipNotes"))) ].

(** The request [generateMeetingPrep] sends for a prompt. *)
Definition prep_request (apiKey : JSValue) (prompt : string) : Request :=
  {| url := OPENAI_API_URL;
     init :=
       request_init apiKey
         (JObj
            [ ("model", JStr "gpt-4o-mini");
              ("messages",
               JArr
                 [ JObj [ ("role", JStr "system");
                          ("content", JStr "You are a helpful financial advisor assistant that creates concise, actionable meeting prep guides. Always respond with valid JSON only.") ];
                   JObj [ ("role", JStr "user"); ("content", JStr prompt) ] ]);
              ("temperature", num "0.7");
              ("max_tokens", num "1500");
              ("response_format", JObj [ ("type", JStr "json_object") ]) ]) |}.

(** The answer for a client id the table does not know. *)
Definition empty_update (timestamp : string) : JSValue :=
  JObj [ ("fieldUpdates", JArr []);
         ("tasks", JArr []);
         ("auditLog",
          JObj [ ("summary", JStr "No updates extracted from meeting notes.");
                 ("tags", JArr []);
                 ("timestamp", JStr timestamp) ]) ].

End AdapterNotions.

(** Orders on records. *)
Module InteractionNotions.
Import JS Runtime Storage AdapterNotions.

(** Sorted by a key, largest first. *)
Definition desc {A : Type} (key : A -> Z) (a b : A) : Prop := key b <= key a.

Definition is_object (v : JSValue) : bool :=
  match v with
  | JObj _ => true
  | _ => false
  end.

(** [i.clientId === clientId], for a record [i]. *)
Definition belongs_to (clientId : string) (i : JSValue) : bool :=
  strict_eq_str (field i "clientId") clientId.

(** [a] is dated no earlier than [b]. *)
Definition newest_first (env : Env) (a b : JSValue) : Prop :=
  exists ta tb, event_time env a = Some ta /\ event_time env b = Some tb /\ tb <= ta.

Definition dated (env : Env) (i : JSValue) : Prop := event_time env i <> None.

(** A sample as stored: a record of the client [owner]. *)
Definition seeded_for (owner : string) (n : JSValue) : Prop :=
  is_object n = true /\ field n "clientId" = JStr owner.

(** A sample as written in the source. *)
Definition sample_of (owner : string) (s : JSValue) : Prop :=
  is_object s = true /\ js_wf s = true /\ field s "clientId" = JStr owner.

End InteractionNotions.

(** Goals and accounts as the types of [types.ts] have them. *)
Module Records.
Import JS.

(** A well-typed [Goal]: [id], [name], [targetAmount], [currentAmount],
    [targetDate]. *)
Record Goal : Type :=
  { goal_id : string; goal_name : string; targetAmount : JSNumber;
    currentAmount : JSNumber; targetDate : string }.

(** A well-typed [Account].  Its [type] is one of five strings in
    [types.ts]; what is proved here holds for every string. *)
Record Account : Type :=
  { account_id : string; account_name : string; account_type : string;
    balance : JSNumber }.

Definition goal_json (g : Goal) : JSValue :=
  JObj [ ("id", JStr (goal_id g)); ("name", JStr (goal_name g));
         ("targetAmount", JNum (targetAmount g));
         ("currentAmount", JNum (currentAmount g));
         ("targetDate", JStr (targetDate g)) ].

Definition account_json (a : Account) : JSValue :=
  JObj [ ("id", JStr (account_id a)); ("name", JStr (account_name a));
         ("type", JStr (account_type a)); ("balance", JNum (balance a)) ].

(** An amount is a finite number, which [JSON.stringify] writes in
    full ([NaN] and the infinities it writes as [null]). *)
Definition amount_ok (x : JSNumber) : Prop := is_finite x = true /\ num_wf x = true.

Definition goal_ok (g : Goal) : Prop :=
  amount_ok (targetAmount g) /\ amount_ok (currentAmount g).

Definition account_ok (a : Account) : Prop := amount_ok (balance a).

Definition with_goal_id (id : string) (g : Goal) : Goal :=
  {| goal_id := id; goal_name := goal_name g; targetAmount := targetAmount g;
     currentAmount := currentAmount g; targetDate := targetDate g |}.

Definition with_account_id (id : string) (a : Account) : Account :=
  {| account_id := id; account_name := account_name a;
     account_type := account_type a; balance := balance a |}.

End Records.

(** Worlds and records to run the stores on. *)
Module Scenario.
Import JS Runtime Records.

(** The form data of a new client. *)
Definition new_client : JSValue := JObj [ ("name", JStr "Ada Park") ].

(** The id the browser gives to the first record it creates. *)
Definition custom_id : string := "client-custom-1733047200000-k3j9x0q1z".

(** The world after [addClient(new_client)]. *)
Definition one_custom : World :=
  snd (ClientStorage.addClient Browser.env new_client MockClients.initial_world).

(** The world after [updateClient(custom_id, { id: 'client-001' })]. *)
Definition renamed : World :=
  snd (ClientStorage.updateClient custom_id (JObj [ ("id", JStr "client-001") ])
         one_custom).

(** An interaction as a caller hands it to [addInteraction]. *)
Definition call_fields (clientId date : string) : list (string * JSValue) :=
  [ ("clientId", JStr clientId); ("date", JStr date); ("type", JStr "call");
    ("title", JStr "Check-in"); ("notes", JStr "Nothing new.");
    ("actionItems", JArr []) ].

Definition call (clientId date : string) : JSValue := JObj (call_fields clientId date).

(** The world after three calls are recorded. *)
Definition diary : World :=
  snd (forEach (fun i => do! Storage.addInteraction Browser.env i in ret tt)
         [ call "client-001" "2024-03-10"; call "client-002" "2024-06-01";
           call "client-001" "2024-09-21" ]
         MockClients.initial_world).

(** The records stored in [diary]. *)
Definition diary_records : list JSValue :=
  match fst (Storage.getAllInteractions diary) with
  | Ok (JArr xs) => xs
  | _ => []
  end.

(** The world after three calls with one client are recorded in turn,
    the second with the date of the form left empty. *)
Definition undated_diary : World :=
  snd (forEach (fun i => do! Storage.addInteraction Browser.env i in ret tt)
         [ call "client-001" "2024-01-01"; call "client-001" "";
           call "client-001" "2024-12-01" ]
         MockClients.initial_world).

Definition retirement : Goal :=
  {| goal_id := "goal-001"; goal_name := "Retirement at 62";
     targetAmount := parseFloat "3000000"; currentAmount := parseFloat "2100000";
     targetDate := "2029-06-01" |}.

Definition joint_brokerage : Account :=
  {| account_id := "acc-001"; account_name := "Joint Brokerage";
     account_type := "Brokerage"; balance := parseFloat "1250000.5" |}.

End Scenario.

(** Records of the stores by their id. *)
Module RecordNotions.
Import JS Runtime AdapterNotions InteractionNotions.

(** [c.id === id], for a record [c]. *)
Definition id_is (id : string) (c : JSValue) : bool :=
  strict_eq_str (field c "id") id.

(** The own property [k] of an object. *)
Definition own (v : JSValue) (k : string) : option JSValue :=
  match v with
  | JObj ps => obj_lookup k ps
  | _ => None
  end.

(** The position of the first record with the id. *)
Fixpoint index_of (id : string) (xs : list JSValue) : option nat :=
  match xs with
  | [] => None
  | x :: xs' => if id_is id x then Some O else S <$> index_of id xs'
  end.

Section OneStore.
Variable key : string.
Variable read : M JSValue.

(** [deleteClient] and [deleteInteraction] are one text but for the key
    and the read: this is the text. *)
Definition delete_by_id (id : string) : M bool :=
  let! all := read in
  let? xs := as_array all in
  let? filtered := filterM (ClientStorage.has_other_id id) xs in
  if (length filtered =? length xs)%nat then ret false
  else
    do! ClientStorage.store key (JArr filtered) in
    ret true.

(** [updateClient] and [updateInteraction] likewise. *)
Definition update_by_id (id : string) (updates : JSValue) : M JSValue :=
  let! all := read in
  let? xs := as_array all in
  let? index := findIndexM (ClientStorage.has_id id) xs in
  match index with
  | None => ret JNull
  | Some i =>
      let updated :=
        JObj (obj_assign (obj_assign [] (spread_props (nth i xs JUndefined)))
                         (spread_props updates)) in
      do! ClientStorage.store key (JArr (<[i := updated]> xs)) in
      ret updated
  end.

End OneStore.

End RecordNotions.

(** More worlds and records to run the code on. *)
Module Fixtures.
Import JS Runtime.

(** The built-in clients. *)
Definition builtins : list JSValue :=
  match MockClients.mockClients with
  | JArr ms => ms
  | _ => []
  end.

(** The custom client of [Scenario.one_custom] as persisted. *)
Definition ada : JSValue :=
  JObj [ ("name", JStr "Ada Park"); ("id", JStr Scenario.custom_id) ].

(** A form as typed, and the same form with no name. *)
Definition ada_form : App.ClientForm :=
  {| App.form_name := "Ada Park"; App.form_aum := "$1,250,000";
     App.form_riskProfile := "Moderate"; App.form_advisor := "Sarah Mitchell";
     App.goalsText := "Retirement | 3000000 | 2100000 | 2030-01-01";
     App.accountsText := "My 401k | 401(k) | 50000" |}.

(** Goals as typed into the form, one per line: a full line, a blank
    line, and a line with a name alone. *)
Definition goal_lines : string :=
  "Retirement | $3,000,000 | 2.1m? | 2045-06-30" +:+ nl +:+ "   " +:+ nl +:+ "Trip".

(** Accounts as typed: a type in capitals and a balance with commas,
    then a line of separators alone. *)
Definition account_lines : string :=
  "Savings | ROTH | 10,500.75" +:+ nl +:+ " | | ".

Definition nameless_form : App.ClientForm :=
  {| App.form_name := ""; App.form_aum := "$1,250,000";
     App.form_riskProfile := "Moderate"; App.form_advisor := "Sarah Mitchell";
     App.goalsText := ""; App.accountsText := "" |}.

(** The same provider for every request: it answers with [response]. *)
Definition provider (response : Runtime.Response) : Env :=
  {| Date_now := Date_now Browser.env;
     random_suffix := random_suffix Browser.env;
     toISOString := toISOString Browser.env;
     Date_parse := Date_parse Browser.env;
     VITE_OPENAI_API_KEY := JStr "sk-test";
     fetch_outcome := fun _ _ => Ok response |}.

(** What a provider may make of a document: the AUM as a text, a
    profile and an account type that are not of the lists, a goal with
    no name and an amount in words. *)
Definition odd_client : JSValue :=
  JObj [ ("name", JStr "Kim Lee"); ("aum", JStr "1.5e6");
         ("riskProfile", JStr "Balanced");
         ("goals", JArr [ JObj [ ("targetAmount", JStr "a lot");
                                 ("currentAmount", num "2500") ] ]);
         ("accounts", JArr [ JObj [ ("name", JStr "Savings"); ("type", JStr "Savings");
                                    ("balance", num "10") ] ]) ].



End Fixtures.

(** What the record parser makes of a line. *)
Module FormNotions.
Import JS Runtime App.

(** [w'] is [w] but for the number of clock readings. *)
Definition clock_only (w w' : World) : Prop :=
  localStorage w' = localStorage w /\ mockClients w' = mockClients w
  /\ requests w' = requests w.

(** A computation that touches nothing but the clock. *)
Definition ticking {A} (m : M A) : Prop := forall w, clock_only w (snd (m w)).

(** [w'] is [w] after some readings of the clock, and nothing else. *)
Definition later (w w' : World) : Prop :=
  clock_only w w' /\ (tick w <= tick w')%nat.

(** The lines of a text that are not blank. *)
Definition filled_lines (text : string) : list string :=
  List.filter (fun l => negb (String.eqb (Str.trim l) "")) (Str.split "010" text).

(** What stands at position [i] between the [|] of a line, without the
    blanks around it; [None] when the line has fewer positions or
    nothing stands there. *)
Definition part (line : string) (i : nat) : option string :=
  match List.map Str.trim (Str.split "|" line) !! i with
  | Some (String c r) => Some (String c r)
  | _ => None
  end.

(** The number [parseFloat] reads in the digits and points of a part;
    0 when there is no part, or no digit and no point in it. *)
Definition number_in (p : option string) : JSValue :=
  match p with
  | Some s =>
      match Str.filter (fun c => Str.is_digit c || Ascii.eqb c ".") s with
      | EmptyString => num "0"
      | t => JNum (parseFloat t)
      end
  | None => num "0"
  end.

(** The names of account types the form knows, in lower case. *)
Definition type_names : list (string * JSValue) :=
  [ ("ira", JStr "IRA"); ("traditional ira", JStr "IRA");
    ("roth", JStr "Roth IRA"); ("roth ira", JStr "Roth IRA");
    ("401k", JStr "401k"); ("401(k)", JStr "401k");
    ("brokerage", JStr "Brokerage"); ("trust", JStr "Trust") ].

(** The account type for a part: the type of its name, whatever the
    case of its letters; [Brokerage] when there is no part or the name
    is not known; and for the name of a member every object inherits
    ([constructor], [toString], ...) that member. *)
Definition type_in (p : option string) : JSValue :=
  let name := Str.toLowerCase (default "brokerage"%string p) in
  match obj_lookup name type_names with
  | Some t => t
  | None =>
      match proto_lookup name with
      | JUndefined => JStr "Brokerage"
      | inherited => inherited
      end
  end.

(** The day of the [k]-th reading of the clock, as [YYYY-MM-DD]. *)
Definition day_at (env : Env) (k : nat) : string :=
  hd ""%string (Str.split "T" (toISOString env (Date_now env k))).

(** The id made at the [k]-th reading: the prefix, the time read, and
    the random suffix drawn next. *)
Definition id_at (env : Env) (prefix : string) (k : nat) : string :=
  prefix +:+ Number_toString (of_N (Date_now env k)) +:+ "-"
  +:+ random_suffix env (S k).

(** The goal [g] is what the line parser makes of [line] between the
    worlds [w] and [w']: name, target amount, current amount and target
    date by position, [Goal], 0, 0 and the day of the call where the
    line has none, and an id of its own made after the date was read. *)
Definition goal_of (env : Env) (w w' : World) (line : string) (g : JSValue) : Prop :=
  get g "name" = Ok (JStr (default "Goal"%string (part line 0)))
  /\ get g "targetAmount" = Ok (number_in (part line 1))
  /\ get g "currentAmount" = Ok (number_in (part line 2))
  /\ exists k, (tick w <= k)%nat
       /\ match part line 3 with
          | Some date =>
              get g "targetDate" = Ok (JStr date)
              /\ get g "id" = Ok (JStr (id_at env "goal-" k))
              /\ (k + 2 <= tick w')%nat
          | None =>
              get g "targetDate" = Ok (JStr (day_at env k))
              /\ get g "id" = Ok (JStr (id_at env "goal-" (S k)))
              /\ (k + 3 <= tick w')%nat
          end.

(** The account [a] is what the line parser makes of [line]: name, type
    and balance by position, [Account], [Brokerage] and 0 where the line
    has none, and an id of its own. *)
Definition account_of (env : Env) (w w' : World) (line : string) (a : JSValue) : Prop :=
  get a "name" = Ok (JStr (default "Account"%string (part line 0)))
  /\ get a "type" = Ok (type_in (part line 1))
  /\ get a "balance" = Ok (number_in (part line 2))
  /\ exists k, (tick w <= k)%nat /\ (k + 2 <= tick w')%nat
               /\ get a "id" = Ok (JStr (id_at env "acc-" k)).

(** The record [r] is made of the element [x] of a JSON array: the
    members named in [names] as [x] has them, whatever they are, and an
    id of its own. *)
Definition record_from (prefix : string) (names : list string)
    (env : Env) (w w' : World) (x r : JSValue) : Prop :=
  Forall (fun name => get r name = get x name) names
  /\ exists k, (tick w <= k)%nat /\ (k + 2 <= tick w')%nat
               /\ get r "id" = Ok (JStr (id_at env prefix k)).

Definition goal_from : Env -> World -> World -> JSValue -> JSValue -> Prop :=
  record_from "goal-" ["name"; "targetAmount"; "currentAmount"; "targetDate"]%string.

Definition account_from : Env -> World -> World -> JSValue -> JSValue -> Prop :=
  record_from "acc-" ["name"; "type"; "balance"]%string.

(** What [parse] makes of a text, by the shape of the text.  It never
    throws and only reads the clock.  A blank text, and a text that is
    JSON but not an array, give no record.  A JSON array without [null]
    gives one record per element, in order.  Any other text (one that
    is not JSON, or a JSON array with a [null] in it, on which the
    attempt throws) gives one record per line that is not blank, in
    order. *)
Definition parses_by_shape
    (parse : string -> M (list JSValue))
    (of_element : World -> World -> JSValue -> JSValue -> Prop)
    (of_line : World -> World -> string -> JSValue -> Prop) : Prop :=
  forall (text : string) (w : World),
    (exists rs w', parse text w = (Ok rs, w') /\ later w w')
    /\ (Str.trim text = ""%string -> parse text w = (Ok [], w))
    /\ (forall v, JSON_parse text = Ok v -> (forall xs, v <> JArr xs) ->
          parse text w = (Ok [], w))
    /\ (forall xs, Str.trim text <> ""%string -> JSON_parse text = Ok (JArr xs) ->
          ~ In JNull xs ->
          exists rs w', parse text w = (Ok rs, w')
                        /\ Forall2 (of_element w w') xs rs)
    /\ (Str.trim text <> ""%string ->
        (exists e, JSON_parse text = Throw e)
        \/ (exists xs, JSON_parse text = Ok (JArr xs) /\ In JNull xs) ->
        exists rs w', parse text w = (Ok rs, w')
                      /\ Forall2 (of_line w w') (filled_lines text) rs).

End FormNotions.

(** The answers of the provider. *)
Module AnswerNotions.
Import JS Runtime OpenAI AdapterNotions.

(** A text inside a Markdown code fence, with the language tag [lang]
    (empty or [json]). *)
Definition fenced (lang body : string) : string :=
  "```" +:+ lang +:+ nl +:+ body +:+ nl +:+ "```".



(** The request [parseClientFromDocuments] sends for its documents. *)
Definition ingest_request (apiKey : JSValue) (docs : list string) : Request :=
  {| url := OPENAI_API_URL;
     init :=
       request_init apiKey
         (JObj
            [ ("model", JStr "gpt-4o-mini");
              ("messages",
               JArr
                 [ JObj [ ("role", JStr "system");
                          ("content", JStr DocIngest.systemPrompt) ];
                   JObj [ ("role", JStr "user");
                          ("content",
                           JStr (DocIngest.userPrompt
                                   (Str.join (nl +:+ nl +:+ "----" +:+ nl +:+ nl) docs))) ] ]);
              ("temperature", num "0.3");
              ("max_tokens", num "2000");
              ("response_format", JObj [ ("type", JStr "json_object") ]) ]) |}.

(** A successful response with the message text [content]. *)
Definition answer (content : JSValue) : Response :=
  {| ok := true; status := 200;
     json := Ok (JObj [ ("choices",
                         JArr [ JObj [ ("message",
                                        JObj [ ("content", content) ]) ] ]) ]) |}.

Definition no_response : JSError := Error "No response from OpenAI".

Definition prep_parse_error : JSError :=
  Error "Failed to parse AI response. Please try again.".

Definition client_parse_error : JSError :=
  Error "Failed to parse client data from documents. Please try again.".

(** A message text that holds no JSON value, or [null]. *)
Definition no_object (text : string) : Prop :=
  (exists e, JSON_parse text = Throw e) \/ JSON_parse text = Ok JNull.

End AnswerNotions.

(** The shape of a client read from documents. *)
Module IngestNotions.
Import JS Runtime AdapterNotions InteractionNotions.

(** A value other than [NaN]. *)
Definition not_nan (v : JSValue) : Prop := v <> JNum NaN.

(** A number, and not [NaN]. *)
Definition is_number (v : JSValue) : Prop := exists x, v = JNum x /\ x <> NaN.

Definition valid_profile (v : JSValue) : Prop :=
  In v [JStr "Conservative"; JStr "Moderate"; JStr "Moderate-Aggressive";
        JStr "Aggressive"].

Definition valid_type (v : JSValue) : Prop :=
  In v [JStr "IRA"; JStr "Brokerage"; JStr "401k"; JStr "Roth IRA"; JStr "Trust"].

Definition goal_shape (g : JSValue) : Prop :=
  truthy (field g "id") = true /\ truthy (field g "name") = true
  /\ is_number (field g "targetAmount") /\ is_number (field g "currentAmount").

Definition account_shape (a : JSValue) : Prop :=
  truthy (field a "id") = true /\ truthy (field a "name") = true
  /\ valid_type (field a "type") /\ is_number (field a "balance").

Definition client_shape (c : JSValue) : Prop :=
  truthy (field c "id") = true /\ truthy (field c "name") = true
  /\ is_number (field c "aum") /\ valid_profile (field c "riskProfile")
  /\ truthy (field c "advisor") = true
  /\ (exists gs, field c "goals" = JArr gs /\ Forall goal_shape gs)
  /\ (exists accs, field c "accounts" = JArr accs /\ Forall account_shape accs).

End IngestNotions.

(** Tabs to track events in. *)
Module AnalyticsNotions.
Import JS Runtime Analytics.

(** The payload [track] builds at the clock reading of [w]. *)
Definition payload_of (env : Env) (event : string) (properties : JSValue) (w : World)
  : JSValue :=
  JObj [ ("event", JStr event);
         ("properties", or_else properties (JObj []));
         ("timestamp", JStr (toISOString env (Date_now env (tick w)))) ].

(** The list after one more event: the oldest event goes when the list
    would pass 100. *)
Definition capped (xs : list JSValue) (x : JSValue) : list JSValue :=
  if (100 <=? length xs)%nat then tl (xs ++ [x]) else xs ++ [x].

(** A tab with [text] as the stored events. *)
Definition tab_with (text : string) : Tab :=
  {| world := MockClients.initial_world;
     sessionStorage := {[ EVENTS_KEY := text ]} |}.

(** A fresh tab. *)
Definition fresh_tab : Tab :=
  {| world := MockClients.initial_world; sessionStorage := ∅ |}.

(** A hundred events, and a tab that holds them. *)
Definition hundred : list JSValue :=
  List.repeat (JObj [ ("event", JStr "client_selected"); ("properties", JObj []);
                      ("timestamp", JStr "2024-12-01T09:00:00.000Z") ]) 100.

Definition full_tab : Tab := tab_with (text (JArr hundred)).

End AnalyticsNotions.

(* ================================================================== *)
(** * Strings and numbers *)
(* ================================================================== *)

Module StrFacts.
Import Str.

Lemma sapp_cons (c : ascii) (a b : string) : String c a +:+ b = String c (a +:+ b).
Proof. reflexivity. Qed.

Lemma sapp_nil_l (s : string) : "" +:+ s = s.
Proof. reflexivity. Qed.

Lemma sapp_nil_r (s : string) : s +:+ "" = s.
Proof. induction s as [|c s IH]; [reflexivity | now rewrite sapp_cons, IH]. Qed.

Lemma sapp_assoc (a b c : string) : (a +:+ b) +:+ c = a +:+ (b +:+ c).
Proof. induction a as [|x a IH]; [reflexivity | now rewrite !sapp_cons, IH]. Qed.

Lemma slength_app (a b : string) :
  String.length (a +:+ b) = (String.length a + String.length b)%nat.
Proof. induction a as [|x a IH]; [reflexivity | rewrite sapp_cons; cbn; now rewrite IH]. Qed.

Lemma rev_onto_app (s acc : string) : rev_onto s acc = rev s +:+ acc.
Proof.
  unfold rev. revert acc.
  induction s as [|c s IH]; intros acc; cbn; [reflexivity|].
  rewrite IH, (IH (String c "")), sapp_assoc. reflexivity.
Qed.

Lemma srev_cons (c : ascii) (s : string) : rev (String c s) = rev s +:+ String c "".
Proof. unfold rev at 1. cbn. apply rev_onto_app. Qed.

Lemma srev_app (a b : string) : rev (a +:+ b) = rev b +:+ rev a.
Proof.
  induction a as [|c a IH].
  - now rewrite sapp_nil_l, sapp_nil_r.
  - rewrite sapp_cons, !srev_cons, IH, sapp_assoc. reflexivity.
Qed.

Lemma srev_involutive (s : string) : rev (rev s) = s.
Proof.
  induction s as [|c s IH]; [reflexivity|].
  rewrite srev_cons, srev_app, IH. reflexivity.
Qed.

Lemma sall_app p a b : all p (a +:+ b) = all p a && all p b.
Proof.
  induction a as [|c a IH]; [reflexivity|].
  rewrite sapp_cons. cbn. rewrite IH. now rewrite andb_assoc.
Qed.

Lemma all_repeat p c n : p c = true -> all p (repeat c n) = true.
Proof. intros Hc. induction n; cbn; [reflexivity | now rewrite Hc]. Qed.

Lemma span_app p a rest :
  all p a = true -> head_sat p rest = false -> span p (a +:+ rest) = (a, rest).
Proof.
  intros Ha Hr. induction a as [|c a IH].
  - rewrite sapp_nil_l. destruct rest as [|c r]; [reflexivity|].
    cbn in *. now rewrite Hr.
  - cbn in Ha. apply andb_true_iff in Ha as [Hc Ha].
    rewrite sapp_cons. cbn. rewrite Hc, (IH Ha). reflexivity.
Qed.

Lemma span_all p a : all p a = true -> span p a = (a, ""%string).
Proof.
  intros Ha. rewrite <- (sapp_nil_r a) at 1. now apply span_app.
Qed.

Lemma drop_while_app_all p a b :
  all p a = true -> drop_while p (a +:+ b) = drop_while p b.
Proof.
  intros Ha. induction a as [|c a IH]; [reflexivity|].
  cbn in Ha. apply andb_true_iff in Ha as [Hc Ha].
  rewrite sapp_cons. cbn. now rewrite Hc, IH.
Qed.

Lemma drop_while_head p s : head_sat p s = false -> drop_while p s = s.
Proof. destruct s as [|c s]; cbn; [reflexivity|]. now intros ->. Qed.

Lemma srev_repeat c n : rev (repeat c n) = repeat c n.
Proof.
  induction n as [|n IH]; [reflexivity|].
  cbn [repeat]. rewrite srev_cons, IH. clear IH.
  induction n as [|n IH]; [reflexivity|].
  cbn [repeat]. rewrite sapp_cons. now rewrite IH.
Qed.

Lemma drop_while_end_app_repeat p a c n :
  p c = true -> head_sat p (rev a) = false ->
  drop_while_end p (a +:+ repeat c n) = a.
Proof.
  intros Hc Ha. unfold drop_while_end.
  rewrite srev_app, srev_repeat, drop_while_app_all by now apply all_repeat.
  rewrite drop_while_head by assumption. apply srev_involutive.
Qed.

Lemma drop_while_end_id p a : head_sat p (rev a) = false -> drop_while_end p a = a.
Proof.
  intros Ha. unfold drop_while_end.
  rewrite drop_while_head by assumption. apply srev_involutive.
Qed.

Lemma stake_drop n s : take n s +:+ drop n s = s.
Proof.
  revert s. induction n as [|n IH]; intros [|c s]; try reflexivity.
  cbn [take drop]. now rewrite sapp_cons, IH.
Qed.

Lemma slength_repeat c n : String.length (repeat c n) = n.
Proof. induction n; cbn; congruence. Qed.

Lemma slength_take n s : (n <= String.length s)%nat -> String.length (take n s) = n.
Proof.
  revert s. induction n as [|n IH]; intros [|c s] H; cbn in *; try reflexivity; try lia.
  rewrite IH; [reflexivity | lia].
Qed.

Lemma all_take p n s : all p s = true -> all p (take n s) = true.
Proof.
  revert s. induction n as [|n IH]; intros [|c s] H; cbn in *; try reflexivity.
  apply andb_true_iff in H as [-> H]. now rewrite IH.
Qed.

Lemma all_drop p n s : all p s = true -> all p (drop n s) = true.
Proof.
  revert s. induction n as [|n IH]; intros [|c s] H; cbn in *; try reflexivity; try assumption.
  apply andb_true_iff in H as [_ H]. now apply IH.
Qed.

(** ** Decimal digits *)

Lemma digit_char_is_digit d : 0 <= d < 10 -> is_digit (digit_char d) = true.
Proof.
  intros H.
  assert (d = 0 \/ d = 1 \/ d = 2 \/ d = 3 \/ d = 4 \/ d = 5 \/ d = 6
          \/ d = 7 \/ d = 8 \/ d = 9) as Hd by lia.
  repeat destruct Hd as [-> | Hd]; try subst d; reflexivity.
Qed.

Lemma digit_val_char d : 0 <= d < 10 -> digit_val (digit_char d) = d.
Proof.
  intros H.
  assert (d = 0 \/ d = 1 \/ d = 2 \/ d = 3 \/ d = 4 \/ d = 5 \/ d = 6
          \/ d = 7 \/ d = 8 \/ d = 9) as Hd by lia.
  repeat destruct Hd as [-> | Hd]; try subst d; reflexivity.
Qed.

Lemma mod10_bound (n : N) : 0 <= Z.of_N (n mod 10) < 10.
Proof.
  assert (n mod 10 < 10)%N as H by (apply N.mod_lt; discriminate).
  split; [apply N2Z.is_nonneg|]. change 10 with (Z.of_N 10). now apply N2Z.inj_lt.
Qed.

Lemma to_N_go_app a b x : to_N_go (a +:+ b) x = to_N_go b (to_N_go a x).
Proof.
  revert x. induction a as [|c a IH]; intros x; [reflexivity|].
  rewrite sapp_cons. cbn. apply IH.
Qed.

Lemma digits_go_spec fuel n acc :
  (n < 2 ^ N.of_nat (S fuel))%N ->
  exists s, digits_go (S fuel) n acc = s +:+ acc
            /\ all is_digit s = true /\ s <> ""%string
            /\ forall x, to_N_go s x = (x * 10 ^ N.of_nat (String.length s) + n)%N.
Proof.
  revert n acc. induction fuel as [|fuel IH]; intros n acc Hn.
  - assert (n / 10 = 0)%N as Hz.
    { apply N.div_small. change (2 ^ N.of_nat 1)%N with 2%N in Hn. lia. }
    cbn [digits_go]. rewrite Hz. cbn [N.eqb].
    exists (String (digit_char (Z.of_N (n mod 10))) "").
    assert (n mod 10 = n)%N as Hm by (apply N.mod_small; change (2 ^ N.of_nat 1)%N with 2%N in Hn; lia).
    assert (0 <= Z.of_N (n mod 10) < 10) as Hd by apply mod10_bound.
    repeat split.
    + cbn. now rewrite digit_char_is_digit.
    + discriminate.
    + intros x. cbn. rewrite digit_val_char by assumption. rewrite Hm.
      change (10 ^ N.of_nat 1)%N with 10%N. lia.
  - remember (S fuel) as f eqn:Hf.
    cbn [digits_go].
    assert (0 <= Z.of_N (n mod 10) < 10) as Hd by apply mod10_bound.
    destruct (n / 10 =? 0)%N eqn:Hq.
    + apply N.eqb_eq in Hq.
      exists (String (digit_char (Z.of_N (n mod 10))) "").
      assert (n mod 10 = n)%N as Hm.
      { pose proof (N.div_mod n 10). lia. }
      repeat split.
      * cbn. now rewrite digit_char_is_digit.
      * discriminate.
      * intros x. cbn. rewrite digit_val_char by assumption. rewrite Hm.
        change (10 ^ N.of_nat 1)%N with 10%N. lia.
    + apply N.eqb_neq in Hq.
      assert (n / 10 < 2 ^ N.of_nat f)%N as Hlt.
      { apply N.Div0.div_lt_upper_bound.
        rewrite Nat2N.inj_succ, N.pow_succ_r' in Hn. lia. }
      destruct (IH (n / 10)%N (String (digit_char (Z.of_N (n mod 10))) acc) Hlt)
        as (s & Hs & Hall & Hne & Hval).
      exists (s +:+ String (digit_char (Z.of_N (n mod 10))) "").
      repeat split.
      * rewrite Hs, sapp_assoc. reflexivity.
      * rewrite sall_app, Hall. cbn. now rewrite digit_char_is_digit.
      * destruct s; [congruence | discriminate].
      * intros x. rewrite to_N_go_app, Hval. cbn.
        rewrite digit_val_char by assumption.
        rewrite slength_app. cbn [String.length].
        replace (N.of_nat (String.length s + 1)) with (N.succ (N.of_nat (String.length s))) by lia.
        rewrite N.pow_succ_r'. pose proof (N.div_mod n 10). lia.
Qed.

Lemma of_N_spec n :
  all is_digit (of_N n) = true /\ of_N n <> ""%string
  /\ to_N (of_N n) = n.
Proof.
  unfold of_N, to_N.
  destruct (digits_go_spec (N.to_nat (N.log2 n)) n "") as (s & Hs & Hall & Hne & Hval).
  { rewrite Nat2N.inj_succ, N2Nat.id.
    destruct (N.eq_dec n 0%N) as [-> | Hn]; [reflexivity|].
    apply N.log2_spec. lia. }
  rewrite Hs, sapp_nil_r. repeat split; try assumption.
  rewrite Hval. lia.
Qed.

End StrFacts.

Module NumFacts.
Import Str JS StrFacts.
Export NumberText.

Lemma strip_zeros_repeat n s pt :
  strip_zeros (repeat "0" n +:+ s) pt = strip_zeros s (pt - Z.of_nat n).
Proof.
  revert pt. induction n as [|n IH]; intros pt.
  - rewrite sapp_nil_l. f_equal. lia.
  - cbn [repeat]. rewrite sapp_cons. cbn [strip_zeros].
    change (is_zero_char "0") with true. cbn iota. rewrite IH. f_equal. lia.
Qed.

Lemma strip_zeros_head s pt :
  head_sat is_zero_char s = false -> strip_zeros s pt = (s, pt).
Proof. destruct s as [|c s]; cbn; [reflexivity|]. now intros ->. Qed.

Lemma num_wf_sig neg ds pt :
  num_wf (Fin neg ds pt) = true -> ds <> ""%string -> sig_digits ds.
Proof.
  intros H Hne. destruct ds as [|c ds]; [congruence|].
  cbn [num_wf] in H.
  apply andb_true_iff in H as [H H3]. apply andb_true_iff in H as [H1 H2].
  apply negb_true_iff in H2, H3. now repeat split.
Qed.

Lemma make_number_padded neg a ds b pt :
  sig_digits ds ->
  make_number neg (repeat "0" a +:+ ds +:+ repeat "0" b) pt
  = Fin neg ds (pt - Z.of_nat a).
Proof.
  intros (Hne & Hall & Hh & Hl). unfold make_number.
  rewrite strip_zeros_repeat.
  rewrite strip_zeros_head.
  2:{ destruct ds as [|c ds]; [congruence|]. rewrite sapp_cons. exact Hh. }
  rewrite drop_while_end_app_repeat by (reflexivity || assumption).
  destruct ds; [congruence | reflexivity].
Qed.

Lemma make_number_trailing neg ds b pt :
  sig_digits ds -> make_number neg (ds +:+ repeat "0" b) pt = Fin neg ds pt.
Proof.
  intros H. pose proof (make_number_padded neg 0 ds b pt H) as E.
  cbn [repeat] in E. rewrite sapp_nil_l in E. rewrite E. f_equal. lia.
Qed.

Lemma make_number_leading neg a ds pt :
  sig_digits ds ->
  make_number neg (repeat "0" a +:+ ds) pt = Fin neg ds (pt - Z.of_nat a).
Proof.
  intros H. pose proof (make_number_padded neg a ds 0 pt H) as E.
  cbn [repeat] in E. now rewrite sapp_nil_r in E.
Qed.

Lemma make_number_sig neg ds pt :
  sig_digits ds -> make_number neg ds pt = Fin neg ds pt.
Proof.
  intros H. pose proof (make_number_padded neg 0 ds 0 pt H) as E.
  cbn [repeat] in E. rewrite sapp_nil_l, sapp_nil_r in E. rewrite E. f_equal. lia.
Qed.

Lemma follow_ok_digit rest : follow_ok rest = true -> head_sat is_digit rest = false.
Proof.
  destruct rest as [|c r]; [reflexivity|]. cbn. unfold number_stop.
  destruct (is_digit c); [discriminate | reflexivity].
Qed.

Lemma parse_frac_none rest : follow_ok rest = true -> parse_frac rest = Some (""%string, rest).
Proof.
  destruct rest as [|c r]; [reflexivity|]. cbn. unfold number_stop, parse_frac, after_char.
  destruct (Ascii.eqb c "."); [|reflexivity].
  rewrite orb_true_r. discriminate.
Qed.

Lemma parse_exp_none rest : follow_ok rest = true -> parse_exp rest = Some (0, rest).
Proof.
  destruct rest as [|c r]; [reflexivity|]. cbn. unfold number_stop, parse_exp. cbn.
  destruct (Ascii.eqb c "e"); [rewrite !orb_true_r; discriminate|].
  destruct (Ascii.eqb c "E"); [rewrite !orb_true_r; discriminate|]. reflexivity.
Qed.

Lemma parse_frac_some fp r :
  fp <> ""%string -> all is_digit fp = true -> head_sat is_digit r = false ->
  parse_frac ("." +:+ fp +:+ r) = Some (fp, r).
Proof.
  intros Hne Hall Hr. unfold parse_frac. rewrite sapp_cons, sapp_nil_l. cbn [after_char].
  change (Ascii.eqb "." ".") with true. cbn iota.
  rewrite span_app by assumption. destruct fp; [congruence | reflexivity].
Qed.

Lemma parse_exp_some e rest :
  head_sat is_digit rest = false ->
  parse_exp ("e" +:+ (if e <? 0 then "-" else "+") +:+ Str.of_N (Z.abs_N e) +:+ rest)
  = Some (e, rest).
Proof.
  intros Hr. destruct (StrFacts.of_N_spec (Z.abs_N e)) as (Hall & Hne & Hval).
  unfold parse_exp. rewrite sapp_cons, sapp_nil_l. cbn [head_sat].
  change (Ascii.eqb "e" "e" || Ascii.eqb "e" "E") with true. cbn iota.
  cbn [exponent_part]. change (Ascii.eqb "e" "e" || Ascii.eqb "e" "E") with true. cbn iota.
  destruct (e <? 0) eqn:He.
  - rewrite sapp_cons, sapp_nil_l. unfold signed. cbn [after_char].
    change (Ascii.eqb "-" "-") with true. cbn iota.
    rewrite span_app by assumption.
    destruct (Str.of_N (Z.abs_N e)) eqn:E; [congruence|]. rewrite Hval.
    f_equal. f_equal. apply Z.ltb_lt in He. lia.
  - rewrite sapp_cons, sapp_nil_l. unfold signed. cbn [after_char].
    change (Ascii.eqb "+" "-") with false. change (Ascii.eqb "+" "+") with true.
    cbn iota. cbn [default from_option]. unfold id.
    rewrite span_app by assumption.
    destruct (Str.of_N (Z.abs_N e)) eqn:E; [congruence|]. rewrite Hval.
    f_equal. f_equal. apply Z.ltb_ge in He. lia.
Qed.

Lemma parse_unsigned_int neg ip s2 :
  ip <> ""%string -> all is_digit ip = true ->
  head_sat is_zero_char ip = false -> head_sat is_digit s2 = false ->
  parse_unsigned neg (ip +:+ s2)
  = match parse_frac s2 with
    | None => None
    | Some (fp, s3) =>
        match parse_exp s3 with
        | None => None
        | Some (e, s4) =>
            Some (make_number neg (ip +:+ fp)
                    (Z.of_nat (String.length ip) + e), s4)
        end
    end.
Proof.
  intros Hne Hall Hz Hs2.
  pose proof (span_app is_digit ip s2 Hall Hs2) as Hspan.
  destruct ip as [|c ip]; [congruence|].
  rewrite sapp_cons in *. cbn [all] in Hall. cbn [head_sat] in Hz.
  apply andb_true_iff in Hall as [Hc Hall].
  unfold parse_unsigned. rewrite Hc, Hz, Hspan. reflexivity.
Qed.

Lemma parse_unsigned_zero neg s2 :
  parse_unsigned neg ("0" +:+ s2)
  = match parse_frac s2 with
    | None => None
    | Some (fp, s3) =>
        match parse_exp s3 with
        | None => None
        | Some (e, s4) => Some (make_number neg ("0" +:+ fp) (1 + e), s4)
        end
    end.
Proof. reflexivity. Qed.

Lemma sig_digits_cons ds :
  sig_digits ds ->
  exists c ds', ds = String c ds' /\ is_digit c = true /\ is_zero_char c = false.
Proof.
  intros (Hne & Hall & Hh & _). destruct ds as [|c ds']; [congruence|].
  exists c, ds'. cbn in Hall, Hh. apply andb_true_iff in Hall as [Hc _]. auto.
Qed.

Lemma parse_unsigned_digits_text neg ds n rest :
  sig_digits ds -> follow_ok rest = true ->
  parse_unsigned neg (digits_text ds n +:+ rest) = Some (Fin neg ds n, rest).
Proof.
  intros Hsig Hrest.
  pose proof Hsig as (Hne & Hall & Hh & Hl).
  destruct (sig_digits_cons ds Hsig) as (c & ds' & Eds & Hc & Hcz).
  assert (0 < Z.of_nat (String.length ds)) as Hk by (subst ds; cbn; lia).
  unfold digits_text.
  destruct ((Z.of_nat (String.length ds) <=? n) && (n <=? 21)) eqn:C1.
  { apply andb_true_iff in C1 as [C1 _]. apply Z.leb_le in C1.
    rewrite parse_unsigned_int; try assumption.
    - rewrite parse_frac_none, parse_exp_none by assumption.
      rewrite sapp_nil_r, make_number_trailing by assumption.
      do 3 f_equal. rewrite slength_app, slength_repeat. lia.
    - subst ds. discriminate.
    - rewrite sall_app, Hall. now apply all_repeat.
    - subst ds. exact Hh.
    - now apply follow_ok_digit. }
  destruct ((0 <? n) && (n <=? 21)) eqn:C2.
  { apply andb_true_iff in C2 as [C2 C2']. apply Z.ltb_lt in C2.
    apply andb_false_iff in C1 as [C1 | C1];
      [apply Z.leb_gt in C1 | apply Z.leb_gt in C1; apply Z.leb_le in C2'; lia].
    assert (Z.to_nat n <= String.length ds)%nat as Hle by lia.
    assert (exists m, Z.to_nat n = S m) as [m Em] by (exists (Z.to_nat n - 1)%nat; lia).
    rewrite !sapp_assoc.
    rewrite parse_unsigned_int.
    - rewrite parse_frac_some.
      + rewrite parse_exp_none by assumption.
        rewrite stake_drop, make_number_sig by assumption.
        do 3 f_equal. rewrite slength_take by assumption. lia.
      + intros E. pose proof (f_equal String.length (stake_drop (Z.to_nat n) ds)) as HL.
        rewrite slength_app, E, slength_take in HL by assumption. cbn in HL. lia.
      + now apply all_drop.
      + now apply follow_ok_digit.
    - rewrite Em, Eds. discriminate.
    - now apply all_take.
    - rewrite Em, Eds. exact Hcz.
    - reflexivity. }
  destruct ((-6 <? n) && (n <=? 0)) eqn:C3.
  { apply andb_true_iff in C3 as [_ C3]. apply Z.leb_le in C3.
    change ("0." +:+ repeat "0" (Z.to_nat (- n)) +:+ ds)
      with ("0" +:+ "." +:+ repeat "0" (Z.to_nat (- n)) +:+ ds).
    rewrite !sapp_assoc, parse_unsigned_zero.
    rewrite <- (sapp_assoc (repeat _ _) ds rest).
    rewrite parse_frac_some.
    - rewrite parse_exp_none by assumption.
      change ("0" +:+ repeat "0" (Z.to_nat (- n)) +:+ ds)
        with (repeat "0" (S (Z.to_nat (- n))) +:+ ds).
      rewrite make_number_leading by assumption. do 3 f_equal. lia.
    - subst ds. destruct (Z.to_nat (- n)); discriminate.
    - rewrite sall_app, Hall, all_repeat; reflexivity.
    - now apply follow_ok_digit. }
  assert (take 1 ds = String c "") as Et by (subst ds; reflexivity).
  assert (drop 1 ds = ds') as Ed by (subst ds; reflexivity).
  rewrite Et, Ed. rewrite !sapp_assoc.
  rewrite parse_unsigned_int.
  2: discriminate.
  2:{ cbn. now rewrite Hc. }
  2: exact Hcz.
  2:{ destruct (Z.of_nat (String.length ds) =? 1); reflexivity. }
  destruct (Z.of_nat (String.length ds) =? 1) eqn:K1.
  - apply Z.eqb_eq in K1.
    assert (ds' = ""%string) as ->.
    { subst ds. destruct ds'; [reflexivity | cbn in K1; lia]. }
    rewrite sapp_nil_l.
    assert (parse_frac ("e" +:+ (if n - 1 <? 0 then "-" else "+")
              +:+ Str.of_N (Z.abs_N (n - 1)) +:+ rest)
            = Some (""%string,
                    "e" +:+ (if n - 1 <? 0 then "-" else "+")
                    +:+ Str.of_N (Z.abs_N (n - 1)) +:+ rest)) as -> by reflexivity.
    rewrite parse_exp_some by now apply follow_ok_digit.
    rewrite sapp_nil_r. rewrite <- Eds, make_number_sig by assumption.
    do 3 f_equal. cbn. lia.
  - apply Z.eqb_neq in K1.
    rewrite !sapp_assoc.
    rewrite parse_frac_some.
    + rewrite parse_exp_some by now apply follow_ok_digit.
      change (String c "" +:+ ds') with (String c ds').
      rewrite <- Eds, make_number_sig by assumption.
      do 3 f_equal. cbn. lia.
    + intros ->. subst ds. cbn in K1. lia.
    + subst ds. cbn in Hall. now apply andb_true_iff in Hall as [_ ?].
    + reflexivity.
Qed.

Lemma digits_text_head ds n :
  sig_digits ds ->
  exists c t, digits_text ds n = String c t /\ is_digit c = true.
Proof.
  intros Hsig. destruct (sig_digits_cons ds Hsig) as (c & ds' & -> & Hc & _).
  unfold digits_text.
  destruct ((Z.of_nat (String.length (String c ds')) <=? n) && (n <=? 21));
    [exists c; eexists; split; [reflexivity | assumption]|].
  destruct ((0 <? n) && (n <=? 21)) eqn:C2.
  { apply andb_true_iff in C2 as [C2 _]. apply Z.ltb_lt in C2.
    destruct (Z.to_nat n) eqn:E; [lia|].
    exists c. eexists. split; [reflexivity | assumption]. }
  destruct ((-6 <? n) && (n <=? 0)); [exists "0"%char; eexists; split; reflexivity|].
  exists c. eexists. split; [reflexivity | assumption].
Qed.

Lemma digit_not_minus c : is_digit c = true -> Ascii.eqb c "-" = false.
Proof.
  intros H. destruct (Ascii.eqb_spec c "-") as [-> | _]; [discriminate | reflexivity].
Qed.

(** A finite number is read back from its decimal text. *)
Lemma parse_number_toString x rest :
  num_wf x = true -> is_finite x = true -> follow_ok rest = true ->
  parse_number (Number_toString x +:+ rest) = Some (x, rest).
Proof.
  intros Hwf Hfin Hrest. destruct x as [| |neg ds n]; try discriminate.
  destruct ds as [|c0 ds0].
  - cbn in Hwf. apply andb_true_iff in Hwf as [Hneg Hn].
    apply negb_true_iff in Hneg. apply Z.eqb_eq in Hn. subst.
    cbn [Number_toString]. unfold parse_number.
    change (after_char "-" ("0" +:+ rest)) with (@None string).
    rewrite parse_unsigned_zero, parse_frac_none, parse_exp_none by assumption.
    reflexivity.
  - assert (sig_digits (String c0 ds0)) as Hsig by (eapply num_wf_sig; eauto; discriminate).
    cbn [Number_toString]. unfold parse_number. destruct neg.
    + rewrite sapp_cons, sapp_nil_l. cbn [after_char].
      change (Ascii.eqb "-" "-") with true. cbn iota.
      now apply parse_unsigned_digits_text.
    + destruct (digits_text_head (String c0 ds0) n Hsig) as (c & t & E & Hc).
      rewrite <- (parse_unsigned_digits_text false (String c0 ds0) n rest Hsig Hrest).
      rewrite E, sapp_cons. cbn [after_char]. now rewrite digit_not_minus.
Qed.

End NumFacts.

(* ================================================================== *)
(** * JSON: what is written is read back *)
(* ================================================================== *)

Module JSONFacts.
Import Str JS StrFacts NumFacts.
Export JSONText.

Ltac norm := rewrite ?sapp_assoc, ?sapp_cons, ?sapp_nil_l.

Lemma skip_ws_head c r : is_json_ws c = false -> skip_ws (String c r) = String c r.
Proof. intros H. unfold skip_ws. cbn. now rewrite H. Qed.

Lemma parse_quote_char c t :
  parse_string_body (quote_char c +:+ t) = cons_char c (parse_string_body t).
Proof. destruct c as [[] [] [] [] [] [] [] []]; reflexivity. Qed.

Lemma parse_quote_body s rest :
  parse_string_body (quote_body s +:+ String "034" rest) = Some (s, rest).
Proof.
  induction s as [|c s IH]; [reflexivity|].
  cbn [quote_body]. rewrite sapp_assoc, parse_quote_char, IH. reflexivity.
Qed.

Lemma value_head_facts c :
  value_head c = true ->
  is_json_ws c = false /\ Ascii.eqb c "]" = false /\ Ascii.eqb c "}" = false.
Proof.
  destruct c as [[] [] [] [] [] [] [] []]; try discriminate; intros _; repeat split.
Qed.

Lemma number_head_facts c :
  is_digit c || Ascii.eqb c "-" = true ->
  is_json_ws c = false /\ Ascii.eqb c "{" = false /\ Ascii.eqb c "[" = false
  /\ Ascii.eqb c "034" = false /\ Ascii.eqb c "t" = false
  /\ Ascii.eqb c "f" = false /\ Ascii.eqb c "n" = false.
Proof.
  destruct c as [[] [] [] [] [] [] [] []]; try discriminate; intros _; repeat split.
Qed.

Lemma number_text_head x :
  num_wf x = true -> is_finite x = true ->
  exists c t, Number_toString x = String c t /\ is_digit c || Ascii.eqb c "-" = true.
Proof.
  intros Hwf Hfin. destruct x as [| |neg ds n]; try discriminate.
  destruct ds as [|c0 ds0]; [exists "0"%char, ""%string; split; reflexivity|].
  assert (sig_digits (String c0 ds0)) as Hsig by (eapply num_wf_sig; eauto; discriminate).
  cbn [Number_toString]. destruct neg.
  - exists "-"%char. eexists. split; reflexivity.
  - destruct (digits_text_head (String c0 ds0) n Hsig) as (c & t & E & Hc).
    exists c, t. split; [assumption|]. now rewrite Hc.
Qed.

Lemma text_head v :
  json_safe v = true -> exists c t, text v = String c t /\ value_head c = true.
Proof.
  destruct v as [| |[]|x|s|xs|ps|f]; try discriminate; intros H;
    try (eexists; eexists; split; reflexivity).
  cbn in H. apply andb_true_iff in H as [Hf Hw].
  destruct (number_text_head x Hw Hf) as (c & t & E & Hc).
  exists c, t. unfold text. cbn. rewrite Hf. split; [assumption|].
  unfold value_head. apply orb_true_iff in Hc as [-> | ->]; [reflexivity|].
  now rewrite orb_true_r.
Qed.

Lemma serialize_safe v : json_safe v = true -> serialize v = Some (text v).
Proof.
  unfold text. destruct v as [| |[]|x|s|xs|ps|f]; try discriminate; reflexivity.
Qed.

Lemma list_sum_cons a l : list_sum (a :: l) = (a + list_sum l)%nat.
Proof. reflexivity. Qed.

Lemma parse_elements_text xs :
  Forall (fun x => json_safe x = true -> reads_back x) xs ->
  forallb json_safe xs = true -> xs <> [] ->
  forall fuel rest,
    (list_sum (List.map (fun x => S (size x)) xs) <= fuel)%nat ->
    parse_elements fuel (join "," (List.map text xs) +:+ "]" +:+ rest)
    = Some (xs, rest).
Proof.
  induction xs as [|x xs IH]; [congruence|].
  intros HF Hsafe _ fuel rest Hfuel.
  apply Forall_cons in HF as [Hx HF].
  cbn [forallb] in Hsafe. apply andb_true_iff in Hsafe as [Sx Sxs].
  cbn [List.map] in Hfuel. rewrite list_sum_cons in Hfuel.
  destruct fuel as [|fuel]; [lia|]. cbn [parse_elements].
  destruct xs as [|y ys].
  - cbn [List.map join].
    rewrite (Hx Sx) by (reflexivity || lia).
    rewrite sapp_cons, sapp_nil_l, skip_ws_head by reflexivity. reflexivity.
  - cbn [List.map join] in *. rewrite !sapp_assoc.
    rewrite (Hx Sx) by (reflexivity || lia).
    rewrite sapp_cons, sapp_nil_l, skip_ws_head by reflexivity.
    change (Ascii.eqb "," ",") with true. cbn iota.
    rewrite IH; [reflexivity | assumption | assumption | discriminate | lia].
Qed.

Lemma members_text ps :
  forallb (fun kv => json_safe (snd kv)) ps = true ->
  omap (fun kv => (fun t => quote (fst kv) +:+ ":" +:+ t) <$> serialize (snd kv)) ps
  = List.map member_text ps.
Proof.
  induction ps as [|[k v] ps IH]; [reflexivity|]. cbn [forallb snd fst].
  intros H. apply andb_true_iff in H as [Hv Hps].
  cbn [omap list_omap List.map]. cbn [fst snd].
  rewrite (serialize_safe v Hv). cbn. rewrite <- IH by assumption. reflexivity.
Qed.

Lemma parse_members_text ps :
  Forall (fun kv => json_safe (snd kv) = true -> reads_back (snd kv)) ps ->
  forallb (fun kv => json_safe (snd kv)) ps = true -> ps <> [] ->
  forall fuel rest,
    (list_sum (List.map (fun kv => S (size (snd kv))) ps) <= fuel)%nat ->
    parse_members fuel (join "," (List.map member_text ps) +:+ "}" +:+ rest)
    = Some (ps, rest).
Proof.
  induction ps as [|[k v] ps IH]; [congruence|].
  intros HF Hsafe _ fuel rest Hfuel.
  apply Forall_cons in HF as [Hx HF]. cbn [snd] in Hx.
  cbn [forallb snd] in Hsafe. apply andb_true_iff in Hsafe as [Sx Sxs].
  cbn [List.map snd] in Hfuel. rewrite list_sum_cons in Hfuel.
  destruct fuel as [|fuel]; [lia|]. cbn [parse_members].
  assert (forall tail,
    after_char "034" (skip_ws (member_text (k, v) +:+ tail))
    = Some (quote_body k +:+ String "034" (":" +:+ text v +:+ tail))) as Hhead.
  { intros tail. unfold member_text, quote. cbn [fst snd].
    rewrite !sapp_cons, skip_ws_head by reflexivity. cbn [after_char].
    change (Ascii.eqb "034" "034") with true. cbn iota.
    rewrite !sapp_assoc, !sapp_cons, !sapp_nil_l. reflexivity. }
  destruct ps as [|y ys].
  - cbn [List.map join].
    rewrite Hhead, parse_quote_body.
    rewrite sapp_cons, sapp_nil_l, skip_ws_head by reflexivity. cbn [after_char].
    change (Ascii.eqb ":" ":") with true. cbn iota.
    rewrite (Hx Sx) by (reflexivity || lia).
    rewrite sapp_cons, sapp_nil_l, skip_ws_head by reflexivity. reflexivity.
  - cbn [List.map join] in *. rewrite !sapp_assoc.
    rewrite Hhead, parse_quote_body.
    rewrite sapp_cons, sapp_nil_l, skip_ws_head by reflexivity. cbn [after_char].
    change (Ascii.eqb ":" ":") with true. cbn iota.
    rewrite (Hx Sx) by (reflexivity || lia).
    rewrite sapp_cons, sapp_nil_l, skip_ws_head by reflexivity.
    change (Ascii.eqb "," ",") with true. cbn iota.
    rewrite IH; [reflexivity | assumption | assumption | discriminate | lia].
Qed.

(** ** Own properties in key order *)

Lemma key_before_spec k' k :
  key_before k' k = true ->
  k' <> k /\ forall i, array_index k = Some i ->
               exists j, array_index k' = Some j /\ (j < i)%N.
Proof.
  unfold key_before. intros H. apply andb_true_iff in H as [Hne H].
  apply negb_true_iff, String.eqb_neq in Hne. split; [assumption|].
  intros i Hi. rewrite Hi in H. destruct (array_index k') as [j|]; [|discriminate].
  exists j. split; [reflexivity|]. now apply N.ltb_lt.
Qed.

Lemma key_order_app a k b :
  key_order_ok (a ++ k :: b) = true -> Forall (fun k' => key_before k' k = true) a.
Proof.
  induction a as [|x a IH]; intros H; [constructor|].
  cbn in H. apply andb_true_iff in H as [Hx H]. constructor; [|now apply IH].
  rewrite forallb_app in Hx. apply andb_true_iff in Hx as [_ Hx].
  cbn in Hx. now apply andb_true_iff in Hx as [Hx _].
Qed.

Lemma obj_lookup_none k ps :
  Forall (fun k' => k' <> k) (List.map fst ps) -> obj_lookup k ps = None.
Proof.
  induction ps as [|[k' v] ps IH]; intros H; [reflexivity|].
  cbn in H. apply Forall_cons in H as [Hk H]. cbn.
  apply String.eqb_neq in Hk. rewrite Hk. now apply IH.
Qed.

Lemma obj_insert_index_append i k v ps :
  Forall (fun k' => exists j, array_index k' = Some j /\ (j < i)%N) (List.map fst ps) ->
  obj_insert_index i k v ps = ps ++ [(k, v)].
Proof.
  induction ps as [|[k' v'] ps IH]; intros H; [reflexivity|].
  cbn in H. apply Forall_cons in H as [(j & Hj & Hlt) H]. cbn.
  rewrite Hj. apply N.ltb_lt in Hlt. rewrite Hlt. now rewrite IH.
Qed.

Lemma obj_set_append k v pre :
  Forall (fun k' => key_before k' k = true) (List.map fst pre) ->
  obj_set k v pre = pre ++ [(k, v)].
Proof.
  intros H. unfold obj_set.
  rewrite obj_lookup_none.
  2:{ eapply Forall_impl; [exact H|]. intros k' Hk. now apply key_before_spec in Hk. }
  destruct (array_index k) as [i|] eqn:Hi; [|reflexivity].
  apply obj_insert_index_append.
  eapply Forall_impl; [exact H|]. intros k' Hk.
  apply key_before_spec in Hk as [_ Hk]. now apply Hk.
Qed.

Lemma obj_assign_ordered post pre :
  key_order_ok (List.map fst (pre ++ post)) = true ->
  obj_assign pre post = pre ++ post.
Proof.
  unfold obj_assign. revert pre.
  induction post as [|[k v] post IH]; intros pre H; cbn [fold_left].
  - now rewrite app_nil_r.
  - cbn [fst snd]. rewrite obj_set_append.
    + rewrite IH; rewrite <- app_assoc; [reflexivity | exact H].
    + rewrite map_app in H. cbn in H. now apply key_order_app in H.
Qed.

Lemma obj_of_members_ordered ps :
  key_order_ok (List.map fst ps) = true -> obj_of_members ps = ps.
Proof. intros H. apply (obj_assign_ordered ps []). exact H. Qed.

(** ** Reading back what [JSON.stringify] wrote *)

Lemma parse_value_text v : json_safe v = true -> reads_back v.
Proof.
  induction v as [| |b|x|s|xs IH|ps IH|f] using JSValue_ind;
    intros Hsafe fuel rest Hfuel Hrest; try discriminate;
    (destruct fuel as [|fuel]; [cbn in Hfuel; lia|]).
  - reflexivity.
  - destruct b; reflexivity.
  - cbn in Hsafe. apply andb_true_iff in Hsafe as [Hf Hw].
    unfold text. cbn [serialize default from_option id]. rewrite Hf.
    destruct (number_text_head x Hw Hf) as (c & t & E & Hc).
    pose proof (parse_number_toString x rest Hw Hf Hrest) as Hp.
    rewrite E, sapp_cons in Hp. rewrite E, sapp_cons.
    destruct (number_head_facts c Hc) as (W & E1 & E2 & E3 & E4 & E5 & E6).
    cbn [parse_value]. rewrite skip_ws_head by assumption.
    rewrite E1, E2, E3, E4, E5, E6, Hp. reflexivity.
  - unfold text. cbn [serialize default from_option id]. unfold quote.
    rewrite !sapp_cons. cbn [parse_value]. rewrite skip_ws_head by reflexivity.
    change (Ascii.eqb "034" "{") with false. change (Ascii.eqb "034" "[") with false.
    change (Ascii.eqb "034" "034") with true. cbn iota.
    rewrite sapp_assoc, sapp_cons, sapp_nil_l, parse_quote_body. reflexivity.
  - cbn [json_safe] in Hsafe. cbn [size] in Hfuel.
    unfold text. cbn [serialize default from_option id].
    change (List.map (fun x => default "null" (serialize x)) xs) with (List.map text xs).
    rewrite !sapp_cons, sapp_nil_l. cbn [parse_value].
    rewrite skip_ws_head by reflexivity.
    change (Ascii.eqb "[" "{") with false. change (Ascii.eqb "[" "[") with true.
    cbn iota.
    destruct xs as [|x xs]; [reflexivity|].
    assert (after_char "]" (skip_ws ((join "," (List.map text (x :: xs)) +:+ "]") +:+ rest)) = None) as ->.
    { cbn [forallb] in Hsafe. apply andb_true_iff in Hsafe as [Sx _].
      destruct (text_head x Sx) as (c & t & E & Hc).
      destruct (value_head_facts c Hc) as (W & E1 & _).
      cbn [List.map join]. destruct (List.map text xs);
        rewrite E, ?sapp_assoc, !sapp_cons, skip_ws_head by assumption;
        cbn [after_char]; now rewrite E1. }
    rewrite sapp_assoc, parse_elements_text; [reflexivity | | assumption | discriminate | lia].
    eapply Forall_impl; [exact IH|]. intros y Hy Sy. now apply Hy.
  - cbn [json_safe] in Hsafe. apply andb_true_iff in Hsafe as [Hkeys Hsafe].
    cbn [size] in Hfuel.
    unfold text. cbn [serialize default from_option id].
    rewrite members_text by assumption.
    rewrite !sapp_cons, sapp_nil_l. cbn [parse_value].
    rewrite skip_ws_head by reflexivity.
    change (Ascii.eqb "{" "{") with true. cbn iota.
    destruct ps as [|[k v] ps]; [reflexivity|].
    assert (after_char "}" (skip_ws ((join "," (List.map member_text ((k, v) :: ps)) +:+ "}") +:+ rest)) = None) as ->.
    { cbn [List.map]. destruct (List.map member_text ps); cbn [join];
        unfold member_text at 1, quote; cbn [fst snd];
        rewrite ?sapp_assoc, !sapp_cons, skip_ws_head by reflexivity; reflexivity. }
    rewrite sapp_assoc, parse_members_text; [ | | assumption | discriminate | lia].
    + now rewrite obj_of_members_ordered.
    + eapply Forall_impl; [exact IH|]. intros y Hy Sy. now apply Hy.
Qed.

Lemma join_length_bound {A} (f : A -> string) (sz : A -> nat) (l : list A) :
  Forall (fun x => (sz x <= String.length (f x))%nat) l ->
  (list_sum (List.map (fun x => S (sz x)) l)
   <= S (String.length (join "," (List.map f l))))%nat.
Proof.
  induction l as [|x l IH]; intros H; [cbn; lia|].
  apply Forall_cons in H as [Hx H]. specialize (IH H).
  cbn [List.map]. rewrite list_sum_cons.
  destruct l as [|y l].
  - cbn. lia.
  - cbn [List.map join] in *. rewrite !slength_app. cbn [String.length]. lia.
Qed.

Lemma length_bracketed a b X :
  String.length (String a "" +:+ X +:+ String b "") = S (S (String.length X)).
Proof.
  rewrite sapp_cons, sapp_nil_l. cbn [String.length]. rewrite slength_app. cbn. lia.
Qed.

Lemma size_le_text v : json_safe v = true -> (size v <= String.length (text v))%nat.
Proof.
  induction v as [| |b|x|s|xs IH|ps IH|f] using JSValue_ind;
    intros Hsafe; try discriminate.
  - cbn. lia.
  - destruct b; cbn; lia.
  - cbn in Hsafe. apply andb_true_iff in Hsafe as [Hf Hw].
    destruct (number_text_head x Hw Hf) as (c & t & E & _).
    unfold text. cbn [serialize default from_option id]. rewrite Hf, E. cbn. lia.
  - unfold text, quote. cbn. lia.
  - cbn [json_safe] in Hsafe. unfold text. cbn [serialize default from_option id size].
    change (List.map (fun x => default "null" (serialize x)) xs) with (List.map text xs).
    rewrite length_bracketed.
    assert (Forall (fun x => (size x <= String.length (text x))%nat) xs) as HF.
    { rewrite forallb_forall in Hsafe. rewrite Forall_forall in IH |- *.
      intros x Hx. apply IH; [assumption|]. apply Hsafe. now apply list_elem_of_In. }
    pose proof (join_length_bound text size xs HF). lia.
  - cbn [json_safe] in Hsafe. apply andb_true_iff in Hsafe as [_ Hsafe].
    unfold text. cbn [serialize default from_option id size].
    rewrite members_text by assumption.
    rewrite length_bracketed.
    assert (Forall (fun kv => (size (snd kv) <= String.length (member_text kv))%nat) ps) as HF.
    { rewrite forallb_forall in Hsafe. rewrite Forall_forall in IH |- *.
      intros kv Hkv. unfold member_text. rewrite !slength_app.
      specialize (IH kv Hkv (Hsafe kv ltac:(now apply list_elem_of_In))). lia. }
    pose proof (join_length_bound member_text (fun kv => size (snd kv)) ps HF). lia.
Qed.

(** [JSON.parse(JSON.stringify(v))] is [v] for every value JSON can carry. *)
Theorem JSON_parse_text v : json_safe v = true -> JSON_parse (text v) = Ok v.
Proof.
  intros Hsafe. unfold JSON_parse.
  pose proof (parse_value_text v Hsafe (S (String.length (text v))) ""%string) as H.
  rewrite sapp_nil_r in H. rewrite H; [reflexivity | | reflexivity].
  pose proof (size_le_text v Hsafe). lia.
Qed.

End JSONFacts.

Module ObjFacts.
Import Str JS StrFacts NumFacts JSONFacts.

Lemma obj_lookup_In k ps :
  obj_lookup k ps = None <-> ~ In k (List.map fst ps).
Proof.
  induction ps as [|[k' v] ps IH]; cbn; [tauto|].
  destruct (String.eqb_spec k' k) as [-> | Hne].
  - split; [discriminate | intros H; exfalso; apply H; now left].
  - rewrite IH. tauto.
Qed.

Lemma obj_replace_keys k v ps : List.map fst (obj_replace k v ps) = List.map fst ps.
Proof.
  induction ps as [|[k' v'] ps IH]; [reflexivity|]. cbn.
  destruct (String.eqb k' k); cbn; [reflexivity | now rewrite IH].
Qed.

Lemma obj_lookup_replace k v ps :
  obj_lookup k ps <> None -> obj_lookup k (obj_replace k v ps) = Some v.
Proof.
  induction ps as [|[k' v'] ps IH]; cbn; [congruence|].
  destruct (String.eqb k' k) eqn:E; cbn; rewrite E; [reflexivity | assumption].
Qed.

Lemma obj_lookup_replace_ne k k0 v ps :
  k0 <> k -> obj_lookup k0 (obj_replace k v ps) = obj_lookup k0 ps.
Proof.
  intros Hne. induction ps as [|[k' v'] ps IH]; [reflexivity|]. cbn.
  destruct (String.eqb k' k) eqn:E; cbn.
  - apply String.eqb_eq in E. subst k'.
    apply not_eq_sym, String.eqb_neq in Hne. now rewrite Hne.
  - now rewrite IH.
Qed.

Lemma obj_lookup_app k ps qs :
  obj_lookup k (ps ++ qs)
  = match obj_lookup k ps with Some v => Some v | None => obj_lookup k qs end.
Proof.
  induction ps as [|[k' v'] ps IH]; [reflexivity|]. cbn.
  destruct (String.eqb k' k); [reflexivity | assumption].
Qed.

(** Writing a key that is not an array index: the value is replaced in
    place, or the property is added last. *)
Lemma obj_set_name k v ps :
  array_index k = None ->
  obj_set k v ps
  = match obj_lookup k ps with
    | Some _ => obj_replace k v ps
    | None => ps ++ [(k, v)]
    end.
Proof. intros H. unfold obj_set. now rewrite H. Qed.

Lemma obj_lookup_set_name k v ps :
  array_index k = None -> obj_lookup k (obj_set k v ps) = Some v.
Proof.
  intros H. rewrite obj_set_name by assumption.
  destruct (obj_lookup k ps) eqn:E.
  - apply obj_lookup_replace. congruence.
  - rewrite obj_lookup_app, E. cbn. now rewrite String.eqb_refl.
Qed.

Lemma obj_lookup_set_name_ne k k0 v ps :
  array_index k = None -> k0 <> k ->
  obj_lookup k0 (obj_set k v ps) = obj_lookup k0 ps.
Proof.
  intros H Hne. rewrite obj_set_name by assumption.
  destruct (obj_lookup k ps) eqn:E.
  - now apply obj_lookup_replace_ne.
  - rewrite obj_lookup_app. destruct (obj_lookup k0 ps); [reflexivity|].
    cbn. apply not_eq_sym, String.eqb_neq in Hne. now rewrite Hne.
Qed.

Lemma key_before_name k' k :
  array_index k = None -> k' <> k -> key_before k' k = true.
Proof.
  intros H Hne. unfold key_before. rewrite H.
  apply String.eqb_neq in Hne. rewrite Hne. now destruct (array_index k').
Qed.

Lemma key_order_snoc ks k :
  key_order_ok ks = true -> Forall (fun k' => key_before k' k = true) ks ->
  key_order_ok (ks ++ [k]) = true.
Proof.
  induction ks as [|x ks IH]; intros H HF; [reflexivity|].
  cbn in H |- *. apply andb_true_iff in H as [Hx H].
  apply Forall_cons in HF as [Hxk HF].
  rewrite forallb_app, Hx, IH by assumption. cbn. now rewrite Hxk.
Qed.

Lemma obj_set_name_keys_ok k v ps :
  array_index k = None ->
  key_order_ok (List.map fst ps) = true ->
  key_order_ok (List.map fst (obj_set k v ps)) = true.
Proof.
  intros H Hok. rewrite obj_set_name by assumption.
  destruct (obj_lookup k ps) eqn:E.
  - now rewrite obj_replace_keys.
  - rewrite map_app. cbn. apply key_order_snoc; [assumption|].
    apply obj_lookup_In in E. rewrite Forall_forall. intros k' Hk'.
    apply key_before_name; [assumption|]. intros ->. apply E.
    now apply list_elem_of_In.
Qed.

Lemma forallb_obj_replace (P : string * JSValue -> bool) k v ps :
  (forall k', P (k', v) = true) -> forallb P ps = true ->
  forallb P (obj_replace k v ps) = true.
Proof.
  intros Hv. induction ps as [|[k' v'] ps IH]; [reflexivity|]. cbn.
  intros H. apply andb_true_iff in H as [H1 H2].
  destruct (String.eqb k' k); cbn; rewrite ?Hv, ?H1, ?H2, ?IH; auto.
Qed.

Lemma forallb_obj_set_name (P : string * JSValue -> bool) k v ps :
  array_index k = None ->
  (forall k', P (k', v) = true) -> forallb P ps = true ->
  forallb P (obj_set k v ps) = true.
Proof.
  intros H Hv Hps. rewrite obj_set_name by assumption.
  destruct (obj_lookup k ps).
  - now apply forallb_obj_replace.
  - rewrite forallb_app, Hps. cbn. now rewrite Hv.
Qed.

(** Adding a named property to an object JSON can carry. *)
Lemma json_safe_set_name k v ps :
  array_index k = None -> json_safe v = true -> json_safe (JObj ps) = true ->
  json_safe (JObj (obj_set k v ps)) = true.
Proof.
  intros H Hv Hps. cbn [json_safe] in *. apply andb_true_iff in Hps as [H1 H2].
  rewrite obj_set_name_keys_ok by assumption.
  now rewrite (forallb_obj_set_name (fun kv => json_safe (snd kv))).
Qed.

Lemma js_wf_set_name k v ps :
  array_index k = None -> js_wf v = true -> js_wf (JObj ps) = true ->
  js_wf (JObj (obj_set k v ps)) = true.
Proof.
  intros H Hv Hps. cbn [js_wf] in *. apply andb_true_iff in Hps as [H1 H2].
  rewrite obj_set_name_keys_ok by assumption.
  now rewrite (forallb_obj_set_name (fun kv => js_wf (snd kv))).
Qed.

Lemma json_safe_wf v : json_safe v = true -> js_wf v = true.
Proof.
  induction v as [| |b|x|s|xs IH|ps IH|f] using JSValue_ind; intros H;
    try reflexivity; try discriminate.
  - cbn in *. now apply andb_true_iff in H as [_ H].
  - cbn in *. rewrite forallb_forall in *. rewrite Forall_forall in IH.
    intros x Hx. apply IH; [now apply list_elem_of_In | now apply H].
  - cbn in *. apply andb_true_iff in H as [H1 H2]. rewrite H1. cbn.
    rewrite forallb_forall in *. rewrite Forall_forall in IH.
    intros x Hx. apply IH; [now apply list_elem_of_In | now apply H2].
Qed.

(** [{...v}] of an object in key order is a copy. *)
Lemma spread_copy ps :
  key_order_ok (List.map fst ps) = true -> obj_assign [] (spread_props (JObj ps)) = ps.
Proof. intros H. cbn [spread_props]. now apply (obj_assign_ordered ps []). Qed.

End ObjFacts.

(* ================================================================== *)
(** * The AI adapter and the mock CRM *)
(* ================================================================== *)

Module AdapterFacts.
Import JS Runtime.

(** C7: with no API key configured, [generateMeetingPrep] and
    [parseClientFromDocuments] both throw the missing-key error, and the
    world is left as it was: no request has been added to the list of
    requests issued. *)
Theorem missing_key_fails_before_any_request
    (env : Env) prompt_text clientName aum riskProfile goals accounts
    interactions (docs : list string) (w : World) :
  truthy (VITE_OPENAI_API_KEY env) = false ->
  OpenAI.generateMeetingPrep env prompt_text clientName aum riskProfile goals
    accounts interactions w = (Throw OpenAI.missing_key, w)
  /\ DocIngest.parseClientFromDocuments env docs w = (Throw OpenAI.missing_key, w).
Proof.
  intros Hkey. unfold OpenAI.generateMeetingPrep, DocIngest.parseClientFromDocuments.
  rewrite Hkey. split; reflexivity.
Qed.

Lemma missing_key_witness :
  truthy (VITE_OPENAI_API_KEY Browser.env) = false
  /\ OpenAI.generateMeetingPrep Browser.env (fun _ _ _ _ _ _ => Ok "prompt")
       (JStr "Margaret Chen") (num "2450000") (JStr "Moderate")
       (JArr []) (JArr []) (JArr []) MockClients.initial_world
     = (Throw OpenAI.missing_key, MockClients.initial_world)
  /\ DocIngest.parseClientFromDocuments Browser.env ["statement.txt"]
       MockClients.initial_world
     = (Throw OpenAI.missing_key, MockClients.initial_world).
Proof.
  split; [reflexivity|].
  apply (missing_key_fails_before_any_request Browser.env). reflexivity.
Defined.

End AdapterFacts.

Module MockCrmFacts.
Import JS Runtime.
Export AdapterNotions.

(** C10: for the client id "constructor" the lookup in the table finds
    the member every object inherits from [Object.prototype]; the answer
    is then an object with an [auditLog] that holds a [timestamp] only:
    no [fieldUpdates], no [tasks] and no [summary]. *)
Theorem generateCRMUpdate_inherited_key
    (env : Env) (loaded_001 loaded_002 meetingNotes : string) (w : World) :
  MockCrm.generateCRMUpdate env loaded_001 loaded_002 "constructor" meetingNotes w
  = (Ok (JObj [ ("auditLog",
                 JObj [ ("timestamp",
                         JStr (toISOString env (Date_now env (tick w)))) ]) ]),
     next_tick w).
Proof. reflexivity. Qed.

Lemma generateCRMUpdate_inherited_key_has_no_updates
    (env : Env) (l1 l2 notes : string) (w : World) :
  exists v, fst (MockCrm.generateCRMUpdate env l1 l2 "constructor" notes w) = Ok v
            /\ get v "fieldUpdates" = Ok JUndefined
            /\ get v "tasks" = Ok JUndefined
            /\ v <> empty_update (toISOString env (Date_now env (tick w))).
Proof.
  eexists. rewrite generateCRMUpdate_inherited_key. cbn [fst].
  repeat split; discriminate.
Qed.

(** The meeting notes are never read. *)
Lemma generateCRMUpdate_ignores_notes (env : Env) l1 l2 clientId notes notes' w :
  MockCrm.generateCRMUpdate env l1 l2 clientId notes w
  = MockCrm.generateCRMUpdate env l1 l2 clientId notes' w.
Proof. reflexivity. Qed.

(** The operation never throws. *)
Lemma generateCRMUpdate_returns (env : Env) l1 l2 clientId notes w :
  exists v, MockCrm.generateCRMUpdate env l1 l2 clientId notes w = (Ok v, next_tick w).
Proof.
  unfold MockCrm.generateCRMUpdate, mbind, lift, now_iso, ret.
  set (table := MockCrm.mockCrmResults l1 l2).
  assert (exists r, get table clientId = Ok r) as [r Hr] by (eexists; reflexivity).
  rewrite Hr. destruct (truthy r) eqn:T; cbn [negb]; [|eexists; reflexivity].
  assert (exists a, get r "auditLog" = Ok a) as [a Ha].
  { destruct r; try discriminate; eexists; reflexivity. }
  rewrite Ha. eexists. reflexivity.
Qed.

(** For the two built-in clients the canned result comes back with a
    fresh timestamp and is otherwise untouched. *)
Lemma generateCRMUpdate_known (env : Env) l1 l2 clientId notes w canned oldLog :
  clientId = "client-001"%string \/ clientId = "client-002"%string ->
  get (MockCrm.mockCrmResults l1 l2) clientId = Ok (JObj canned) ->
  obj_lookup "auditLog" canned = Some (JObj oldLog) ->
  MockCrm.generateCRMUpdate env l1 l2 clientId notes w
  = (Ok (JObj (obj_set "auditLog"
                 (JObj (obj_set "timestamp"
                          (JStr (toISOString env (Date_now env (tick w))))
                          (obj_assign [] oldLog)))
                 (obj_assign [] canned))),
     next_tick w).
Proof.
  intros _ Hc Hl. unfold MockCrm.generateCRMUpdate, mbind, lift, now_iso, ret.
  rewrite Hc. cbn [truthy negb get]. rewrite Hl. reflexivity.
Qed.

(** For a client id that is neither in the table nor the name of a
    member of [Object.prototype] the answer is the empty one. *)
Lemma generateCRMUpdate_unknown (env : Env) l1 l2 clientId notes w :
  clientId <> "client-001"%string -> clientId <> "client-002"%string ->
  proto_lookup clientId = JUndefined ->
  MockCrm.generateCRMUpdate env l1 l2 clientId notes w
  = (Ok (empty_update (toISOString env (Date_now env (tick w)))), next_tick w).
Proof.
  intros H1 H2 Hp. unfold MockCrm.generateCRMUpdate, mbind, lift, now_iso, ret.
  assert (get (MockCrm.mockCrmResults l1 l2) clientId = Ok JUndefined) as ->.
  { unfold MockCrm.mockCrmResults. cbn [get obj_lookup].
    apply not_eq_sym, String.eqb_neq in H1, H2. rewrite H1, H2, Hp. reflexivity. }
  reflexivity.
Qed.

End MockCrmFacts.

(* ================================================================== *)
(** * Reading the stores *)
(* ================================================================== *)

Module ReadFacts.
Import JS Runtime.
Export StoreNotions.

Lemma getCustomClients_spec (w : World) :
  ClientStorage.getCustomClients w
  = (read_of (localStorage w !! ClientStorage.CLIENTS_KEY), w).
Proof.
  unfold ClientStorage.getCustomClients, try_catch, mbind, getItem, lift, ret, read_of.
  destruct (localStorage w !! ClientStorage.CLIENTS_KEY) as [[|c s]|]; try reflexivity.
  destruct (JSON_parse (String c s)); reflexivity.
Qed.

Lemma getAllInteractions_spec (w : World) :
  Storage.getAllInteractions w
  = (read_of (localStorage w !! Storage.INTERACTIONS_KEY), w).
Proof.
  unfold Storage.getAllInteractions, try_catch, mbind, getItem, lift, ret, read_of.
  destruct (localStorage w !! Storage.INTERACTIONS_KEY) as [[|c s]|]; try reflexivity.
  destruct (JSON_parse (String c s)); reflexivity.
Qed.

(** C4, as the code has it: the two reads never throw and change
    nothing; they return the empty list when the key is absent, holds
    the empty string, or holds a text [JSON.parse] rejects; a text it
    accepts is returned as parsed, whatever its shape. *)
Theorem reads_fail_soft_on_parse_failure (w : World) :
  let clients := localStorage w !! ClientStorage.CLIENTS_KEY in
  let interactions := localStorage w !! Storage.INTERACTIONS_KEY in
  (exists v, ClientStorage.getCustomClients w = (Ok v, w))
  /\ (exists v, Storage.getAllInteractions w = (Ok v, w))
  /\ (clients = None \/ clients = Some ""%string
      \/ (exists s e, clients = Some s /\ JSON_parse s = Throw e) ->
      ClientStorage.getCustomClients w = (Ok (JArr []), w))
  /\ (interactions = None \/ interactions = Some ""%string
      \/ (exists s e, interactions = Some s /\ JSON_parse s = Throw e) ->
      Storage.getAllInteractions w = (Ok (JArr []), w))
  /\ (forall s v, clients = Some s -> s <> ""%string -> JSON_parse s = Ok v ->
      ClientStorage.getCustomClients w = (Ok v, w))
  /\ (forall s v, interactions = Some s -> s <> ""%string -> JSON_parse s = Ok v ->
      Storage.getAllInteractions w = (Ok v, w)).
Proof.
  cbn zeta. rewrite getCustomClients_spec, getAllInteractions_spec.
  assert (forall o, exists v, read_of o = Ok v) as Hex.
  { intros [[|c s]|]; cbn; try (eexists; reflexivity).
    destruct (JSON_parse (String c s)); eexists; reflexivity. }
  assert (forall o, o = None \/ o = Some ""%string
            \/ (exists s e, o = Some s /\ JSON_parse s = Throw e) ->
          read_of o = Ok (JArr [])) as Hsoft.
  { intros o [-> | [-> | (s & e & -> & He)]]; try reflexivity.
    destruct s; [reflexivity|]. cbn. now rewrite He. }
  assert (forall o s v, o = Some s -> s <> ""%string -> JSON_parse s = Ok v ->
          read_of o = Ok v) as Hok.
  { intros o s v -> Hs Hv. destruct s; [congruence|]. cbn. now rewrite Hv. }
  repeat split.
  - destruct (Hex (localStorage w !! ClientStorage.CLIENTS_KEY)) as [v ->]. eauto.
  - destruct (Hex (localStorage w !! Storage.INTERACTIONS_KEY)) as [v ->]. eauto.
  - intros H. now rewrite Hsoft.
  - intros H. now rewrite Hsoft.
  - intros s v H1 H2 H3. now rewrite (Hok _ s v).
  - intros s v H1 H2 H3. now rewrite (Hok _ s v).
Qed.

(** C4 as stated fails: the text [42] under either key is corrupt, a
    number where a list of records belongs, yet the read returns the
    number, not the empty list, and the listing built on it throws. *)
Lemma corrupt_but_parseable_is_not_emptied :
  fst (ClientStorage.getCustomClients
         (Browser.stored ClientStorage.CLIENTS_KEY "42")) = Ok (num "42")
  /\ fst (ClientStorage.getAllClients
            (Browser.stored ClientStorage.CLIENTS_KEY "42")) = Throw TypeError
  /\ fst (Storage.getAllInteractions
            (Browser.stored Storage.INTERACTIONS_KEY "42")) = Ok (num "42")
  /\ fst (Storage.getClientInteractions Browser.env "client-001"
            (Browser.stored Storage.INTERACTIONS_KEY "42")) = Throw TypeError
  /\ Ok (num "42") <> Ok (JArr []).
Proof. repeat split; try reflexivity. discriminate. Qed.

End ReadFacts.

(* ================================================================== *)
(** * The coercion of the provider payload *)
(* ================================================================== *)

Module CoercionFacts.
Import JS Runtime OpenAI.
Export AdapterNotions.

Lemma get_field parsed k :
  parsed <> JNull -> parsed <> JUndefined -> get parsed k = Ok (field parsed k).
Proof.
  intros H1 H2. unfold field.
  destruct parsed as [| |b|x|s|xs|ps|f]; try congruence; cbn;
    repeat (match goal with |- context [if ?c then _ else _] => destruct c end);
    try reflexivity.
  - destruct (array_index k); reflexivity.
  - destruct (array_index k); reflexivity.
Qed.

Lemma coerce_content_parsed content parsed :
  JSON_parse (json_content content) = Ok parsed ->
  parsed <> JNull -> parsed <> JUndefined ->
  coerce_content (JStr content) = Ok (prep_of parsed).
Proof.
  intros Hp H1 H2. unfold coerce_content. rewrite Hp. cbn [bind].
  rewrite !(get_field parsed) by assumption. reflexivity.
Qed.

(** C8, as the code has it: for a payload that parses to anything but
    [null], [generateMeetingPrep] returns the record whose string fields
    are [ensureString] of the payload's fields and whose list fields are
    [ensureStringArray] of them.  [ensureString] keeps a string, maps
    [null] and [undefined] to the empty string, writes arrays and
    objects as JSON and everything else by [String].  [ensureStringArray]
    maps every falsy value (absent, [null], [false], [0], [NaN], the
    empty string) to the empty list, coerces the elements of an array,
    and wraps any other truthy value in a one-element list: a payload
    whose [keyTopicsToDiscuss] is a single non-empty string yields the
    list of that one string. *)
Theorem meeting_prep_coercion
    (env : Env) prompt_text clientName aum riskProfile goals accounts
    interactions (w : World) (prompt content : string) (response : Response)
    (parsed : JSValue) :
  truthy (VITE_OPENAI_API_KEY env) = true ->
  prompt_text clientName aum riskProfile goals accounts interactions = Ok prompt ->
  fetch_outcome env (length (requests w))
    (prep_request (VITE_OPENAI_API_KEY env) prompt) = Ok response ->
  message_content response = Ok (JStr content) ->
  JSON_parse (json_content content) = Ok parsed ->
  parsed <> JNull -> parsed <> JUndefined ->
  fst (generateMeetingPrep env prompt_text clientName aum riskProfile goals
         accounts interactions w) = Ok (prep_of parsed)
  /\ (forall s, ensureString (JStr s) = s)
  /\ ensureString JNull = ""%string /\ ensureString JUndefined = ""%string
  /\ (forall b, ensureString (JBool b) = ToString (JBool b))
  /\ (forall x, ensureString (JNum x) = Number_toString x)
  /\ (forall xs, ensureString (JArr xs) = ToString (JSON_stringify (JArr xs)))
  /\ (forall ps, ensureString (JObj ps) = ToString (JSON_stringify (JObj ps)))
  /\ (forall v, truthy v = false -> ensureStringArray v = [])
  /\ (forall xs, ensureStringArray (JArr xs) = List.map ensureString xs)
  /\ (forall v, truthy v = true -> (forall xs, v <> JArr xs) ->
        ensureStringArray v = [ensureString v])
  /\ (forall s, s <> ""%string ->
        field parsed "keyTopicsToDiscuss" = JStr s ->
        get (prep_of parsed) "keyTopicsToDiscuss" = Ok (JArr [JStr s])).
Proof.
  intros Hkey Hprompt Hfetch Hcontent Hparse Hnull Hundef.
  split.
  { unfold generateMeetingPrep. rewrite Hkey. cbn [negb].
    unfold mbind, lift, fetch, try_catch, throw. rewrite Hprompt.
    fold (prep_request (VITE_OPENAI_API_KEY env) prompt). rewrite Hfetch, Hcontent.
    now rewrite (coerce_content_parsed content parsed). }
  repeat split; try reflexivity.
  - intros v Hv. unfold ensureStringArray. now rewrite Hv.
  - intros v Hv Harr. unfold ensureStringArray. rewrite Hv. cbn [negb].
    destruct v; try reflexivity. now destruct (Harr xs).
  - intros s Hs E. cbn [prep_of get obj_lookup String.eqb Ascii.eqb Bool.eqb].
    rewrite E. destruct s; [congruence | reflexivity].
Qed.

Lemma meeting_prep_coercion_witness :
  let env := Browser.with_provider (Browser.chat_completion Browser.one_topic) in
  let parsed := JObj [ ("keyTopicsToDiscuss", JStr "Roth conversion") ] in
  JSON_parse (json_content Browser.one_topic) = Ok parsed
  /\ fst (generateMeetingPrep env Browser.any_prompt (JStr "Margaret Chen")
            (num "2450000") (JStr "Moderate") (JArr []) (JArr []) (JArr [])
            MockClients.initial_world) = Ok (prep_of parsed)
  /\ get (prep_of parsed) "keyTopicsToDiscuss" = Ok (JArr [JStr "Roth conversion"]).
Proof.
  cbn zeta.
  pose proof (meeting_prep_coercion
    (Browser.with_provider (Browser.chat_completion Browser.one_topic))
    Browser.any_prompt (JStr "Margaret Chen") (num "2450000") (JStr "Moderate")
    (JArr []) (JArr []) (JArr []) MockClients.initial_world
    "prompt" Browser.one_topic
    {| ok := true; status := 200;
       json := Ok (Browser.chat_completion Browser.one_topic) |}
    (JObj [ ("keyTopicsToDiscuss", JStr "Roth conversion") ])
    eq_refl eq_refl eq_refl eq_refl eq_refl
    ltac:(discriminate) ltac:(discriminate)) as H.
  split; [reflexivity|]. split; [exact (proj1 H)|].
  apply (proj2 (proj2 (proj2 (proj2 (proj2 (proj2 (proj2 (proj2 (proj2 (proj2 (proj2 H))))))))))).
  - discriminate.
  - reflexivity.
Defined.

(** C8 as stated fails: a payload whose [keyTopicsToDiscuss] is the
    empty string, a single string, yields the empty list, not the list
    of that string; the scalars [0] and [false] are dropped the same
    way. *)
Lemma falsy_scalars_are_dropped :
  exists payload prep,
    JSON_parse (json_content Browser.falsy_lists) = Ok payload
    /\ get payload "keyTopicsToDiscuss" = Ok (JStr "")
    /\ get payload "openActionItems" = Ok (JNum zero)
    /\ get payload "questionsToAsk" = Ok (JBool false)
    /\ fst (generateMeetingPrep
              (Browser.with_provider (Browser.chat_completion Browser.falsy_lists))
              Browser.any_prompt (JStr "Margaret Chen") (num "2450000")
              (JStr "Moderate") (JArr []) (JArr []) (JArr [])
              MockClients.initial_world) = Ok prep
    /\ get prep "keyTopicsToDiscuss" = Ok (JArr [])
    /\ get prep "openActionItems" = Ok (JArr [])
    /\ get prep "questionsToAsk" = Ok (JArr [])
    /\ JArr [] <> JArr [JStr ""].
Proof.
  eexists. eexists. repeat split; try reflexivity. discriminate.
Qed.

(** A payload that is [null] parses, and the operation answers with the
    parse error. *)
Lemma null_payload_is_a_parse_error :
  JSON_parse (json_content "null") = Ok JNull
  /\ fst (generateMeetingPrep
            (Browser.with_provider (Browser.chat_completion "null"))
            Browser.any_prompt (JStr "Margaret Chen") (num "2450000")
            (JStr "Moderate") (JArr []) (JArr []) (JArr [])
            MockClients.initial_world)
     = Throw (Error "Failed to parse AI response. Please try again.").
Proof. split; reflexivity. Qed.

End CoercionFacts.

(* ================================================================== *)
(** * The record parser, line by line *)
(* ================================================================== *)

Module ParserFacts.
Import JS Runtime App.

(** What the line parser gets right: the positions of the fields and the
    placeholders for the missing ones. *)
Lemma goal_of_line_fields (env : Env) (line : string) (w : World) :
  let parts := parts_of line in
  exists g w',
    goal_of_line env line w = (Ok g, w')
    /\ get g "name" = Ok (JStr (text_or (parts !! 0%nat) "Goal"))
    /\ get g "targetAmount" = Ok (amount_of (parts !! 1%nat))
    /\ get g "currentAmount" = Ok (amount_of (parts !! 2%nat))
    /\ get g "targetDate"
       = Ok (JStr (text_or (parts !! 3%nat)
                     (hd ""%string
                        (Str.split "T" (toISOString env (Date_now env (tick w))))))).
Proof.
  intros parts. unfold goal_of_line. fold parts.
  destruct (parts !! 3%nat) as [[|c r]|]; eexists; eexists; repeat split; reflexivity.
Qed.

Lemma account_of_line_fields (env : Env) (line : string) (w : World) :
  let parts := parts_of line in
  exists a w',
    account_of_line env line w = (Ok a, w')
    /\ get a "name" = Ok (JStr (text_or (parts !! 0%nat) "Account"))
    /\ get a "type" = Ok (account_type_of (parts !! 1%nat))
    /\ get a "balance" = Ok (amount_of (parts !! 2%nat)).
Proof. intros parts. eexists. eexists. repeat split; reflexivity. Qed.

(** A field with no digit and no point in it, or no field, is 0. *)
Lemma amount_of_default (part : option string) :
  default ""%string (digits_and_dots <$> part) = ""%string ->
  amount_of part = num "0".
Proof.
  destruct part as [p|]; [|reflexivity]. cbn. unfold amount_of.
  now intros ->.
Qed.

(** The synonym table on the types the form suggests. *)
Lemma account_type_of_synonyms :
  account_type_of (Some "401(k)") = JStr "401k"
  /\ account_type_of (Some "401k") = JStr "401k"
  /\ account_type_of (Some "Roth") = JStr "Roth IRA"
  /\ account_type_of (Some "roth ira") = JStr "Roth IRA"
  /\ account_type_of (Some "Traditional IRA") = JStr "IRA"
  /\ account_type_of (Some "Trust") = JStr "Trust"
  /\ account_type_of (Some "savings") = JStr "Brokerage"
  /\ account_type_of (Some "") = JStr "Brokerage"
  /\ account_type_of None = JStr "Brokerage".
Proof. repeat split; reflexivity. Qed.

(** C5: the line "Trip | n.a. | 5" has the target "n.a."; stripped of
    all but digits and points it is "..", which [parseFloat] reads as
    [NaN]: the amount does not default to 0.  The line
    "Odd | constructor | 10" has a type the table does not list; the
    lookup finds the member inherited from [Object.prototype], and the
    type is that function, not Brokerage. *)
Theorem line_parser_misses_two_defaults (env : Env) (w : World) :
  (exists g w', goal_of_line env "Trip | n.a. | 5" w = (Ok g, w')
                /\ get g "targetAmount" = Ok (JNum NaN)
                /\ get g "currentAmount" = Ok (num "5"))
  /\ (exists a w', account_of_line env "Odd | constructor | 10" w = (Ok a, w')
                   /\ get a "type" = Ok (JBuiltin ObjectConstructor)
                   /\ get a "balance" = Ok (num "10")).
Proof. split; eexists; eexists; repeat split; reflexivity. Qed.

End ParserFacts.

(* ================================================================== *)
(** * The client store *)
(* ================================================================== *)

Module ClientStoreFacts.
Import JS Runtime ClientStorage ClientOps ObjFacts ReadFacts.
Import Scenario.
Export StoreNotions.

Lemma writes_only_refl key w : writes_only key w w.
Proof. repeat split. Qed.

Lemma writes_only_trans key w1 w2 w3 :
  writes_only key w1 w2 -> writes_only key w2 w3 -> writes_only key w1 w3.
Proof.
  intros (A1 & B1 & C1) (A2 & B2 & C2). repeat split; try congruence.
  intros k Hk. now rewrite C2, C1.
Qed.

Lemma confined_ret {A} key (a : A) : confined key (ret a).
Proof. intros w. apply writes_only_refl. Qed.

Lemma confined_lift {A} key (r : result A) : confined key (lift r).
Proof. intros w. apply writes_only_refl. Qed.

Lemma confined_throw {A} key e : confined key (@throw A e).
Proof. intros w. apply writes_only_refl. Qed.

Lemma confined_bind {A B} key (m : M A) (k : A -> M B) :
  confined key m -> (forall a, confined key (k a)) -> confined key (mbind m k).
Proof.
  intros Hm Hk w. unfold mbind. specialize (Hm w).
  destruct (m w) as [[a|e] w1]; cbn [snd] in *; [|assumption].
  eapply writes_only_trans; [exact Hm | apply Hk].
Qed.

Lemma confined_try {A} key (m : M A) (h : JSError -> M A) :
  confined key m -> (forall e, confined key (h e)) -> confined key (try_catch m h).
Proof.
  intros Hm Hh w. unfold try_catch. specialize (Hm w).
  destruct (m w) as [[a|e] w1]; cbn [snd] in *; [assumption|].
  eapply writes_only_trans; [exact Hm | apply Hh].
Qed.

Lemma confined_getItem key k : confined key (getItem k).
Proof. intros w. apply writes_only_refl. Qed.

Lemma confined_read_mockClients key : confined key read_mockClients.
Proof. intros w. apply writes_only_refl. Qed.

Lemma confined_setItem key v : confined key (setItem key v).
Proof.
  intros w. repeat split. intros k Hk. cbn. now rewrite lookup_insert_ne.
Qed.

Lemma confined_store key v : confined key (store key v).
Proof. apply confined_setItem. Qed.

Lemma confined_now env key : confined key (now env).
Proof. intros w. repeat split. Qed.

Lemma confined_random36 env key : confined key (random36 env).
Proof. intros w. repeat split. Qed.

Lemma confined_now_iso env key : confined key (now_iso env).
Proof. intros w. repeat split. Qed.

Lemma confined_if {A} key (b : bool) (m1 m2 : M A) :
  confined key m1 -> confined key m2 -> confined key (if b then m1 else m2).
Proof. now destruct b. Qed.

Create HintDb confined.
#[local] Hint Resolve confined_ret confined_lift confined_throw confined_getItem
  confined_read_mockClients confined_store confined_setItem confined_now
  confined_random36 confined_now_iso : confined.

Ltac confine :=
  repeat first
    [ apply confined_bind; [|intros ?]
    | apply confined_try; [|intros ?]
    | apply confined_if
    | progress auto with confined
    | match goal with
      | |- confined _ (match ?x with _ => _ end) => destruct x
      end ].

Lemma confined_getCustomClients : confined CLIENTS_KEY getCustomClients.
Proof. unfold getCustomClients. confine. Qed.

Lemma confined_fresh_id env key prefix : confined key (fresh_id env prefix).
Proof. unfold fresh_id. confine. Qed.

Lemma confined_getAllClients : confined CLIENTS_KEY getAllClients.
Proof. unfold getAllClients. pose proof confined_getCustomClients. confine. Qed.

Lemma confined_addClient env client : confined CLIENTS_KEY (addClient env client).
Proof.
  unfold addClient.
  pose proof confined_getCustomClients. pose proof (confined_fresh_id env CLIENTS_KEY).
  confine.
Qed.

Lemma confined_updateClient id updates : confined CLIENTS_KEY (updateClient id updates).
Proof. unfold updateClient. pose proof confined_getCustomClients. confine. Qed.

Lemma confined_deleteClient id : confined CLIENTS_KEY (deleteClient id).
Proof. unfold deleteClient. pose proof confined_getCustomClients. confine. Qed.

Lemma starts_with_app p t : Str.starts_with p (p +:+ t) = true.
Proof.
  induction p as [|c p IH]; [reflexivity|].
  rewrite StrFacts.sapp_cons. cbn. now rewrite Ascii.eqb_refl, IH.
Qed.

Lemma fresh_id_prefix env prefix w :
  exists t, fresh_id env prefix w = (Ok (prefix +:+ t), next_tick (next_tick w)).
Proof. eexists. reflexivity. Qed.

(** The record [addClient] returns carries a custom id. *)
Lemma addClient_returns_custom_id env client w c w' :
  addClient env client w = (Ok c, w') ->
  exists id, get c "id" = Ok (JStr id) /\ isCustomClient id = true.
Proof.
  unfold addClient, mbind. rewrite getCustomClients_spec.
  destruct (read_of _) as [customClients|e]; [|discriminate].
  destruct (fresh_id_prefix env "client-custom-" w) as [t ->].
  unfold lift. destruct (as_array customClients) as [xs|e]; [|discriminate].
  unfold store, setItem, ret. intros [= <- _].
  exists ("client-custom-" +:+ t). split.
  - cbn [get]. now rewrite obj_lookup_set_name.
  - apply starts_with_app.
Qed.

Lemma run_ops_confined env ops w :
  writes_only CLIENTS_KEY w (snd (run_ops env ops w)).
Proof.
  revert w. induction ops as [|op ops IH]; intros w; [apply writes_only_refl|].
  cbn [run_ops].
  assert (writes_only CLIENTS_KEY w (snd (run_op env op w))) as H1.
  { destruct op; cbn [run_op].
    - pose proof (confined_getAllClients w). now destruct (getAllClients w).
    - pose proof (confined_addClient env fields w). now destruct (addClient env fields w).
    - pose proof (confined_updateClient id updates w).
      now destruct (updateClient id updates w).
    - pose proof (confined_deleteClient id w). now destruct (deleteClient id w).
    - apply writes_only_refl. }
  destruct (run_op env op w) as [o w1]. specialize (IH w1).
  destruct (run_ops env ops w1) as [os w2]. cbn [snd] in *.
  eapply writes_only_trans; eassumption.
Qed.

Lemma run_ops_created env ops w :
  Forall created_with_custom_id (fst (run_ops env ops w)).
Proof.
  revert w. induction ops as [|op ops IH]; intros w; [constructor|].
  cbn [run_ops].
  destruct (run_op env op w) as [o w1] eqn:E1. specialize (IH w1).
  destruct (run_ops env ops w1) as [os w2]. cbn [fst] in *.
  constructor; [|assumption].
  intros c ->. destruct op; cbn [run_op] in E1.
  - destruct (getAllClients w); discriminate.
  - destruct (addClient env fields w) as [r0 w'] eqn:Ea.
    injection E1 as -> ->. eapply addClient_returns_custom_id; eassumption.
  - destruct (updateClient id updates w); discriminate.
  - destruct (deleteClient id w); discriminate.
  - discriminate.
Qed.

(** C1: run any sequence of client store operations from any world.
    The array of built-in clients is the same value afterwards, ids and
    data; no key of the persistent storage other than the key of the
    custom-client list has changed; and every record a [create] returned
    has a string id for which [isCustomClient] is true. *)
Theorem builtins_never_mutated (env : Env) (ops : list Op) (w : World) :
  mockClients (snd (run_ops env ops w)) = mockClients w
  /\ (forall k, k <> CLIENTS_KEY ->
        localStorage (snd (run_ops env ops w)) !! k = localStorage w !! k)
  /\ Forall created_with_custom_id (fst (run_ops env ops w)).
Proof.
  destruct (run_ops_confined env ops w) as (Hm & _ & Hk).
  split; [assumption|]. split; [assumption|]. apply run_ops_created.
Qed.

(** A [create] on a well-formed store does return a record. *)
Lemma addClient_returns env client w xs :
  fst (getCustomClients w) = Ok (JArr xs) ->
  exists c w', addClient env client w = (Ok c, w').
Proof.
  rewrite getCustomClients_spec. cbn [fst]. intros H.
  unfold addClient, mbind. rewrite getCustomClients_spec, H.
  destruct (fresh_id_prefix env "client-custom-" w) as [t ->].
  eexists. eexists. reflexivity.
Qed.

(** [c.id !== id] holds of a record with a custom id when [id] has none. *)
Lemma custom_id_differs id c :
  isCustomClient id = false ->
  (exists cid, get c "id" = Ok (JStr cid) /\ isCustomClient cid = true) ->
  has_other_id id c = Ok true.
Proof.
  intros Hid (cid & Hget & Hc). unfold has_other_id. rewrite Hget. cbn.
  destruct (String.eqb_spec cid id) as [-> | _]; [congruence | reflexivity].
Qed.

Lemma filterM_all {A} (f : A -> result bool) xs :
  Forall (fun x => f x = Ok true) xs -> filterM f xs = Ok xs.
Proof.
  induction xs as [|x xs IH]; intros H; [reflexivity|].
  apply Forall_cons in H as [Hx H]. cbn. rewrite Hx, (IH H). reflexivity.
Qed.

(** [deleteClient] looks for the id in the persisted list and nowhere
    else: when no record there has it, nothing is written. *)
Lemma deleteClient_absent id w xs :
  fst (getCustomClients w) = Ok (JArr xs) ->
  Forall (fun c => has_other_id id c = Ok true) xs ->
  deleteClient id w = (Ok false, w).
Proof.
  rewrite getCustomClients_spec. cbn [fst]. intros H HF.
  unfold deleteClient, mbind, lift. rewrite getCustomClients_spec, H. cbn [as_array].
  rewrite (filterM_all _ xs HF), Nat.eqb_refl. reflexivity.
Qed.

(** C6, as the code has it: [deleteClient] does not inspect the prefix
    of the id.  For an id without the custom prefix it returns false,
    throws nothing and leaves the world as it was (the built-in list and
    the persisted custom list with it) provided the persisted list is an
    array whose records all carry custom ids, as every record written by
    [addClient] does. *)
Theorem deleteClient_rejects_builtin_id (id : string) (w : World) (xs : list JSValue) :
  isCustomClient id = false ->
  fst (getCustomClients w) = Ok (JArr xs) ->
  Forall (fun c => exists cid, get c "id" = Ok (JStr cid)
                               /\ isCustomClient cid = true) xs ->
  deleteClient id w = (Ok false, w).
Proof.
  intros Hid Hread Hcustom. apply (deleteClient_absent id w xs Hread).
  eapply Forall_impl; [exact Hcustom|]. intros c Hc. now apply custom_id_differs.
Qed.

(** After one [addClient] the persisted list holds one record, with a
    custom id: [deleteClient('client-001')] answers false and nothing
    has changed. *)
Lemma deleteClient_rejects_builtin_id_witness :
  deleteClient "client-001" one_custom = (Ok false, one_custom).
Proof.
  apply (deleteClient_rejects_builtin_id "client-001" one_custom
           [ JObj [ ("name", JStr "Ada Park"); ("id", JStr custom_id) ] ]).
  - reflexivity.
  - vm_compute. reflexivity.
  - repeat constructor. exists custom_id. split; reflexivity.
Defined.

(** C6 as stated fails: create a client, then overwrite its id with
    [updateClient(id, { id: 'client-001' })].  The persisted list now
    holds a record with the id of a built-in client, an id without the
    custom prefix, and [deleteClient('client-001')] answers true and
    empties the persisted list. *)
Lemma deleteClient_removes_renamed_record :
  isCustomClient "client-001" = false
  /\ fst (getCustomClients renamed)
     = Ok (JArr [ JObj [ ("name", JStr "Ada Park"); ("id", JStr "client-001") ] ])
  /\ fst (deleteClient "client-001" renamed) = Ok true
  /\ fst (getCustomClients (snd (deleteClient "client-001" renamed))) = Ok (JArr []).
Proof. vm_compute. repeat split. Qed.

End ClientStoreFacts.

(* ================================================================== *)
(** * JSON: what is read is written back *)
(* ================================================================== *)

Module JsonifyFacts.
Import Str JS StrFacts NumFacts JSONFacts ObjFacts.

Lemma key_order_omap {A} (f : string * A -> option (string * A)) ps :
  (forall kv kv', f kv = Some kv' -> fst kv' = fst kv) ->
  key_order_ok (List.map fst ps) = true ->
  key_order_ok (List.map fst (omap f ps)) = true.
Proof.
  intros Hf. induction ps as [|kv ps IH]; [reflexivity|].
  cbn [List.map key_order_ok]. intros H. apply andb_true_iff in H as [Hk H].
  cbn [omap list_omap]. destruct (f kv) as [kv'|] eqn:E; [|now apply IH].
  cbn [List.map key_order_ok]. rewrite (Hf _ _ E), (IH H), andb_true_r.
  clear IH H. induction ps as [|x ps IH]; [reflexivity|].
  cbn [List.map forallb] in Hk. apply andb_true_iff in Hk as [Hx Hk].
  cbn [omap list_omap]. destruct (f x) as [x'|] eqn:Ex; [|now apply IH].
  cbn [List.map forallb]. now rewrite (Hf _ _ Ex), Hx, IH.
Qed.

(** What [JSON.stringify] writes for [v] is the text of [jsonify v]. *)
Lemma serialize_jsonify v :
  js_wf v = true ->
  match jsonify v with
  | Some v' => serialize v = Some (text v') /\ json_safe v' = true
  | None => serialize v = None
  end.
Proof.
  induction v as [| |b|x|s|xs IH|ps IH|f] using JSValue_ind; intros Hwf.
  - reflexivity.
  - split; reflexivity.
  - destruct b; split; reflexivity.
  - cbn [jsonify serialize]. cbn [js_wf] in Hwf.
    destruct (is_finite x) eqn:Hf; split; try reflexivity.
    + unfold text. cbn. now rewrite Hf.
    + cbn. now rewrite Hf, Hwf.
  - split; reflexivity.
  - cbn [jsonify serialize js_wf] in *.
    assert (Forall (fun x =>
              default "null" (serialize x)
              = text (default JNull (jsonify x))
              /\ json_safe (default JNull (jsonify x)) = true) xs) as HF.
    { rewrite forallb_forall in Hwf. rewrite Forall_forall in IH |- *.
      intros x Hx. specialize (IH x Hx (Hwf x ltac:(now apply list_elem_of_In))).
      destruct (jsonify x) as [x'|]; cbn [default from_option id].
      - destruct IH as [-> ?]. now split.
      - rewrite IH. now split. }
    split.
    + unfold text at 1. cbn [serialize default from_option id]. do 4 f_equal.
      rewrite List.map_map. apply map_ext_Forall.
      eapply Forall_impl; [exact HF|]. now intros x [-> _].
    + cbn [json_safe]. rewrite forallb_forall. intros y Hy.
      apply in_map_iff in Hy as (x & <- & Hx).
      rewrite Forall_forall in HF. now apply HF, list_elem_of_In.
  - cbn [jsonify serialize js_wf] in *. apply andb_true_iff in Hwf as [Hkeys Hwf].
    fold jsonify_member.
    assert (omap (fun kv => (fun t => quote (fst kv) +:+ ":" +:+ t) <$> serialize (snd kv)) ps
            = List.map member_text (omap jsonify_member ps)
            /\ forallb (fun kv => json_safe (snd kv)) (omap jsonify_member ps) = true)
      as [Hm Hs].
    { clear Hkeys. induction ps as [|[k v] ps IHps]; [split; reflexivity|].
      apply Forall_cons in IH as [Hv IH]. cbn [forallb snd] in Hwf.
      apply andb_true_iff in Hwf as [Wv Wps]. cbn [snd] in Hv.
      specialize (IHps IH Wps) as [E1 E2]. specialize (Hv Wv).
      cbn [omap list_omap]. cbn [fst snd].
      change (jsonify_member (k, v)) with ((fun x => (k, x)) <$> jsonify v).
      destruct (jsonify v) as [v'|].
      - destruct Hv as [-> Sv]. cbn [fmap option_fmap option_map].
        cbn [List.map forallb snd]. rewrite Sv. split; [|assumption].
        fold (omap jsonify_member ps). rewrite <- E1. reflexivity.
      - rewrite Hv. cbn [fmap option_fmap option_map]. now split. }
    split.
    + unfold text at 1. cbn [serialize default from_option id].
      rewrite (members_text _ Hs). do 4 f_equal. exact Hm.
    + cbn [json_safe]. rewrite Hs, andb_true_r.
      apply key_order_omap; [|assumption].
      intros kv kv'. unfold jsonify_member. destruct (jsonify (snd kv)); [|discriminate].
      cbn. now intros [= <-].
  - destruct f; cbn; try reflexivity. split; reflexivity.
Qed.

Lemma jsonify_safe v : json_safe v = true -> jsonify v = Some v.
Proof.
  induction v as [| |b|x|s|xs IH|ps IH|f] using JSValue_ind; intros H;
    try reflexivity; try discriminate.
  - cbn in *. apply andb_true_iff in H as [-> _]. reflexivity.
  - cbn [jsonify json_safe] in *. do 2 f_equal.
    induction xs as [|x xs IHxs]; [reflexivity|].
    apply Forall_cons in IH as [Hx IH]. cbn [forallb] in H.
    apply andb_true_iff in H as [Sx Sxs]. cbn [List.map].
    now rewrite (Hx Sx), (IHxs IH Sxs).
  - cbn [jsonify json_safe] in *. apply andb_true_iff in H as [_ H]. do 2 f_equal.
    induction ps as [|[k v] ps IHps]; [reflexivity|].
    apply Forall_cons in IH as [Hv IH]. cbn [forallb snd] in H.
    apply andb_true_iff in H as [Sv Sps]. cbn [omap list_omap snd fst].
    cbn [snd] in Hv. rewrite (Hv Sv). cbn [fmap option_fmap option_map].
    f_equal. now apply IHps.
Qed.

(** [JSON.parse(JSON.stringify(v))] is [jsonify v]. *)
Theorem JSON_parse_stringify v v' :
  js_wf v = true -> jsonify v = Some v' ->
  JSON_stringify v = JStr (text v') /\ JSON_parse (text v') = Ok v'.
Proof.
  intros Hwf Hj. pose proof (serialize_jsonify v Hwf) as H. rewrite Hj in H.
  destruct H as [Hs Hsafe]. unfold JSON_stringify. rewrite Hs.
  split; [reflexivity | now apply JSON_parse_text].
Qed.

End JsonifyFacts.

Module ParseFacts.
Import Str JS StrFacts NumFacts JSONFacts ObjFacts.

Lemma span_spec p s a b : span p s = (a, b) -> all p a = true /\ s = a +:+ b.
Proof.
  revert a b. induction s as [|c s IH]; intros a b; cbn.
  - intros [= <- <-]. now split.
  - destruct (p c) eqn:Hc.
    + destruct (span p s) as [a' b'] eqn:E. intros [= <- <-].
      destruct (IH a' b' eq_refl) as [Ha ->]. cbn. now rewrite Hc, Ha.
    + intros [= <- <-]. now split.
Qed.

Lemma head_drop_while p s : head_sat p (drop_while p s) = false.
Proof.
  induction s as [|c s IH]; [reflexivity|]. cbn.
  destruct (p c) eqn:Hc; [assumption | cbn; assumption].
Qed.

Lemma drop_while_suffix p s : exists t, s = t +:+ drop_while p s.
Proof.
  induction s as [|c s [t IH]]; [now exists ""%string|]. cbn.
  destruct (p c); [|now exists ""%string].
  exists (String c t). rewrite sapp_cons. now f_equal.
Qed.

Lemma drop_while_end_prefix p s : exists t, s = drop_while_end p s +:+ t.
Proof.
  unfold drop_while_end. destruct (drop_while_suffix p (rev s)) as [t Ht].
  exists (rev t). rewrite <- srev_app, <- Ht. now rewrite srev_involutive.
Qed.

Lemma strip_zeros_spec p ds pt ds1 pt1 :
  strip_zeros ds pt = (ds1, pt1) ->
  head_sat is_zero_char ds1 = false /\ (all p ds = true -> all p ds1 = true).
Proof.
  revert pt. induction ds as [|c ds IH]; intros pt; cbn.
  - intros [= <- <-]. now split.
  - destruct (is_zero_char c) eqn:Hc.
    + intros H. destruct (IH _ H) as [H1 H2]. split; [assumption|].
      intros Hall. apply andb_true_iff in Hall as [_ Hall]. now apply H2.
    + intros [= <- <-]. cbn. now split.
Qed.

Lemma make_number_safe neg ds pt :
  all is_digit ds = true ->
  is_finite (make_number neg ds pt) = true /\ num_wf (make_number neg ds pt) = true.
Proof.
  intros Hall. unfold make_number.
  destruct (strip_zeros ds pt) as [ds1 pt1] eqn:E.
  destruct (strip_zeros_spec is_digit ds pt ds1 pt1 E) as [Hh Hall1].
  specialize (Hall1 Hall).
  destruct (drop_while_end_prefix is_zero_char ds1) as [t Ht].
  assert (head_sat is_zero_char (rev (drop_while_end is_zero_char ds1)) = false) as Hl.
  { unfold drop_while_end. rewrite srev_involutive. apply head_drop_while. }
  destruct (drop_while_end is_zero_char ds1) as [|c r]; [now split|].
  split; [reflexivity|]. cbn [num_wf].
  rewrite Ht, sapp_cons in Hh, Hall1. cbn [head_sat] in Hh. cbn [all] in Hall1.
  apply andb_true_iff in Hall1 as [Hc Hall1]. rewrite sall_app in Hall1.
  apply andb_true_iff in Hall1 as [Hr _].
  cbn [all head_sat]. now rewrite Hc, Hr, Hh, Hl.
Qed.

Lemma parse_frac_digits s fp s3 : parse_frac s = Some (fp, s3) -> all is_digit fp = true.
Proof.
  unfold parse_frac. destruct (after_char "." s) as [r|]; [|now intros [= <- <-]].
  destruct (span is_digit r) as [a b] eqn:E. apply span_spec in E as [Ha _].
  destruct a; [discriminate | now intros [= <- <-]].
Qed.

Lemma parse_unsigned_safe neg s x r :
  parse_unsigned neg s = Some (x, r) -> is_finite x = true /\ num_wf x = true.
Proof.
  unfold parse_unsigned. destruct s as [|c s]; [discriminate|].
  destruct (is_digit c) eqn:Hc; [|discriminate].
  assert (forall ip s2,
    (if is_zero_char c then (String c "", s) else span is_digit (String c s)) = (ip, s2) ->
    all is_digit ip = true) as Hip.
  { intros ip s2. destruct (is_zero_char c).
    - intros [= <- <-]. cbn. now rewrite Hc.
    - intros H. now apply span_spec in H. }
  destruct (if is_zero_char c then _ else _) as [ip s2] eqn:E.
  specialize (Hip ip s2 eq_refl).
  destruct (parse_frac s2) as [[fp s3]|] eqn:Ef; [|discriminate].
  apply parse_frac_digits in Ef.
  destruct (parse_exp s3) as [[e s4]|]; [|discriminate].
  intros [= <- <-]. apply make_number_safe. now rewrite sall_app, Hip, Ef.
Qed.

Lemma parse_number_safe s x r :
  parse_number s = Some (x, r) -> is_finite x = true /\ num_wf x = true.
Proof.
  unfold parse_number. destruct (after_char "-" s); apply parse_unsigned_safe.
Qed.

Lemma array_index_text k i : array_index k = Some i -> k = Str.of_N i.
Proof.
  unfold array_index.
  destruct (all is_digit k && (String.length k <=? 10)%nat
            && String.eqb k (Str.of_N (to_N k)) && (to_N k <? 4294967295)%N) eqn:E;
    [|discriminate].
  intros [= <-]. apply andb_true_iff in E as [E _]. apply andb_true_iff in E as [_ E].
  now apply String.eqb_eq in E.
Qed.

Lemma array_index_inj a b i :
  array_index a = Some i -> array_index b = Some i -> a = b.
Proof. intros Ha Hb. apply array_index_text in Ha, Hb. congruence. Qed.

Lemma forallb_insert_index (P : string -> bool) i k v ps :
  forallb P (List.map fst (obj_insert_index i k v ps))
  = P k && forallb P (List.map fst ps).
Proof.
  induction ps as [|[k' v'] ps IH]; [reflexivity|]. cbn [obj_insert_index].
  destruct (array_index k') as [j|]; [|reflexivity].
  destruct (j <? i)%N; [|reflexivity].
  cbn [List.map fst forallb]. rewrite IH. now destruct (P k'), (P k).
Qed.

Lemma key_before_trans_index k k' k'' i :
  array_index k = Some i ->
  key_before k k' = true -> key_before k' k'' = true -> k <> k'' ->
  key_before k k'' = true.
Proof.
  unfold key_before. intros Hi H1 H2 Hne. rewrite Hi in *.
  apply String.eqb_neq in Hne. rewrite Hne. cbn.
  apply andb_true_iff in H1 as [_ H1]. apply andb_true_iff in H2 as [_ H2].
  destruct (array_index k'') as [j''|]; [|reflexivity].
  destruct (array_index k') as [j'|]; [|discriminate].
  apply N.ltb_lt in H1, H2. apply N.ltb_lt. lia.
Qed.

Lemma insert_index_order i k v ps :
  array_index k = Some i -> ~ In k (List.map fst ps) ->
  key_order_ok (List.map fst ps) = true ->
  key_order_ok (List.map fst (obj_insert_index i k v ps)) = true.
Proof.
  intros Hi. induction ps as [|[k' v'] ps IH]; intros Hin Hok; [reflexivity|].
  cbn [List.map fst key_order_ok] in Hok. apply andb_true_iff in Hok as [Hk' Hok].
  assert (k' <> k) as Hne by (intros ->; apply Hin; now left).
  assert (~ In k (List.map fst ps)) as Hin' by (intros H; apply Hin; now right).
  assert (forall j, array_index k' = Some j -> (j <? i)%N = false ->
          key_before k k' = true) as Hbefore.
  { intros j Hj Hlt. unfold key_before. rewrite Hi, Hj.
    pose proof Hne as Hne'. apply not_eq_sym, String.eqb_neq in Hne'.
    rewrite Hne'. cbn.
    apply N.ltb_ge in Hlt. apply N.ltb_lt.
    destruct (N.eq_dec i j) as [-> | ?]; [|lia].
    exfalso. apply Hne. symmetry. eapply array_index_inj; eassumption. }
  assert (key_before k k' = true ->
          key_order_ok (List.map fst ((k, v) :: (k', v') :: ps)) = true) as Hfront.
  { intros Hkk'. cbn [List.map fst key_order_ok forallb].
    rewrite Hkk', Hk', Hok, !andb_true_r. cbn.
    rewrite forallb_forall in Hk' |- *. intros k'' Hk''.
    eapply key_before_trans_index; eauto.
    intros ->. apply Hin'. assumption. }
  cbn [obj_insert_index].
  destruct (array_index k') as [j|] eqn:Hj.
  - destruct (j <? i)%N eqn:Hlt.
    + cbn [List.map fst key_order_ok]. rewrite forallb_insert_index, Hk', (IH Hin' Hok).
      rewrite !andb_true_r. unfold key_before. rewrite Hj, Hi, Hlt.
      destruct (String.eqb_spec k' k); [contradiction | reflexivity].
    + apply Hfront. now apply (Hbefore j).
  - apply Hfront. unfold key_before. rewrite Hi, Hj.
    destruct (String.eqb_spec k k'); [now subst | reflexivity].
Qed.

(** [CreateDataProperty] keeps the own properties in key order. *)
Lemma obj_set_order k v ps :
  key_order_ok (List.map fst ps) = true ->
  key_order_ok (List.map fst (obj_set k v ps)) = true.
Proof.
  intros Hok. destruct (array_index k) as [i|] eqn:Hi;
    [|now apply obj_set_name_keys_ok].
  unfold obj_set. rewrite Hi. destruct (obj_lookup k ps) eqn:El.
  - now rewrite obj_replace_keys.
  - apply insert_index_order; [assumption | now apply obj_lookup_In | assumption].
Qed.

Lemma forallb_obj_set (P : string * JSValue -> bool) k v ps :
  (forall k', P (k', v) = true) -> forallb P ps = true ->
  forallb P (obj_set k v ps) = true.
Proof.
  intros Hv Hps. unfold obj_set. destruct (obj_lookup k ps).
  - now apply forallb_obj_replace.
  - destruct (array_index k) as [i|].
    + clear -Hv Hps. induction ps as [|[k' v'] ps IH]; cbn; [now rewrite Hv|].
      cbn in Hps. apply andb_true_iff in Hps as [H1 H2].
      destruct (array_index k') as [j|]; [destruct (j <? i)%N|]; cbn;
        rewrite ?Hv, ?H1, ?H2, ?IH; auto.
    + rewrite forallb_app, Hps. cbn. now rewrite Hv.
Qed.

Lemma obj_of_members_safe ms :
  forallb (fun kv => json_safe (snd kv)) ms = true ->
  json_safe (JObj (obj_of_members ms)) = true.
Proof.
  unfold obj_of_members.
  assert (forall acc, json_safe (JObj acc) = true ->
          forallb (fun kv => json_safe (snd kv)) ms = true ->
          json_safe (JObj (fold_left (fun acc kv => obj_set (fst kv) (snd kv) acc)
                             ms acc)) = true) as H.
  { induction ms as [|[k v] ms IH]; intros acc Hacc Hms; [assumption|].
    cbn [forallb snd] in Hms. apply andb_true_iff in Hms as [Hv Hms].
    cbn [fold_left fst snd]. apply IH; [|assumption].
    cbn [json_safe] in *. apply andb_true_iff in Hacc as [H1 H2].
    rewrite obj_set_order by assumption.
    now rewrite (forallb_obj_set (fun kv => json_safe (snd kv))). }
  now apply H.
Qed.

(** What [JSON.parse] returns is a value JSON can carry. *)
Lemma parse_safe fuel :
  (forall s v r, parse_value fuel s = Some (v, r) -> json_safe v = true)
  /\ (forall s vs r, parse_elements fuel s = Some (vs, r) ->
        forallb json_safe vs = true)
  /\ (forall s ms r, parse_members fuel s = Some (ms, r) ->
        forallb (fun kv => json_safe (snd kv)) ms = true).
Proof.
  induction fuel as [|fuel (IHv & IHe & IHm)]; [repeat split; discriminate|].
  repeat split.
  - intros s v r. cbn [parse_value].
    destruct (skip_ws s) as [|c t]; [discriminate|].
    destruct (Ascii.eqb c "{").
    { destruct (after_char "}" (skip_ws t)); [now intros [= <- <-]|].
      destruct (parse_members fuel t) as [[ms r']|] eqn:E; [|discriminate].
      intros [= <- <-]. apply obj_of_members_safe. eapply IHm; eassumption. }
    destruct (Ascii.eqb c "[").
    { destruct (after_char "]" (skip_ws t)); [now intros [= <- <-]|].
      destruct (parse_elements fuel t) as [[xs r']|] eqn:E; [|discriminate].
      intros [= <- <-]. cbn. eapply IHe; eassumption. }
    destruct (Ascii.eqb c "034").
    { destruct (parse_string_body t) as [[x r']|]; [|discriminate].
      now intros [= <- <-]. }
    destruct (Ascii.eqb c "t").
    { destruct (strip_prefix "rue" t); [|discriminate]. now intros [= <- <-]. }
    destruct (Ascii.eqb c "f").
    { destruct (strip_prefix "alse" t); [|discriminate]. now intros [= <- <-]. }
    destruct (Ascii.eqb c "n").
    { destruct (strip_prefix "ull" t); [|discriminate]. now intros [= <- <-]. }
    destruct (parse_number (String c t)) as [[x r']|] eqn:E; [|discriminate].
    intros [= <- <-]. apply parse_number_safe in E as [Hf Hw]. cbn. now rewrite Hf, Hw.
  - intros s vs r. cbn [parse_elements].
    destruct (parse_value fuel s) as [[v r1]|] eqn:Ev; [|discriminate].
    apply IHv in Ev.
    destruct (skip_ws r1) as [|c t]; [discriminate|].
    destruct (Ascii.eqb c ",").
    { destruct (parse_elements fuel t) as [[vs' r2]|] eqn:Ee; [|discriminate].
      intros [= <- <-]. cbn. rewrite Ev. eapply IHe; eassumption. }
    destruct (Ascii.eqb c "]"); [|discriminate].
    intros [= <- <-]. cbn. now rewrite Ev.
  - intros s ms r. cbn [parse_members].
    destruct (after_char "034" (skip_ws s)) as [r0|]; [|discriminate].
    destruct (parse_string_body r0) as [[k r1]|]; [|discriminate].
    destruct (after_char ":" (skip_ws r1)) as [r2|]; [|discriminate].
    destruct (parse_value fuel r2) as [[v r3]|] eqn:Ev; [|discriminate].
    apply IHv in Ev.
    destruct (skip_ws r3) as [|c t]; [discriminate|].
    destruct (Ascii.eqb c ",").
    { destruct (parse_members fuel t) as [[ms' r4]|] eqn:Em; [|discriminate].
      intros [= <- <-]. cbn. rewrite Ev. eapply IHm; eassumption. }
    destruct (Ascii.eqb c "}"); [|discriminate].
    intros [= <- <-]. cbn. now rewrite Ev.
Qed.

Theorem JSON_parse_safe s v : JSON_parse s = Ok v -> json_safe v = true.
Proof.
  unfold JSON_parse.
  destruct (parse_value (S (String.length s)) s) as [[v' r]|] eqn:E; [|discriminate].
  destruct (skip_ws r); [|discriminate]. intros [= <-].
  eapply (proj1 (parse_safe _)); eassumption.
Qed.

End ParseFacts.

(* ================================================================== *)
(** * The interaction store *)
(* ================================================================== *)

Module SortFacts.
Import Runtime.
Export InteractionNotions.

Section Sorting.
Context {A : Type} (cmp : A -> A -> Z).

Lemma sort_insert_perm x l : Permutation (sort_insert cmp x l) (x :: l).
Proof.
  induction l as [|y l IH]; [reflexivity|]. cbn.
  destruct (cmp x y >? 0); [|reflexivity].
  rewrite IH. apply perm_swap.
Qed.

Lemma Array_sort_perm l : Permutation (Array_sort cmp l) l.
Proof.
  induction l as [|x l IH]; [reflexivity|]. cbn.
  change (foldr (sort_insert cmp) [] l) with (Array_sort cmp l).
  now rewrite sort_insert_perm, IH.
Qed.

Lemma Array_sort_length l : length (Array_sort cmp l) = length l.
Proof. apply Permutation_length, Array_sort_perm. Qed.

(** The comparator orders by a key, largest first. *)
Variable key : A -> Z.
Variable ok : A -> Prop.
Hypothesis cmp_key : forall x y, ok x -> ok y -> cmp x y = key y - key x.

Lemma sort_insert_sorted x l :
  ok x -> Forall ok l -> Sorted (desc key) l -> Sorted (desc key) (sort_insert cmp x l).
Proof.
  intros Hx Hl Hs. induction l as [|y l IH]; [repeat constructor|].
  apply Forall_cons in Hl as [Hy Hl]. cbn. rewrite (cmp_key x y Hx Hy).
  apply Sorted_inv in Hs as [Hs Hhd].
  destruct (key y - key x >? 0) eqn:E.
  - apply Z.gtb_lt in E. constructor; [now apply IH|].
    destruct l as [|z l]; cbn.
    + constructor. unfold desc. lia.
    + apply Forall_cons in Hl as [Hz _]. rewrite (cmp_key x z Hx Hz).
      apply HdRel_inv in Hhd.
      destruct (key z - key x >? 0); constructor; [assumption | unfold desc; lia].
  - assert (key y <= key x) by (destruct (Z.gtb_spec (key y - key x) 0); [discriminate | lia]).
    constructor; [now constructor | now constructor].
Qed.

Lemma Array_sort_sorted l : Forall ok l -> Sorted (desc key) (Array_sort cmp l).
Proof.
  induction l as [|x l IH]; intros H; [constructor|].
  apply Forall_cons in H as [Hx Hl]. cbn.
  apply sort_insert_sorted; [assumption | | now apply IH].
  change (foldr (sort_insert cmp) [] l) with (Array_sort cmp l).
  rewrite Forall_forall in Hl |- *. intros y Hy. apply Hl.
  apply list_elem_of_In. apply list_elem_of_In in Hy.
  eapply Permutation_in; [apply Array_sort_perm | exact Hy].
Qed.

Lemma sort_insert_keeps_last y l n :
  cmp y n <= 0 -> exists l', sort_insert cmp y (l ++ [n]) = l' ++ [n].
Proof.
  intros Hy. induction l as [|z l [l' IH]]; cbn.
  - destruct (Z.gtb_spec (cmp y n) 0); [lia|]. now exists [y].
  - destruct (cmp y z >? 0).
    + rewrite IH. now exists (z :: l').
    + now exists (y :: z :: l).
Qed.

(** An element that sorts after every other one, added last, stays
    last. *)
Lemma Array_sort_keeps_last l n :
  Forall (fun y => cmp y n <= 0) l -> exists l', Array_sort cmp (l ++ [n]) = l' ++ [n].
Proof.
  induction l as [|y l IH]; intros H; [now exists []|].
  apply Forall_cons in H as [Hy Hl]. destruct (IH Hl) as [l' E].
  cbn. change (foldr (sort_insert cmp) [] (l ++ [n])) with (Array_sort cmp (l ++ [n])).
  rewrite E. now apply sort_insert_keeps_last.
Qed.

End Sorting.

End SortFacts.

Module InteractionFacts.
Import JS Runtime Storage StrFacts JSONFacts ObjFacts JsonifyFacts ParseFacts
  ReadFacts SortFacts CoercionFacts.
Import Scenario.
Export InteractionNotions.

Lemma get_object i k : is_object i = true -> get i k = Ok (field i k).
Proof. destruct i; try discriminate. reflexivity. Qed.

Lemma filterM_objects clientId xs :
  Forall (fun i => is_object i = true) xs ->
  filterM (of_client clientId) xs = Ok (List.filter (belongs_to clientId) xs).
Proof.
  induction xs as [|x xs IH]; intros H; [reflexivity|].
  apply Forall_cons in H as [Hx H]. cbn [filterM List.filter].
  unfold of_client at 1. rewrite (get_object x _ Hx). cbn [bind].
  rewrite (IH H). reflexivity.
Qed.

Lemma getClientInteractions_spec env clientId w xs :
  fst (getAllInteractions w) = Ok (JArr xs) ->
  Forall (fun i => is_object i = true) xs ->
  getClientInteractions env clientId w
  = (Ok (Array_sort (by_date_desc env) (List.filter (belongs_to clientId) xs)), w).
Proof.
  rewrite getAllInteractions_spec. cbn [fst]. intros H Hobj.
  unfold getClientInteractions, mbind, lift, ret.
  rewrite getAllInteractions_spec, H. cbn [as_array].
  now rewrite filterM_objects.
Qed.

Lemma by_date_desc_key env x y :
  dated env x -> dated env y ->
  by_date_desc env x y
  = default 0 (event_time env y) - default 0 (event_time env x).
Proof.
  unfold dated, by_date_desc, time_diff, sort_sign. intros Hx Hy.
  destruct (event_time env x), (event_time env y); try congruence. reflexivity.
Qed.

Lemma Sorted_newest_first env l :
  Forall (dated env) l ->
  Sorted (desc (fun i => default 0 (event_time env i))) l ->
  Sorted (newest_first env) l.
Proof.
  intros Hd Hs. induction Hs as [|x l Hs IH Hhd]; [constructor|].
  apply Forall_cons in Hd as [Hx Hd]. constructor; [now apply IH|].
  destruct Hhd as [|y l Hxy]; constructor.
  apply Forall_cons in Hd as [Hy _]. unfold dated, desc, newest_first in *.
  destruct (event_time env x) as [tx|], (event_time env y) as [ty|]; try congruence.
  exists tx, ty. now repeat split.
Qed.

Lemma read_of_safe o v : read_of o = Ok v -> json_safe v = true.
Proof.
  unfold read_of. destruct o as [[|c s]|]; try (now intros [= <-]).
  destruct (JSON_parse (String c s)) eqn:E; [|now intros [= <-]].
  intros [= <-]. eapply JSON_parse_safe; eassumption.
Qed.

Lemma map_jsonify_safe xs :
  forallb json_safe xs = true ->
  List.map (fun x => default JNull (jsonify x)) xs = xs.
Proof.
  induction xs as [|x xs IH]; [reflexivity|]. cbn [forallb].
  intros H. apply andb_true_iff in H as [Hx H].
  cbn [List.map]. now rewrite (jsonify_safe x Hx), IH.
Qed.

Lemma text_array_nonempty l : exists t, text (JArr l) = String "[" t.
Proof. eexists. unfold text. cbn [serialize default from_option id]. reflexivity. Qed.

(** Writing a list that ends in a new record and reading it back. *)
Lemma store_then_read key (read : M JSValue) xs n n' w :
  (forall w0, read w0 = (read_of (localStorage w0 !! key), w0)) ->
  forallb json_safe xs = true -> js_wf n = true -> jsonify n = Some n' ->
  let w1 := snd (ClientStorage.store key (JArr (xs ++ [n])) w) in
  read w1 = (Ok (JArr (xs ++ [n'])), w1).
Proof.
  intros Hread Hxs Hn Hj w1.
  assert (js_wf (JArr (xs ++ [n])) = true) as Hwf.
  { cbn [js_wf]. rewrite forallb_app. cbn. rewrite Hn, andb_true_r.
    rewrite forallb_forall in Hxs |- *. intros x Hx. now apply json_safe_wf, Hxs. }
  assert (jsonify (JArr (xs ++ [n])) = Some (JArr (xs ++ [n']))) as Hjs.
  { cbn [jsonify]. rewrite List.map_app, map_jsonify_safe by assumption.
    cbn. now rewrite Hj. }
  destruct (JSON_parse_stringify _ _ Hwf Hjs) as [Hs Hp].
  rewrite Hread. subst w1. unfold ClientStorage.store, setItem. cbn [snd localStorage].
  rewrite lookup_insert_eq, Hs. cbn [ToString].
  destruct (text_array_nonempty (xs ++ [n'])) as [t Ht].
  rewrite Ht in *. cbn [read_of]. now rewrite Hp.
Qed.

Lemma lookup_jsonify_str k s qs :
  obj_lookup k qs = Some (JStr s) ->
  obj_lookup k (omap jsonify_member qs) = Some (JStr s).
Proof.
  induction qs as [|[k' v'] qs IH]; [discriminate|]. cbn [obj_lookup omap list_omap].
  change (jsonify_member (k', v')) with ((fun x => (k', x)) <$> jsonify v').
  destruct (String.eqb k' k) eqn:E.
  - intros [= ->]. cbn. now rewrite E.
  - intros H. destruct (jsonify v'); cbn; rewrite ?E; now apply IH.
Qed.

(** A string field of a record survives [JSON.stringify]. *)
Lemma field_jsonify_str k s qs q' :
  field (JObj qs) k = JStr s -> jsonify (JObj qs) = Some q' ->
  is_object q' = true /\ field q' k = JStr s.
Proof.
  unfold field. cbn [get jsonify]. intros H [= <-]. split; [reflexivity|].
  fold jsonify_member. cbn [get].
  destruct (obj_lookup k qs) as [v|] eqn:E.
  - subst v. now rewrite (lookup_jsonify_str k s qs E).
  - unfold proto_lookup in H.
    repeat (match type of H with
            | (if ?c then _ else _) = _ => destruct c; try discriminate
            end).
Qed.

Lemma field_set_other k k0 v ps :
  array_index k = None -> k0 <> k ->
  field (JObj (obj_set k v ps)) k0 = field (JObj ps) k0.
Proof.
  intros Hk Hne. unfold field. cbn [get]. now rewrite obj_lookup_set_name_ne.
Qed.

(** [addInteraction] on a well-formed store: the record it returns, and
    the list the store holds afterwards. *)
Lemma addInteraction_spec env ps w xs :
  js_wf (JObj ps) = true ->
  fst (getAllInteractions w) = Ok (JArr xs) ->
  exists n n' w1,
    addInteraction env (JObj ps) w = (Ok n, w1)
    /\ jsonify n = Some n'
    /\ getAllInteractions w1 = (Ok (JArr (xs ++ [n'])), w1)
    /\ (forall k, k <> "id"%string -> k <> "createdAt"%string ->
          field n k = field (JObj ps) k).
Proof.
  intros Hwf Hread. rewrite getAllInteractions_spec in Hread. cbn [fst] in Hread.
  pose proof (read_of_safe _ _ Hread) as Hsafe. cbn [json_safe] in Hsafe.
  unfold addInteraction, mbind. rewrite getAllInteractions_spec, Hread.
  destruct (ClientStoreFacts.fresh_id_prefix env "interaction-" w) as [t ->].
  unfold now_iso, lift. cbn [as_array].
  assert (key_order_ok (List.map fst ps) = true) as Hkeys.
  { cbn [js_wf] in Hwf. now apply andb_true_iff in Hwf as [? _]. }
  rewrite (spread_copy ps Hkeys).
  set (n := JObj (obj_set "createdAt" _ (obj_set "id" _ ps))).
  assert (js_wf n = true) as Hn.
  { subst n. apply js_wf_set_name; [reflexivity | reflexivity|].
    now apply js_wf_set_name. }
  destruct (jsonify n) as [n'|] eqn:Hj; [|discriminate].
  set (w3 := next_tick (next_tick (next_tick w))).
  pose proof (store_then_read INTERACTIONS_KEY getAllInteractions xs n n' w3
                getAllInteractions_spec Hsafe Hn Hj) as Hstore.
  cbn zeta in Hstore.
  exists n, n', (snd (ClientStorage.store INTERACTIONS_KEY (JArr (xs ++ [n])) w3)).
  repeat split; try assumption.
  intros k H1 H2. subst n. now rewrite !field_set_other.
Qed.

(** C2: let the store hold the list [xs] of records.  Then
    [getClientInteractions] returns exactly the records whose [clientId]
    is the argument, as a permutation.  When each of them has a date
    that [Date] can read, they are sorted by date, newest first.  If a
    record of that client whose date is earlier than the date of every
    record returned is added next, the new record, as stored, is the
    last one returned. *)
Theorem interactions_newest_first
    (env : Env) (w : World) (clientId : string) (xs : list JSValue) :
  fst (getAllInteractions w) = Ok (JArr xs) ->
  Forall (fun i => is_object i = true) xs ->
  exists res,
    getClientInteractions env clientId w = (Ok res, w)
    /\ Permutation res (List.filter (belongs_to clientId) xs)
    /\ (Forall (dated env) (List.filter (belongs_to clientId) xs) ->
        Sorted (newest_first env) res)
    /\ forall ps date t n w1,
         js_wf (JObj ps) = true ->
         field (JObj ps) "clientId" = JStr clientId ->
         field (JObj ps) "date" = JStr date ->
         Date_parse env date = Some t ->
         Forall (fun i => exists ti, event_time env i = Some ti /\ t < ti) res ->
         addInteraction env (JObj ps) w = (Ok n, w1) ->
         exists res' n',
           getClientInteractions env clientId w1 = (Ok res', w1)
           /\ jsonify n = Some n'
           /\ last res' = Some n'
           /\ field n' "clientId" = JStr clientId
           /\ field n' "date" = JStr date.
Proof.
  intros Hread Hobj.
  set (mine := List.filter (belongs_to clientId) xs) in *.
  exists (Array_sort (by_date_desc env) mine).
  split; [now apply getClientInteractions_spec|].
  split; [apply Array_sort_perm|].
  split.
  { intros Hdated. apply Sorted_newest_first.
    - rewrite Forall_forall in Hdated |- *. intros y Hy. apply Hdated.
      apply list_elem_of_In. apply list_elem_of_In in Hy.
      eapply Permutation_in; [apply Array_sort_perm | exact Hy].
    - eapply (Array_sort_sorted (by_date_desc env) _ (dated env));
        [apply by_date_desc_key | assumption]. }
  intros ps date t n w1 Hwf Hclient Hdate Ht Hearlier Hadd.
  destruct (addInteraction_spec env ps w xs Hwf Hread)
    as (n0 & n' & w1' & Hadd' & Hj & Hread1 & Hfields).
  rewrite Hadd in Hadd'. injection Hadd' as <- <-.
  assert (exists qs, n = JObj qs) as [qs ->].
  { unfold addInteraction, mbind in Hadd. rewrite getAllInteractions_spec in Hadd.
    rewrite getAllInteractions_spec in Hread. cbn [fst] in Hread. rewrite Hread in Hadd.
    destruct (ClientStoreFacts.fresh_id_prefix env "interaction-" w) as [t0 E].
    rewrite E in Hadd. cbn in Hadd. injection Hadd as <- _. eexists. reflexivity. }
  assert (field (JObj qs) "clientId" = JStr clientId) as Hc
    by (rewrite Hfields; [assumption | discriminate | discriminate]).
  assert (field (JObj qs) "date" = JStr date) as Hd
    by (rewrite Hfields; [assumption | discriminate | discriminate]).
  destruct (field_jsonify_str _ _ _ _ Hc Hj) as [On' Hc'].
  destruct (field_jsonify_str _ _ _ _ Hd Hj) as [_ Hd'].
  assert (fst (getAllInteractions w1) = Ok (JArr (xs ++ [n']))) as Hr1
    by now rewrite Hread1.
  assert (Forall (fun i => is_object i = true) (xs ++ [n'])) as Hobj1.
  { apply Forall_app. split; [assumption | now constructor]. }
  rewrite (getClientInteractions_spec env clientId w1 _ Hr1 Hobj1).
  rewrite List.filter_app. fold mine. cbn [List.filter].
  assert (belongs_to clientId n' = true) as ->.
  { unfold belongs_to. rewrite Hc'. cbn. apply String.eqb_refl. }
  assert (event_time env n' = Some t) as Htn.
  { unfold event_time. rewrite (get_object n' _ On'), Hd'. exact Ht. }
  destruct (Array_sort_keeps_last (by_date_desc env) mine n') as [l' El].
  { rewrite Forall_forall. intros y Hy.
    assert (In y (Array_sort (by_date_desc env) mine)) as Hy'.
    { apply list_elem_of_In in Hy. eapply Permutation_in; [|exact Hy].
      symmetry. apply Array_sort_perm. }
    rewrite Forall_forall in Hearlier.
    destruct (Hearlier y ltac:(now apply list_elem_of_In)) as (ty & Hty & Hlt).
    unfold by_date_desc, time_diff, sort_sign. rewrite Htn, Hty. cbn. lia. }
  exists (l' ++ [n']), n'. rewrite El. repeat split; try assumption.
  apply last_snoc.
Qed.

(** Three calls are on record, two of them with client-001.  Its
    listing holds these two, the call of September before the call of
    March; a call dated 2023-12-31, added next, is listed last. *)
Lemma interactions_newest_first_witness :
  exists res res' n',
    getClientInteractions Browser.env "client-001" diary = (Ok res, diary)
    /\ Permutation res (List.filter (belongs_to "client-001") diary_records)
    /\ Sorted (newest_first Browser.env) res
    /\ List.map (fun i => field i "date") res
       = [ JStr "2024-09-21"; JStr "2024-03-10" ]
    /\ fst (getClientInteractions Browser.env "client-001"
              (snd (addInteraction Browser.env (call "client-001" "2023-12-31") diary)))
       = Ok res'
    /\ last res' = Some n'
    /\ field n' "date" = JStr "2023-12-31".
Proof.
  destruct (interactions_newest_first Browser.env diary "client-001" diary_records)
    as (res & Hget & Hperm & Hsorted & Hlast).
  - vm_compute. reflexivity.
  - vm_compute. repeat constructor.
  - assert (Sorted (newest_first Browser.env) res) as Hsorted'.
    { apply Hsorted.
      let l := eval vm_compute in (List.filter (belongs_to "client-001") diary_records) in
      change (Forall (dated Browser.env) l).
      repeat (constructor; [unfold dated; vm_compute; discriminate|]). constructor. }
    clear Hsorted. rename Hsorted' into Hsorted.
    assert (exists r, getClientInteractions Browser.env "client-001" diary = (Ok r, diary)
                      /\ List.map (fun i => field i "date") r
                         = [ JStr "2024-09-21"; JStr "2024-03-10" ]
                      /\ Forall (fun i => exists ti, event_time Browser.env i = Some ti
                                                     /\ 1703980800000 < ti) r)
      as (r & Hr & Hdates & Hlater).
    { let r := eval vm_compute in
        (match fst (getClientInteractions Browser.env "client-001" diary) with
         | Ok r => r | Throw _ => [] end) in exists r.
      split; [vm_compute; reflexivity|]. split; [vm_compute; reflexivity|].
      repeat (constructor; [eexists; split; [vm_compute; reflexivity | reflexivity]|]).
      constructor. }
    rewrite Hr in Hget. apply (f_equal fst) in Hget. cbn [fst] in Hget.
    injection Hget as <-.
    destruct (addInteraction Browser.env (call "client-001" "2023-12-31") diary)
      as [n w1] eqn:Hadd.
    destruct n as [n0|e].
    2:{ pose proof (f_equal fst Hadd) as Hn. cbn [fst] in Hn.
        vm_compute in Hn. discriminate. }
    destruct (Hlast (call_fields "client-001" "2023-12-31") "2023-12-31"%string
                1703980800000 n0 w1 eq_refl eq_refl eq_refl eq_refl Hlater Hadd)
      as (res' & n' & Hget' & _ & Hl & _ & Hd).
    exists r, res', n'. cbn [snd]. rewrite Hget'. now repeat split.
Defined.

(** C2 as stated fails once a record has no date that [Date] can read,
    and the form lets such a record through.  Of three calls with one
    client, recorded in turn for 1 January, with no date and for
    1 December, the listing keeps the order of storage: the call of
    January stands before the call of December. *)
Lemma undated_record_breaks_newest_first :
  exists res older newer t_older t_newer,
    getClientInteractions Browser.env "client-001" undated_diary
    = (Ok res, undated_diary)
    /\ List.map (fun i => field i "date") res
       = [ JStr "2024-01-01"; JStr ""; JStr "2024-12-01" ]
    /\ res !! 0%nat = Some older /\ res !! 2%nat = Some newer
    /\ event_time Browser.env older = Some t_older
    /\ event_time Browser.env newer = Some t_newer
    /\ t_older < t_newer
    /\ ~ Sorted (newest_first Browser.env) res.
Proof.
  let r := eval vm_compute in
    (match fst (getClientInteractions Browser.env "client-001" undated_diary) with
     | Ok r => r | Throw _ => [] end) in exists r.
  eexists _, _, _, _.
  split; [vm_compute; reflexivity|]. split; [vm_compute; reflexivity|].
  split; [reflexivity|]. split; [reflexivity|].
  split; [vm_compute; reflexivity|]. split; [vm_compute; reflexivity|].
  split; [reflexivity|].
  intros H. apply Sorted_inv in H as [_ H]. apply HdRel_inv in H.
  destruct H as (ta & tb & _ & Hb & _). vm_compute in Hb. discriminate.
Qed.

End InteractionFacts.

Module SeedFacts.
Import JS Runtime Storage StrFacts JSONFacts ObjFacts JsonifyFacts ParseFacts
  ReadFacts SortFacts CoercionFacts InteractionFacts.
Export InteractionNotions.

Lemma samples_001 : Forall (sample_of "client-001") sample_client_001.
Proof. repeat constructor. Qed.

Lemma samples_other : Forall (sample_of "client-002") sample_other.
Proof. repeat constructor. Qed.

(** [sampleInteractions.forEach(interaction => addInteraction(interaction))]
    on a well-formed store appends one stored record per sample. *)
Lemma seed_all env owner samples : forall w xs,
  Forall (sample_of owner) samples ->
  fst (getAllInteractions w) = Ok (JArr xs) ->
  exists ns w',
    forEach (fun interaction => do! addInteraction env interaction in ret tt)
      samples w = (Ok tt, w')
    /\ getAllInteractions w' = (Ok (JArr (xs ++ ns)), w')
    /\ length ns = length samples
    /\ Forall (seeded_for owner) ns.
Proof.
  induction samples as [|s samples IH]; intros w xs Hs Hread.
  - exists [], w. rewrite app_nil_r. repeat split; try constructor.
    rewrite getAllInteractions_spec in *. cbn [fst] in Hread. now rewrite Hread.
  - apply Forall_cons in Hs as [(Os & Ws & Cs) Hs].
    destruct s as [| | | | | |ps|]; try discriminate.
    destruct (addInteraction_spec env ps w xs Ws Hread)
      as (n & n' & w1 & Hadd & Hj & Hread1 & Hfields).
    assert (exists qs, n = JObj qs) as [qs ->].
    { unfold addInteraction, mbind in Hadd. rewrite getAllInteractions_spec in Hadd.
      rewrite getAllInteractions_spec in Hread. cbn [fst] in Hread. rewrite Hread in Hadd.
      destruct (ClientStoreFacts.fresh_id_prefix env "interaction-" w) as [t0 E].
      rewrite E in Hadd. cbn in Hadd. injection Hadd as <- _. eexists. reflexivity. }
    assert (field (JObj qs) "clientId" = JStr owner) as Hc
      by (rewrite Hfields; [assumption | discriminate | discriminate]).
    destruct (field_jsonify_str _ _ _ _ Hc Hj) as [On' Hc'].
    destruct (IH w1 (xs ++ [n']) Hs) as (ns & w' & Hrun & Hread' & Hlen & Hns).
    { now rewrite Hread1. }
    exists (n' :: ns), w'. cbn [forEach]. unfold mbind at 1 2. rewrite Hadd.
    unfold ret at 1. rewrite Hrun. rewrite <- app_assoc in Hread'.
    repeat split; try assumption; [cbn; lia | now constructor].
Qed.

Lemma filter_seeded c owner ns :
  Forall (seeded_for owner) ns ->
  List.filter (belongs_to c) ns = if String.eqb owner c then ns else [].
Proof.
  induction ns as [|n ns IH]; intros H; [now destruct (String.eqb owner c)|].
  apply Forall_cons in H as [[_ Hn] H]. cbn [List.filter].
  unfold belongs_to at 1. rewrite Hn. cbn [strict_eq_str]. rewrite (IH H).
  now destruct (String.eqb owner c).
Qed.

(** Once the client has a record, [initializeSampleInteractions] does
    nothing. *)
Lemma initialize_noop env c w xs :
  fst (getAllInteractions w) = Ok (JArr xs) ->
  Forall (fun i => is_object i = true) xs ->
  List.filter (belongs_to c) xs <> [] ->
  initializeSampleInteractions env c w = (Ok tt, w).
Proof.
  intros Hread Hobj Hne. unfold initializeSampleInteractions, mbind.
  rewrite (getClientInteractions_spec env c w xs Hread Hobj).
  rewrite Array_sort_length.
  destruct (List.filter (belongs_to c) xs); [congruence | reflexivity].
Qed.

(** While the client has no record, it appends the three samples: those
    of client-001 for that id, those of client-002 for every other id. *)
Lemma initialize_seeds env c w xs :
  fst (getAllInteractions w) = Ok (JArr xs) ->
  Forall (fun i => is_object i = true) xs ->
  List.filter (belongs_to c) xs = [] ->
  exists ns w',
    initializeSampleInteractions env c w = (Ok tt, w')
    /\ getAllInteractions w' = (Ok (JArr (xs ++ ns)), w')
    /\ length ns = 3%nat
    /\ Forall (seeded_for
                 (if String.eqb c "client-001" then "client-001" else "client-002")) ns.
Proof.
  intros Hread Hobj Hempty. unfold initializeSampleInteractions, mbind.
  rewrite (getClientInteractions_spec env c w xs Hread Hobj), Hempty.
  cbn [Array_sort foldr length Nat.ltb Nat.leb].
  destruct (String.eqb c "client-001").
  - apply (seed_all env "client-001" sample_client_001 w xs samples_001 Hread).
  - apply (seed_all env "client-002" sample_other w xs samples_other Hread).
Qed.

(** For the two built-in clients a second call changes nothing. *)
Lemma initialize_builtin_idempotent env c w xs :
  c = "client-001"%string \/ c = "client-002"%string ->
  fst (getAllInteractions w) = Ok (JArr xs) ->
  Forall (fun i => is_object i = true) xs ->
  let w1 := snd (initializeSampleInteractions env c w) in
  initializeSampleInteractions env c w1 = (Ok tt, w1).
Proof.
  intros Hc Hread Hobj w1.
  destruct (List.filter (belongs_to c) xs) as [|x l] eqn:Hf.
  - destruct (initialize_seeds env c w xs Hread Hobj Hf) as (ns & w' & Hrun & Hread' & Hlen & Hns).
    subst w1. rewrite Hrun. cbn [snd].
    assert (Forall (fun i => is_object i = true) (xs ++ ns)) as Hobj'.
    { apply Forall_app. split; [assumption|].
      eapply Forall_impl; [exact Hns|]. now intros n [? _]. }
    apply (initialize_noop env c w' (xs ++ ns)); [now rewrite Hread' | assumption|].
    rewrite List.filter_app, Hf, (filter_seeded c _ ns Hns).
    destruct ns; [discriminate|].
    destruct Hc as [-> | ->]; discriminate.
  - subst w1. rewrite (initialize_noop env c w xs Hread Hobj) by (rewrite Hf; discriminate).
    cbn [snd]. apply (initialize_noop env c w xs Hread Hobj). rewrite Hf. discriminate.
Qed.

(** C3: select a custom client twice in a fresh profile.  Each call
    finds no record of that client and appends the three samples of
    client-002: after the first call the store holds three records,
    after the second six, all of client-002, and the custom client
    still has none. *)
Theorem initialize_doubles_for_custom_client (env : Env) :
  let c := "client-custom-1733047200000-k3j9x0q1z"%string in
  let w1 := snd (initializeSampleInteractions env c MockClients.initial_world) in
  let w2 := snd (initializeSampleInteractions env c w1) in
  exists once twice listed1 listed2,
    fst (getAllInteractions w1) = Ok (JArr once)
    /\ fst (getAllInteractions w2) = Ok (JArr (once ++ twice))
    /\ length once = 3%nat /\ length twice = 3%nat
    /\ Forall (seeded_for "client-002") (once ++ twice)
    /\ fst (getClientInteractions env c w2) = Ok []
    /\ fst (getClientInteractions env "client-002" w1) = Ok listed1
    /\ length listed1 = 3%nat
    /\ fst (getClientInteractions env "client-002" w2) = Ok listed2
    /\ length listed2 = 6%nat.
Proof.
  intros c w1 w2.
  assert (fst (getAllInteractions MockClients.initial_world) = Ok (JArr [])) as H0
    by reflexivity.
  destruct (initialize_seeds env c MockClients.initial_world [] H0 (Forall_nil_2 _) eq_refl)
    as (once & w1' & Hrun1 & Hread1 & Hlen1 & Hs1).
  cbn [app] in Hread1. change (String.eqb c "client-001") with false in Hs1.
  assert (w1 = w1') as <- by (subst w1; now rewrite Hrun1).
  assert (Forall (fun i => is_object i = true) once) as Hobj1
    by (eapply Forall_impl; [exact Hs1|]; now intros n [? _]).
  assert (fst (getAllInteractions w1) = Ok (JArr once)) as Hr1 by now rewrite Hread1.
  assert (List.filter (belongs_to c) once = []) as Hf1
    by now rewrite (filter_seeded c _ once Hs1).
  destruct (initialize_seeds env c w1 once Hr1 Hobj1 Hf1)
    as (twice & w2' & Hrun2 & Hread2 & Hlen2 & Hs2).
  change (String.eqb c "client-001") with false in Hs2.
  assert (w2 = w2') as <- by (subst w2; now rewrite Hrun2).
  assert (Forall (seeded_for "client-002") (once ++ twice)) as Hs12
    by (apply Forall_app; now split).
  assert (Forall (fun i => is_object i = true) (once ++ twice)) as Hobj2
    by (eapply Forall_impl; [exact Hs12|]; now intros n [? _]).
  assert (fst (getAllInteractions w2) = Ok (JArr (once ++ twice))) as Hr2
    by now rewrite Hread2.
  pose proof (getClientInteractions_spec env c w2 _ Hr2 Hobj2) as Hc.
  pose proof (getClientInteractions_spec env "client-002" w2 _ Hr2 Hobj2) as H2.
  pose proof (getClientInteractions_spec env "client-002" w1 _ Hr1 Hobj1) as H1.
  rewrite (filter_seeded c _ _ Hs12) in Hc.
  rewrite (filter_seeded "client-002" "client-002" _ Hs12) in H2.
  rewrite (filter_seeded "client-002" "client-002" _ Hs1) in H1.
  change (String.eqb "client-002" "client-002") with true in H1, H2.
  change (String.eqb "client-002" c) with false in Hc. cbn iota in Hc, H1, H2.
  exists once, twice, (Array_sort (by_date_desc env) once),
    (Array_sort (by_date_desc env) (once ++ twice)).
  rewrite Hc, H1, H2. cbn [fst]. rewrite !Array_sort_length, length_app.
  repeat split; try assumption; try reflexivity. lia.
Qed.

End SeedFacts.

(* ================================================================== *)
(** * The record parser on JSON text *)
(* ================================================================== *)

Module RoundTripFacts.
Import Str JS Runtime App StrFacts JSONFacts ObjFacts JsonifyFacts ParseFacts
  ReadFacts CoercionFacts InteractionFacts.
Import Scenario.
Export Records.

Lemma all_rev p s : all p (rev s) = all p s.
Proof.
  induction s as [|c s IH]; [reflexivity|].
  rewrite srev_cons, sall_app, IH. cbn. now rewrite andb_true_r, andb_comm.
Qed.

Lemma drop_while_split p s : exists t, s = t +:+ drop_while p s /\ all p t = true.
Proof.
  induction s as [|c s (t & IH & Ht)]; [now exists ""%string|]. cbn.
  destruct (p c) eqn:Hc; [|now exists ""%string].
  exists (String c t). rewrite sapp_cons. cbn. rewrite Hc, Ht. split; [now f_equal | reflexivity].
Qed.

Lemma trim_nonempty s :
  head_sat is_js_space s = false -> s <> ""%string -> trim s <> ""%string.
Proof.
  intros Hh Hne. unfold trim. rewrite (drop_while_head _ _ Hh).
  unfold drop_while_end.
  destruct (drop_while_split is_js_space (rev s)) as (t & Ht & Hall).
  intros E. apply (f_equal rev) in E. rewrite srev_involutive in E. cbn in E.
  rewrite E, sapp_nil_r in Ht. apply (f_equal rev) in Ht. rewrite srev_involutive in Ht.
  assert (all is_js_space s = true) as Hs by (rewrite Ht, all_rev; exact Hall).
  destruct s as [|c s]; [congruence|]. cbn in Hh, Hs. now rewrite Hh in Hs.
Qed.

Lemma text_array_truthy l : truthy (JStr (trim (text (JArr l)))) = true.
Proof.
  destruct (text_array_nonempty l) as [t Ht]. rewrite Ht.
  pose proof (trim_nonempty (String "[" t) eq_refl ltac:(discriminate)) as H.
  destruct (trim (String "[" t)); [congruence | reflexivity].
Qed.

Lemma goal_json_safe g : goal_ok g -> json_safe (goal_json g) = true.
Proof.
  intros [[F1 W1] [F2 W2]]. cbn. now rewrite F1, W1, F2, W2.
Qed.

Lemma account_json_safe a : account_ok a -> json_safe (account_json a) = true.
Proof. intros [F W]. cbn. now rewrite F, W. Qed.

Lemma goal_of_json_spec env g w :
  exists t, goal_of_json env (goal_json g) w
            = (Ok (goal_json (with_goal_id ("goal-" +:+ t) g)), next_tick (next_tick w)).
Proof. eexists. reflexivity. Qed.

Lemma account_of_json_spec env a w :
  exists t, account_of_json env (account_json a) w
            = (Ok (account_json (with_account_id ("acc-" +:+ t) a)),
               next_tick (next_tick w)).
Proof. eexists. reflexivity. Qed.

Lemma map_goals env goals : forall i w,
  exists ids w',
    mapM_ (fun _ => goal_of_json env) i (List.map goal_json goals) w
    = (Ok (List.map goal_json (zip_with with_goal_id ids goals)), w')
    /\ length ids = length goals
    /\ Forall (fun id => starts_with "goal-" id = true) ids.
Proof.
  induction goals as [|g goals IH]; intros i w.
  - exists [], w. repeat split. constructor.
  - destruct (goal_of_json_spec env g w) as [t Hg].
    destruct (IH (S i) (next_tick (next_tick w))) as (ids & w' & Hrun & Hlen & Hids).
    exists (("goal-" +:+ t) :: ids), w'. cbn [List.map mapM_].
    unfold mbind at 1. rewrite Hg. unfold mbind at 1. rewrite Hrun.
    repeat split; [cbn; lia|]. constructor; [|assumption].
    apply ClientStoreFacts.starts_with_app.
Qed.

Lemma map_accounts env accounts : forall i w,
  exists ids w',
    mapM_ (fun _ => account_of_json env) i (List.map account_json accounts) w
    = (Ok (List.map account_json (zip_with with_account_id ids accounts)), w')
    /\ length ids = length accounts
    /\ Forall (fun id => starts_with "acc-" id = true) ids.
Proof.
  induction accounts as [|a accounts IH]; intros i w.
  - exists [], w. repeat split. constructor.
  - destruct (account_of_json_spec env a w) as [t Ha].
    destruct (IH (S i) (next_tick (next_tick w))) as (ids & w' & Hrun & Hlen & Hids).
    exists (("acc-" +:+ t) :: ids), w'. cbn [List.map mapM_].
    unfold mbind at 1. rewrite Ha. unfold mbind at 1. rewrite Hrun.
    repeat split; [cbn; lia|]. constructor; [|assumption].
    apply ClientStoreFacts.starts_with_app.
Qed.

(** C9, as the code has it: the parser reads the JSON text of a list of
    goals, or of accounts, back into a list of the same length and
    order in which every record has the name, amounts, date and type of
    the original; the id of each record is not the original one but a
    fresh one, made by [createGoal] or [createAccount]. *)
Theorem json_text_round_trip_but_for_ids
    (env : Env) (w : World) (goals : list Goal) (accounts : list Account) :
  Forall goal_ok goals -> Forall account_ok accounts ->
  (exists ids w',
     parse_goals env (text (JArr (List.map goal_json goals))) w
     = (Ok (List.map goal_json (zip_with with_goal_id ids goals)), w')
     /\ length ids = length goals
     /\ Forall (fun id => starts_with "goal-" id = true) ids)
  /\ (exists ids w',
        parse_accounts env (text (JArr (List.map account_json accounts))) w
        = (Ok (List.map account_json (zip_with with_account_id ids accounts)), w')
        /\ length ids = length accounts
        /\ Forall (fun id => starts_with "acc-" id = true) ids).
Proof.
  intros Hg Ha. split.
  - unfold parse_goals. rewrite text_array_truthy.
    rewrite JSON_parse_text.
    2:{ cbn [json_safe]. rewrite forallb_forall. intros x Hx.
        apply in_map_iff in Hx as (g & <- & Hin). apply goal_json_safe.
        rewrite Forall_forall in Hg. now apply Hg, list_elem_of_In. }
    destruct (map_goals env goals 0%nat w) as (ids & w' & Hrun & Hlen & Hids).
    exists ids, w'. unfold try_catch, mbind, lift. rewrite Hrun. now repeat split.
  - unfold parse_accounts. rewrite text_array_truthy.
    rewrite JSON_parse_text.
    2:{ cbn [json_safe]. rewrite forallb_forall. intros x Hx.
        apply in_map_iff in Hx as (a & <- & Hin). apply account_json_safe.
        rewrite Forall_forall in Ha. now apply Ha, list_elem_of_In. }
    destruct (map_accounts env accounts 0%nat w) as (ids & w' & Hrun & Hlen & Hids).
    exists ids, w'. unfold try_catch, mbind, lift. rewrite Hrun. now repeat split.
Qed.

(** The first goal and an account of the sample data, read back by the
    browser. *)
Lemma json_text_round_trip_witness :
  (exists ids w',
     parse_goals Browser.env (text (JArr (List.map goal_json [retirement])))
       MockClients.initial_world
     = (Ok (List.map goal_json (zip_with with_goal_id ids [retirement])), w')
     /\ length ids = length [retirement]
     /\ Forall (fun id => starts_with "goal-" id = true) ids)
  /\ (exists ids w',
        parse_accounts Browser.env
          (text (JArr (List.map account_json [joint_brokerage])))
          MockClients.initial_world
        = (Ok (List.map account_json (zip_with with_account_id ids [joint_brokerage])),
           w')
        /\ length ids = length [joint_brokerage]
        /\ Forall (fun id => starts_with "acc-" id = true) ids).
Proof.
  apply (json_text_round_trip_but_for_ids Browser.env MockClients.initial_world
           [retirement] [joint_brokerage]).
  - repeat constructor.
  - repeat constructor.
Defined.

(** C9 as stated fails: the goal [goal-001] of the sample data, written
    as a JSON array of one record and read back, comes out with the id
    [goal-1733047200000-k3j9x0q1z], the clock reading and the random
    suffix of the moment it is read: the list read is not the list
    written. *)
Lemma json_text_round_trip_loses_ids :
  goal_ok retirement
  /\ fst (parse_goals Browser.env (text (JArr [goal_json retirement]))
            MockClients.initial_world)
     = Ok [goal_json (with_goal_id "goal-1733047200000-k3j9x0q1z" retirement)]
  /\ fst (parse_goals Browser.env (text (JArr [goal_json retirement]))
            MockClients.initial_world)
     <> Ok [goal_json retirement].
Proof.
  split; [repeat constructor|].
  assert (fst (parse_goals Browser.env (text (JArr [goal_json retirement]))
                 MockClients.initial_world)
          = Ok [goal_json (with_goal_id "goal-1733047200000-k3j9x0q1z" retirement)])
    as H by (vm_compute; reflexivity).
  split; [exact H|]. rewrite H. discriminate.
Qed.

End RoundTripFacts.

(* ================================================================== *)
(** * Objects under spread and assignment *)
(* ================================================================== *)

Module AssignFacts.
Import Str JS StrFacts JSONFacts ObjFacts ParseFacts.

Lemma obj_lookup_insert_index i k v ps k0 :
  obj_lookup k ps = None ->
  obj_lookup k0 (obj_insert_index i k v ps)
  = if String.eqb k k0 then Some v else obj_lookup k0 ps.
Proof.
  induction ps as [|[k' v'] ps IH]; intros Hk; cbn [obj_insert_index obj_lookup].
  - reflexivity.
  - cbn [obj_lookup] in Hk. destruct (String.eqb_spec k' k) as [->|Hne]; [discriminate|].
    destruct (array_index k') as [j|]; [destruct (j <? i)%N|];
      cbn [obj_lookup]; try reflexivity.
    rewrite (IH Hk). destruct (String.eqb_spec k' k0) as [->|]; [|reflexivity].
    apply String.eqb_neq in Hne. rewrite String.eqb_sym in Hne. now rewrite Hne.
Qed.

(** Reading after [CreateDataProperty]. *)
Lemma obj_lookup_set k v ps k0 :
  obj_lookup k0 (obj_set k v ps)
  = if String.eqb k k0 then Some v else obj_lookup k0 ps.
Proof.
  unfold obj_set. destruct (obj_lookup k ps) eqn:E.
  - destruct (String.eqb_spec k k0) as [<-|Hne].
    + apply obj_lookup_replace. congruence.
    + now apply obj_lookup_replace_ne.
  - destruct (array_index k) as [i|].
    + now apply obj_lookup_insert_index.
    + rewrite obj_lookup_app. destruct (String.eqb_spec k k0) as [<-|Hne].
      * rewrite E. cbn. now rewrite String.eqb_refl.
      * destruct (obj_lookup k0 ps); [reflexivity|]. cbn.
        apply String.eqb_neq in Hne. now rewrite Hne.
Qed.

(** Reading after a spread [{...a, ...us}]: the members of [us] win. *)
Lemma obj_lookup_assign us : forall a k0,
  NoDup (List.map fst us) ->
  obj_lookup k0 (obj_assign a us)
  = match obj_lookup k0 us with Some v => Some v | None => obj_lookup k0 a end.
Proof.
  unfold obj_assign. induction us as [|[k v] us IH]; intros a k0 Hnd; [reflexivity|].
  cbn [fold_left fst snd List.map obj_lookup] in *. apply NoDup_cons in Hnd as [Hk Hnd].
  rewrite (IH _ _ Hnd), obj_lookup_set.
  destruct (String.eqb_spec k k0) as [<-|Hne]; [|reflexivity].
  rewrite obj_lookup_none; [reflexivity|].
  rewrite Forall_forall. intros k' Hk' ->. apply Hk. now apply list_elem_of_In.
Qed.

Lemma key_order_NoDup ks : key_order_ok ks = true -> NoDup ks.
Proof.
  induction ks as [|k ks IH]; [constructor|]. cbn [key_order_ok].
  intros H. apply andb_true_iff in H as [Hk H]. apply NoDup_cons. split; [|now apply IH].
  intros Hin. apply list_elem_of_In in Hin. rewrite forallb_forall in Hk. specialize (Hk _ Hin).
  unfold key_before in Hk. now rewrite String.eqb_refl in Hk.
Qed.

Lemma obj_assign_wf us : forall a,
  js_wf (JObj a) = true -> forallb (fun kv => js_wf (snd kv)) us = true ->
  js_wf (JObj (obj_assign a us)) = true.
Proof.
  unfold obj_assign. induction us as [|[k v] us IH]; intros a Ha Hus; [exact Ha|].
  cbn [fold_left fst snd forallb] in *. apply andb_true_iff in Hus as [Hv Hus].
  apply IH; [|exact Hus]. cbn [js_wf] in *. apply andb_true_iff in Ha as [Hk Hm].
  rewrite obj_set_order by assumption. cbn.
  apply forallb_obj_set; [intros; exact Hv | exact Hm].
Qed.

End AssignFacts.

(* ================================================================== *)
(** * The two stores: adding, updating, deleting, listing *)
(* ================================================================== *)

Module StoreLawFacts.
Import JS Runtime StrFacts JSONFacts ObjFacts JsonifyFacts ParseFacts AssignFacts.
Import ReadFacts ClientStoreFacts InteractionFacts RecordNotions Scenario.

Lemma has_id_object id c :
  is_object c = true -> ClientStorage.has_id id c = Ok (id_is id c).
Proof. destruct c; try discriminate. reflexivity. Qed.

Lemma has_other_id_object id c :
  is_object c = true -> ClientStorage.has_other_id id c = Ok (negb (id_is id c)).
Proof. destruct c; try discriminate. reflexivity. Qed.

Lemma filterM_pure {A} (f : A -> result bool) (g : A -> bool) xs :
  Forall (fun x => f x = Ok (g x)) xs -> filterM f xs = Ok (List.filter g xs).
Proof.
  induction xs as [|x xs IH]; intros H; [reflexivity|].
  apply Forall_cons in H as [Hx H]. cbn [filterM List.filter].
  rewrite Hx, (IH H). reflexivity.
Qed.

Lemma findIndexM_id id xs :
  Forall (fun c => is_object c = true) xs ->
  findIndexM (ClientStorage.has_id id) xs = Ok (index_of id xs).
Proof.
  induction xs as [|x xs IH]; intros H; [reflexivity|].
  apply Forall_cons in H as [Hx H]. cbn [findIndexM index_of].
  rewrite (has_id_object id x Hx). cbn [bind].
  destruct (id_is id x); [reflexivity|]. now rewrite (IH H).
Qed.

Lemma index_of_Some id xs i :
  index_of id xs = Some i ->
  (i < length xs)%nat /\ id_is id (nth i xs JUndefined) = true
  /\ forall j, (j < i)%nat -> id_is id (nth j xs JUndefined) = false.
Proof.
  revert i. induction xs as [|x xs IH]; intros i; [discriminate|].
  cbn [index_of]. destruct (id_is id x) eqn:E.
  - intros [= <-]. cbn. repeat split; [lia | assumption | lia].
  - destruct (index_of id xs) as [i'|]; [|discriminate]. intros [= <-].
    destruct (IH i' eq_refl) as (Hlt & Hi & Hj). cbn [length nth].
    repeat split; [lia | assumption|]. intros [|j] Hlt'; [assumption|].
    apply Hj. lia.
Qed.

Lemma index_of_None id xs :
  index_of id xs = None <-> existsb (id_is id) xs = false.
Proof.
  induction xs as [|x xs IH]; [easy|]. cbn [index_of existsb].
  destruct (id_is id x); cbn; [easy|].
  destruct (index_of id xs); cbn; [|tauto].
  split; [discriminate|]. intros H. apply IH in H. discriminate.
Qed.

Lemma filter_length_le {A} (f : A -> bool) l :
  (length (List.filter f l) <= length l)%nat.
Proof. induction l as [|x l IH]; cbn; [lia|]. destruct (f x); cbn; lia. Qed.

(** [filtered.length === xs.length] says that nothing was dropped. *)
Lemma filter_length_eqb {A} (f : A -> bool) l :
  (length (List.filter (fun x => negb (f x)) l) =? length l)%nat = negb (existsb f l).
Proof.
  induction l as [|x l IH]; [reflexivity|]. cbn [List.filter existsb length].
  destruct (f x); cbn [negb orb length].
  - pose proof (filter_length_le (fun x => negb (f x)) l).
    apply Nat.eqb_neq. lia.
  - exact IH.
Qed.

Lemma filter_none {A} (f : A -> bool) l :
  existsb f l = false -> List.filter (fun x => negb (f x)) l = l.
Proof.
  induction l as [|x l IH]; [reflexivity|]. cbn [existsb List.filter].
  intros H. apply orb_false_iff in H as [-> H]. cbn. now rewrite IH.
Qed.

Lemma forallb_filter_safe (f : JSValue -> bool) xs :
  forallb json_safe xs = true -> forallb json_safe (List.filter f xs) = true.
Proof.
  induction xs as [|x xs IH]; [reflexivity|]. cbn [forallb List.filter].
  intros H. apply andb_true_iff in H as [Hx H].
  destruct (f x); cbn [forallb]; [rewrite Hx|]; now apply IH.
Qed.

(** Writing a list and reading it back: what comes back is what
    [JSON.stringify] keeps of it. *)
Lemma store_read key (read : M JSValue) ys ys' w :
  (forall w0, read w0 = (read_of (localStorage w0 !! key), w0)) ->
  js_wf (JArr ys) = true -> jsonify (JArr ys) = Some (JArr ys') ->
  let w1 := snd (ClientStorage.store key (JArr ys) w) in
  read w1 = (Ok (JArr ys'), w1).
Proof.
  intros Hread Hwf Hjs w1.
  destruct (JSON_parse_stringify _ _ Hwf Hjs) as [Hs Hp].
  rewrite Hread. subst w1. unfold ClientStorage.store, setItem. cbn [snd localStorage].
  rewrite lookup_insert_eq, Hs. cbn [ToString].
  destruct (text_array_nonempty ys') as [t Ht].
  rewrite Ht in *. cbn [read_of]. now rewrite Hp.
Qed.

Lemma store_read_safe key (read : M JSValue) ys w :
  (forall w0, read w0 = (read_of (localStorage w0 !! key), w0)) ->
  forallb json_safe ys = true ->
  let w1 := snd (ClientStorage.store key (JArr ys) w) in
  read w1 = (Ok (JArr ys), w1).
Proof.
  intros Hread Hs. apply store_read; [assumption | |].
  - now apply (json_safe_wf (JArr ys)).
  - now apply (jsonify_safe (JArr ys)).
Qed.

Lemma store_writes_only key v w :
  writes_only key w (snd (ClientStorage.store key v w)).
Proof. apply confined_store. Qed.

Lemma map_insert {A B} (f : A -> B) (l : list A) i x :
  List.map f (<[i := x]> l) = <[i := f x]> (List.map f l).
Proof.
  revert i. induction l as [|y l IH]; intros [|i]; cbn; try reflexivity.
  now rewrite IH.
Qed.

Lemma forallb_insert {A} (P : A -> bool) (l : list A) i x :
  P x = true -> forallb P l = true -> forallb P (<[i := x]> l) = true.
Proof.
  revert i. induction l as [|y l IH]; intros [|i] Hx H; cbn in *; try reflexivity.
  - apply andb_true_iff in H as [_ H]. now rewrite Hx.
  - apply andb_true_iff in H as [Hy H]. now rewrite Hy, IH.
Qed.

Lemma nth_object i xs :
  (i < length xs)%nat -> Forall (fun c => is_object c = true) xs ->
  exists ps, nth i xs JUndefined = JObj ps.
Proof.
  intros Hlt HF. rewrite Forall_forall in HF.
  assert (is_object (nth i xs JUndefined) = true) as H
    by (apply HF, list_elem_of_In, nth_In, Hlt).
  destruct (nth i xs JUndefined); try discriminate. now eexists.
Qed.

Lemma nth_safe i xs :
  (i < length xs)%nat -> forallb json_safe xs = true ->
  json_safe (nth i xs JUndefined) = true.
Proof.
  intros Hlt H. rewrite forallb_forall in H. apply H, nth_In, Hlt.
Qed.

Section OneStore.
(** The two stores differ in their key only. *)
Variable key : string.
Variable read : M JSValue.
Hypothesis read_spec : forall w0, read w0 = (read_of (localStorage w0 !! key), w0).

Lemma delete_by_id_spec id w xs :
  fst (read w) = Ok (JArr xs) ->
  Forall (fun c => is_object c = true) xs ->
  exists w1,
    delete_by_id key read id w = (Ok (existsb (id_is id) xs), w1)
    /\ read w1 = (Ok (JArr (List.filter (fun c => negb (id_is id c)) xs)), w1)
    /\ (existsb (id_is id) xs = false -> w1 = w)
    /\ writes_only key w w1.
Proof.
  intros Hr Hobj. rewrite read_spec in Hr. cbn [fst] in Hr.
  pose proof (read_of_safe _ _ Hr) as Hsafe. cbn [json_safe] in Hsafe.
  unfold delete_by_id, mbind, lift. rewrite read_spec, Hr. cbn [as_array].
  rewrite (filterM_pure _ (fun c => negb (id_is id c)) xs).
  2:{ eapply Forall_impl; [exact Hobj|]. intros c Hc. now apply has_other_id_object. }
  rewrite filter_length_eqb.
  destruct (existsb (id_is id) xs) eqn:E; cbn [negb].
  - eexists. split; [reflexivity|]. split; [|split; [discriminate|]].
    + apply store_read_safe; [exact read_spec | now apply forallb_filter_safe].
    + apply store_writes_only.
  - exists w. split; [reflexivity|]. split; [|split; [reflexivity | apply writes_only_refl]].
    rewrite read_spec, Hr, (filter_none _ _ E). reflexivity.
Qed.

Lemma update_by_id_spec id us w xs :
  fst (read w) = Ok (JArr xs) ->
  Forall (fun c => is_object c = true) xs ->
  js_wf (JObj us) = true ->
  match index_of id xs with
  | None => update_by_id key read id (JObj us) w = (Ok JNull, w)
  | Some i =>
      exists merged kept w1,
        update_by_id key read id (JObj us) w = (Ok merged, w1)
        /\ is_object merged = true
        /\ (forall k, own merged k
                      = match obj_lookup k us with
                        | Some v => Some v
                        | None => own (nth i xs JUndefined) k
                        end)
        /\ jsonify merged = Some kept
        /\ read w1 = (Ok (JArr (<[i := kept]> xs)), w1)
        /\ writes_only key w w1
  end.
Proof.
  intros Hr Hobj Hus. rewrite read_spec in Hr. cbn [fst] in Hr.
  pose proof (read_of_safe _ _ Hr) as Hsafe. cbn [json_safe] in Hsafe.
  unfold update_by_id, mbind, lift. rewrite read_spec, Hr. cbn [as_array].
  rewrite (findIndexM_id id xs Hobj).
  destruct (index_of id xs) as [i|] eqn:Ei; [|reflexivity].
  destruct (index_of_Some _ _ _ Ei) as (Hlt & _ & _).
  destruct (nth_object i xs Hlt Hobj) as [ps Hps]. rewrite Hps.
  pose proof (nth_safe i xs Hlt Hsafe) as Hold. rewrite Hps in Hold.
  pose proof (json_safe_wf _ Hold) as Hwf_old.
  assert (key_order_ok (List.map fst ps) = true) as Hkeys
    by (cbn [js_wf] in Hwf_old; now apply andb_true_iff in Hwf_old as [? _]).
  rewrite (spread_copy ps Hkeys). cbn [spread_props].
  set (merged := JObj (obj_assign ps us)).
  assert (js_wf merged = true) as Hm.
  { apply obj_assign_wf; [exact Hwf_old|]. cbn [js_wf] in Hus.
    now apply andb_true_iff in Hus as [_ ?]. }
  destruct (jsonify merged) as [kept|] eqn:Hj; [|discriminate].
  exists merged, kept. eexists. split; [reflexivity|]. split; [reflexivity|].
  split.
  { intros k. cbn [own]. apply obj_lookup_assign, key_order_NoDup.
    cbn [js_wf] in Hus. now apply andb_true_iff in Hus as [? _]. }
  split; [exact Hj|]. split; [|apply store_writes_only].
  apply store_read; [exact read_spec | |].
  - cbn [js_wf]. apply forallb_insert; [exact Hm|].
    rewrite forallb_forall in Hsafe |- *. intros x Hx. now apply json_safe_wf, Hsafe.
  - cbn [jsonify]. rewrite map_insert, Hj, map_jsonify_safe by assumption. reflexivity.
Qed.

End OneStore.

End StoreLawFacts.

Module ClientListFacts.
Import JS Runtime ClientStorage ClientOps.
Import StrFacts JSONFacts ObjFacts JsonifyFacts ParseFacts AssignFacts.
Import AdapterNotions InteractionNotions StoreNotions RecordNotions Scenario.
Import ReadFacts ClientStoreFacts InteractionFacts StoreLawFacts.

Lemma getAllClients_spec w ms xs :
  mockClients w = JArr ms -> fst (getCustomClients w) = Ok (JArr xs) ->
  getAllClients w = (Ok (JArr (ms ++ xs)), w).
Proof.
  rewrite getCustomClients_spec. cbn [fst]. intros Hm Hr.
  unfold getAllClients, mbind, lift, read_mockClients, ret.
  now rewrite getCustomClients_spec, Hr, Hm.
Qed.

Lemma field_set_same k v ps : field (JObj (obj_set k v ps)) k = v.
Proof. unfold field. cbn [get]. now rewrite obj_lookup_set, String.eqb_refl. Qed.

Lemma addClient_spec
    (env : Env) (ps : list (string * JSValue)) (w : World) (xs : list JSValue) :
  js_wf (JObj ps) = true ->
  fst (getCustomClients w) = Ok (JArr xs) ->
  exists id n kept w1,
    addClient env (JObj ps) w = (Ok n, w1)
    /\ field n "id" = JStr id /\ isCustomClient id = true
    /\ (forall k, k <> "id"%string -> field n k = field (JObj ps) k)
    /\ jsonify n = Some kept /\ field kept "id" = JStr id
    /\ getCustomClients w1 = (Ok (JArr (xs ++ [kept])), w1)
    /\ (forall ms, mockClients w = JArr ms ->
          getAllClients w1 = (Ok (JArr (ms ++ xs ++ [kept])), w1)).
Proof.
  intros Hwf Hread. rewrite getCustomClients_spec in Hread. cbn [fst] in Hread.
  pose proof (read_of_safe _ _ Hread) as Hsafe. cbn [json_safe] in Hsafe.
  unfold addClient, mbind. rewrite getCustomClients_spec, Hread.
  destruct (fresh_id_prefix env "client-custom-" w) as [t ->].
  unfold lift. cbn [as_array].
  assert (key_order_ok (List.map fst ps) = true) as Hkeys.
  { cbn [js_wf] in Hwf. now apply andb_true_iff in Hwf as [? _]. }
  rewrite (spread_copy ps Hkeys).
  set (id := ("client-custom-" +:+ t)%string).
  set (n := JObj (obj_set "id" (JStr id) ps)).
  assert (js_wf n = true) as Hn by (now apply js_wf_set_name).
  destruct (jsonify n) as [kept|] eqn:Hj; [|discriminate].
  set (w2 := next_tick (next_tick w)).
  pose proof (store_then_read CLIENTS_KEY getCustomClients xs n kept w2
                getCustomClients_spec Hsafe Hn Hj) as Hstore.
  cbn zeta in Hstore.
  assert (field n "id" = JStr id) as Hid by apply field_set_same.
  exists id, n, kept, (snd (store CLIENTS_KEY (JArr (xs ++ [n])) w2)).
  split; [reflexivity|]. split; [exact Hid|].
  split; [apply starts_with_app|].
  split; [intros k Hk; now apply field_set_other|].
  split; [exact Hj|].
  split; [eapply field_jsonify_str; eassumption|].
  split; [exact Hstore|].
  intros ms Hms. apply getAllClients_spec; [exact Hms | now rewrite Hstore].
Qed.

(** X1: on a store that holds a list, [addClient] returns the client it
    was given with an id of its own, which carries the custom prefix;
    what it was given is otherwise untouched.  The record is appended to
    the persisted list as [JSON.stringify] keeps it, and the listing of
    all clients ends with it. *)
Theorem addClient_then_listed
    (env : Env) (ps : list (string * JSValue)) (w : World) (xs : list JSValue) :
  js_wf (JObj ps) = true ->
  fst (getCustomClients w) = Ok (JArr xs) ->
  exists id n kept w1,
    addClient env (JObj ps) w = (Ok n, w1)
    /\ field n "id" = JStr id /\ isCustomClient id = true
    /\ (forall k, k <> "id"%string -> field n k = field (JObj ps) k)
    /\ jsonify n = Some kept /\ field kept "id" = JStr id
    /\ getCustomClients w1 = (Ok (JArr (xs ++ [kept])), w1)
    /\ (forall ms, mockClients w = JArr ms ->
          getAllClients w1 = (Ok (JArr (ms ++ xs ++ [kept])), w1)).
Proof. exact (addClient_spec env ps w xs). Qed.

Lemma addClient_then_listed_witness :
  exists n kept w1,
    addClient Browser.env new_client MockClients.initial_world = (Ok n, w1)
    /\ field n "id" = JStr custom_id
    /\ field n "name" = JStr "Ada Park"
    /\ jsonify n = Some kept
    /\ getCustomClients w1 = (Ok (JArr [kept]), w1).
Proof.
  destruct (addClient_then_listed Browser.env [("name", JStr "Ada Park")]
              MockClients.initial_world [] eq_refl eq_refl)
    as (id & n & kept & w1 & Hadd & Hid & _ & Hf & Hj & _ & Hread & _).
  exists n, kept, w1. change new_client with (JObj [("name", JStr "Ada Park")]).
  repeat split; try assumption.
  - rewrite Hid. pose proof (f_equal fst Hadd) as H. cbn [fst] in H.
    vm_compute in H. injection H as <-. vm_compute in Hid. now injection Hid as <-.
  - now rewrite Hf.
Defined.

(** X2: on a store that holds a list of records, [updateClient] with an
    id no record has returns [null] and writes nothing.  Otherwise it
    merges the updates into the first record with that id: a member of
    the updates replaces the member of that name, every other member of
    the record stays.  The merged record takes the place of the old one
    in the persisted list, as [JSON.stringify] keeps it, and no other
    record moves or changes. *)
Theorem updateClient_merges_by_id
    (id : string) (us : list (string * JSValue)) (w : World) (xs : list JSValue) :
  fst (getCustomClients w) = Ok (JArr xs) ->
  Forall (fun c => is_object c = true) xs ->
  js_wf (JObj us) = true ->
  match index_of id xs with
  | None => updateClient id (JObj us) w = (Ok JNull, w)
  | Some i =>
      exists merged kept w1,
        updateClient id (JObj us) w = (Ok merged, w1)
        /\ is_object merged = true
        /\ (forall k, own merged k
                      = match obj_lookup k us with
                        | Some v => Some v
                        | None => own (nth i xs JUndefined) k
                        end)
        /\ jsonify merged = Some kept
        /\ getCustomClients w1 = (Ok (JArr (<[i := kept]> xs)), w1)
        /\ writes_only CLIENTS_KEY w w1
  end.
Proof.
  exact (update_by_id_spec CLIENTS_KEY getCustomClients getCustomClients_spec id us w xs).
Qed.

Lemma updateClient_merges_by_id_witness :
  exists merged kept w1,
    updateClient custom_id (JObj [("advisor", JStr "Sarah Mitchell")]) one_custom
    = (Ok merged, w1)
    /\ own merged "advisor" = Some (JStr "Sarah Mitchell")
    /\ own merged "name" = Some (JStr "Ada Park")
    /\ jsonify merged = Some kept
    /\ getCustomClients w1 = (Ok (JArr [kept]), w1).
Proof.
  pose proof (updateClient_merges_by_id custom_id [("advisor", JStr "Sarah Mitchell")]
                one_custom [Fixtures.ada]) as H.
  destruct H as (merged & kept & w1 & Hup & _ & Hown & Hj & Hread & _).
  - vm_compute. reflexivity.
  - repeat constructor.
  - reflexivity.
  - exists merged, kept, w1. repeat split; try assumption; now rewrite Hown.
Defined.

(** X3: on a store that holds a list of records, [deleteClient] answers
    whether some record has the id; afterwards the persisted list holds
    the records with another id, in their order, and when no record had
    the id nothing was written. *)
Theorem deleteClient_removes_by_id (id : string) (w : World) (xs : list JSValue) :
  fst (getCustomClients w) = Ok (JArr xs) ->
  Forall (fun c => is_object c = true) xs ->
  exists w1,
    deleteClient id w = (Ok (existsb (id_is id) xs), w1)
    /\ getCustomClients w1
       = (Ok (JArr (List.filter (fun c => negb (id_is id c)) xs)), w1)
    /\ (existsb (id_is id) xs = false -> w1 = w)
    /\ writes_only CLIENTS_KEY w w1.
Proof.
  exact (delete_by_id_spec CLIENTS_KEY getCustomClients getCustomClients_spec id w xs).
Qed.

Lemma deleteClient_removes_by_id_witness :
  exists w1,
    deleteClient custom_id one_custom = (Ok true, w1)
    /\ getCustomClients w1 = (Ok (JArr []), w1).
Proof.
  destruct (deleteClient_removes_by_id custom_id one_custom
              [Fixtures.ada])
    as (w1 & Hdel & Hread & _).
  - vm_compute. reflexivity.
  - repeat constructor.
  - exists w1. split; [exact Hdel | exact Hread].
Defined.

(** X4: whatever the persistent storage holds, no sequence of client
    store operations changes what the interaction store reads: deleting
    a client leaves the interactions recorded for it in place. *)
Theorem client_ops_keep_interactions (env : Env) (ops : list Op) (w : World) :
  Storage.getAllInteractions (snd (run_ops env ops w))
  = (fst (Storage.getAllInteractions w), snd (run_ops env ops w))
  /\ forall id, fst (Storage.getAllInteractions (snd (deleteClient id w)))
                = fst (Storage.getAllInteractions w).
Proof.
  assert (forall w1, writes_only CLIENTS_KEY w w1 ->
            Storage.getAllInteractions w1 = (fst (Storage.getAllInteractions w), w1)) as H.
  { intros w1 (_ & _ & Hk). rewrite !getAllInteractions_spec. cbn [fst].
    now rewrite Hk. }
  split; [apply H, run_ops_confined|].
  intros id. rewrite (H _ (confined_deleteClient id w)). reflexivity.
Qed.

(** X5: the listing of all clients holds the built-in clients first and
    then the persisted ones in their order; with nothing persisted, or a
    text [JSON.parse] rejects, it holds the built-in clients alone; and
    when the persisted text parses to a number, a boolean, [null] or an
    object, which cannot be spread, the listing throws a [TypeError]. *)
Theorem getAllClients_listing (w : World) (ms : list JSValue) :
  mockClients w = JArr ms ->
  let stored := localStorage w !! CLIENTS_KEY in
  (forall xs, fst (getCustomClients w) = Ok (JArr xs) ->
     getAllClients w = (Ok (JArr (ms ++ xs)), w))
  /\ (stored = None \/ stored = Some ""%string
      \/ (exists s e, stored = Some s /\ JSON_parse s = Throw e) ->
      getAllClients w = (Ok (JArr ms), w))
  /\ (forall v, fst (getCustomClients w) = Ok v ->
       (forall xs, v <> JArr xs) -> (forall s, v <> JStr s) ->
       getAllClients w = (Throw TypeError, w)).
Proof.
  intros Hm stored. split; [|split].
  - intros xs Hr. now apply getAllClients_spec.
  - intros H. rewrite <- (app_nil_r ms). apply getAllClients_spec; [exact Hm|].
    rewrite getCustomClients_spec. cbn [fst]. unfold read_of. fold stored.
    destruct H as [-> | [-> | (s & e & -> & He)]]; try reflexivity.
    destruct s; [reflexivity|]. now rewrite He.
  - intros v Hr Harr Hstr. rewrite getCustomClients_spec in Hr. cbn [fst] in Hr.
    unfold getAllClients, mbind, lift, read_mockClients, ret.
    rewrite getCustomClients_spec, Hr, Hm. cbn [iterate].
    destruct v; try reflexivity; [now destruct (Hstr s) | now destruct (Harr xs)].
Qed.

Lemma getAllClients_listing_witness :
  getAllClients one_custom = (Ok (JArr (Fixtures.builtins ++ [Fixtures.ada])), one_custom)
  /\ getAllClients MockClients.initial_world
     = (Ok (JArr Fixtures.builtins), MockClients.initial_world)
  /\ getAllClients (Browser.stored CLIENTS_KEY "42")
     = (Throw TypeError, Browser.stored CLIENTS_KEY "42").
Proof.
  split; [|split].
  - apply (getAllClients_listing one_custom Fixtures.builtins eq_refl).
    vm_compute. reflexivity.
  - apply (getAllClients_listing MockClients.initial_world Fixtures.builtins eq_refl).
    left. reflexivity.
  - destruct (getAllClients_listing (Browser.stored CLIENTS_KEY "42") Fixtures.builtins
                eq_refl) as (_ & _ & H).
    apply (H (JNum (parseFloat "42"))).
    + vm_compute. reflexivity.
    + discriminate.
    + discriminate.
Defined.

End ClientListFacts.

Module InteractionListFacts.
Import JS Runtime Storage.
Import StrFacts JSONFacts ObjFacts JsonifyFacts ParseFacts AssignFacts.
Import AdapterNotions InteractionNotions StoreNotions RecordNotions Scenario.
Import ReadFacts ClientStoreFacts InteractionFacts SeedFacts StoreLawFacts.

#[local] Hint Resolve confined_ret confined_lift confined_throw confined_getItem
  confined_read_mockClients confined_store confined_setItem confined_now
  confined_random36 confined_now_iso confined_fresh_id : confined.

Lemma confined_getAllInteractions : confined INTERACTIONS_KEY getAllInteractions.
Proof. unfold getAllInteractions. confine. Qed.

Lemma confined_getClientInteractions env c :
  confined INTERACTIONS_KEY (getClientInteractions env c).
Proof.
  unfold getClientInteractions. pose proof confined_getAllInteractions. confine.
Qed.

Lemma confined_addInteraction env i : confined INTERACTIONS_KEY (addInteraction env i).
Proof. unfold addInteraction. pose proof confined_getAllInteractions. confine. Qed.

Lemma confined_updateInteraction id u : confined INTERACTIONS_KEY (updateInteraction id u).
Proof. unfold updateInteraction. pose proof confined_getAllInteractions. confine. Qed.

Lemma confined_deleteInteraction id : confined INTERACTIONS_KEY (deleteInteraction id).
Proof. unfold deleteInteraction. pose proof confined_getAllInteractions. confine. Qed.

Lemma confined_forEach {A} key (f : A -> M unit) xs :
  (forall x, confined key (f x)) -> confined key (forEach f xs).
Proof.
  intros Hf. induction xs as [|x xs IH]; cbn [forEach]; [apply confined_ret|].
  apply confined_bind; [apply Hf | intros _; exact IH].
Qed.

Lemma confined_initializeSampleInteractions env c :
  confined INTERACTIONS_KEY (initializeSampleInteractions env c).
Proof.
  unfold initializeSampleInteractions.
  apply confined_bind; [apply confined_getClientInteractions|]. intros existing.
  apply confined_if; [apply confined_ret|].
  apply confined_forEach. intros x.
  apply confined_bind; [apply confined_addInteraction | intros ?; apply confined_ret].
Qed.

(** X6: on a store that holds a list, [addInteraction] returns the
    interaction it was given with an id that starts with
    [interaction-] and with the time of the call as [createdAt]; what it
    was given is otherwise untouched.  The record is appended to the
    persisted list as [JSON.stringify] keeps it. *)
Theorem addInteraction_then_listed
    (env : Env) (ps : list (string * JSValue)) (w : World) (xs : list JSValue) :
  js_wf (JObj ps) = true ->
  fst (getAllInteractions w) = Ok (JArr xs) ->
  exists id n kept w1,
    addInteraction env (JObj ps) w = (Ok n, w1)
    /\ field n "id" = JStr id /\ Str.starts_with "interaction-" id = true
    /\ field n "createdAt" = JStr (toISOString env (Date_now env (S (S (tick w)))))
    /\ (forall k, k <> "id"%string -> k <> "createdAt"%string ->
          field n k = field (JObj ps) k)
    /\ jsonify n = Some kept
    /\ getAllInteractions w1 = (Ok (JArr (xs ++ [kept])), w1).
Proof.
  intros Hwf Hread.
  destruct (addInteraction_spec env ps w xs Hwf Hread)
    as (n & kept & w1 & Hadd & Hj & Hlist & Hkeep).
  pose proof Hadd as Hadd'. rewrite getAllInteractions_spec in Hread. cbn [fst] in Hread.
  unfold addInteraction, mbind in Hadd'. rewrite getAllInteractions_spec, Hread in Hadd'.
  destruct (fresh_id_prefix env "interaction-" w) as [t Ht]. rewrite Ht in Hadd'.
  unfold now_iso, lift in Hadd'. cbn [as_array] in Hadd'.
  injection Hadd' as Hn _.
  exists ("interaction-" +:+ t)%string, n, kept, w1.
  split; [exact Hadd|]. split.
  { subst n. rewrite field_set_other by (reflexivity || discriminate).
    apply ClientListFacts.field_set_same. }
  split; [apply starts_with_app|]. split.
  { subst n. apply ClientListFacts.field_set_same. }
  repeat split; assumption.
Qed.

Lemma addInteraction_then_listed_witness :
  exists n kept w1,
    addInteraction Browser.env (call "client-001" "2023-12-31") diary = (Ok n, w1)
    /\ field n "id" = JStr "interaction-1733047200009-k3j9x0q1z"
    /\ field n "createdAt" = JStr "2024-12-01T10:00:00.011Z"
    /\ field n "date" = JStr "2023-12-31"
    /\ jsonify n = Some kept
    /\ getAllInteractions w1 = (Ok (JArr (diary_records ++ [kept])), w1).
Proof.
  destruct (addInteraction_then_listed Browser.env (call_fields "client-001" "2023-12-31")
              diary diary_records)
    as (id & n & kept & w1 & Hadd & Hid & _ & Hc & Hf & Hj & Hread).
  - reflexivity.
  - vm_compute. reflexivity.
  - exists n, kept, w1. split; [exact Hadd|].
    pose proof (f_equal fst Hadd) as H. cbn [fst] in H. vm_compute in H.
    injection H as <-. repeat split; try assumption; vm_compute; reflexivity.
Defined.

(** X7: [updateInteraction] on a store that holds a list of records:
    [null] and no write for an id no record has; otherwise the first
    record with the id takes the members of the updates, keeps its other
    members and its place in the persisted list. *)
Theorem updateInteraction_merges_by_id
    (id : string) (us : list (string * JSValue)) (w : World) (xs : list JSValue) :
  fst (getAllInteractions w) = Ok (JArr xs) ->
  Forall (fun c => is_object c = true) xs ->
  js_wf (JObj us) = true ->
  match index_of id xs with
  | None => updateInteraction id (JObj us) w = (Ok JNull, w)
  | Some i =>
      exists merged kept w1,
        updateInteraction id (JObj us) w = (Ok merged, w1)
        /\ is_object merged = true
        /\ (forall k, own merged k
                      = match obj_lookup k us with
                        | Some v => Some v
                        | None => own (nth i xs JUndefined) k
                        end)
        /\ jsonify merged = Some kept
        /\ getAllInteractions w1 = (Ok (JArr (<[i := kept]> xs)), w1)
        /\ writes_only INTERACTIONS_KEY w w1
  end.
Proof.
  exact (update_by_id_spec INTERACTIONS_KEY getAllInteractions getAllInteractions_spec
           id us w xs).
Qed.

(** X8: [deleteInteraction] on a store that holds a list of records
    answers whether some record has the id; afterwards the persisted list
    holds the records with another id, in their order, and when no record
    had the id nothing was written. *)
Theorem deleteInteraction_removes_by_id (id : string) (w : World) (xs : list JSValue) :
  fst (getAllInteractions w) = Ok (JArr xs) ->
  Forall (fun c => is_object c = true) xs ->
  exists w1,
    deleteInteraction id w = (Ok (existsb (id_is id) xs), w1)
    /\ getAllInteractions w1
       = (Ok (JArr (List.filter (fun c => negb (id_is id c)) xs)), w1)
    /\ (existsb (id_is id) xs = false -> w1 = w)
    /\ writes_only INTERACTIONS_KEY w w1.
Proof.
  exact (delete_by_id_spec INTERACTIONS_KEY getAllInteractions getAllInteractions_spec
           id w xs).
Qed.

Lemma updateInteraction_merges_by_id_witness :
  exists merged kept w1,
    updateInteraction "interaction-1733047200000-k3j9x0q1z"
      (JObj [("title", JStr "Annual review")]) diary = (Ok merged, w1)
    /\ own merged "title" = Some (JStr "Annual review")
    /\ own merged "date" = Some (JStr "2024-03-10")
    /\ jsonify merged = Some kept
    /\ getAllInteractions w1 = (Ok (JArr (<[0%nat := kept]> diary_records)), w1).
Proof.
  assert (fst (getAllInteractions diary) = Ok (JArr diary_records)) as H1
    by (vm_compute; reflexivity).
  assert (Forall (fun c => is_object c = true) diary_records) as H2
    by (vm_compute; repeat constructor).
  assert (index_of "interaction-1733047200000-k3j9x0q1z" diary_records = Some 0%nat) as E
    by (vm_compute; reflexivity).
  pose proof (updateInteraction_merges_by_id "interaction-1733047200000-k3j9x0q1z"
                [("title", JStr "Annual review")] diary diary_records H1 H2 eq_refl) as H.
  rewrite E in H. destruct H as (merged & kept & w1 & Hup & _ & Hown & Hj & Hread & _).
  exists merged, kept, w1. repeat split; try assumption; rewrite Hown.
  - reflexivity.
  - vm_compute. reflexivity.
Defined.

Lemma deleteInteraction_removes_by_id_witness :
  exists w1 left,
    deleteInteraction "interaction-1733047200000-k3j9x0q1z" diary = (Ok true, w1)
    /\ getAllInteractions w1 = (Ok (JArr left), w1)
    /\ List.map (fun i => field i "date") left = [JStr "2024-06-01"; JStr "2024-09-21"].
Proof.
  assert (fst (getAllInteractions diary) = Ok (JArr diary_records)) as H1
    by (vm_compute; reflexivity).
  assert (Forall (fun c => is_object c = true) diary_records) as H2
    by (vm_compute; repeat constructor).
  assert (existsb (id_is "interaction-1733047200000-k3j9x0q1z") diary_records = true) as E
    by (vm_compute; reflexivity).
  destruct (deleteInteraction_removes_by_id "interaction-1733047200000-k3j9x0q1z"
              diary diary_records H1 H2)
    as (w1 & Hdel & Hread & _).
  rewrite E in Hdel. exists w1. eexists. split; [exact Hdel|]. split; [exact Hread|].
  vm_compute. reflexivity.
Defined.

(** X9: whatever the persistent storage holds, the operations of the
    interaction store (listing, adding, updating, deleting, seeding)
    leave the built-in clients and the persisted client list as they
    were. *)
Theorem interaction_ops_keep_clients
    (env : Env) (w : World) (c id : string) (i u : JSValue) :
  let untouched (w1 : World) :=
    mockClients w1 = mockClients w
    /\ ClientStorage.getCustomClients w1 = (fst (ClientStorage.getCustomClients w), w1) in
  untouched (snd (getClientInteractions env c w))
  /\ untouched (snd (addInteraction env i w))
  /\ untouched (snd (updateInteraction id u w))
  /\ untouched (snd (deleteInteraction id w))
  /\ untouched (snd (initializeSampleInteractions env c w)).
Proof.
  assert (forall w1, writes_only INTERACTIONS_KEY w w1 ->
            mockClients w1 = mockClients w
            /\ ClientStorage.getCustomClients w1
               = (fst (ClientStorage.getCustomClients w), w1)) as H.
  { intros w1 (Hm & _ & Hk). split; [exact Hm|].
    rewrite !getCustomClients_spec. cbn [fst]. now rewrite Hk. }
  cbn zeta. repeat split; apply H.
  all: first [ apply confined_getClientInteractions | apply confined_addInteraction
             | apply confined_updateInteraction | apply confined_deleteInteraction
             | apply confined_initializeSampleInteractions ].
Qed.

(** X10: for the two built-in clients seeding is idempotent on a store
    that holds a list of records: after one call the client has
    interactions, and a second call changes nothing. *)
Theorem initialize_builtin_twice
    (env : Env) (c : string) (w : World) (xs : list JSValue) :
  c = "client-001"%string \/ c = "client-002"%string ->
  fst (getAllInteractions w) = Ok (JArr xs) ->
  Forall (fun i => is_object i = true) xs ->
  let w1 := snd (initializeSampleInteractions env c w) in
  initializeSampleInteractions env c w = (Ok tt, w1)
  /\ (exists ys, fst (getAllInteractions w1) = Ok (JArr ys)
                 /\ List.filter (belongs_to c) ys <> []
                 /\ (List.filter (belongs_to c) xs <> [] -> ys = xs))
  /\ initializeSampleInteractions env c w1 = (Ok tt, w1).
Proof.
  intros Hc Hread Hobj w1.
  split; [|split; [|now apply (initialize_builtin_idempotent env c w xs)]].
  - destruct (list_eq_nil_dec (List.filter (belongs_to c) xs)) as [E|E].
    + destruct (initialize_seeds env c w xs Hread Hobj E) as (ns & w' & Hrun & _).
      subst w1. now rewrite Hrun.
    + subst w1. now rewrite (initialize_noop env c w xs Hread Hobj E).
  - destruct (list_eq_nil_dec (List.filter (belongs_to c) xs)) as [E|E].
    + destruct (initialize_seeds env c w xs Hread Hobj E)
        as (ns & w' & Hrun & Hlist & Hlen & Hs).
      exists (xs ++ ns). subst w1. rewrite Hrun. cbn [snd]. rewrite Hlist.
      split; [reflexivity|]. split; [|congruence].
      rewrite List.filter_app, (filter_seeded c _ ns Hs).
      assert ((if String.eqb c "client-001" then "client-001" else "client-002")%string = c)
        as -> by (destruct Hc as [-> | ->]; reflexivity).
      rewrite String.eqb_refl. destruct ns; [discriminate|].
      intros H. now apply app_eq_nil in H as [_ ?].
    + exists xs. subst w1. rewrite (initialize_noop env c w xs Hread Hobj E).
      cbn [snd]. repeat split; assumption.
Qed.

Lemma initialize_builtin_twice_witness :
  let w1 := snd (initializeSampleInteractions Browser.env "client-001"
                   MockClients.initial_world) in
  initializeSampleInteractions Browser.env "client-001" w1 = (Ok tt, w1)
  /\ exists ys, fst (getAllInteractions w1) = Ok (JArr ys) /\ length ys = 3%nat.
Proof.
  destruct (initialize_builtin_twice Browser.env "client-001" MockClients.initial_world [])
    as (_ & (ys & Hys & _) & Htwice).
  - now left.
  - reflexivity.
  - constructor.
  - cbn zeta. split; [exact Htwice|]. exists ys. split; [exact Hys|].
    vm_compute in Hys. now injection Hys as <-.
Defined.

End InteractionListFacts.

(* ================================================================== *)
(** * The form for a new client *)
(* ================================================================== *)

Module FormFacts.
Import Str JS Runtime App.
Import StrFacts NumFacts JSONFacts ObjFacts JsonifyFacts ParseFacts AssignFacts.
Import AdapterNotions InteractionNotions StoreNotions RecordNotions FormNotions Scenario.
Import ReadFacts ClientStoreFacts InteractionFacts StoreLawFacts ParserFacts.

Lemma clock_only_refl w : clock_only w w.
Proof. now repeat split. Qed.

Lemma clock_only_trans w1 w2 w3 :
  clock_only w1 w2 -> clock_only w2 w3 -> clock_only w1 w3.
Proof. intros (A1 & B1 & C1) (A2 & B2 & C2). repeat split; congruence. Qed.

Lemma clock_only_tick w : clock_only w (next_tick w).
Proof. now repeat split. Qed.

Lemma clock_only_read w w' :
  clock_only w w' ->
  fst (ClientStorage.getCustomClients w') = fst (ClientStorage.getCustomClients w).
Proof. intros (H & _). rewrite !getCustomClients_spec. cbn [fst]. now rewrite H. Qed.

Lemma parseFloat_wf s : num_wf (parseFloat s) = true.
Proof.
  unfold parseFloat. destruct (signed _) as [neg s1].
  destruct (starts_with "Infinity" s1); [reflexivity|].
  destruct (span is_digit s1) as [ip s2] eqn:E1.
  destruct (span_spec _ _ _ _ E1) as [Hip _].
  assert (exists fp s3, match after_char "." s2 with
                        | Some r => span is_digit r
                        | None => (""%string, s2)
                        end = (fp, s3) /\ all is_digit fp = true) as (fp & s3 & -> & Hfp).
  { destruct (after_char "." s2) as [r|].
    - destruct (span is_digit r) as [fp s3] eqn:E2. exists fp, s3.
      split; [reflexivity|]. now destruct (span_spec _ _ _ _ E2).
    - exists ""%string, s2. now split. }
  assert (forall e, num_wf (make_number neg (ip +:+ fp) e) = true) as Hm.
  { intros e. apply make_number_safe. now rewrite sall_app, Hip, Hfp. }
  destruct ip, fp; try reflexivity; apply Hm.
Qed.

Lemma amount_of_wf part : js_wf (amount_of part) = true.
Proof. apply parseFloat_wf. Qed.

Lemma of_N_wf n : num_wf (JS.of_N n) = true.
Proof. apply make_number_safe. apply of_N_spec. Qed.

Lemma proto_lookup_wf k : js_wf (proto_lookup k) = true.
Proof.
  unfold proto_lookup.
  repeat (match goal with |- context [if ?c then _ else _] => destruct c end);
    reflexivity.
Qed.

Lemma obj_lookup_wf k ps x :
  forallb (fun kv => js_wf (snd kv)) ps = true -> obj_lookup k ps = Some x ->
  js_wf x = true.
Proof.
  induction ps as [|[k' v] ps IH]; [discriminate|]. cbn [forallb obj_lookup snd].
  intros H. apply andb_true_iff in H as [Hv H].
  destruct (String.eqb k' k); [now intros [= <-] | now apply IH].
Qed.

Lemma nth_wf i xs : forallb js_wf xs = true -> js_wf (nth i xs JUndefined) = true.
Proof.
  revert i. induction xs as [|x xs IH]; intros [|i] H; try reflexivity;
    cbn [forallb] in H; apply andb_true_iff in H as [Hx H]; cbn [nth]; auto.
Qed.

(** Reading a property of a well-formed value gives a well-formed
    value. *)
Lemma get_wf v k x : js_wf v = true -> get v k = Ok x -> js_wf x = true.
Proof.
  destruct v as [| |b|n|s|xs|ps|f]; cbn [get]; intros Hwf; try discriminate;
    try (intros [= <-]; apply proto_lookup_wf).
  - destruct (String.eqb k "length"); [intros [= <-]; apply of_N_wf|].
    destruct (array_index k) as [i|]; intros [= <-]; [|apply proto_lookup_wf].
    now destruct (String.get (N.to_nat i) s).
  - destruct (String.eqb k "length"); [intros [= <-]; apply of_N_wf|].
    destruct (array_index k) as [i|]; intros [= <-]; [|apply proto_lookup_wf].
    now apply nth_wf.
  - intros [= <-]. cbn [js_wf] in Hwf. apply andb_true_iff in Hwf as [_ Hwf].
    destruct (obj_lookup k ps) eqn:E; [|apply proto_lookup_wf].
    eapply obj_lookup_wf; eassumption.
Qed.

Lemma later_refl w : later w w.
Proof. split; [apply clock_only_refl | lia]. Qed.

Lemma later_trans w1 w2 w3 : later w1 w2 -> later w2 w3 -> later w1 w3.
Proof.
  intros [C1 T1] [C2 T2]. split; [eapply clock_only_trans; eassumption | lia].
Qed.

Lemma Forall2_wider {A B} (P Q : A -> B -> Prop) xs ys :
  (forall x y, P x y -> Q x y) -> Forall2 P xs ys -> Forall2 Q xs ys.
Proof. intros H. induction 1; constructor; auto. Qed.

(** [xs.map(f)] for a callback that always returns and only reads the
    clock: one result per element, each made between the worlds of the
    whole call. *)
Lemma mapM_later {A B} (f : nat -> A -> M B)
    (P : World -> World -> A -> B -> Prop) (Q : B -> Prop) xs :
  (forall w0 w1 w2 w3 x y, (tick w0 <= tick w1)%nat -> (tick w2 <= tick w3)%nat ->
     P w1 w2 x y -> P w0 w3 x y) ->
  (forall i x w, exists y w', f i x w = (Ok y, w') /\ later w w' /\ P w w' x y /\ Q y) ->
  forall i w, exists ys w',
    mapM_ f i xs w = (Ok ys, w') /\ later w w' /\ Forall2 (P w w') xs ys /\ Forall Q ys.
Proof.
  intros Hwide Hf. induction xs as [|x xs IH]; intros i w.
  - exists [], w. split; [reflexivity|]. split; [apply later_refl|]. split; constructor.
  - destruct (Hf i x w) as (y & w1 & Hy & L1 & Hp & Hq).
    destruct (IH (S i) w1) as (ys & w2 & Hys & L2 & Hps & Hqs).
    exists (y :: ys), w2. cbn [mapM_]. unfold mbind at 1. rewrite Hy.
    unfold mbind at 1. rewrite Hys.
    split; [reflexivity|]. split; [eapply later_trans; eassumption|].
    destruct L1 as [_ T1], L2 as [_ T2].
    split; [|now constructor]. constructor.
    + apply (Hwide w w w1 w2); [lia | exact T2 | exact Hp].
    + apply (Forall2_wider (P w1 w2)); [|exact Hps].
      intros a b. apply Hwide; [exact T1 | lia].
Qed.

Lemma null_or_not (x : JSValue) : x = JNull \/ x <> JNull.
Proof. destruct x; (now left) || (right; discriminate). Qed.

Lemma In_null_or_not (xs : list JSValue) : In JNull xs \/ ~ In JNull xs.
Proof.
  induction xs as [|x xs [IH|IH]]; [now right | left; now right|].
  destruct (null_or_not x) as [-> | Hx]; [left; now left|].
  right. intros [H|H]; [now apply Hx | now apply IH].
Qed.

(** [xs.map(f)] for a callback that throws on [null] and on nothing
    else: the call throws when the array holds a [null], and gives one
    result per element otherwise. *)
Lemma mapM_elements {B} (f : nat -> JSValue -> M B)
    (P : World -> World -> JSValue -> B -> Prop) (Q : B -> Prop) xs :
  (forall w0 w1 w2 w3 x y, (tick w0 <= tick w1)%nat -> (tick w2 <= tick w3)%nat ->
     P w1 w2 x y -> P w0 w3 x y) ->
  (forall i x w, json_safe x = true ->
     (x = JNull -> exists e, f i x w = (Throw e, w))
     /\ (x <> JNull ->
         exists y w', f i x w = (Ok y, w') /\ later w w' /\ P w w' x y /\ Q y)) ->
  Forall (fun x => json_safe x = true) xs ->
  forall i w,
    (In JNull xs -> exists e w', mapM_ f i xs w = (Throw e, w') /\ later w w')
    /\ (~ In JNull xs ->
        exists ys w', mapM_ f i xs w = (Ok ys, w') /\ later w w'
                      /\ Forall2 (P w w') xs ys /\ Forall Q ys).
Proof.
  intros Hwide Hf Hsafe. induction xs as [|x xs IH]; intros i w.
  - split; [intros []|]. intros _. exists [], w.
    split; [reflexivity|]. split; [apply later_refl|]. split; constructor.
  - apply Forall_cons in Hsafe as [Hx Hsafe]. specialize (IH Hsafe).
    destruct (Hf i x w Hx) as [Hnull Hrec]. cbn [mapM_].
    destruct (null_or_not x) as [E | E].
    + destruct (Hnull E) as [e He]. split.
      * intros _. exists e, w. unfold mbind at 1. rewrite He.
        split; [reflexivity | apply later_refl].
      * intros H. destruct H. now left.
    + destruct (Hrec E) as (y & w1 & Hy & L1 & Hp & Hq).
      destruct (IH (S i) w1) as [Hthrow Hall]. split.
      * intros [H|H]; [now destruct E|].
        destruct (Hthrow H) as (e & w2 & Hys & L2). exists e, w2.
        unfold mbind at 1. rewrite Hy. unfold mbind at 1. rewrite Hys.
        split; [reflexivity | eapply later_trans; eassumption].
      * intros H. destruct Hall as (ys & w2 & Hys & L2 & Hps & Hqs).
        { intros H'. apply H. now right. }
        exists (y :: ys), w2. unfold mbind at 1. rewrite Hy.
        unfold mbind at 1. rewrite Hys.
        split; [reflexivity|]. split; [eapply later_trans; eassumption|].
        destruct L1 as [_ T1], L2 as [_ T2].
        split; [|now constructor]. constructor.
        -- apply (Hwide w w w1 w2); [lia | exact T2 | exact Hp].
        -- apply (Forall2_wider (P w1 w2)); [|exact Hps].
           intros a b. apply Hwide; [exact T1 | lia].
Qed.

Lemma part_of_parts line i :
  part line i = match parts_of line !! i with
                | Some (String c r) => Some (String c r)
                | _ => None
                end.
Proof. reflexivity. Qed.

Lemma text_or_part line i d : text_or (parts_of line !! i) d = default d (part line i).
Proof. rewrite part_of_parts. now destruct (parts_of line !! i) as [[|c r]|]. Qed.

Lemma amount_of_part line i : amount_of (parts_of line !! i) = number_in (part line i).
Proof.
  rewrite part_of_parts. destruct (parts_of line !! i) as [[|c r]|]; try reflexivity.
  unfold amount_of, number_in, digits_and_dots.
  now destruct (Str.filter _ (String c r)).
Qed.

Lemma type_names_truthy name t : obj_lookup name type_names = Some t -> truthy t = true.
Proof.
  unfold type_names. cbn [obj_lookup].
  repeat (match goal with
          | |- context [String.eqb ?k name] => destruct (String.eqb k name)
          end; [now intros [= <-]|]).
  discriminate.
Qed.

Lemma account_type_of_part line i :
  account_type_of (parts_of line !! i) = type_in (part line i).
Proof.
  unfold account_type_of, type_in. cbv zeta. rewrite text_or_part.
  set (name := Str.toLowerCase _). unfold typeMap. cbn [get].
  change (obj_lookup name _) with (obj_lookup name type_names).
  destruct (obj_lookup name type_names) as [t|] eqn:E.
  - unfold or_else. now rewrite (type_names_truthy _ _ E).
  - unfold or_else, proto_lookup.
    destruct (String.eqb name "constructor"); [reflexivity|].
    destruct (String.eqb name "__proto__"); [reflexivity|].
    now destruct (existsb (String.eqb name) proto_methods).
Qed.

Lemma goal_of_wider env w0 w1 w2 w3 line g :
  (tick w0 <= tick w1)%nat -> (tick w2 <= tick w3)%nat ->
  goal_of env w1 w2 line g -> goal_of env w0 w3 line g.
Proof.
  intros T0 T3 (Hn & Ht & Hc & k & Hk & H). repeat (split; [assumption|]).
  exists k. split; [lia|]. destruct (part line 3); destruct H as (Hd & Hi & Hb);
    repeat split; try assumption; lia.
Qed.

Lemma account_of_wider env w0 w1 w2 w3 line a :
  (tick w0 <= tick w1)%nat -> (tick w2 <= tick w3)%nat ->
  account_of env w1 w2 line a -> account_of env w0 w3 line a.
Proof.
  intros T0 T3 (Hn & Ht & Hb & k & Hk & Hk' & Hi). repeat (split; [assumption|]).
  exists k. repeat split; try assumption; lia.
Qed.

Lemma record_from_wider prefix names env w0 w1 w2 w3 x r :
  (tick w0 <= tick w1)%nat -> (tick w2 <= tick w3)%nat ->
  record_from prefix names env w1 w2 x r -> record_from prefix names env w0 w3 x r.
Proof.
  intros T0 T3 (Hm & k & Hk & Hk' & Hi). split; [assumption|].
  exists k. repeat split; try assumption; lia.
Qed.

Lemma later_fresh w : later w (next_tick (next_tick w)).
Proof. split; [now repeat split | cbn; lia]. Qed.

Lemma goal_of_line_spec env i line w :
  exists g w',
    (fun (_ : nat) => goal_of_line env) i line w = (Ok g, w')
    /\ later w w' /\ goal_of env w w' line g /\ js_wf g = true.
Proof.
  cbv beta. unfold goal_of_line, goal_of. cbv zeta.
  rewrite <- (text_or_part line 0), <- (amount_of_part line 1),
    <- (amount_of_part line 2), (part_of_parts line 3).
  destruct (parts_of line !! 3%nat) as [[|c r]|];
    (eexists; eexists; split; [reflexivity|];
     split; [split; [now repeat split | cbn; lia]|]; split;
     [ split; [reflexivity|]; split; [reflexivity|]; split; [reflexivity|];
       exists (tick w); split; [lia|]; split; [reflexivity|];
       split; [reflexivity | cbn; lia]
     | cbn [js_wf List.map fst snd forallb]; rewrite !amount_of_wf; reflexivity ]).
Qed.

Lemma account_type_of_wf part : js_wf (account_type_of part) = true.
Proof.
  unfold account_type_of. destruct (get typeMap _) as [t|] eqn:E; [|reflexivity].
  unfold or_else. destruct (truthy t); [|reflexivity].
  eapply get_wf; [|exact E]. reflexivity.
Qed.

Lemma account_of_line_spec env i line w :
  exists a w',
    (fun (_ : nat) => account_of_line env) i line w = (Ok a, w')
    /\ later w w' /\ account_of env w w' line a /\ js_wf a = true.
Proof.
  cbv beta. unfold account_of_line, account_of. cbv zeta.
  rewrite <- (text_or_part line 0), <- (account_type_of_part line 1),
    <- (amount_of_part line 2).
  eexists. eexists. split; [reflexivity|]. split; [apply later_fresh|]. split.
  - split; [reflexivity|]. split; [reflexivity|]. split; [reflexivity|].
    exists (tick w). split; [lia|]. split; [cbn; lia | reflexivity].
  - cbn [js_wf List.map fst snd forallb].
    rewrite account_type_of_wf, amount_of_wf. reflexivity.
Qed.

(** Reading a member of a parsed value other than [null] never
    throws. *)
Lemma get_parsed x k :
  json_safe x = true -> x <> JNull -> exists v, get x k = Ok v /\ js_wf v = true.
Proof.
  intros Hs Hx. assert (js_wf x = true) as Hwf by now apply json_safe_wf.
  destruct (get x k) as [v|e] eqn:E.
  - exists v. split; [reflexivity|]. eapply get_wf; eassumption.
  - destruct x; try discriminate; try (now destruct Hx); cbn [get] in E.
    + destruct (String.eqb k "length"); [discriminate|].
      now destruct (array_index k).
    + destruct (String.eqb k "length"); [discriminate|].
      now destruct (array_index k).
Qed.

Lemma goal_of_element_spec env i x w :
  json_safe x = true ->
  (x = JNull -> exists e, (fun (_ : nat) => goal_of_json env) i x w = (Throw e, w))
  /\ (x <> JNull ->
      exists r w', (fun (_ : nat) => goal_of_json env) i x w = (Ok r, w')
                   /\ later w w' /\ goal_from env w w' x r /\ js_wf r = true).
Proof.
  intros Hs. cbv beta. split.
  - intros ->. now exists TypeError.
  - intros Hx. unfold goal_of_json, mbind, lift.
    destruct (get_parsed x "name" Hs Hx) as (v1 & E1 & W1).
    destruct (get_parsed x "targetAmount" Hs Hx) as (v2 & E2 & W2).
    destruct (get_parsed x "currentAmount" Hs Hx) as (v3 & E3 & W3).
    destruct (get_parsed x "targetDate" Hs Hx) as (v4 & E4 & W4).
    rewrite E1, E2, E3, E4.
    eexists. eexists. split; [reflexivity|]. split; [apply later_fresh|]. split.
    + split.
      * repeat constructor; cbv beta; rewrite ?E1, ?E2, ?E3, ?E4; reflexivity.
      * exists (tick w). split; [lia|]. split; [cbn; lia | reflexivity].
    + cbn [js_wf List.map fst snd forallb]. now rewrite W1, W2, W3, W4.
Qed.

Lemma account_of_element_spec env i x w :
  json_safe x = true ->
  (x = JNull -> exists e, (fun (_ : nat) => account_of_json env) i x w = (Throw e, w))
  /\ (x <> JNull ->
      exists r w', (fun (_ : nat) => account_of_json env) i x w = (Ok r, w')
                   /\ later w w' /\ account_from env w w' x r /\ js_wf r = true).
Proof.
  intros Hs. cbv beta. split.
  - intros ->. now exists TypeError.
  - intros Hx. unfold account_of_json, mbind, lift.
    destruct (get_parsed x "name" Hs Hx) as (v1 & E1 & W1).
    destruct (get_parsed x "type" Hs Hx) as (v2 & E2 & W2).
    destruct (get_parsed x "balance" Hs Hx) as (v3 & E3 & W3).
    rewrite E1, E2, E3.
    eexists. eexists. split; [reflexivity|]. split; [apply later_fresh|]. split.
    + split.
      * repeat constructor; cbv beta; rewrite ?E1, ?E2, ?E3; reflexivity.
      * exists (tick w). split; [lia|]. split; [cbn; lia | reflexivity].
    + cbn [js_wf List.map fst snd forallb]. now rewrite W1, W2, W3.
Qed.

Lemma parsed_elements_safe text xs :
  JSON_parse text = Ok (JArr xs) -> Forall (fun x => json_safe x = true) xs.
Proof.
  intros H. apply JSON_parse_safe in H. cbn [json_safe] in H.
  rewrite forallb_forall in H. rewrite Forall_forall. intros x Hx.
  apply H. now apply list_elem_of_In.
Qed.

Lemma truthy_trim text :
  truthy (JStr (trim text)) = negb (String.eqb (trim text) "").
Proof. now destruct (trim text). Qed.

Lemma lines_of_filled text : lines_of text = filled_lines text.
Proof.
  unfold lines_of, filled_lines. apply List.filter_ext. intros l. apply truthy_trim.
Qed.

Section Parse.
Variables (of_json : JSValue -> M JSValue) (of_text : string -> M JSValue).
Variable of_element : World -> World -> JSValue -> JSValue -> Prop.
Variable of_line : World -> World -> string -> JSValue -> Prop.
Hypothesis of_element_wider : forall w0 w1 w2 w3 x r,
  (tick w0 <= tick w1)%nat -> (tick w2 <= tick w3)%nat ->
  of_element w1 w2 x r -> of_element w0 w3 x r.
Hypothesis of_line_wider : forall w0 w1 w2 w3 line r,
  (tick w0 <= tick w1)%nat -> (tick w2 <= tick w3)%nat ->
  of_line w1 w2 line r -> of_line w0 w3 line r.
Hypothesis of_json_spec : forall i x w,
  json_safe x = true ->
  (x = JNull -> exists e, (fun (_ : nat) => of_json) i x w = (Throw e, w))
  /\ (x <> JNull ->
      exists r w', (fun (_ : nat) => of_json) i x w = (Ok r, w')
                   /\ later w w' /\ of_element w w' x r /\ js_wf r = true).
Hypothesis of_text_spec : forall i line w,
  exists g w', (fun (_ : nat) => of_text) i line w = (Ok g, w')
               /\ later w w' /\ of_line w w' line g /\ js_wf g = true.

(** The text [parse_goals] and [parse_accounts] share. *)
Let parse (text : string) : M (list JSValue) :=
  if truthy (JStr (Str.trim text)) then
    try_catch
      (let? parsed := JSON_parse text in
       match parsed with
       | JArr xs => mapM_ (fun _ => of_json) 0 xs
       | _ => ret []
       end)
      (fun _ => mapM_ (fun _ => of_text) 0 (lines_of text))
  else ret [].

(** The reading by lines, started in a world [w0] that an attempt on
    the text as JSON may have left. *)
Lemma parse_lines text w w0 :
  later w w0 ->
  exists rs w', mapM_ (fun _ => of_text) 0 (lines_of text) w0 = (Ok rs, w')
                /\ later w w' /\ Forall2 (of_line w w') (filled_lines text) rs
                /\ Forall (fun r => js_wf r = true) rs.
Proof.
  intros L0.
  destruct (mapM_later (fun _ => of_text) of_line (fun r => js_wf r = true)
              (lines_of text) of_line_wider of_text_spec 0%nat w0)
    as (rs & w' & E & L & Hp & Hq).
  exists rs, w'. split; [exact E|]. split; [eapply later_trans; eassumption|].
  split; [|exact Hq]. rewrite <- lines_of_filled.
  apply (Forall2_wider (of_line w0 w')); [|exact Hp].
  intros a b. destruct L0 as [_ T]. apply of_line_wider; [exact T | lia].
Qed.

Lemma parse_later text w :
  exists rs w', parse text w = (Ok rs, w') /\ later w w'
                /\ Forall (fun r => js_wf r = true) rs.
Proof.
  unfold parse. destruct (truthy (JStr (trim text)));
    [|exists [], w; split; [reflexivity|]; split; [apply later_refl | constructor]].
  unfold try_catch, mbind, lift.
  assert (forall w0, later w w0 ->
            exists rs w', mapM_ (fun _ => of_text) 0 (lines_of text) w0 = (Ok rs, w')
                          /\ later w w' /\ Forall (fun r => js_wf r = true) rs) as Hlines.
  { intros w0 L0. destruct (parse_lines text w w0 L0) as (rs & w' & E & L & _ & Hq).
    now exists rs, w'. }
  destruct (JSON_parse text) as [v|e] eqn:E; [|apply Hlines, later_refl].
  destruct v;
    try (exists [], w; split; [reflexivity|]; split; [apply later_refl | constructor]).
  destruct (mapM_elements (fun _ => of_json) of_element (fun r => js_wf r = true) xs
              of_element_wider of_json_spec (parsed_elements_safe _ _ E) 0%nat w)
    as [Hthrow Hall].
  destruct (In_null_or_not xs) as [H|H].
  - destruct (Hthrow H) as (e & w1 & -> & L). now apply Hlines.
  - destruct (Hall H) as (rs & w1 & -> & L & _ & Hq). now exists rs, w1.
Qed.

Lemma parse_wf text w :
  exists rs w', parse text w = (Ok rs, w') /\ clock_only w w'
                /\ Forall (fun r => js_wf r = true) rs.
Proof.
  destruct (parse_later text w) as (rs & w' & E & [C _] & Hq). now exists rs, w'.
Qed.

Lemma parse_by_shape : parses_by_shape parse of_element of_line.
Proof.
  intros text w. split; [|split; [|split; [|split]]].
  - destruct (parse_later text w) as (rs & w' & E & L & _). now exists rs, w'.
  - intros E. unfold parse. now rewrite E.
  - intros v Hv Hna. unfold parse. destruct (truthy (JStr (trim text))); [|reflexivity].
    unfold try_catch, mbind, lift. rewrite Hv.
    destruct v; try reflexivity. now destruct (Hna xs).
  - intros xs Hne Hv Hnull. unfold parse. rewrite truthy_trim.
    apply String.eqb_neq in Hne. rewrite Hne. cbn [negb].
    unfold try_catch, mbind, lift. rewrite Hv.
    destruct (mapM_elements (fun _ => of_json) of_element (fun r => js_wf r = true) xs
                of_element_wider of_json_spec (parsed_elements_safe _ _ Hv) 0%nat w)
      as [_ Hall].
    destruct (Hall Hnull) as (rs & w1 & -> & _ & Hp & _). now exists rs, w1.
  - intros Hne Hv. unfold parse. rewrite truthy_trim.
    apply String.eqb_neq in Hne. rewrite Hne. cbn [negb].
    unfold try_catch, mbind, lift.
    destruct Hv as [[e He] | (xs & Hv & Hnull)].
    + rewrite He.
      destruct (parse_lines text w w (later_refl w)) as (rs & w' & E & _ & Hp & _).
      now exists rs, w'.
    + rewrite Hv.
      destruct (mapM_elements (fun _ => of_json) of_element (fun r => js_wf r = true) xs
                  of_element_wider of_json_spec (parsed_elements_safe _ _ Hv) 0%nat w)
        as [Hthrow _].
      destruct (Hthrow Hnull) as (e & w1 & -> & L).
      destruct (parse_lines text w w1 L) as (rs & w' & E & _ & Hp & _).
      now exists rs, w'.
Qed.

End Parse.

(** X11: the record parser by the shape of the text of the form, for
    goals and for accounts.  It never throws and only reads the clock.
    A blank text gives no record, and so does a text that is JSON but
    not an array.  A JSON array without [null] gives one record per
    element, with the members of the element under their names and an
    id of its own.  Any other text gives one record per line that is not
    blank, in order, with its fields read by position between the [|],
    the defaults of the form where a position is missing or empty, and
    an id of its own. *)
Theorem record_parser_by_shape (env : Env) :
  parses_by_shape (parse_goals env) (goal_from env) (goal_of env)
  /\ parses_by_shape (parse_accounts env) (account_from env) (account_of env).
Proof.
  split.
  - exact (parse_by_shape (goal_of_json env) (goal_of_line env)
             (goal_from env) (goal_of env)
             (record_from_wider _ _ env) (goal_of_wider env)
             (goal_of_element_spec env) (goal_of_line_spec env)).
  - exact (parse_by_shape (account_of_json env) (account_of_line env)
             (account_from env) (account_of env)
             (record_from_wider _ _ env) (account_of_wider env)
             (account_of_element_spec env) (account_of_line_spec env)).
Qed.

Ltac pin H :=
  rewrite H; vm_compute; reflexivity.

(** Four texts in a fresh browser on 1 December 2024: two goals typed
    as lines with a blank line between them, the JSON array [[null]],
    the JSON array [[7]], and two accounts typed as lines. *)
Lemma record_parser_by_shape_witness :
  (exists g1 g2 w',
     parse_goals Browser.env Fixtures.goal_lines MockClients.initial_world
     = (Ok [g1; g2], w')
     /\ get g1 "name" = Ok (JStr "Retirement")
     /\ get g1 "targetAmount" = Ok (num "3000000")
     /\ get g1 "currentAmount" = Ok (num "2.1")
     /\ get g1 "targetDate" = Ok (JStr "2045-06-30")
     /\ get g2 "name" = Ok (JStr "Trip")
     /\ get g2 "targetAmount" = Ok (num "0")
     /\ get g2 "currentAmount" = Ok (num "0")
     /\ get g2 "targetDate" = Ok (JStr "2024-12-01"))
  /\ (exists g w',
        parse_goals Browser.env "[null]" MockClients.initial_world = (Ok [g], w')
        /\ get g "name" = Ok (JStr "[null]")
        /\ get g "targetAmount" = Ok (num "0"))
  /\ (exists g w',
        parse_goals Browser.env "[7]" MockClients.initial_world = (Ok [g], w')
        /\ get g "name" = Ok JUndefined
        /\ get g "id" = Ok (JStr "goal-1733047200000-k3j9x0q1z"))
  /\ (exists a1 a2 w',
        parse_accounts Browser.env Fixtures.account_lines MockClients.initial_world
        = (Ok [a1; a2], w')
        /\ get a1 "name" = Ok (JStr "Savings")
        /\ get a1 "type" = Ok (JStr "Roth IRA")
        /\ get a1 "balance" = Ok (num "10500.75")
        /\ get a2 "name" = Ok (JStr "Account")
        /\ get a2 "type" = Ok (JStr "Brokerage")
        /\ get a2 "balance" = Ok (num "0")).
Proof.
  destruct (record_parser_by_shape Browser.env) as [Hg Ha].
  split; [|split; [|split]].
  - destruct (Hg Fixtures.goal_lines MockClients.initial_world)
      as (_ & _ & _ & _ & Hlines).
    destruct Hlines as (rs & w' & E & Hrs);
      [vm_compute; discriminate | left; eexists; vm_compute; reflexivity|].
    assert (filled_lines Fixtures.goal_lines
            = ["Retirement | $3,000,000 | 2.1m? | 2045-06-30"; "Trip"]%string) as El
      by (vm_compute; reflexivity).
    rewrite El in Hrs.
    inversion Hrs as [|l1 g1 ls1 rs1 P1 Hrs1]; subst.
    inversion Hrs1 as [|l2 g2 ls2 rs2 P2 Hrs2]; subst.
    inversion Hrs2; subst.
    pose proof (f_equal snd E) as Ew. cbn [snd] in Ew. vm_compute in Ew. subst w'.
    destruct P1 as (N1 & T1 & C1 & k1 & K1 & D1), P2 as (N2 & T2 & C2 & k2 & K2 & D2).
    assert (part "Retirement | $3,000,000 | 2.1m? | 2045-06-30" 3
            = Some "2045-06-30"%string) as E1 by (vm_compute; reflexivity).
    assert (part "Trip" 3 = None) as E2 by (vm_compute; reflexivity).
    rewrite E1 in D1. rewrite E2 in D2.
    destruct D1 as (D1 & I1 & B1), D2 as (D2 & _ & B2).
    cbn [tick MockClients.initial_world] in K1, B1, K2, B2.
    exists g1, g2. eexists. split; [exact E|].
    split; [pin N1|]. split; [pin T1|]. split; [pin C1|]. split; [exact D1|].
    split; [pin N2|]. split; [pin T2|]. split; [pin C2|].
    assert (k2 = 0 \/ k2 = 1 \/ k2 = 2)%nat as Hk by lia.
    rewrite D2. destruct Hk as [->|[->| ->]]; vm_compute; reflexivity.
  - destruct (Hg "[null]"%string MockClients.initial_world)
      as (_ & _ & _ & _ & Hlines).
    destruct Hlines as (rs & w' & E & Hrs);
      [vm_compute; discriminate
      |right; exists [JNull]; split; [vm_compute; reflexivity | now left]|].
    assert (filled_lines "[null]" = ["[null]"]%string) as El by (vm_compute; reflexivity).
    rewrite El in Hrs.
    inversion Hrs as [|l1 g1 ls1 rs1 P1 Hrs1]; subst. inversion Hrs1; subst.
    destruct P1 as (N1 & T1 & _).
    exists g1, w'. split; [exact E|]. split; [pin N1 | pin T1].
  - destruct (Hg "[7]"%string MockClients.initial_world)
      as (_ & _ & _ & Helems & _).
    destruct (Helems [num "7"]) as (rs & w' & E & Hrs);
      [vm_compute; discriminate | vm_compute; reflexivity
      | intros [H|[]]; discriminate |].
    inversion Hrs as [|x1 g1 xs1 rs1 P1 Hrs1]; subst. inversion Hrs1; subst.
    pose proof (f_equal snd E) as Ew. cbn [snd] in Ew. vm_compute in Ew. subst w'.
    destruct P1 as (Hm & k & K & B & I).
    apply Forall_cons in Hm as [N1 _].
    cbn [tick MockClients.initial_world] in K, B.
    exists g1. eexists. split; [exact E|]. split; [pin N1|].
    assert (k = 0)%nat as -> by lia. rewrite I. vm_compute. reflexivity.
  - destruct (Ha Fixtures.account_lines MockClients.initial_world)
      as (_ & _ & _ & _ & Hlines).
    destruct Hlines as (rs & w' & E & Hrs);
      [vm_compute; discriminate | left; eexists; vm_compute; reflexivity|].
    assert (filled_lines Fixtures.account_lines
            = ["Savings | ROTH | 10,500.75"; " | | "]%string) as El
      by (vm_compute; reflexivity).
    rewrite El in Hrs.
    inversion Hrs as [|l1 a1 ls1 rs1 P1 Hrs1]; subst.
    inversion Hrs1 as [|l2 a2 ls2 rs2 P2 Hrs2]; subst.
    inversion Hrs2; subst.
    destruct P1 as (N1 & T1 & B1 & _), P2 as (N2 & T2 & B2 & _).
    exists a1, a2, w'. split; [exact E|].
    split; [pin N1|]. split; [pin T1|]. split; [pin B1|].
    split; [pin N2|]. split; [pin T2 | pin B2].
Defined.

Lemma parse_goals_wf env text w :
  exists rs w', parse_goals env text w = (Ok rs, w') /\ clock_only w w'
                /\ Forall (fun r => js_wf r = true) rs.
Proof.
  exact (parse_wf (goal_of_json env) (goal_of_line env)
           (goal_from env) (goal_of env)
           (record_from_wider _ _ env) (goal_of_wider env)
           (goal_of_element_spec env) (goal_of_line_spec env) text w).
Qed.

Lemma parse_accounts_wf env text w :
  exists rs w', parse_accounts env text w = (Ok rs, w') /\ clock_only w w'
                /\ Forall (fun r => js_wf r = true) rs.
Proof.
  exact (parse_wf (account_of_json env) (account_of_line env)
           (account_from env) (account_of env)
           (record_from_wider _ _ env) (account_of_wider env)
           (account_of_element_spec env) (account_of_line_spec env) text w).
Qed.

Lemma forallb_Forall_wf rs :
  Forall (fun r => js_wf r = true) rs -> forallb js_wf rs = true.
Proof. induction 1; cbn; [reflexivity|]. now rewrite H, IHForall. Qed.

(** X12: [handleAddClient] on a store that holds a list.  A form with no
    name or no AUM is turned down and nothing is written.  Any other
    form, whatever its texts for goals and accounts, adds exactly one
    client: the persisted list grows by the new record at its end, and
    the record has a custom id, the name, risk profile and advisor of
    the form, the AUM read from the digits and points of its text, and
    the goals and accounts the record parser makes of the two texts. *)
Theorem handleAddClient_adds_or_rejects
    (env : Env) (f : ClientForm) (w : World) (xs : list JSValue) :
  fst (ClientStorage.getCustomClients w) = Ok (JArr xs) ->
  (form_name f = ""%string \/ form_aum f = ""%string ->
     handleAddClient env f w = (Ok None, w))
  /\ (form_name f <> ""%string -> form_aum f <> ""%string ->
      exists id c kept w1,
        handleAddClient env f w = (Ok (Some c), w1)
        /\ field c "id" = JStr id /\ ClientStorage.isCustomClient id = true
        /\ field c "name" = JStr (form_name f)
        /\ field c "aum" = amount_of (Some (form_aum f))
        /\ field c "riskProfile" = JStr (form_riskProfile f)
        /\ field c "advisor" = JStr (form_advisor f)
        /\ (exists gs w', parse_goals env (goalsText f) w = (Ok gs, w')
                          /\ field c "goals" = JArr gs
                          /\ exists accs w'', parse_accounts env (accountsText f) w'
                                             = (Ok accs, w'')
                                             /\ field c "accounts" = JArr accs)
        /\ jsonify c = Some kept
        /\ ClientStorage.getCustomClients w1 = (Ok (JArr (xs ++ [kept])), w1)).
Proof.
  intros Hread. split.
  - intros H. unfold handleAddClient.
    destruct H as [-> | ->]; [reflexivity|]. now rewrite orb_true_r.
  - intros Hname Haum. unfold handleAddClient.
    destruct (form_name f) as [|c0 r0] eqn:En; [congruence|].
    destruct (form_aum f) as [|c1 r1] eqn:Ea; [congruence|]. cbn [truthy negb orb].
    destruct (parse_goals_wf env (goalsText f) w) as (gs & w1 & Hg & Hc1 & Hgw).
    destruct (parse_accounts_wf env (accountsText f) w1) as (accs & w2 & Ha & Hc2 & Haw).
    unfold mbind at 1. rewrite Hg. unfold mbind at 1. rewrite Ha.
    unfold mbind at 1. unfold today at 1, mbind at 1, now_iso at 1, ret at 1.
    set (lastContact := hd ""%string _).
    set (ps := [ ("name", JStr (String c0 r0)); _; _; _; _; _; _ ]).
    assert (js_wf (JObj ps) = true) as Hps.
    { subst ps. cbn [js_wf List.map fst snd forallb].
      rewrite amount_of_wf, (forallb_Forall_wf _ Hgw), (forallb_Forall_wf _ Haw).
      reflexivity. }
    assert (fst (ClientStorage.getCustomClients (next_tick w2)) = Ok (JArr xs)) as Hr.
    { rewrite (clock_only_read w (next_tick w2)); [exact Hread|].
      eapply clock_only_trans; [exact Hc1|].
      eapply clock_only_trans; [exact Hc2 | apply clock_only_tick]. }
    destruct (ClientListFacts.addClient_spec env ps (next_tick w2) xs Hps Hr)
      as (id & n & kept & w3 & Hadd & Hid & Hcust & Hkeep & Hj & _ & Hlist & _).
    exists id, n, kept, w3. unfold mbind at 1. rewrite Hadd. unfold ret.
    split; [reflexivity|]. split; [exact Hid|]. split; [exact Hcust|].
    split; [now rewrite Hkeep|]. split; [now rewrite Hkeep|].
    split; [now rewrite Hkeep|]. split; [now rewrite Hkeep|].
    split; [|split; [exact Hj | exact Hlist]].
    exists gs, w1. split; [reflexivity|]. split; [now rewrite Hkeep|].
    exists accs, w2. split; [exact Ha|]. now rewrite Hkeep.
Qed.

Lemma handleAddClient_adds_or_rejects_witness :
  handleAddClient Browser.env Fixtures.nameless_form MockClients.initial_world
  = (Ok None, MockClients.initial_world)
  /\ exists c g a kept w1,
       handleAddClient Browser.env Fixtures.ada_form MockClients.initial_world
       = (Ok (Some c), w1)
       /\ field c "name" = JStr "Ada Park"
       /\ field c "aum" = num "1250000"
       /\ field c "goals" = JArr [g]
       /\ field g "name" = JStr "Retirement"
       /\ field g "targetAmount" = num "3000000"
       /\ field c "accounts" = JArr [a]
       /\ field a "type" = JStr "401k"
       /\ jsonify c = Some kept
       /\ ClientStorage.getCustomClients w1 = (Ok (JArr [kept]), w1).
Proof.
  split.
  - apply (handleAddClient_adds_or_rejects Browser.env Fixtures.nameless_form
             MockClients.initial_world [] eq_refl). now left.
  - destruct (handleAddClient_adds_or_rejects Browser.env Fixtures.ada_form
                MockClients.initial_world [] eq_refl) as [_ H].
    destruct H as (id & c & kept & w1 & Hadd & _ & _ & Hn & _ & _ & _ & _ & Hj & Hlist);
      [discriminate | discriminate|].
    pose proof (f_equal fst Hadd) as Hc. cbn [fst] in Hc. vm_compute in Hc.
    injection Hc as Hc.
    eexists c, _, _, kept, w1. split; [exact Hadd|]. split; [exact Hn|].
    rewrite <- Hc in *. repeat split; try assumption; vm_compute; reflexivity.
Defined.

End FormFacts.

(* ================================================================== *)
(** * The AI adapter: requests, failures, fenced answers *)
(* ================================================================== *)

Module AnswerFacts.
Import Str JS Runtime OpenAI.
Import StrFacts NumFacts JSONFacts ObjFacts JsonifyFacts ParseFacts.
Import AdapterNotions StoreNotions FormNotions AnswerNotions.
Import CoercionFacts ClientStoreFacts FormFacts RoundTripFacts.

Lemma strip_prefix_app p t : strip_prefix p (p +:+ t) = Some t.
Proof.
  induction p as [|c p IH]; [now destruct t|].
  rewrite sapp_cons. cbn [strip_prefix]. now rewrite Ascii.eqb_refl.
Qed.

Lemma strip_suffix_app p s : strip_suffix p (s +:+ p) = Some s.
Proof.
  unfold strip_suffix. now rewrite srev_app, strip_prefix_app, srev_involutive.
Qed.

Lemma strip_prefix_head p c s :
  head_sat (fun a => Ascii.eqb a c) p = false -> p <> ""%string ->
  strip_prefix p (String c s) = None.
Proof.
  destruct p as [|a p]; [congruence|]. cbn. now intros ->.
Qed.

Lemma trim_fenced lang body : trim (fenced lang body) = fenced lang body.
Proof.
  unfold trim, fenced. rewrite !sapp_cons, sapp_nil_l.
  rewrite drop_while_head by reflexivity. apply drop_while_end_id.
  rewrite !srev_cons, !srev_app. reflexivity.
Qed.

(** The text inside a fence is what [generateMeetingPrep] parses. *)
Lemma json_content_fenced body :
  json_content (fenced "json" body) = body /\ json_content (fenced "" body) = body.
Proof.
  unfold json_content. rewrite !trim_fenced. unfold fenced, nl.
  rewrite !sapp_cons, !sapp_nil_l.
  cbn [starts_with Ascii.eqb Bool.eqb andb]. unfold strip_fence_open, nl.
  cbn [drop strip_prefix Ascii.eqb Bool.eqb default from_option id].
  change (String "010" "```") with (String "010" "" +:+ "```").
  unfold strip_fence_close, nl. now rewrite !strip_suffix_app.
Qed.

Lemma ticking_ret {A} (a : A) : ticking (ret a).
Proof. intros w. apply clock_only_refl. Qed.

Lemma ticking_lift {A} (r : result A) : ticking (lift r).
Proof. intros w. apply clock_only_refl. Qed.

Lemma ticking_throw {A} e : ticking (@throw A e).
Proof. intros w. apply clock_only_refl. Qed.

Lemma ticking_bind {A B} (m : M A) (k : A -> M B) :
  ticking m -> (forall a, ticking (k a)) -> ticking (mbind m k).
Proof.
  intros Hm Hk w. unfold mbind. specialize (Hm w).
  destruct (m w) as [[a|e] w1]; cbn [snd] in *; [|assumption].
  eapply clock_only_trans; [exact Hm | apply Hk].
Qed.

Lemma ticking_try {A} (m : M A) (h : JSError -> M A) :
  ticking m -> (forall e, ticking (h e)) -> ticking (try_catch m h).
Proof.
  intros Hm Hh w. unfold try_catch. specialize (Hm w).
  destruct (m w) as [[a|e] w1]; cbn [snd] in *; [assumption|].
  eapply clock_only_trans; [exact Hm | apply Hh].
Qed.

Lemma ticking_now env : ticking (now env).
Proof. intros w. apply clock_only_tick. Qed.

Lemma ticking_now_iso env : ticking (now_iso env).
Proof. intros w. apply clock_only_tick. Qed.

Lemma ticking_today env : ticking (today env).
Proof.
  unfold today. apply ticking_bind; [apply ticking_now_iso | intros; apply ticking_ret].
Qed.

Lemma ticking_mapM {A B} (f : nat -> A -> M B) xs :
  (forall i x, ticking (f i x)) -> forall i, ticking (mapM_ f i xs).
Proof.
  intros Hf. induction xs as [|x xs IH]; intros i; cbn [mapM_]; [apply ticking_ret|].
  apply ticking_bind; [apply Hf|]. intros y.
  apply ticking_bind; [apply IH | intros; apply ticking_ret].
Qed.

Create HintDb ticking.
#[local] Hint Resolve ticking_ret ticking_lift ticking_throw ticking_now ticking_now_iso
  ticking_today : ticking.

Ltac tick :=
  repeat first
    [ apply ticking_bind; [|intros ?]
    | apply ticking_try; [|intros ?]
    | apply ticking_mapM; intros ? ?
    | progress auto with ticking
    | match goal with
      | |- ticking (if ?c then _ else _) => destruct c
      | |- ticking (match ?x with _ => _ end) => destruct x
      end ].

Lemma ticking_client_of_content env content :
  ticking (DocIngest.client_of_content env content).
Proof.
  unfold DocIngest.client_of_content, DocIngest.validateGoals,
    DocIngest.validateAccounts, DocIngest.or_stamped, DocIngest.or_today.
  tick.
Qed.

Lemma fetch_world env u i w :
  fetch env u i w
  = (fetch_outcome env (length (requests w)) {| url := u; init := i |},
     snd (fetch env u i w))
  /\ requests (snd (fetch env u i w)) = requests w ++ [{| url := u; init := i |}]
  /\ localStorage (snd (fetch env u i w)) = localStorage w
  /\ mockClients (snd (fetch env u i w)) = mockClients w.
Proof. now repeat split. Qed.

Lemma prep_world env prompt_text a1 a2 a3 a4 a5 a6 w prompt :
  truthy (VITE_OPENAI_API_KEY env) = true ->
  prompt_text a1 a2 a3 a4 a5 a6 = Ok prompt ->
  generateMeetingPrep env prompt_text a1 a2 a3 a4 a5 a6 w
  = (match fetch_outcome env (length (requests w))
             (prep_request (VITE_OPENAI_API_KEY env) prompt) with
     | Ok response =>
         match message_content response with
         | Ok content =>
             match coerce_content content with
             | Ok prep => Ok prep
             | Throw _ => Throw (Error "Failed to parse AI response. Please try again.")
             end
         | Throw e => Throw e
         end
     | Throw e => Throw e
     end,
     snd (fetch env OPENAI_API_URL
            (init (prep_request (VITE_OPENAI_API_KEY env) prompt)) w)).
Proof.
  intros Hkey Hp. unfold generateMeetingPrep. rewrite Hkey. cbn [negb].
  unfold mbind, lift, fetch, try_catch, throw. rewrite Hp.
  fold (prep_request (VITE_OPENAI_API_KEY env) prompt). cbn [snd].
  destruct (fetch_outcome _ _ _) as [response|e]; [|reflexivity].
  destruct (message_content response) as [content|e]; [|reflexivity].
  now destruct (coerce_content content).
Qed.

Lemma ingest_world env docs w :
  truthy (VITE_OPENAI_API_KEY env) = true ->
  let rq := ingest_request (VITE_OPENAI_API_KEY env) docs in
  let w1 := snd (fetch env (url rq) (init rq) w) in
  exists w2, clock_only w1 w2
    /\ DocIngest.parseClientFromDocuments env docs w
       = (match fetch_outcome env (length (requests w)) rq with
          | Ok response =>
              match message_content response with
              | Ok content =>
                  match fst (DocIngest.client_of_content env content w1) with
                  | Ok client => Ok client
                  | Throw _ =>
                      Throw (Error "Failed to parse client data from documents. Please try again.")
                  end
              | Throw e => Throw e
              end
          | Throw e => Throw e
          end, w2).
Proof.
  intros Hkey rq w1. unfold DocIngest.parseClientFromDocuments. rewrite Hkey. cbn [negb].
  unfold mbind, lift, fetch, try_catch, throw. subst w1.
  fold (ingest_request (VITE_OPENAI_API_KEY env) docs). fold rq. cbn [snd fetch].
  change {| url := url rq; init := init rq |} with rq.
  destruct (fetch_outcome _ _ rq) as [response|e];
    [|eexists; split; [apply clock_only_refl | reflexivity]].
  destruct (message_content response) as [content|e];
    [|eexists; split; [apply clock_only_refl | reflexivity]].
  match goal with
  | |- context [DocIngest.client_of_content env content ?w0] =>
      pose proof (ticking_client_of_content env content w0) as Ht;
      destruct (DocIngest.client_of_content env content w0) as [[c|e] w2]
  end; cbn [fst snd] in *; exists w2; (split; [exact Ht | reflexivity]).
Qed.

(** X13: with an API key configured, each of the two adapter operations
    issues exactly one request, whatever the provider answers: a POST to
    the chat-completions URL that carries the key as bearer token.  The
    persistent storage and the built-in clients are left as they were.
    [generateMeetingPrep] issues no request at all when the prompt
    cannot be built. *)
Theorem adapters_issue_one_request
    (env : Env) prompt_text a1 a2 a3 a4 a5 a6 (docs : list string) (w : World) :
  truthy (VITE_OPENAI_API_KEY env) = true ->
  let sent (rq : Request) :=
    url rq = OPENAI_API_URL
    /\ field (init rq) "method" = JStr "POST"
    /\ field (field (init rq) "headers") "Authorization"
       = JStr ("Bearer " +:+ ToString (VITE_OPENAI_API_KEY env)) in
  let w1 := snd (generateMeetingPrep env prompt_text a1 a2 a3 a4 a5 a6 w) in
  let w2 := snd (DocIngest.parseClientFromDocuments env docs w) in
  (forall e, prompt_text a1 a2 a3 a4 a5 a6 = Throw e -> w1 = w)
  /\ (forall prompt, prompt_text a1 a2 a3 a4 a5 a6 = Ok prompt ->
        exists rq, requests w1 = requests w ++ [rq] /\ sent rq)
  /\ localStorage w1 = localStorage w /\ mockClients w1 = mockClients w
  /\ (exists rq, requests w2 = requests w ++ [rq] /\ sent rq)
  /\ localStorage w2 = localStorage w /\ mockClients w2 = mockClients w.
Proof.
  intros Hkey sent w1 w2.
  assert (forall e, prompt_text a1 a2 a3 a4 a5 a6 = Throw e -> w1 = w) as Hthrow.
  { intros e He. subst w1. unfold generateMeetingPrep. rewrite Hkey. cbn [negb].
    unfold mbind, lift. now rewrite He. }
  split; [exact Hthrow|].
  destruct (prompt_text a1 a2 a3 a4 a5 a6) as [prompt|e] eqn:Hp.
  2:{ rewrite (Hthrow e eq_refl). split; [discriminate|]. split; [reflexivity|].
      split; [reflexivity|]. subst w2.
      destruct (ingest_world env docs w Hkey) as (w' & Hc & ->).
      cbn [snd]. destruct Hc as (Hl & Hm & Hr). rewrite Hl, Hm, Hr.
      split; [eexists; split; [reflexivity | now repeat split]|]. now split. }
  subst w1. rewrite (prep_world env prompt_text a1 a2 a3 a4 a5 a6 w prompt Hkey Hp).
  cbn [snd]. split.
  { intros p [= <-]. eexists. split; [reflexivity|]. now repeat split. }
  split; [reflexivity|]. split; [reflexivity|]. subst w2.
  destruct (ingest_world env docs w Hkey) as (w' & Hc & ->).
  cbn [snd]. destruct Hc as (Hl & Hm & Hr). rewrite Hl, Hm, Hr.
  split; [eexists; split; [reflexivity | now repeat split]|]. now split.
Qed.

Lemma adapters_issue_one_request_witness :
  let env := Browser.with_provider (Browser.chat_completion Browser.one_topic) in
  (exists rq,
     requests (snd (generateMeetingPrep env Browser.any_prompt (JStr "Margaret Chen")
                      (num "2450000") (JStr "Moderate") (JArr []) (JArr []) (JArr [])
                      MockClients.initial_world)) = [rq]
     /\ url rq = OPENAI_API_URL)
  /\ (exists rq,
        requests (snd (DocIngest.parseClientFromDocuments env ["statement"]
                         MockClients.initial_world)) = [rq]
        /\ url rq = OPENAI_API_URL).
Proof.
  cbv zeta.
  destruct (adapters_issue_one_request
              (Browser.with_provider (Browser.chat_completion Browser.one_topic))
              Browser.any_prompt (JStr "Margaret Chen") (num "2450000") (JStr "Moderate")
              (JArr []) (JArr []) (JArr []) ["statement"] MockClients.initial_world
              eq_refl) as (_ & H1 & _ & _ & H2 & _).
  split.
  - destruct (H1 "prompt"%string eq_refl) as (rq & Hr & Hu & _). now exists rq.
  - destruct H2 as (rq & Hr & Hu & _). now exists rq.
Defined.




Lemma message_content_answer content :
  message_content (answer content)
  = if truthy content then Ok content else Throw (Error "No response from OpenAI").
Proof.
  unfold message_content, answer. cbn [ok negb json bind].
  change (get (JObj _) "choices") with (Ok (JArr [JObj [("message", JObj [("content", content)])]])).
  cbn [bind].
  change (get (JArr _) "0") with (Ok (JObj [("message", JObj [("content", content)])])).
  cbn [bind get_opt get obj_lookup String.eqb Ascii.eqb Bool.eqb].
  now destruct (truthy content).
Qed.

(** A text that starts with a backquote is not JSON. *)
Lemma JSON_parse_backquote r : JSON_parse (String "`" r) = Throw SyntaxError.
Proof. unfold JSON_parse. cbn. reflexivity. Qed.

Lemma coerce_no_object c :
  no_object (json_content c) -> exists e, coerce_content (JStr c) = Throw e.
Proof.
  unfold coerce_content. intros [[e ->] | ->]; eexists; reflexivity.
Qed.

Lemma client_no_object env c w :
  no_object c -> exists e, fst (DocIngest.client_of_content env (JStr c) w) = Throw e.
Proof.
  unfold DocIngest.client_of_content, mbind, lift. cbn [ToString].
  intros [[e ->] | ->]; eexists; reflexivity.
Qed.

(** X15: an answer that cannot be used.  When the message text of the
    answer is missing, [null] or empty, both adapter operations throw
    [No response from OpenAI].  When it is a text that holds no JSON
    value, or holds [null], or (for the meeting prep) is not a text at
    all, each operation throws its own parse error; nothing else of
    what went wrong reaches the caller. *)
Theorem unusable_answer_is_reported
    (env : Env) prompt_text a1 a2 a3 a4 a5 a6 (docs : list string) (w : World)
    (prompt : string) (content : JSValue) :
  truthy (VITE_OPENAI_API_KEY env) = true ->
  prompt_text a1 a2 a3 a4 a5 a6 = Ok prompt ->
  (forall rq, fetch_outcome env (length (requests w)) rq = Ok (answer content)) ->
  let prep := fst (generateMeetingPrep env prompt_text a1 a2 a3 a4 a5 a6 w) in
  let client := fst (DocIngest.parseClientFromDocuments env docs w) in
  (truthy content = false -> prep = Throw no_response /\ client = Throw no_response)
  /\ (forall c, content = JStr c -> c <> ""%string -> no_object (json_content c) ->
        prep = Throw prep_parse_error)
  /\ (truthy content = true -> (forall c, content <> JStr c) ->
        prep = Throw prep_parse_error)
  /\ (forall c, content = JStr c -> c <> ""%string -> no_object c ->
        client = Throw client_parse_error).
Proof.
  intros Hkey Hp Hf prep client. subst prep client.
  rewrite (prep_world env prompt_text a1 a2 a3 a4 a5 a6 w prompt Hkey Hp).
  destruct (ingest_world env docs w Hkey) as (w2 & _ & ->).
  cbn [fst]. rewrite !Hf, message_content_answer.
  split; [now intros ->|]. split; [|split].
  - intros c -> Hc Hno. destruct c; [congruence|]. cbn [truthy].
    now destruct (coerce_no_object _ Hno) as [e ->].
  - intros -> Hns. destruct content; try reflexivity. now destruct (Hns s).
  - intros c -> Hc Hno. destruct c; [congruence|]. cbn [truthy].
    match goal with
    | |- context [DocIngest.client_of_content env _ ?w0] =>
        now destruct (client_no_object env _ w0 Hno) as [e ->]
    end.
Qed.

Lemma unusable_answer_is_reported_witness :
  fst (generateMeetingPrep (Fixtures.provider (answer (JStr "Sorry, I cannot help.")))
         Browser.any_prompt (JStr "Margaret Chen") (num "2450000") (JStr "Moderate")
         (JArr []) (JArr []) (JArr []) MockClients.initial_world)
  = Throw prep_parse_error
  /\ fst (DocIngest.parseClientFromDocuments (Fixtures.provider (answer (JStr "null")))
            ["statement"] MockClients.initial_world)
     = Throw client_parse_error
  /\ fst (DocIngest.parseClientFromDocuments (Fixtures.provider (answer JNull))
            ["statement"] MockClients.initial_world)
     = Throw no_response.
Proof.
  split; [|split].
  - destruct (unusable_answer_is_reported
                (Fixtures.provider (answer (JStr "Sorry, I cannot help.")))
                Browser.any_prompt (JStr "Margaret Chen") (num "2450000") (JStr "Moderate")
                (JArr []) (JArr []) (JArr []) [] MockClients.initial_world "prompt"
                (JStr "Sorry, I cannot help.") eq_refl eq_refl (fun _ => eq_refl))
      as (_ & H & _).
    apply (H _ eq_refl); [discriminate|]. left. eexists. vm_compute. reflexivity.
  - destruct (unusable_answer_is_reported (Fixtures.provider (answer (JStr "null")))
                Browser.any_prompt (JStr "Margaret Chen") (num "2450000") (JStr "Moderate")
                (JArr []) (JArr []) (JArr []) ["statement"] MockClients.initial_world
                "prompt" (JStr "null") eq_refl eq_refl (fun _ => eq_refl))
      as (_ & _ & _ & H).
    apply (H _ eq_refl); [discriminate|]. right. reflexivity.
  - destruct (unusable_answer_is_reported (Fixtures.provider (answer JNull))
                Browser.any_prompt (JStr "Margaret Chen") (num "2450000") (JStr "Moderate")
                (JArr []) (JArr []) (JArr []) ["statement"] MockClients.initial_world
                "prompt" JNull eq_refl eq_refl (fun _ => eq_refl))
      as (H & _).
    now apply H.
Defined.

(** X16: an answer inside a Markdown code fence, with or without the
    [json] tag.  [generateMeetingPrep] strips the fence and reads the
    text inside: when that is JSON for anything but [null] the meeting
    prep is built from it.  [parseClientFromDocuments] does not strip
    it: the same answer is turned down with the parse error. *)
Theorem fenced_answer_is_read_by_one_adapter
    (env : Env) prompt_text a1 a2 a3 a4 a5 a6 (docs : list string) (w : World)
    (prompt lang body : string) (parsed : JSValue) :
  truthy (VITE_OPENAI_API_KEY env) = true ->
  prompt_text a1 a2 a3 a4 a5 a6 = Ok prompt ->
  lang = "json"%string \/ lang = ""%string ->
  (forall rq, fetch_outcome env (length (requests w)) rq
              = Ok (answer (JStr (fenced lang body)))) ->
  JSON_parse body = Ok parsed -> parsed <> JNull ->
  fst (generateMeetingPrep env prompt_text a1 a2 a3 a4 a5 a6 w) = Ok (prep_of parsed)
  /\ fst (DocIngest.parseClientFromDocuments env docs w) = Throw client_parse_error.
Proof.
  intros Hkey Hp Hlang Hf Hparse Hnull.
  assert (json_content (fenced lang body) = body) as Hj
    by (destruct Hlang as [-> | ->]; apply json_content_fenced).
  assert (exists r, fenced lang body = String "`" r) as [r Hr]
    by (unfold fenced; rewrite !sapp_cons; eexists; reflexivity).
  split.
  - rewrite (prep_world env prompt_text a1 a2 a3 a4 a5 a6 w prompt Hkey Hp).
    cbn [fst]. rewrite Hf, message_content_answer, Hr. cbn [truthy]. rewrite <- Hr.
    rewrite (coerce_content_parsed (fenced lang body) parsed); [reflexivity | | assumption |].
    + now rewrite Hj.
    + intros ->. now apply JSON_parse_safe in Hparse.
  - destruct (ingest_world env docs w Hkey) as (w2 & _ & ->).
    cbn [fst]. rewrite Hf, message_content_answer, Hr. cbn [truthy].
    unfold DocIngest.client_of_content, mbind, lift. cbn [ToString].
    now rewrite JSON_parse_backquote.
Qed.

Lemma fenced_answer_is_read_by_one_adapter_witness :
  let env := Fixtures.provider (answer (JStr (fenced "json" Browser.one_topic))) in
  (exists prep,
     fst (generateMeetingPrep env Browser.any_prompt (JStr "Margaret Chen")
            (num "2450000") (JStr "Moderate") (JArr []) (JArr []) (JArr [])
            MockClients.initial_world) = Ok prep
     /\ get prep "keyTopicsToDiscuss" = Ok (JArr [JStr "Roth conversion"]))
  /\ fst (DocIngest.parseClientFromDocuments env ["statement"] MockClients.initial_world)
     = Throw client_parse_error.
Proof.
  cbv zeta.
  destruct (fenced_answer_is_read_by_one_adapter
              (Fixtures.provider (answer (JStr (fenced "json" Browser.one_topic))))
              Browser.any_prompt (JStr "Margaret Chen") (num "2450000") (JStr "Moderate")
              (JArr []) (JArr []) (JArr []) ["statement"] MockClients.initial_world
              "prompt" "json" Browser.one_topic
              (JObj [ ("keyTopicsToDiscuss", JStr "Roth conversion") ])
              eq_refl eq_refl (or_introl eq_refl) (fun _ => eq_refl))
    as [H1 H2]; [vm_compute; reflexivity | discriminate |].
  split; [|exact H2]. eexists. split; [exact H1 | reflexivity].
Defined.

End AnswerFacts.

(* ================================================================== *)
(** * Clients read from documents *)
(* ================================================================== *)

Module IngestFacts.
Import Str JS Runtime OpenAI DocIngest.
Import StrFacts NumFacts JSONFacts ObjFacts JsonifyFacts ParseFacts.
Import AdapterNotions InteractionNotions StoreNotions FormNotions AnswerNotions IngestNotions.
Import CoercionFacts ClientStoreFacts FormFacts AnswerFacts.

Lemma safe_not_nan v : json_safe v = true -> not_nan v.
Proof. intros H ->. discriminate. Qed.

Lemma proto_lookup_not_nan k : not_nan (proto_lookup k).
Proof.
  unfold proto_lookup, not_nan.
  repeat (match goal with |- context [if ?c then _ else _] => destruct c end);
    discriminate.
Qed.

Lemma of_N_not_nan n : not_nan (JNum (JS.of_N n)).
Proof.
  intros [= H]. pose proof (make_number_safe false (Str.of_N n)
    (Z.of_nat (String.length (Str.of_N n))) (proj1 (of_N_spec n))) as [Hf _].
  unfold JS.of_N in H. cbv zeta in H. rewrite H in Hf. discriminate.
Qed.

Lemma obj_lookup_safe k ps x :
  forallb (fun kv => json_safe (snd kv)) ps = true -> obj_lookup k ps = Some x ->
  json_safe x = true.
Proof.
  induction ps as [|[k' v] ps IH]; [discriminate|]. cbn [forallb obj_lookup snd].
  intros H. apply andb_true_iff in H as [Hv H].
  destruct (String.eqb k' k); [now intros [= <-] | now apply IH].
Qed.

Lemma nth_not_nan i xs : forallb json_safe xs = true -> not_nan (nth i xs JUndefined).
Proof.
  revert i. induction xs as [|x xs IH]; intros [|i] H; try discriminate;
    cbn [forallb] in H; apply andb_true_iff in H as [Hx H]; cbn [nth];
    [now apply safe_not_nan | now apply IH].
Qed.

(** No property of a value read from JSON is [NaN]. *)
Lemma get_not_nan v k x : json_safe v = true -> get v k = Ok x -> not_nan x.
Proof.
  destruct v as [| |b|n|s|xs|ps|f]; cbn [get]; intros Hs; try discriminate;
    try (intros [= <-]; apply proto_lookup_not_nan).
  - destruct (String.eqb k "length"); [intros [= <-]; apply of_N_not_nan|].
    destruct (array_index k) as [i|]; intros [= <-]; [|apply proto_lookup_not_nan].
    destruct (String.get (N.to_nat i) s); discriminate.
  - destruct (String.eqb k "length"); [intros [= <-]; apply of_N_not_nan|].
    destruct (array_index k) as [i|]; intros [= <-]; [|apply proto_lookup_not_nan].
    now apply nth_not_nan.
  - intros [= <-]. cbn [json_safe] in Hs. apply andb_true_iff in Hs as [_ Hs].
    destruct (obj_lookup k ps) eqn:E; [|apply proto_lookup_not_nan].
    apply safe_not_nan. eapply obj_lookup_safe; eassumption.
Qed.

Lemma number_or_zero_number v : not_nan v -> is_number (number_or_zero v).
Proof.
  intros Hv. unfold number_or_zero, is_number.
  destruct v as [| |b|n|s|xs|ps|f];
    try (unfold or_else;
         match goal with
         | |- context [truthy (JNum ?x)] =>
             destruct x as [|neg|neg ds pt] eqn:E; cbn [truthy];
             [ eexists; split; [reflexivity | discriminate]
             | eexists; split; [reflexivity | discriminate]
             | destruct ds; eexists; (split; [reflexivity | discriminate]) ]
         end).
  exists n. split; [reflexivity|]. intros ->. now apply Hv.
Qed.

Lemma validateRiskProfile_valid profile : valid_profile (validateRiskProfile profile).
Proof.
  unfold validateRiskProfile, valid_profile.
  destruct profile as [| |b|n|s|xs|ps|f]; cbn [existsb strict_eq_str orb];
    try (right; left; reflexivity).
  destruct (String.eqb_spec s "Conservative") as [-> | _]; [now left|].
  destruct (String.eqb_spec s "Moderate") as [-> | _]; [right; now left|].
  destruct (String.eqb_spec s "Moderate-Aggressive") as [-> | _]; [right; right; now left|].
  destruct (String.eqb_spec s "Aggressive") as [-> | _]; [right; right; right; now left|].
  cbn. right. now left.
Qed.

Lemma or_else_truthy a b : truthy b = true -> truthy (or_else a b) = true.
Proof. unfold or_else. now destruct (truthy a) eqn:E. Qed.

Lemma or_stamped_truthy env v prefix w y w' :
  prefix <> ""%string ->
  or_stamped env v prefix w = (Ok y, w') -> truthy y = true.
Proof.
  intros Hp. unfold or_stamped. destruct (truthy v) eqn:E.
  - now intros [= <- _].
  - unfold mbind, now, ret. intros [= <- _]. destruct prefix; [congruence|].
    now rewrite sapp_cons.
Qed.

Lemma mbind_Ok_inv {A B} (m : M A) (k : A -> M B) w y w' :
  mbind m k w = (Ok y, w') ->
  exists a w1, m w = (Ok a, w1) /\ k a w1 = (Ok y, w').
Proof.
  unfold mbind. destruct (m w) as [[a|e] w1]; [|discriminate]. intros H. now exists a, w1.
Qed.

Lemma lift_Ok_inv {A} (r : result A) w a w1 :
  lift r w = (Ok a, w1) -> r = Ok a /\ w1 = w.
Proof. unfold lift. now intros [= -> ->]. Qed.

Ltac invert_binds H :=
  repeat
    (let a := fresh "v" in let w1 := fresh "w" in
     let E := fresh "E" in
     apply mbind_Ok_inv in H as (a & w1 & E & H);
     try (apply lift_Ok_inv in E as [E ->])).

Lemma or_stamped_returns env v prefix w :
  exists y w', or_stamped env v prefix w = (Ok y, w').
Proof.
  unfold or_stamped. destruct (truthy v); eexists; eexists; reflexivity.
Qed.

Lemma or_today_returns env v w : exists y w', or_today env v w = (Ok y, w').
Proof.
  unfold or_today. destruct (truthy v); eexists; eexists; reflexivity.
Qed.

Lemma mapM_Ok_inv {A B} (f : nat -> A -> M B) (R : A -> Prop) (Q : B -> Prop) xs :
  (forall i x w y w', R x -> f i x w = (Ok y, w') -> Q y) ->
  Forall R xs ->
  forall i w ys w', mapM_ f i xs w = (Ok ys, w') -> Forall Q ys.
Proof.
  intros Hf HR. induction xs as [|x xs IH]; intros i w ys w'.
  - intros [= <- _]. constructor.
  - apply Forall_cons in HR as [Hx HR]. cbn [mapM_]. unfold mbind at 1.
    destruct (f i x w) as [[y|e] w1] eqn:Ey; [|discriminate].
    unfold mbind at 1.
    destruct (mapM_ f (S i) xs w1) as [[ys'|e] w2] eqn:Eys; [|discriminate].
    intros [= <- _]. constructor; [eapply Hf; eassumption | eapply IH; eassumption].
Qed.

Lemma field_get v k x : get v k = Ok x -> field v k = x.
Proof. unfold field. now intros ->. Qed.

Lemma sapp_nonempty a b : a <> ""%string -> a +:+ b <> ""%string.
Proof. destruct a; [congruence|]. now rewrite sapp_cons. Qed.

Lemma goal_callback_shape env idx goal w y w' :
  json_safe goal = true ->
  (let? id0 := get goal "id" in
   let! id := or_stamped env id0 ("goal-doc-" +:+ Str.of_N (N.of_nat idx) +:+ "-") in
   let? name := get goal "name" in
   let? targetAmount := get goal "targetAmount" in
   let? currentAmount := get goal "currentAmount" in
   let? targetDate0 := get goal "targetDate" in
   let! targetDate := or_today env targetDate0 in
   ret (JObj [ ("id", id);
               ("name", or_else name (JStr "Unnamed Goal"));
               ("targetAmount", number_or_zero targetAmount);
               ("currentAmount", number_or_zero currentAmount);
               ("targetDate", targetDate) ])) w = (Ok y, w') ->
  goal_shape y.
Proof.
  intros Hs H. invert_binds H. injection H as <- _.
  unfold goal_shape. cbn [field get obj_lookup String.eqb Ascii.eqb Bool.eqb].
  split; [eapply or_stamped_truthy; [|eassumption]; now apply sapp_nonempty|].
  split; [now apply or_else_truthy|].
  split; apply number_or_zero_number; eapply get_not_nan; eassumption.
Qed.

Lemma account_callback_shape env idx account w y w' :
  json_safe account = true ->
  (let? type := get account "type" in
   let? id0 := get account "id" in
   let! id := or_stamped env id0 ("acc-doc-" +:+ Str.of_N (N.of_nat idx) +:+ "-") in
   let? name := get account "name" in
   let? balance := get account "balance" in
   ret (JObj [ ("id", id);
               ("name", or_else name (JStr "Unnamed Account"));
               ("type",
                if existsb (strict_eq_str type)
                     ["IRA"; "Brokerage"; "401k"; "Roth IRA"; "Trust"]
                then type else JStr "Brokerage");
               ("balance", number_or_zero balance) ])) w = (Ok y, w') ->
  account_shape y.
Proof.
  intros Hs H. invert_binds H. injection H as <- _.
  unfold account_shape. cbn [field get obj_lookup String.eqb Ascii.eqb Bool.eqb].
  split; [eapply or_stamped_truthy; [|eassumption]; now apply sapp_nonempty|].
  split; [now apply or_else_truthy|].
  split; [|apply number_or_zero_number; eapply get_not_nan; eassumption].
  unfold valid_type.
  match goal with |- In (if _ then ?t else _) _ =>
    destruct t as [| |b|n|s|xs|ps|f]; cbn [existsb strict_eq_str orb];
      try (right; left; reflexivity);
    destruct (String.eqb_spec s "IRA") as [-> | _]; [now left|];
    destruct (String.eqb_spec s "Brokerage") as [-> | _]; [right; now left|];
    destruct (String.eqb_spec s "401k") as [-> | _]; [right; right; now left|];
    destruct (String.eqb_spec s "Roth IRA") as [-> | _]; [right; right; right; now left|];
    destruct (String.eqb_spec s "Trust") as [-> | _];
      [right; right; right; right; now left|];
    cbn; right; now left
  end.
Qed.

Lemma safe_elements xs :
  json_safe (JArr xs) = true -> Forall (fun x => json_safe x = true) xs.
Proof.
  cbn [json_safe]. rewrite forallb_forall, Forall_forall. intros H x Hx.
  apply H. now apply list_elem_of_In.
Qed.

Lemma proto_lookup_not_array k xs : proto_lookup k <> JArr xs.
Proof.
  unfold proto_lookup.
  repeat (match goal with |- context [if ?c then _ else _] => destruct c end);
    discriminate.
Qed.

(** A property of a value read from JSON that is an array was read
    from JSON too. *)
Lemma get_safe v k x :
  json_safe v = true -> get v k = Ok x -> forall xs, x = JArr xs -> json_safe x = true.
Proof.
  intros Hs Hg xs ->. destruct v as [| |b|n|s|ys|ps|f]; cbn [get] in Hg;
    try discriminate;
    try (injection Hg as Hg; now destruct (proto_lookup_not_array k xs)).
  - destruct (String.eqb k "length"); [discriminate|].
    destruct (array_index k) as [i|].
    + destruct (String.get (N.to_nat i) s); discriminate.
    + injection Hg as Hg. now destruct (proto_lookup_not_array k xs).
  - destruct (String.eqb k "length"); [discriminate|].
    destruct (array_index k) as [i|].
    + injection Hg as Hg. cbn [json_safe] in Hs.
      destruct (Nat.lt_ge_cases (N.to_nat i) (length ys)) as [Hlt|Hge].
      * rewrite <- Hg. rewrite forallb_forall in Hs. apply Hs, nth_In, Hlt.
      * rewrite nth_overflow in Hg by assumption. discriminate.
    + injection Hg as Hg. now destruct (proto_lookup_not_array k xs).
  - injection Hg as Hg. cbn [json_safe] in Hs. apply andb_true_iff in Hs as [_ Hs].
    destruct (obj_lookup k ps) eqn:E.
    + subst. eapply obj_lookup_safe; eassumption.
    + now destruct (proto_lookup_not_array k xs).
Qed.

Lemma validateGoals_shape env goals w y w' :
  (forall xs, goals = JArr xs -> json_safe goals = true) ->
  validateGoals env goals w = (Ok y, w') ->
  exists gs, y = JArr gs /\ Forall goal_shape gs.
Proof.
  intros Hs. unfold validateGoals.
  destruct goals as [| |b|n|s|xs|ps|f];
    try (intros [= <- _]; exists []; split; [reflexivity | constructor]).
  intros H. apply mbind_Ok_inv in H as (gs & w1 & Hmap & H). injection H as <- _.
  exists gs. split; [reflexivity|].
  refine (mapM_Ok_inv _ (fun x => json_safe x = true) goal_shape xs _
            (safe_elements xs (Hs xs eq_refl)) 0%nat w gs w1 Hmap).
  intros i x w0 y0 w0' Hx Hy. eapply goal_callback_shape; eassumption.
Qed.

Lemma validateAccounts_shape env accounts w y w' :
  (forall xs, accounts = JArr xs -> json_safe accounts = true) ->
  validateAccounts env accounts w = (Ok y, w') ->
  exists accs, y = JArr accs /\ Forall account_shape accs.
Proof.
  intros Hs. unfold validateAccounts.
  destruct accounts as [| |b|n|s|xs|ps|f];
    try (intros [= <- _]; exists []; split; [reflexivity | constructor]).
  intros H. apply mbind_Ok_inv in H as (accs & w1 & Hmap & H). injection H as <- _.
  exists accs. split; [reflexivity|].
  refine (mapM_Ok_inv _ (fun x => json_safe x = true) account_shape xs _
            (safe_elements xs (Hs xs eq_refl)) 0%nat w accs w1 Hmap).
  intros i x w0 y0 w0' Hx Hy. eapply account_callback_shape; eassumption.
Qed.

Lemma client_of_content_shape env content w c w' :
  client_of_content env content w = (Ok c, w') -> client_shape c.
Proof.
  unfold client_of_content. intros H.
  apply mbind_Ok_inv in H as (parsed & w0 & Hparse & H).
  apply lift_Ok_inv in Hparse as [Hparse ->]. apply JSON_parse_safe in Hparse.
  apply mbind_Ok_inv in H as (id0 & w1 & E1 & H). apply lift_Ok_inv in E1 as [E1 ->].
  apply mbind_Ok_inv in H as (id & w1 & Eid & H).
  apply mbind_Ok_inv in H as (name & w2 & E2 & H). apply lift_Ok_inv in E2 as [E2 ->].
  apply mbind_Ok_inv in H as (aum & w2 & E3 & H). apply lift_Ok_inv in E3 as [E3 ->].
  apply mbind_Ok_inv in H as (rp & w2 & E4 & H). apply lift_Ok_inv in E4 as [E4 ->].
  apply mbind_Ok_inv in H as (adv & w2 & E5 & H). apply lift_Ok_inv in E5 as [E5 ->].
  apply mbind_Ok_inv in H as (lc0 & w2 & E6 & H). apply lift_Ok_inv in E6 as [E6 ->].
  apply mbind_Ok_inv in H as (lc & w2 & Elc & H).
  apply mbind_Ok_inv in H as (goals0 & w3 & E7 & H). apply lift_Ok_inv in E7 as [E7 ->].
  apply mbind_Ok_inv in H as (goals & w3 & Eg & H).
  apply mbind_Ok_inv in H as (accounts0 & w4 & E8 & H). apply lift_Ok_inv in E8 as [E8 ->].
  apply mbind_Ok_inv in H as (accounts & w4 & Ea & H).
  injection H as <- _.
  unfold client_shape. cbn [field get obj_lookup String.eqb Ascii.eqb Bool.eqb].
  split; [eapply or_stamped_truthy; [|eassumption]; discriminate|].
  split; [now apply or_else_truthy|].
  split; [apply number_or_zero_number; eapply get_not_nan; eassumption|].
  split; [apply validateRiskProfile_valid|].
  split; [now apply or_else_truthy|].
  split.
  - eapply validateGoals_shape; [|exact Eg]. intros xs Hx. eapply get_safe; eassumption.
  - eapply validateAccounts_shape; [|exact Ea]. intros xs Hx. eapply get_safe; eassumption.
Qed.

(** X17: whatever the provider answers, a client that
    [parseClientFromDocuments] returns is well formed: its id, name and
    advisor are not empty, its AUM is a number and not [NaN], its risk
    profile is one of the four profiles, its goals and accounts are
    lists, every goal with an id, a name and two amounts that are
    numbers, every account with an id, a name, a balance that is a
    number and one of the five account types. *)
Theorem parsed_client_is_well_formed
    (env : Env) (docs : list string) (w : World) (c : JSValue) :
  fst (parseClientFromDocuments env docs w) = Ok c -> client_shape c.
Proof.
  destruct (truthy (VITE_OPENAI_API_KEY env)) eqn:Hkey.
  2:{ unfold parseClientFromDocuments. rewrite Hkey. discriminate. }
  destruct (ingest_world env docs w Hkey) as (w2 & _ & ->). cbn [fst].
  destruct (fetch_outcome _ _ _) as [response|e]; [|discriminate].
  destruct (message_content response) as [content|e]; [|discriminate].
  match goal with
  | |- context [client_of_content env content ?w0] =>
      destruct (client_of_content env content w0) as [[c0|e] w3] eqn:E
  end; cbn [fst]; [|discriminate].
  intros [= <-]. eapply client_of_content_shape. exact E.
Qed.

Lemma parsed_client_is_well_formed_witness :
  exists c g a,
    fst (parseClientFromDocuments
           (Fixtures.provider (answer (JStr (text Fixtures.odd_client))))
           ["statement"] MockClients.initial_world) = Ok c
    /\ client_shape c
    /\ field c "aum" = num "1500000"
    /\ field c "riskProfile" = JStr "Moderate"
    /\ field c "advisor" = JStr "Unassigned"
    /\ field c "goals" = JArr [g]
    /\ field g "name" = JStr "Unnamed Goal"
    /\ field g "targetAmount" = num "0"
    /\ field c "accounts" = JArr [a]
    /\ field a "type" = JStr "Brokerage".
Proof.
  destruct (fst (parseClientFromDocuments
                   (Fixtures.provider (answer (JStr (text Fixtures.odd_client))))
                   ["statement"] MockClients.initial_world)) as [c|e] eqn:E.
  2:{ vm_compute in E. discriminate. }
  pose proof (parsed_client_is_well_formed _ _ _ _ E) as Hshape.
  vm_compute in E. injection E as E.
  eexists c, _, _. split; [reflexivity|]. split; [exact Hshape|].
  rewrite <- E. repeat split; vm_compute; reflexivity.
Defined.

End IngestFacts.

(* ================================================================== *)
(** * The mock CRM on the ids the application has *)
(* ================================================================== *)

Module CrmAnswerFacts.
Import Str JS Runtime MockCrm.
Import StrFacts JSONFacts ObjFacts AssignFacts.
Import AdapterNotions StoreNotions.
Import MockCrmFacts ClientStoreFacts.

Lemma field_assign_copy k ps :
  key_order_ok (List.map fst ps) = true ->
  obj_lookup k (obj_assign [] ps) = obj_lookup k ps.
Proof. intros H. now rewrite (obj_assign_ordered ps [] H). Qed.

(** X18: for the two built-in clients [generateCRMUpdate] returns the
    canned result of the client: every member but [auditLog] as it is
    in the table, and the [auditLog] of the table with the time of the
    call as its [timestamp].  The meeting notes are not read. *)
Theorem canned_update_keeps_all_but_timestamp
    (env : Env) (l1 l2 clientId notes : string) (w : World) :
  clientId = "client-001"%string \/ clientId = "client-002"%string ->
  exists canned r,
    get (mockCrmResults l1 l2) clientId = Ok canned
    /\ generateCRMUpdate env l1 l2 clientId notes w = (Ok r, next_tick w)
    /\ (forall k, k <> "auditLog"%string -> field r k = field canned k)
    /\ (forall k, k <> "timestamp"%string ->
          field (field r "auditLog") k = field (field canned "auditLog") k)
    /\ field (field r "auditLog") "timestamp"
       = JStr (toISOString env (Date_now env (tick w)))
    /\ forall notes', generateCRMUpdate env l1 l2 clientId notes' w
                      = generateCRMUpdate env l1 l2 clientId notes w.
Proof.
  intros Hc.
  assert (exists canned oldLog,
            get (mockCrmResults l1 l2) clientId = Ok (JObj canned)
            /\ obj_lookup "auditLog" canned = Some (JObj oldLog)
            /\ key_order_ok (List.map fst canned) = true
            /\ key_order_ok (List.map fst oldLog) = true)
    as (canned & oldLog & Hget & Hlog & Hk1 & Hk2).
  { destruct Hc as [-> | ->]; eexists; eexists; (split; [reflexivity|]);
      (split; [reflexivity|]); split; reflexivity. }
  exists (JObj canned). eexists. split; [exact Hget|].
  split; [exact (generateCRMUpdate_known env l1 l2 clientId notes w canned oldLog Hc Hget Hlog)|].
  split; [|split; [|split]].
  - intros k Hk. unfold field. cbn [get]. rewrite obj_lookup_set.
    apply not_eq_sym, String.eqb_neq in Hk. rewrite Hk.
    now rewrite field_assign_copy.
  - intros k Hk. unfold field at 2 4. cbn [get]. rewrite obj_lookup_set, String.eqb_refl, Hlog.
    unfold field. cbn [get]. rewrite obj_lookup_set.
    apply not_eq_sym, String.eqb_neq in Hk. rewrite Hk.
    now rewrite field_assign_copy.
  - unfold field at 2. cbn [get]. rewrite obj_lookup_set, String.eqb_refl.
    unfold field. cbn [get]. now rewrite obj_lookup_set, String.eqb_refl.
  - intros notes'. reflexivity.
Qed.

Lemma canned_update_keeps_all_but_timestamp_witness :
  exists canned r,
    get (mockCrmResults "2024-11-30T09:00:00.000Z" "2024-11-30T09:00:00.000Z")
        "client-001" = Ok canned
    /\ fst (generateCRMUpdate Browser.env "2024-11-30T09:00:00.000Z"
              "2024-11-30T09:00:00.000Z" "client-001" "Met Margaret."
              MockClients.initial_world) = Ok r
    /\ field r "tasks" = field canned "tasks"
    /\ field (field r "auditLog") "summary" = field (field canned "auditLog") "summary"
    /\ field (field canned "auditLog") "timestamp" = JStr "2024-11-30T09:00:00.000Z"
    /\ field (field r "auditLog") "timestamp" = JStr "2024-12-01T10:00:00.000Z".
Proof.
  destruct (canned_update_keeps_all_but_timestamp Browser.env "2024-11-30T09:00:00.000Z"
              "2024-11-30T09:00:00.000Z" "client-001" "Met Margaret."
              MockClients.initial_world (or_introl eq_refl))
    as (canned & r & Hget & Hrun & Hk & Hlog & Hts & _).
  exists canned, r. split; [exact Hget|]. split; [now rewrite Hrun|].
  split; [apply Hk; discriminate|]. split; [apply Hlog; discriminate|].
  split; [|rewrite Hts; vm_compute; reflexivity].
  vm_compute in Hget. injection Hget as <-. vm_compute. reflexivity.
Defined.

Lemma starts_with_cons a p s :
  starts_with (String a p) s = true -> exists r, s = String a r /\ starts_with p r = true.
Proof.
  destruct s as [|b r]; [discriminate|]. cbn [starts_with].
  intros H. apply andb_true_iff in H as [->%Ascii.eqb_eq H]. now exists r.
Qed.

Lemma custom_id_not_inherited id :
  ClientStorage.isCustomClient id = true ->
  id <> "client-001"%string /\ id <> "client-002"%string /\ proto_lookup id = JUndefined.
Proof.
  unfold ClientStorage.isCustomClient. intros H.
  do 8 (apply starts_with_cons in H as (? & -> & H)).
  split; [discriminate|]. split; [discriminate|]. reflexivity.
Qed.

(** X19: for the id of a custom client (any id with the custom prefix)
    [generateCRMUpdate] returns the empty update: no field updates, no
    tasks, the summary [No updates extracted from meeting notes.], no
    tags and the time of the call. *)
Theorem custom_client_gets_empty_update
    (env : Env) (l1 l2 clientId notes : string) (w : World) :
  ClientStorage.isCustomClient clientId = true ->
  generateCRMUpdate env l1 l2 clientId notes w
  = (Ok (empty_update (toISOString env (Date_now env (tick w)))), next_tick w).
Proof.
  intros H. destruct (custom_id_not_inherited clientId H) as (H1 & H2 & H3).
  now apply generateCRMUpdate_unknown.
Qed.

Lemma custom_client_gets_empty_update_witness :
  fst (generateCRMUpdate Browser.env "2024-11-30T09:00:00.000Z" "2024-11-30T09:00:00.000Z"
         Scenario.custom_id "Met Ada." MockClients.initial_world)
  = Ok (empty_update "2024-12-01T10:00:00.000Z").
Proof.
  rewrite (custom_client_gets_empty_update Browser.env "2024-11-30T09:00:00.000Z"
             "2024-11-30T09:00:00.000Z" Scenario.custom_id "Met Ada."
             MockClients.initial_world eq_refl).
  vm_compute. reflexivity.
Defined.

End CrmAnswerFacts.

(* ================================================================== *)
(** * Analytics events *)
(* ================================================================== *)

Module AnalyticsFacts.
Import Str JS Runtime Analytics.
Import StrFacts JSONFacts ObjFacts JsonifyFacts ParseFacts AssignFacts.
Import AdapterNotions InteractionNotions StoreNotions AnalyticsNotions.
Import InteractionFacts FormFacts StoreLawFacts.

Lemma stored_text_insert text tab c r :
  text = String c r ->
  stored_text {| world := world tab;
                 sessionStorage := <[EVENTS_KEY := text]> (sessionStorage tab) |} = text.
Proof. intros ->. unfold stored_text. cbn [sessionStorage]. now rewrite lookup_insert_eq. Qed.

Lemma or_else_wf a b : js_wf a = true -> js_wf b = true -> js_wf (or_else a b) = true.
Proof. unfold or_else. now destruct (truthy a). Qed.

Lemma payload_wf env event properties w :
  js_wf properties = true -> js_wf (payload_of env event properties w) = true.
Proof.
  intros H. unfold payload_of. cbn [js_wf List.map fst snd forallb].
  rewrite (or_else_wf properties (JObj []) H eq_refl). reflexivity.
Qed.

Lemma capped_test {A} (xs : list A) (x : A) :
  (100 <? length (xs ++ [x]))%nat = (100 <=? length xs)%nat.
Proof.
  rewrite length_app. cbn [length].
  destruct (Nat.leb_spec 100 (length xs)); [apply Nat.ltb_lt | apply Nat.ltb_ge]; lia.
Qed.

Lemma map_tl {A B} (f : A -> B) l : List.map f (tl l) = tl (List.map f l).
Proof. now destruct l. Qed.

Lemma forallb_tl {A} (P : A -> bool) l : forallb P l = true -> forallb P (tl l) = true.
Proof. destruct l; [easy|]. cbn. intros H. now apply andb_true_iff in H as [_ ?]. Qed.

Lemma track_unfold env event properties tab :
  track env event properties tab
  = match (let* events := JSON_parse (stored_text tab) in
           let* kept := push_capped events (payload_of env event properties (world tab)) in
           Ok (ToString (JSON_stringify (JArr kept)))) with
    | Ok text =>
        {| world := next_tick (world tab);
           sessionStorage := <[EVENTS_KEY := text]> (sessionStorage tab) |}
    | Throw _ =>
        {| world := next_tick (world tab); sessionStorage := sessionStorage tab |}
    end.
Proof. reflexivity. Qed.

Lemma track_spec env event properties tab xs :
  JSON_parse (stored_text tab) = Ok (JArr xs) ->
  js_wf properties = true ->
  exists kept,
    jsonify (payload_of env event properties (world tab)) = Some kept
    /\ field kept "event" = JStr event
    /\ field kept "timestamp"
       = JStr (toISOString env (Date_now env (tick (world tab))))
    /\ getTrackedEvents (track env event properties tab) = JArr (capped xs kept)
    /\ world (track env event properties tab) = next_tick (world tab).
Proof.
  intros Hparse Hprops.
  pose proof (JSON_parse_safe _ _ Hparse) as Hsafe. cbn [json_safe] in Hsafe.
  set (payload := payload_of env event properties (world tab)).
  pose proof (payload_wf env event properties (world tab) Hprops) as Hwf. fold payload in Hwf.
  destruct (jsonify payload) as [kept|] eqn:Hj; [|discriminate].
  exists kept. split; [reflexivity|].
  assert (field kept "event" = JStr event
          /\ field kept "timestamp"
             = JStr (toISOString env (Date_now env (tick (world tab))))) as [He Ht].
  { subst payload. unfold payload_of in Hj.
    split; [eapply (field_jsonify_str "event") | eapply (field_jsonify_str "timestamp")];
      try exact Hj; reflexivity. }
  split; [exact He|]. split; [exact Ht|].
  rewrite track_unfold. fold payload. rewrite Hparse. cbn [bind].
  unfold push_capped. cbn [as_array bind]. rewrite capped_test.
  set (ys := if (100 <=? length xs)%nat then tl (xs ++ [payload]) else xs ++ [payload]).
  assert (js_wf (JArr ys) = true) as Hys.
  { assert (forallb js_wf (xs ++ [payload]) = true) as H.
    { rewrite forallb_app. cbn [forallb]. rewrite Hwf, !andb_true_r.
      rewrite forallb_forall in Hsafe |- *. intros x Hx. now apply json_safe_wf, Hsafe. }
    subst ys. cbn [js_wf]. destruct (100 <=? length xs)%nat; [now apply forallb_tl | exact H]. }
  assert (jsonify (JArr ys) = Some (JArr (capped xs kept))) as Hjs.
  { subst ys. unfold capped. cbn [jsonify].
    destruct (100 <=? length xs)%nat; rewrite ?map_tl, List.map_app, map_jsonify_safe by assumption;
      cbn [List.map]; now rewrite Hj. }
  destruct (JSON_parse_stringify _ _ Hys Hjs) as [Hs Hp].
  rewrite Hs. cbn [ToString world]. split; [|reflexivity].
  unfold getTrackedEvents.
  destruct (text_array_nonempty (capped xs kept)) as [t Hhead].
  unfold stored_text. cbn [sessionStorage]. rewrite lookup_insert_eq, Hhead.
  rewrite <- Hhead. now rewrite Hp.
Qed.

Lemma capped_length xs x :
  length (capped xs x) = if (100 <=? length xs)%nat then length xs else S (length xs).
Proof.
  unfold capped. destruct (100 <=? length xs)%nat.
  - destruct xs; cbn [app tl length]; [reflexivity|]. rewrite length_app. cbn. lia.
  - rewrite length_app. cbn. lia.
Qed.

Lemma capped_last xs x : last (capped xs x) = Some x.
Proof.
  unfold capped. destruct (100 <=? length xs)%nat eqn:E.
  - destruct xs as [|y xs]; [cbn in E; discriminate|]. cbn [app tl].
    destruct xs as [|z xs]; [cbn in E; discriminate|]. apply last_snoc.
  - apply last_snoc.
Qed.

(** X20: when the session storage holds a list of events (or nothing),
    [track] appends the event, stamped with the time of the call, as
    [JSON.stringify] keeps it; when that makes more than 100 events the
    oldest one is dropped.  The new event is the last of the list, and a
    list of at most 100 events stays one. *)
Theorem track_keeps_the_last_100
    (env : Env) (event : string) (properties : JSValue) (tab : Tab)
    (xs : list JSValue) :
  JSON_parse (stored_text tab) = Ok (JArr xs) ->
  js_wf properties = true ->
  exists kept ys,
    getTrackedEvents (track env event properties tab) = JArr ys
    /\ ys = capped xs kept
    /\ last ys = Some kept
    /\ field kept "event" = JStr event
    /\ field kept "timestamp"
       = JStr (toISOString env (Date_now env (tick (world tab))))
    /\ ((length xs <= 100)%nat -> (length ys <= 100)%nat)
    /\ ((length xs < 100)%nat -> ys = xs ++ [kept]).
Proof.
  intros Hparse Hprops.
  destruct (track_spec env event properties tab xs Hparse Hprops)
    as (kept & _ & He & Ht & Hlist & _).
  exists kept, (capped xs kept). repeat split; try assumption.
  - apply capped_last.
  - rewrite capped_length. destruct (100 <=? length xs)%nat eqn:E; [lia|].
    apply Nat.leb_gt in E. lia.
  - intros Hlt. unfold capped. apply Nat.leb_gt in Hlt. now rewrite Hlt.
Qed.

Lemma track_keeps_the_last_100_witness :
  exists kept ys,
    getTrackedEvents (track Browser.env "client_added"
                        (JObj [("clientId", JStr Scenario.custom_id)]) full_tab)
    = JArr ys
    /\ length ys = 100%nat
    /\ last ys = Some kept
    /\ field kept "event" = JStr "client_added"
    /\ List.map (fun e => field e "event") (firstn 2 ys)
       = [JStr "client_selected"; JStr "client_selected"].
Proof.
  assert (JSON_parse (stored_text full_tab) = Ok (JArr hundred)) as E.
  { unfold full_tab, tab_with, stored_text. cbn [sessionStorage].
    rewrite lookup_singleton_eq.
    destruct (text_array_nonempty hundred) as [t Ht]. rewrite Ht, <- Ht.
    apply JSON_parse_text. vm_compute. reflexivity. }
  destruct (track_keeps_the_last_100 Browser.env "client_added"
              (JObj [("clientId", JStr Scenario.custom_id)]) full_tab hundred E eq_refl)
    as (kept & ys & Hget & Hys & Hlast & He & _).
  exists kept, ys. split; [exact Hget|]. subst ys.
  split; [reflexivity|]. split; [exact Hlast|]. split; [exact He|]. reflexivity.
Defined.

(** X21: when the stored text is not the JSON of a list (it is not JSON
    at all, or it is a number, a text, an object), [track] records
    nothing and leaves the text as it is: it does not throw, and it does
    not repair the storage either. *)
Theorem track_skips_what_is_not_a_list
    (env : Env) (event : string) (properties : JSValue) (tab : Tab) :
  (forall xs, JSON_parse (stored_text tab) <> Ok (JArr xs)) ->
  sessionStorage (track env event properties tab) = sessionStorage tab
  /\ getTrackedEvents (track env event properties tab) = getTrackedEvents tab
  /\ ((exists e, JSON_parse (stored_text tab) = Throw e) ->
        getTrackedEvents tab = JArr []).
Proof.
  intros Hno.
  assert (sessionStorage (track env event properties tab) = sessionStorage tab) as Hs.
  { rewrite track_unfold. destruct (JSON_parse (stored_text tab)) as [v|e]; [|reflexivity].
    cbn [bind]. unfold push_capped.
    destruct v; try reflexivity. now destruct (Hno xs). }
  split; [exact Hs|]. split.
  - unfold getTrackedEvents, stored_text. now rewrite Hs.
  - intros [e He]. unfold getTrackedEvents. now rewrite He.
Qed.

Lemma track_skips_what_is_not_a_list_witness :
  sessionStorage (track Browser.env "client_added" JUndefined (tab_with "{}"))
  = sessionStorage (tab_with "{}")
  /\ getTrackedEvents (track Browser.env "client_added" JUndefined (tab_with "{}"))
     = JObj [].
Proof.
  destruct (track_skips_what_is_not_a_list Browser.env "client_added" JUndefined
              (tab_with "{}")) as (Hs & Hg & _).
  - intros xs. vm_compute. discriminate.
  - split; [exact Hs|]. rewrite Hg. vm_compute. reflexivity.
Defined.

(** X22: after [clearTrackedEvents] no event is left, whatever the
    session storage held, also a text that was not a list; the next
    event tracked is recorded as the only one.  Nothing else of the
    tab changes. *)
Theorem clear_then_track
    (env : Env) (event : string) (properties : JSValue) (tab : Tab) :
  getTrackedEvents (clearTrackedEvents tab) = JArr []
  /\ world (clearTrackedEvents tab) = world tab
  /\ (forall k, k <> EVENTS_KEY ->
        sessionStorage (clearTrackedEvents tab) !! k = sessionStorage tab !! k)
  /\ (js_wf properties = true ->
      exists kept,
        getTrackedEvents (track env event properties (clearTrackedEvents tab))
        = JArr [kept]
        /\ field kept "event" = JStr event).
Proof.
  assert (stored_text (clearTrackedEvents tab) = "[]"%string) as Ht.
  { unfold stored_text, clearTrackedEvents. cbn [sessionStorage].
    now rewrite lookup_delete_eq. }
  split; [unfold getTrackedEvents; now rewrite Ht|]. split; [reflexivity|].
  split; [intros k Hk; cbn [clearTrackedEvents sessionStorage];
          now rewrite lookup_delete_ne|].
  intros Hp.
  destruct (track_spec env event properties (clearTrackedEvents tab) [])
    as (kept & _ & He & _ & Hlist & _); [now rewrite Ht | exact Hp|].
  exists kept. split; [exact Hlist | exact He].
Qed.

End AnalyticsFacts.
